(* ===== verification/_CoqProject ===== *)
-Q . S2P
Prelude.v
Bytes.v
Params.v
CString.v
Spinlock.v
SpinlockSmp.v
State.v
Kalloc.v
Vm.v
PageTable.v
VmProofs.v
UserSpace.v
UvmProofs.v
FreeWalk.v
UserCopy.v
VmTheorems.v
Sched.v
Console.v
Bio.v
Log.v
Fs.v
File.v
Proc.v
Exec.v
Sysfile.v
Syscall.v
Virtio.v
Trap.v
Boot.v
SchedProofs.v
SleepWake.v
ProcProofs.v
ProcTable.v
ForkProofs.v
TrapProofs.v
Lru.v
BioProofs.v
VirtioProofs.v
PipeProofs.v
FsPure.v
BlockCache.v
CacheSpec.v
LogProofs.v
LogSpace.v
IoCopy.v
FsBlocks.v
FileMap.v
FsFiles.v
FsInode.v
FsDir.v
UserLib.v
Grep.v
UserProgs.v
Grind.v
Umalloc.v
Shell.v
ShellTotal.v
ShellParse.v
Mkfs.v
MkfsProofs.v
