(* ===== verification/Prelude.v ===== *)
(** * A verification library for the xv6 kernel of this repository

    The repository is xv6 for RISC-V (src/kernel, src/user, src/mkfs) with
    additions of its own: [wait2] with the processor time of the child,
    [getprocs], priorities, and programs that use them.  This library
    translates its C code into definitions that compute and proves what makes
    the parts correct, each from the promises of the parts below it.

    ** The program and the files

    From the machine up.  The left column names the files of the library, the
    right one the code; definitions keep the names of the C functions.

<<
    Prelude, Bytes       the monad, its logic, integers, bytes and slices
    Params               kernel/param.h memlayout.h riscv.h fs.h fcntl.h
    CString              kernel/string.c
    Spinlock             kernel/spinlock.c
      SpinlockSmp
    State                kernel/proc.h buf.h file.h sleeplock.h; the state
    Kalloc               kernel/kalloc.c
    Vm                   kernel/vm.c
      PageTable VmProofs UserSpace UvmProofs FreeWalk UserCopy VmTheorems
    Sched                kernel/proc.c (scheduler, sleep, wakeup, kill),
      SchedProofs        kernel/sleeplock.c
      SleepWake
    Console              kernel/console.c uart.c printf.c
    Bio                  kernel/bio.c
      Lru BioProofs BlockCache CacheSpec
    Log                  kernel/log.c
      LogProofs LogSpace
    Fs                   kernel/fs.c
      FsPure IoCopy FsBlocks FileMap FsFiles FsInode FsDir
    File                 kernel/file.c pipe.c
      PipeProofs
    Proc                 kernel/proc.c (slots, fork, exit, wait, wait2)
      ProcProofs ProcTable ForkProofs
    Exec                 kernel/exec.c elf.h
    Sysfile Syscall      kernel/sysfile.c sysproc.c syscall.c
    Virtio               kernel/virtio_disk.c virtio.h
      VirtioProofs
    Trap                 kernel/trap.c plic.c
      TrapProofs
    Boot                 kernel/start.c main.c
    UserLib              user/ulib.c printf.c user.h
    Grep                 user/grep.c
    UserProgs            the other small programs of user/
    Grind                user/grind.c
    Umalloc              user/umalloc.c
    Shell                user/sh.c
      ShellTotal ShellParse
    Mkfs                 mkfs/mkfs.c
      MkfsProofs
>>

    A file that models code holds the data as records and inductive types and
    one definition per function; the files indented under it hold its proofs.
    Kalloc, Spinlock, Grep, Grind and Umalloc hold both.

    ** How code is represented

    A function is a computation of the monad [M W A] of this file over a state
    [W]: it returns, panics, blocks (it waits for something that never comes)
    or diverges.  The kernel's state is the record [State.kernel], one field
    per global variable; memory is a map from physical addresses to bytes, and
    page tables, the free list, trapframes and user memory live in it.  The
    structs whose address is never taken apart are records in tables.  Machine
    integers are [Z] with the wrap-around of unsigned arithmetic and of
    conversions written out; reference counts are signed and have none in C.  A
    [while] loop is [loop], with an iteration bound of 2^64; a loop over an array is [for_all]
    or [for_each].  Theorems say that the code returns, with [wp], so the bound
    is never what makes them true; [wpc] also allows the panic that its second
    condition describes.

    One hart runs at a time between an [acquire] and its [release].  What other
    harts and processes do while the running one sleeps or yields is a
    parameter, the environment of [Sched.swtch]; the theorems that depend on it
    state what they need, and the others hold for every environment.  Where the
    interleaving itself is the point, the code is a value of the type [code] of
    this file, a sequence of atomic actions: [run_code] runs it without
    interruption, which is the operation the rest of the kernel calls, and the
    step relations of SpinlockSmp (any number of harts, access by access) and
    SleepWake ([sleep] against [wakeup], with the rest of the system in between)
    interleave the same definitions.  Addresses chosen by the linker are
    the class [Params.Linker].  The disk under the cache is the class [Bio.Disk]
    with the law each client needs ([MovesBlocks]: a request moves the block;
    [PowerDisk]: the power may fail at it; [QuietDisk]: it leaves the log
    alone).  The virtio device under the
    driver of Virtio is the class [VirtioProofs.Device], with the behaviour the
    virtio specification gives it as the laws [DeviceOk].  User programs run
    over the class [UserLib.Sys] of system calls.

    ** What is proved

    - Locks: [acquire], [release] and [holding] on one hart implement the
      abstract lock the rest of the library uses; interleaved on any number of
      harts they exclude each other, keep interrupts off and lose no lock.
    - Memory: [kinit] frees every page once and the allocator implements a
      pool of pages.  [mappages], [uvmalloc] and [uvmcopy] do what they say on
      the address space a page table stands for, or undo it, and conserve the
      pages.  [copyin], [copyout] and [copyinstr] equal byte-by-byte copies.
    - Processes: the process table is well formed and stays so under
      [allocproc] and [freeproc]; no page is lost or shared.  [fork] gives the
      child a copy of the parent, or gives everything back.  [sleep] returns
      however its actions interleave with those of a [wakeup], the scheduler's round runs every runnable process, [wakeup] and
      [kill] change what they should and nothing else.
    - Traps: a kernel trap is transparent to the interrupted code,
      [usertrapret] prepares the way to user mode; a clock tick panics when a
      process sleeps on it, and [usertrap] yields after every
      system call and every interrupt that the process survives.
    - Disk: the driver and its interrupt handler together move a block; the
      buffer cache implements a store of blocks for every sequence of
      operations that the store allows.
    - Log: [commit] and recovery are atomic at every power failure, recovery
      interrupted again included; [log_write] absorbs; the space reserved by
      [begin_op] suffices for a log of more than [LOGSIZE] blocks, and does not
      for the one [mkfs] makes.
    - Files: [balloc], [bfree], [readi] and [writei] on the bytes of a file,
      inside a transaction; a directory is a map from names to inode numbers;
      the inode table has one entry per inode; [ilock] reads back the inode
      that [iupdate] stored; paths decode.
    - Pipes are bounded queues of bytes: a writer waits while the pipe is full
      and a reader while it is empty, and bytes come out in order.
    - User programs: [malloc] and [free] keep blocks apart; the matcher of grep
      decides the language of its pattern and grep filters lines by it; the
      shell's parser terminates, and inverts the printing of its grammar; the
      random numbers of grind are those of Park and Miller, with full period.
    - [mkfs] makes an image that satisfies what the theorems on the file system
      assume, or reports why it cannot.

    ** Bounds and fuel

    [loop] has 2^64 iterations, more than any counter of the code can take
    before it wraps.  [freewalk] recurses on the level, three for Sv39.  The
    shell's parser has fuel 4 n + 4 for a line of n bytes, which [ShellTotal]
    shows is never used up.  The digits of a number are printed with fuel for
    the longest number of the width.  Searches through tables are structural.

    ** Not modelled

    - Assembly: entry.S, kernelvec.S, trampoline.S, swtch.S, initcode.S, and
      the register accessors of riscv.h, which are inline assembly.  They save
      and restore registers; the state they move is the registers of
      [Trap.hart], the context of a process, and its trapframe.
    - usertests.c: a driver of tests that call the kernel.
    - matmul.c: floating-point arithmetic to spend time.
    - ramdisk.c: not built, and written for fields that [struct buf] lacks.
    - defs.h, date.h, kernel.ld, Makefile: prototypes and build rules.
    - [mycpu()->intena] outside Spinlock: the kernel state has the list of held
      locks, so its save and restore in [sched] has no counterpart.  Nor has
      what [scheduler] does before its loop over the table.
    - A [malloc] that fails in the shell, whose code does not check for it.
    - Concurrency inside the kernel beyond the above: races on data that the
      code reads without its lock have no counterpart. *)

From Stdlib Require Export ZArith Lia.
From stdpp Require Export base gmap sets strings numbers list.

#[global] Open Scope Z_scope.

#[global] Arguments Z.testbit : simpl never.
#[global] Arguments Z.land : simpl never.
#[global] Arguments Z.lor : simpl never.
#[global] Arguments Z.lnot : simpl never.
#[global] Arguments Z.shiftl : simpl never.
#[global] Arguments Z.shiftr : simpl never.
#[global] Arguments Z.pow : simpl never.

(** ** Machine integers

    A C integer of width [w] is a [Z]; every operation that can leave the
    range writes its wrap-around out with one of these. *)

Definition u8 (z : Z) : Z := z mod 2 ^ 8.
Definition u16 (z : Z) : Z := z mod 2 ^ 16.
Definition u32 (z : Z) : Z := z mod 2 ^ 32.
Definition u64 (z : Z) : Z := z mod 2 ^ 64.

Definition i16 (z : Z) : Z := (z + 2 ^ 15) mod 2 ^ 16 - 2 ^ 15.
Definition i32 (z : Z) : Z := (z + 2 ^ 31) mod 2 ^ 32 - 2 ^ 31.
Definition i64 (z : Z) : Z := (z + 2 ^ 63) mod 2 ^ 64 - 2 ^ 63.

(** A C condition is an integer; a C comparison is 0 or 1. *)
Definition b2z (b : bool) : Z := if b then 1 else 0.
Definition z2b (z : Z) : bool := negb (z =? 0).

(** ** Outcomes and the state-and-failure monad

    A piece of C code over a state [W] either returns, calls [panic], waits
    for something that the schedule it was given never brings, or exhausts
    the iteration bound of [loop] (which is [2^64]). *)

Inductive outcome (W A : Type) : Type :=
| Ok (a : A) (w : W)
| Panic (msg : string) (w : W)
| Blocked (w : W)
| Diverge (w : W).
Arguments Ok {W A} a w.
Arguments Panic {W A} msg w.
Arguments Blocked {W A} w.
Arguments Diverge {W A} w.

Definition M (W A : Type) : Type := W -> outcome W A.

Definition ret {W A} (a : A) : M W A := fun w => Ok a w.

Definition bind {W A B} (m : M W A) (f : A -> M W B) : M W B :=
  fun w =>
    match m w with
    | Ok a w' => f a w'
    | Panic s w' => Panic s w'
    | Blocked w' => Blocked w'
    | Diverge w' => Diverge w'
    end.

Definition panic {W A} (s : string) : M W A := fun w => Panic s w.
Definition blocked {W A} : M W A := fun w => Blocked w.
Definition diverge {W A} : M W A := fun w => Diverge w.
Definition gets {W A} (f : W -> A) : M W A := fun w => Ok (f w) w.
Definition modify {W} (f : W -> W) : M W unit := fun w => Ok tt (f w).
Definition when {W} (b : bool) (m : M W unit) : M W unit := if b then m else ret tt.

Declare Scope kernel_scope.
Delimit Scope kernel_scope with K.
Notation "x <- c1 ;; c2" := (bind c1 (fun x => c2))
  (at level 100, c1 at next level, right associativity) : kernel_scope.
Notation "c1 ;; c2" := (bind c1 (fun _ => c2))
  (at level 100, c2 at level 200, right associativity) : kernel_scope.

Notation "'let*' p := c1 'in' c2" := (bind c1 (fun x => match x with p => c2 end))
  (at level 10, p strict pattern, c1 at level 100, c2 at level 200) : kernel_scope.

#[global] Open Scope kernel_scope.

(** [iter n] runs the body up to [2^n] times: binary fuel, so that the bound
    [2^64] of [loop] costs nothing to evaluate. *)
Fixpoint iter {W S B} (n : nat) (body : S -> M W (S + B)) (s : S) : M W (S + B) :=
  match n with
  | O => body s
  | Datatypes.S n' =>
      r <- iter n' body s ;;
      match r with
      | inl s' => iter n' body s'
      | inr b => ret (inr b)
      end
  end.

(** A C [while]/[for(;;)] loop: [inl] goes round again, [inr] leaves. *)
Definition loop {W S B} (body : S -> M W (S + B)) (s : S) : M W B :=
  r <- iter 64 body s ;;
  match r with
  | inl _ => diverge
  | inr b => ret b
  end.

(** A C [for] loop over the elements of a table; [Some] is the early exit. *)
Fixpoint for_each {W A B} (l : list A) (body : A -> M W (option B)) : M W (option B) :=
  match l with
  | [] => ret None
  | x :: l' =>
      r <- body x ;;
      match r with
      | Some b => ret (Some b)
      | None => for_each l' body
      end
  end.

(** The same with no early exit. *)
Fixpoint for_all {W A} (l : list A) (body : A -> M W unit) : M W unit :=
  match l with
  | [] => ret tt
  | x :: l' => body x ;; for_all l' body
  end.

(** ** Code cut into atomic actions

    Code that harts interleave: a tree of actions of the monad, each done at
    one point in time.  Run without interruption it is a computation of the
    monad; [advance] runs its next action only. *)

Inductive code (W A : Type) : Type :=
| Ret (a : A)
| Act {B : Type} (m : M W B) (k : B -> code W A).
Arguments Ret {W A} a.
Arguments Act {W A B} m k.

Definition atom {W A} (m : M W A) : code W A := Act m Ret.

Fixpoint code_bind {W A B} (c : code W A) (f : A -> code W B) : code W B :=
  match c with
  | Ret a => f a
  | Act m k => Act m (fun x => code_bind (k x) f)
  end.

Notation "x <~ c1 ;; c2" := (code_bind c1 (fun x => c2))
  (at level 100, c1 at next level, right associativity) : kernel_scope.

Fixpoint run_code {W A} (c : code W A) : M W A :=
  match c with
  | Ret a => ret a
  | Act m k => x <- m ;; run_code (k x)
  end.

Fixpoint code_all {W A} (l : list A) (body : A -> code W unit) : code W unit :=
  match l with
  | [] => Ret tt
  | x :: l' => _ <~ body x ;; code_all l' body
  end.

Definition advance {W A} (c : code W A) : M W (code W A) :=
  match c with
  | Ret a => ret (Ret a)
  | Act m k => x <- m ;; ret (k x)
  end.

Section CodeFacts.
Context {W : Type}.

Lemma bind_ext {A B} (m : M W A) (f g : A -> M W B) w :
  (forall a w', f a w' = g a w') -> bind m f w = bind m g w.
Proof. intros H. unfold bind. by destruct (m w). Qed.

Lemma bind_ext_l {A B} (m m' : M W A) (f : A -> M W B) w :
  (forall w', m w' = m' w') -> bind m f w = bind m' f w.
Proof. intros H. unfold bind. by rewrite H. Qed.

Lemma run_atom {A} (m : M W A) w : run_code (atom m) w = m w.
Proof. unfold atom. simpl. unfold bind, ret. by destruct (m w). Qed.

Lemma run_code_bind {A B} (c : code W A) (f : A -> code W B) w :
  run_code (code_bind c f) w = (x <- run_code c ;; run_code (f x)) w.
Proof.
  revert w. induction c as [a|X m k IH]; intros w; [done|]. simpl. unfold bind.
  destruct (m w); [|done..]. apply IH.
Qed.

(** Sequences of actions, one after the other. *)
Lemma run_atom_bind {A B} (m : M W A) (f : A -> code W B) w :
  run_code (code_bind (atom m) f) w = (x <- m ;; run_code (f x)) w.
Proof. done. Qed.

Lemma run_code_all {A} (l : list A) (body : A -> code W unit) w :
  run_code (code_all l body) w = for_all l (fun x => run_code (body x)) w.
Proof.
  revert w. induction l as [|x l IH]; intros w; [done|]. simpl. rewrite run_code_bind.
  unfold bind. destruct (run_code (body x) w); [|done..]. apply IH.
Qed.
End CodeFacts.

(** ** Program logic

    [wp m Q w]: from [w], [m] returns (no panic, no blocking, no fuel
    exhaustion) with [Q].  [wlp m Q w]: if [m] returns then [Q]. *)

Definition wp {W A} (m : M W A) (Q : A -> W -> Prop) (w : W) : Prop :=
  match m w with Ok a w' => Q a w' | _ => False end.

Definition wlp {W A} (m : M W A) (Q : A -> W -> Prop) (w : W) : Prop :=
  match m w with Ok a w' => Q a w' | _ => True end.

Definition preserves {W A} (I : W -> Prop) (m : M W A) : Prop :=
  forall w, I w -> wlp m (fun _ w' => I w') w.

Section Logic.
Context {W : Type}.

Lemma wp_ret {A} (a : A) Q (w : W) : Q a w -> wp (ret a) Q w.
Proof. done. Qed.

Lemma wp_bind {A B} (m : M W A) (f : A -> M W B) Q w :
  wp m (fun a w' => wp (f a) Q w') w -> wp (bind m f) Q w.
Proof. unfold wp, bind. by destruct (m w). Qed.

Lemma wp_bind_inv {A B} (m : M W A) (f : A -> M W B) Q w :
  wp (bind m f) Q w -> wp m (fun a w' => wp (f a) Q w') w.
Proof. unfold wp, bind. by destruct (m w). Qed.

Lemma wp_mono {A} (m : M W A) (P Q : A -> W -> Prop) w :
  wp m P w -> (forall a w', P a w' -> Q a w') -> wp m Q w.
Proof. unfold wp. destruct (m w); eauto. Qed.

Lemma wp_Ok {A} (m : M W A) Q w :
  wp m Q w <-> exists a w', m w = Ok a w' /\ Q a w'.
Proof.
  unfold wp. split.
  - destruct (m w); try done. eauto.
  - by intros (a & w' & -> & ?).
Qed.

Lemma wp_eq {A} (m : M W A) Q w a w' : m w = Ok a w' -> Q a w' -> wp m Q w.
Proof. unfold wp. by intros ->. Qed.

Lemma wp_eq_inv {A} (m : M W A) (Q : A -> W -> Prop) w a w' : wp m Q w -> m w = Ok a w' -> Q a w'.
Proof. unfold wp. intros H E. by rewrite E in H. Qed.

Lemma wp_gets {A} (f : W -> A) Q w : Q (f w) w -> wp (gets f) Q w.
Proof. done. Qed.

Lemma wp_modify f Q (w : W) : Q tt (f w) -> wp (modify f) Q w.
Proof. done. Qed.

Lemma wlp_ret {A} (a : A) Q (w : W) : Q a w -> wlp (ret a) Q w.
Proof. done. Qed.

Lemma wlp_bind {A B} (m : M W A) (f : A -> M W B) Q w :
  wlp m (fun a w' => wlp (f a) Q w') w -> wlp (bind m f) Q w.
Proof. unfold wlp, bind. by destruct (m w). Qed.

Lemma wlp_mono {A} (m : M W A) (P Q : A -> W -> Prop) w :
  wlp m P w -> (forall a w', P a w' -> Q a w') -> wlp m Q w.
Proof. unfold wlp. destruct (m w); eauto. Qed.

Lemma wlp_panic {A} s Q (w : W) : wlp (panic s : M W A) Q w.
Proof. done. Qed.

Lemma wp_wlp {A} (m : M W A) Q w : wp m Q w -> wlp m Q w.
Proof. unfold wp, wlp. by destruct (m w). Qed.

(** Total correctness of loops: an invariant and a measure below [2^64]. *)
Lemma wp_iter {S B} (body : S -> M W (S + B)) (I : S -> W -> Prop)
    (meas : S -> W -> Z) (Q : B -> W -> Prop) :
  (forall s w, I s w ->
     wp (body s) (fun r w' =>
       match r with
       | inl s' => I s' w' /\ 0 <= meas s' w' < meas s w
       | inr b => Q b w'
       end) w) ->
  forall n s w, I s w ->
    wp (iter n body s) (fun r w' =>
      match r with
      | inl s' => I s' w' /\ 0 <= meas s' w' /\ meas s' w' + 2 ^ Z.of_nat n <= meas s w
      | inr b => Q b w'
      end) w.
Proof.
  intros Hbody n. induction n as [|n IH]; intros s w HI; simpl iter.
  - eapply wp_mono; [by apply Hbody|]. intros [s'|b] w'; [|done].
    change (2 ^ Z.of_nat 0) with 1. intros [??]. split; [done|lia].
  - apply wp_bind. eapply wp_mono; [by apply IH|].
    intros [s'|b] w'; [|done]. intros (HI' & Hnn & Hm).
    eapply wp_mono; [by apply IH|]. intros [s''|b] w''; [|done].
    intros (HI'' & Hnn' & Hm'). split; [done|].
    rewrite Nat2Z.inj_succ, Z.pow_succ_r by lia. lia.
Qed.

Lemma wp_loop {S B} (body : S -> M W (S + B)) (I : S -> W -> Prop)
    (meas : S -> W -> Z) (Q : B -> W -> Prop) s w :
  (forall s w, I s w ->
     wp (body s) (fun r w' =>
       match r with
       | inl s' => I s' w' /\ 0 <= meas s' w' < meas s w
       | inr b => Q b w'
       end) w) ->
  I s w -> meas s w < 2 ^ 64 ->
  wp (loop body s) Q w.
Proof.
  intros Hbody HI Hlt. unfold loop. apply wp_bind.
  eapply wp_mono; [by eapply wp_iter|].
  intros [s'|b] w'; [|by intros; apply wp_ret].
  change (Z.of_nat 64) with 64. lia.
Qed.

(** The same with the measure given by the invariant. *)
Lemma wp_iter_idx {S B} (body : S -> M W (S + B)) (I : Z -> S -> W -> Prop) (Q : B -> W -> Prop) :
  (forall n s w, I n s w ->
     wp (body s) (fun r w' =>
       match r with
       | inl s' => exists m, 0 <= m < n /\ I m s' w'
       | inr b => Q b w'
       end) w) ->
  forall k n s w, I n s w ->
    wp (iter k body s) (fun r w' =>
      match r with
      | inl s' => exists m, 0 <= m /\ m + 2 ^ Z.of_nat k <= n /\ I m s' w'
      | inr b => Q b w'
      end) w.
Proof.
  intros Hbody k. induction k as [|k IH]; intros n s w HI; simpl iter.
  - eapply wp_mono; [by apply Hbody|]. intros [s'|b] w'; [|done].
    change (2 ^ Z.of_nat 0) with 1. intros (m & ? & ?). exists m. split_and!; [lia..|done].
  - apply wp_bind. eapply wp_mono; [by apply IH|].
    intros [s'|b] w'; [|done]. intros (m & Hm & Hle & HI').
    eapply wp_mono; [by apply IH|]. intros [s''|b] w''; [|done].
    intros (m' & Hm' & Hle' & HI''). exists m'. split_and!; [done| |done].
    rewrite Nat2Z.inj_succ, Z.pow_succ_r by lia. lia.
Qed.

Lemma wp_loop_idx {S B} (body : S -> M W (S + B)) (I : Z -> S -> W -> Prop)
    (Q : B -> W -> Prop) n s w :
  (forall n s w, I n s w ->
     wp (body s) (fun r w' =>
       match r with
       | inl s' => exists m, 0 <= m < n /\ I m s' w'
       | inr b => Q b w'
       end) w) ->
  I n s w -> n < 2 ^ 64 ->
  wp (loop body s) Q w.
Proof.
  intros Hbody HI Hlt. unfold loop. apply wp_bind.
  eapply wp_mono; [by eapply wp_iter_idx|].
  intros [s'|b] w'; [|by intros; apply wp_ret].
  change (Z.of_nat 64) with 64. intros (m & ? & ? & _). lia.
Qed.

(** A loop that runs [n] times or less. *)
Fixpoint unroll {S B} (n : nat) (body : S -> M W (S + B)) (s : S) : M W B :=
  match n with
  | O => diverge
  | Datatypes.S n' => r <- body s ;; match r with inl s' => unroll n' body s' | inr b => ret b end
  end.

Lemma loop_unroll {S B} n (body : S -> M W (S + B)) s w b w' :
  Z.of_nat n < 2 ^ 64 -> unroll n body s w = Ok b w' -> loop body s w = Ok b w'.
Proof.
  intros Hn Hr. cut (wp (loop body s) (fun x y => x = b /\ y = w') w).
  { intros (x & y & E & -> & ->)%wp_Ok. done. }
  apply (wp_loop_idx _ (fun k s w => exists n, k = Z.of_nat n /\ unroll n body s w = Ok b w') _ (Z.of_nat n));
    [|by exists n|done].
  clear. intros k s w ([|n] & -> & Hr); [done|]. simpl in Hr. unfold bind in Hr. unfold wp.
  destruct (body s w) as [[s'|x] w1| | |]; try done.
  - exists (Z.of_nat n). split; [lia|]. by exists n.
  - by injection Hr.
Qed.

Lemma wlp_iter {S B} (body : S -> M W (S + B)) (I : S -> W -> Prop)
    (Q : B -> W -> Prop) :
  (forall s w, I s w ->
     wlp (body s) (fun r w' =>
       match r with inl s' => I s' w' | inr b => Q b w' end) w) ->
  forall n s w, I s w ->
    wlp (iter n body s) (fun r w' =>
      match r with inl s' => I s' w' | inr b => Q b w' end) w.
Proof.
  intros Hbody n. induction n as [|n IH]; intros s w HI; simpl iter; [eauto|].
  apply wlp_bind. eapply wlp_mono; [by apply IH|].
  intros [s'|b] w'; [|done]. apply IH.
Qed.

Lemma wlp_loop {S B} (body : S -> M W (S + B)) (I : S -> W -> Prop)
    (Q : B -> W -> Prop) s w :
  (forall s w, I s w ->
     wlp (body s) (fun r w' =>
       match r with inl s' => I s' w' | inr b => Q b w' end) w) ->
  I s w -> wlp (loop body s) Q w.
Proof.
  intros Hbody HI. unfold loop. apply wlp_bind.
  eapply wlp_mono; [by eapply wlp_iter|].
  intros [s'|b] w'; [done|]. by intros; apply wlp_ret.
Qed.

(** Invariants of table scans, indexed by the elements already visited. *)
Lemma wp_for_each {A B} (body : A -> M W (option B)) (Q : option B -> W -> Prop)
    (I : list A -> W -> Prop) l :
  (forall done x todo w, l = done ++ x :: todo -> I done w ->
     wp (body x) (fun r w' =>
       match r with Some b => Q (Some b) w' | None => I (done ++ [x]) w' end) w) ->
  (forall w, I l w -> Q None w) ->
  forall w, I [] w -> wp (for_each l body) Q w.
Proof.
  intros Hbody Hend.
  assert (forall todo done w, l = done ++ todo -> I done w ->
            wp (for_each todo body) Q w) as H.
  { induction todo as [|x todo IH]; intros done w -> HI; simpl.
    - apply Hend. by rewrite app_nil_r.
    - apply wp_bind. eapply wp_mono; [by eapply Hbody|].
      intros [b|] w' H; [done|]. eapply IH; [|done]. by rewrite <- app_assoc. }
  intros w HI. by eapply (H l []).
Qed.

Lemma wp_for_all {A} (body : A -> M W unit) (Q : unit -> W -> Prop)
    (I : list A -> W -> Prop) l :
  (forall done x todo w, l = done ++ x :: todo -> I done w ->
     wp (body x) (fun _ w' => I (done ++ [x]) w') w) ->
  (forall w, I l w -> Q tt w) ->
  forall w, I [] w -> wp (for_all l body) Q w.
Proof.
  intros Hbody Hend.
  assert (forall todo done w, l = done ++ todo -> I done w ->
            wp (for_all todo body) Q w) as H.
  { induction todo as [|x todo IH]; intros done w -> HI; simpl.
    - apply Hend. by rewrite app_nil_r.
    - apply wp_bind. eapply wp_mono; [by eapply Hbody|].
      intros [] w' H. eapply IH; [|done]. by rewrite <- app_assoc. }
  intros w HI. by eapply (H l []).
Qed.

(** [wpc m Q C w]: from [w], [m] returns with [Q] or panics with [C], which
    is also given the message. *)
Definition wpc {A} (m : M W A) (Q : A -> W -> Prop) (C : string -> W -> Prop) (w : W) : Prop :=
  match m w with Ok a w' => Q a w' | Panic msg w' => C msg w' | _ => False end.

Lemma wpc_wp {A} (m : M W A) Q C w : wp m Q w -> wpc m Q C w.
Proof. unfold wp, wpc. by destruct (m w). Qed.

Lemma wpc_bind {A B} (m : M W A) (f : A -> M W B) Q C w :
  wpc m (fun a w' => wpc (f a) Q C w') C w -> wpc (bind m f) Q C w.
Proof. unfold wpc, bind. by destruct (m w). Qed.

Lemma wpc_mono {A} (m : M W A) (P Q : A -> W -> Prop) (C C' : string -> W -> Prop) w :
  wpc m P C w -> (forall a w', P a w' -> Q a w') -> (forall msg w', C msg w' -> C' msg w') ->
  wpc m Q C' w.
Proof. unfold wpc. destruct (m w); eauto. Qed.

Lemma wpc_iter_idx {S B} (body : S -> M W (S + B)) (I : Z -> S -> W -> Prop)
    (Q : B -> W -> Prop) (C : string -> W -> Prop) :
  (forall n s w, I n s w ->
     wpc (body s) (fun r w' =>
       match r with
       | inl s' => exists m, 0 <= m < n /\ I m s' w'
       | inr b => Q b w'
       end) C w) ->
  forall k n s w, I n s w ->
    wpc (iter k body s) (fun r w' =>
      match r with
      | inl s' => exists m, 0 <= m /\ m + 2 ^ Z.of_nat k <= n /\ I m s' w'
      | inr b => Q b w'
      end) C w.
Proof.
  intros Hbody k. induction k as [|k IH]; intros n s w HI; simpl iter.
  - eapply wpc_mono; [by apply Hbody| |done]. intros [s'|b] w'; [|done].
    change (2 ^ Z.of_nat 0) with 1. intros (m & ? & ?). exists m. split_and!; [lia..|done].
  - apply wpc_bind. eapply wpc_mono; [by apply IH| |done].
    intros [s'|b] w'; [|done]. intros (m & Hm & Hle & HI').
    eapply wpc_mono; [by apply IH| |done]. intros [s''|b] w''; [|done].
    intros (m' & Hm' & Hle' & HI''). exists m'. split_and!; [done| |done].
    rewrite Nat2Z.inj_succ, Z.pow_succ_r by lia. lia.
Qed.

Lemma wpc_loop {S B} (body : S -> M W (S + B)) (I : Z -> S -> W -> Prop)
    (Q : B -> W -> Prop) (C : string -> W -> Prop) n s w :
  (forall n s w, I n s w ->
     wpc (body s) (fun r w' =>
       match r with
       | inl s' => exists m, 0 <= m < n /\ I m s' w'
       | inr b => Q b w'
       end) C w) ->
  I n s w -> n < 2 ^ 64 ->
  wpc (loop body s) Q C w.
Proof.
  intros Hbody HI Hlt. unfold loop. apply wpc_bind.
  eapply wpc_mono; [by eapply wpc_iter_idx| |done].
  intros [s'|b] w'; [|done].
  change (Z.of_nat 64) with 64. intros (m & ? & ? & _). lia.
Qed.

(** Invariance is closed under the control structures. *)
Lemma preserves_ext {A} (m m' : M W A) (I : W -> Prop) :
  (forall w, m w = m' w) -> preserves I m' -> preserves I m.
Proof. intros E H w Hw. unfold wlp. rewrite E. by apply H. Qed.

Lemma preserves_ret {A} (I : W -> Prop) (a : A) : preserves I (ret a).
Proof. by intros w ?. Qed.

Lemma preserves_eq {A} (I : W -> Prop) (m : M W A) w a w' :
  preserves I m -> I w -> m w = Ok a w' -> I w'.
Proof. intros H Hw E. specialize (H w Hw). unfold wlp in H. by rewrite E in H. Qed.

Lemma preserves_panic {A} (I : W -> Prop) s : preserves I (panic s : M W A).
Proof. by intros w ?. Qed.

Lemma preserves_blocked {A} (I : W -> Prop) : preserves I (blocked : M W A).
Proof. by intros w ?. Qed.

Lemma preserves_diverge {A} (I : W -> Prop) : preserves I (diverge : M W A).
Proof. by intros w ?. Qed.

Lemma preserves_gets {A} (I : W -> Prop) (f : W -> A) : preserves I (gets f).
Proof. by intros w ?. Qed.

Lemma preserves_modify (I : W -> Prop) f :
  (forall w, I w -> I (f w)) -> preserves I (modify f).
Proof. intros H w HI. by apply H. Qed.

Lemma preserves_bind {A B} (I : W -> Prop) (m : M W A) (f : A -> M W B) :
  preserves I m -> (forall a, preserves I (f a)) -> preserves I (bind m f).
Proof.
  intros Hm Hf w HI. apply wlp_bind. eapply wlp_mono; [by apply Hm|].
  intros a w' HI'. by apply Hf.
Qed.

Lemma preserves_when (I : W -> Prop) b m : preserves I m -> preserves I (when b m).
Proof. intros H w HI. destruct b; [by apply H|done]. Qed.

Lemma preserves_iter {S B} (I : W -> Prop) n (body : S -> M W (S + B)) s :
  (forall s, preserves I (body s)) -> preserves I (iter n body s).
Proof.
  intros Hb. revert s. induction n as [|n IH]; intros s; simpl; [done|].
  apply preserves_bind; [done|]. intros [s'|b]; [done|apply preserves_ret].
Qed.

Lemma preserves_loop {S B} (I : W -> Prop) (body : S -> M W (S + B)) s :
  (forall s, preserves I (body s)) -> preserves I (loop body s).
Proof.
  intros Hb. apply preserves_bind; [by apply preserves_iter|].
  intros [s'|b]; [apply preserves_diverge|apply preserves_ret].
Qed.

Lemma preserves_for_each {A B} (I : W -> Prop) (l : list A) (body : A -> M W (option B)) :
  (forall x, x ∈ l -> preserves I (body x)) -> preserves I (for_each l body).
Proof.
  induction l as [|x l IH]; intros Hb; simpl; [apply preserves_ret|].
  apply preserves_bind; [apply Hb; left|].
  intros [b|]; [apply preserves_ret|]. apply IH. intros y ?. apply Hb. by right.
Qed.

Lemma preserves_for_all {A} (I : W -> Prop) (l : list A) (body : A -> M W unit) :
  (forall x, x ∈ l -> preserves I (body x)) -> preserves I (for_all l body).
Proof.
  induction l as [|x l IH]; intros Hb; simpl; [apply preserves_ret|].
  apply preserves_bind; [apply Hb; left|].
  intros _. apply IH. intros y ?. apply Hb. by right.
Qed.
End Logic.

(** ** Symbolic execution by rewriting *)

Section Run.
Context {W : Type}.

Lemma bind_ok {A B} (m : M W A) (f : A -> M W B) w a w' :
  m w = Ok a w' -> bind m f w = f a w'.
Proof. unfold bind. by intros ->. Qed.

Lemma bind_panic {A B} (m : M W A) (f : A -> M W B) w msg w' :
  m w = Panic msg w' -> bind m f w = Panic msg w'.
Proof. unfold bind. by intros ->. Qed.

Lemma bind_blocked {A B} (m : M W A) (f : A -> M W B) w w' :
  m w = Blocked w' -> bind m f w = Blocked w'.
Proof. unfold bind. by intros ->. Qed.

Lemma bind_ret {A B} (a : A) (f : A -> M W B) w : bind (ret a) f w = f a w.
Proof. done. Qed.
Lemma bind_gets {A B} (g : W -> A) (f : A -> M W B) w : bind (gets g) f w = f (g w) w.
Proof. done. Qed.
Lemma bind_modify {B} g (f : unit -> M W B) w : bind (modify g) f w = f tt (g w).
Proof. done. Qed.
Lemma bind_assoc {A B C} (m : M W A) (f : A -> M W B) (g : B -> M W C) w :
  bind (bind m f) g w = bind m (fun a => bind (f a) g) w.
Proof. unfold bind. by destruct (m w). Qed.

(** Two-way case analysis on how a computation that returned went. *)
Lemma bind_Ok_inv {A B} (m : M W A) (f : A -> M W B) w b w2 :
  bind m f w = Ok b w2 -> exists a w1, m w = Ok a w1 /\ f a w1 = Ok b w2.
Proof. unfold bind. destruct (m w); naive_solver. Qed.
End Run.

#[global] Arguments bind : simpl never.
#[global] Arguments gets : simpl never.
#[global] Arguments modify : simpl never.
#[global] Arguments ret : simpl never.
#[global] Arguments when : simpl never.
#[global] Arguments loop : simpl never.
#[global] Opaque loop.

(** Runs the next primitive of a symbolic execution. *)
Ltac run_step :=
  first [ rewrite bind_ret | rewrite bind_gets | rewrite bind_modify | rewrite bind_assoc ];
  simpl.
Ltac run_steps := repeat run_step.

Create HintDb preserves.
#[export] Hint Resolve preserves_ret preserves_panic preserves_blocked preserves_diverge
  preserves_gets preserves_bind preserves_when preserves_loop : preserves.

(** Walks through straight-line monadic code. *)
Ltac wp_step :=
  lazymatch goal with
  | |- wp (bind _ _) _ _ => apply wp_bind
  | |- wp (ret _) _ _ => apply wp_ret
  | |- wp (gets _) _ _ => apply wp_gets
  | |- wp (modify _) _ _ => apply wp_modify
  | |- wlp (bind _ _) _ _ => apply wlp_bind
  | |- wlp (ret _) _ _ => apply wlp_ret
  | |- wlp (panic _) _ _ => exact Logic.I
  end.
Ltac wp_steps := repeat (wp_step; cbv beta).
