(* ===== verification/Bytes.v ===== *)
(** * Bytes, little-endian words and array slices

    Lemmas on integers at their width, on the little-endian layout that the
    kernel's casts of [bp->data] and its page-table entries rely on, and on
    updating a range of an array. *)

From S2P Require Import Prelude.

(** Division-aware [lia]. *)
Ltac dlia := intros; Z.to_euclidean_division_equations; lia.

(** ** Widths *)

Lemma u64_small z : 0 <= z < 2 ^ 64 -> u64 z = z.
Proof. apply Z.mod_small. Qed.
Lemma u32_small z : 0 <= z < 2 ^ 32 -> u32 z = z.
Proof. apply Z.mod_small. Qed.
Lemma u16_small z : 0 <= z < 2 ^ 16 -> u16 z = z.
Proof. apply Z.mod_small. Qed.
Lemma u64_range z : 0 <= u64 z < 2 ^ 64.
Proof. apply Z.mod_pos_bound. lia. Qed.
Lemma u32_range z : 0 <= u32 z < 2 ^ 32.
Proof. apply Z.mod_pos_bound. lia. Qed.
Lemma i32_small z : - 2 ^ 31 <= z < 2 ^ 31 -> i32 z = z.
Proof. intros. unfold i32. rewrite Z.mod_small; lia. Qed.
Lemma i32_range z : - 2 ^ 31 <= i32 z < 2 ^ 31.
Proof. unfold i32. pose proof (Z.mod_pos_bound (z + 2 ^ 31) (2 ^ 32)). lia. Qed.
Lemma i32_u32 z : i32 (u32 z) = i32 z.
Proof. unfold i32, u32. by rewrite Z.add_mod_idemp_l. Qed.
Lemma u32_i32 z : u32 (i32 z) = u32 z.
Proof.
  unfold i32, u32. rewrite Zminus_mod_idemp_l. f_equal. lia.
Qed.

(** ** Bytes *)

Definition is_byte (b : Z) : Prop := 0 <= b < 256.

Fixpoint le_bytes (n : nat) (z : Z) : list Z :=
  match n with
  | O => []
  | S n' => z mod 256 :: le_bytes n' (z / 256)
  end.

Fixpoint le_val (l : list Z) : Z :=
  match l with
  | [] => 0
  | b :: l' => b + 256 * le_val l'
  end.

Lemma length_le_bytes n z : length (le_bytes n z) = n.
Proof. revert z; induction n; simpl; auto. Qed.

Lemma le_bytes_is_byte n z : Forall is_byte (le_bytes n z).
Proof.
  revert z; induction n as [|n IH]; intros z; constructor; [|done].
  unfold is_byte. dlia.
Qed.

Lemma le_val_bound l : Forall is_byte l -> 0 <= le_val l < 2 ^ (8 * Z.of_nat (length l)).
Proof.
  induction 1 as [|b l Hb _ IH]; simpl length; [done|].
  rewrite Nat2Z.inj_succ, Z.mul_succ_r, Z.pow_add_r by lia.
  change (2 ^ 8) with 256. unfold is_byte in Hb. simpl le_val. lia.
Qed.

(** Reading back what was stored, truncated to the width. *)
Lemma le_val_le_bytes n z : le_val (le_bytes n z) = z mod 2 ^ (8 * Z.of_nat n).
Proof.
  revert z; induction n as [|n IH]; intros z; [by rewrite Z.mod_1_r|].
  simpl le_bytes. simpl le_val. rewrite IH.
  replace (8 * Z.of_nat (S n)) with (8 + 8 * Z.of_nat n) by lia.
  rewrite Z.pow_add_r by lia. change (2 ^ 8) with 256.
  rewrite Z.rem_mul_r by lia. done.
Qed.

Lemma le_bytes_le_val l : Forall is_byte l -> le_bytes (length l) (le_val l) = l.
Proof.
  induction 1 as [|b l Hb _ IH]; simpl; [done|]. unfold is_byte in Hb. f_equal.
  - dlia.
  - replace ((b + 256 * le_val l) / 256) with (le_val l) by dlia. done.
Qed.

Lemma le_bytes_mod n z : le_bytes n (z mod 2 ^ (8 * Z.of_nat n)) = le_bytes n z.
Proof.
  rewrite <- le_val_le_bytes.
  rewrite <- (length_le_bytes n z) at 1.
  apply le_bytes_le_val, le_bytes_is_byte.
Qed.

(** ** Array ranges *)

Definition slice {A} (l : list A) (off n : nat) : list A := take n (drop off l).

Definition splice {A} (l : list A) (off : nat) (bs : list A) : list A :=
  take off l ++ bs ++ drop (off + length bs) l.

Section Ranges.
Context {A : Type}.
Implicit Types (l bs : list A).

Lemma length_splice l off bs :
  (off + length bs <= length l)%nat -> length (splice l off bs) = length l.
Proof. intros. unfold splice. rewrite !length_app, length_take, length_drop. lia. Qed.

Lemma length_slice l off n :
  (off + n <= length l)%nat -> length (slice l off n) = n.
Proof. intros. unfold slice. rewrite length_take, length_drop. lia. Qed.

Lemma lookup_slice l off n i :
  (i < n)%nat -> slice l off n !! i = l !! (off + i)%nat.
Proof. intros. unfold slice. by rewrite lookup_take_lt, lookup_drop. Qed.

Lemma lookup_splice l off bs i :
  (off + length bs <= length l)%nat ->
  splice l off bs !! i =
    if decide (off <= i < off + length bs)%nat then bs !! (i - off)%nat else l !! i.
Proof.
  intros. unfold splice. destruct (decide (i < off)%nat).
  - rewrite lookup_app_l, lookup_take_lt by (rewrite ?length_take; lia).
    case_decide; [lia|done].
  - rewrite lookup_app_r, length_take_le by (rewrite ?length_take; lia).
    destruct (decide (i < off + length bs)%nat).
    + rewrite lookup_app_l by lia. case_decide; [done|lia].
    + rewrite lookup_app_r, lookup_drop by lia.
      case_decide; [lia|]. f_equal. lia.
Qed.

Lemma slice_splice_same l off bs :
  (off + length bs <= length l)%nat -> slice (splice l off bs) off (length bs) = bs.
Proof.
  intros. apply list_eq. intros i. destruct (decide (i < length bs)%nat).
  - rewrite lookup_slice, lookup_splice by lia. case_decide; [f_equal; lia|lia].
  - rewrite !lookup_ge_None_2; [done|lia|].
    rewrite length_slice; [lia|]. by rewrite length_splice.
Qed.

Lemma slice_splice_disjoint l off bs off' n :
  (off + length bs <= length l)%nat -> (off' + n <= length l)%nat ->
  (off' + n <= off \/ off + length bs <= off')%nat ->
  slice (splice l off bs) off' n = slice l off' n.
Proof.
  intros Hl Hn Hd. apply list_eq. intros i. destruct (decide (i < n)%nat).
  - rewrite !lookup_slice, lookup_splice by lia. case_decide; [lia|done].
  - rewrite !lookup_ge_None_2; [done| |]; rewrite length_slice; [lia|done|lia|].
    by rewrite length_splice.
Qed.

Lemma splice_slice l off n :
  (off + n <= length l)%nat -> splice l off (slice l off n) = l.
Proof.
  intros. apply list_eq. intros i. rewrite lookup_splice; rewrite length_slice by done; [|done].
  case_decide; [|done]. rewrite lookup_slice by lia. f_equal. lia.
Qed.

Lemma Forall_splice (P : A -> Prop) l off bs :
  Forall P l -> Forall P bs -> Forall P (splice l off bs).
Proof.
  intros. unfold splice. rewrite !Forall_app. repeat split;
    [by apply Forall_take|done|by apply Forall_drop].
Qed.

Lemma Forall_slice (P : A -> Prop) l off n : Forall P l -> Forall P (slice l off n).
Proof. intros. by apply Forall_take, Forall_drop. Qed.
End Ranges.

(** A word at byte offset [off] of an array of bytes. *)
Definition get_le (n : nat) (l : list Z) (off : nat) : Z := le_val (slice l off n).
Definition put_le (n : nat) (l : list Z) (off : nat) (z : Z) : list Z :=
  splice l off (le_bytes n z).

Lemma length_put_le n l off z :
  (off + n <= length l)%nat -> length (put_le n l off z) = length l.
Proof. intros. apply length_splice. by rewrite length_le_bytes. Qed.

Lemma get_put_le_same n l off z :
  (off + n <= length l)%nat -> get_le n (put_le n l off z) off = z mod 2 ^ (8 * Z.of_nat n).
Proof.
  intros. unfold get_le, put_le. rewrite <- (length_le_bytes n z) at 2.
  rewrite slice_splice_same by (by rewrite length_le_bytes).
  apply le_val_le_bytes.
Qed.

Lemma get_put_le_disjoint n m l off off' z :
  (off + n <= length l)%nat -> (off' + m <= length l)%nat ->
  (off' + m <= off \/ off + n <= off')%nat ->
  get_le m (put_le n l off z) off' = get_le m l off'.
Proof.
  intros. unfold get_le, put_le. rewrite slice_splice_disjoint; rewrite ?length_le_bytes; done.
Qed.

Lemma put_le_is_byte n l off z : Forall is_byte l -> Forall is_byte (put_le n l off z).
Proof. intros. apply Forall_splice; [done|apply le_bytes_is_byte]. Qed.

(** ** Bit masks *)

Lemma land_mask x n : 0 <= n -> Z.land x (2 ^ n - 1) = x mod 2 ^ n.
Proof. intros. rewrite <- Z.land_ones by done. by rewrite Z.ones_equiv. Qed.

(** Clearing the low [n] bits of a [w]-bit value. *)
Lemma land_high_mask x n w :
  0 <= n <= w -> 0 <= x < 2 ^ w ->
  Z.land x (2 ^ w - 2 ^ n) = x - x mod 2 ^ n.
Proof.
  intros Hn Hx.
  assert (x mod 2 ^ n = Z.land x (Z.ones n)) as -> by (by rewrite Z.land_ones by lia).
  assert (Z.land x (2 ^ w - 2 ^ n) = Z.ldiff x (Z.ones n)) as ->.
  { apply Z.bits_inj'. intros i Hi. rewrite Z.land_spec, Z.ldiff_spec.
    destruct (Z.lt_ge_cases i w) as [Hw|Hw].
    - f_equal.
      replace (2 ^ w - 2 ^ n) with (Z.shiftl (Z.ones (w - n)) n).
      2:{ rewrite Z.shiftl_mul_pow2, Z.ones_equiv by lia. unfold Z.pred.
          replace w with ((w - n) + n) at 2 by lia. rewrite Z.pow_add_r by lia. lia. }
      rewrite Z.shiftl_spec by lia.
      destruct (Z.lt_ge_cases i n) as [Hn'|Hn'].
      + rewrite Z.testbit_neg_r by lia. rewrite Z.ones_spec_low by lia. done.
      + rewrite Z.ones_spec_low, Z.ones_spec_high by lia. done.
    - assert (Z.testbit x i = false) as ->; [|done].
      destruct (Z.eq_dec x 0) as [->|]; [apply Z.testbit_0_l|].
      apply Z.bits_above_log2; [lia|]. apply Z.log2_lt_pow2; [lia|].
      assert (2 ^ w <= 2 ^ i) by (apply Z.pow_le_mono_r; lia). lia. }
  rewrite Z.ldiff_ones_r, Z.shiftl_mul_pow2, Z.shiftr_div_pow2, Z.land_ones by lia.
  pose proof (Z.div_mod x (2 ^ n)). lia.
Qed.

Lemma lor_bound a b n : 0 <= a < 2 ^ n -> 0 <= b < 2 ^ n -> 0 <= Z.lor a b < 2 ^ n.
Proof.
  intros Ha Hb. split; [apply Z.lor_nonneg; lia|].
  destruct (Z.eq_dec (Z.lor a b) 0) as [->|Hne]; [lia|].
  apply Z.log2_lt_cancel. rewrite Z.log2_lor by lia.
  destruct (Z.lt_ge_cases n 0) as [Hn|Hn]; [rewrite Z.pow_neg_r in *; lia|].
  rewrite Z.log2_pow2 by done.
  assert (forall x, 0 <= x < 2 ^ n -> x <> 0 -> Z.log2 x < n) as Hl.
  { intros x ??. apply Z.log2_lt_pow2; lia. }
  destruct (Z.eq_dec a 0) as [->|]; destruct (Z.eq_dec b 0) as [->|]; [done| | |].
  - rewrite Z.max_r by apply Z.log2_nonneg. auto.
  - rewrite Z.max_l by apply Z.log2_nonneg. auto.
  - apply Z.max_lub_lt; auto.
Qed.

Lemma land_bound a b n : 0 <= a < 2 ^ n -> 0 <= Z.land a b < 2 ^ n.
Proof.
  intros Ha. assert (0 <= n).
  { destruct (Z.lt_ge_cases n 0); [rewrite Z.pow_neg_r in *; lia|done]. }
  assert (Z.land a b mod 2 ^ n = Z.land a b) as <-; [|apply Z.mod_pos_bound; lia].
  rewrite <- Z.land_ones by done. rewrite <- Z.land_assoc, (Z.land_comm b), Z.land_assoc.
  rewrite Z.land_ones by done. by rewrite Z.mod_small.
Qed.

(** Testing one bit, as [x & (1 << n)] does. *)
Lemma land_bit x n : 0 <= n -> Z.land x (2 ^ n) = if Z.testbit x n then 2 ^ n else 0.
Proof.
  intros Hn. apply Z.bits_inj'. intros i Hi. rewrite Z.land_spec.
  rewrite Z.pow2_bits_eqb by done. destruct (Z.eqb_spec n i) as [->|].
  - destruct (Z.testbit x i); rewrite ?Z.pow2_bits_true, ?Z.testbit_0_l; done.
  - rewrite andb_false_r. destruct (Z.testbit x n).
    + by rewrite Z.pow2_bits_false.
    + by rewrite Z.testbit_0_l.
Qed.

Lemma land_bit_zero x n : 0 <= n -> (Z.land x (2 ^ n) =? 0) = negb (Z.testbit x n).
Proof.
  intros. rewrite land_bit by done. destruct (Z.testbit x n); simpl; [|done].
  apply Z.eqb_neq. pose proof (Z.pow_pos_nonneg 2 n). lia.
Qed.

(** A bit of the 64-bit complement of a mask. *)
Lemma testbit_u64 x n : 0 <= n -> Z.testbit (u64 x) n = (n <? 64) && Z.testbit x n.
Proof.
  intros. unfold u64. destruct (Z.ltb_spec n 64).
  - by rewrite Z.mod_pow2_bits_low.
  - by rewrite Z.mod_pow2_bits_high.
Qed.
