(* ===== verification/Params.v ===== *)
(** * Constants, bit-field macros and linker symbols

    [kernel/param.h], the paging part of [kernel/riscv.h],
    [kernel/memlayout.h], the constants of [kernel/fs.h] and
    [kernel/fcntl.h], and the symbols that the linker script defines. *)

From S2P Require Import Prelude Bytes.

(** ** kernel/param.h *)

Definition NPROC : nat := 64.
Definition NCPU : nat := 8.
Definition NOFILE : nat := 16.
Definition NFILE : nat := 100.
Definition NINODE : nat := 50.
Definition NDEV : Z := 10.
Definition ROOTDEV : Z := 1.
Definition MAXARG : nat := 32.
Definition MAXOPBLOCKS : Z := 10.
Definition LOGSIZE : Z := MAXOPBLOCKS * 3.
Definition NBUF : nat := 30.
Definition FSSIZE : Z := 1000.
Definition MAXPATH : Z := 128.

(** ** kernel/riscv.h: pages and page-table entries *)

Definition PGSIZE : Z := 4096.
Definition PGSHIFT : Z := 12.

Definition PGROUNDUP (sz : Z) : Z :=
  Z.land (u64 (sz + PGSIZE - 1)) (u64 (Z.lnot (PGSIZE - 1))).
Definition PGROUNDDOWN (a : Z) : Z := Z.land a (u64 (Z.lnot (PGSIZE - 1))).

Definition PTE_V : Z := Z.shiftl 1 0.
Definition PTE_R : Z := Z.shiftl 1 1.
Definition PTE_W : Z := Z.shiftl 1 2.
Definition PTE_X : Z := Z.shiftl 1 3.
Definition PTE_U : Z := Z.shiftl 1 4.

Definition PA2PTE (pa : Z) : Z := u64 (Z.shiftl (Z.shiftr pa 12) 10).
Definition PTE2PA (pte : Z) : Z := u64 (Z.shiftl (Z.shiftr pte 10) 12).
Definition PTE_FLAGS (pte : Z) : Z := Z.land pte 1023.

Definition PXMASK : Z := 511.
Definition PXSHIFT (level : Z) : Z := PGSHIFT + 9 * level.
Definition PX (level va : Z) : Z := Z.land (Z.shiftr va (PXSHIFT level)) PXMASK.

Definition MAXVA : Z := Z.shiftl 1 (9 + 9 + 9 + 12 - 1).

Definition SATP_SV39 : Z := Z.shiftl 8 60.
Definition MAKE_SATP (pagetable : Z) : Z := Z.lor SATP_SV39 (Z.shiftr pagetable 12).

Definition SSTATUS_SPP : Z := Z.shiftl 1 8.
Definition SSTATUS_SPIE : Z := Z.shiftl 1 5.
Definition SSTATUS_SIE : Z := Z.shiftl 1 1.

(** ** kernel/memlayout.h *)

Definition UART0 : Z := 268435456.          (* 0x10000000 *)
Definition UART0_IRQ : Z := 10.
Definition VIRTIO0 : Z := 268439552.        (* 0x10001000 *)
Definition VIRTIO0_IRQ : Z := 1.
Definition PLIC : Z := 201326592.           (* 0x0c000000 *)
Definition KERNBASE : Z := 2147483648.      (* 0x80000000 *)
Definition PHYSTOP : Z := KERNBASE + 128 * 1024 * 1024.
Definition TRAMPOLINE : Z := MAXVA - PGSIZE.
Definition KSTACK (p : Z) : Z := TRAMPOLINE - (p + 1) * 2 * PGSIZE.
Definition TRAPFRAME : Z := TRAMPOLINE - PGSIZE.

(** ** kernel/fs.h *)

Definition ROOTINO : Z := 1.
Definition BSIZE : Z := 1024.
Definition FSMAGIC : Z := 270544960.        (* 0x10203040 *)
Definition NDIRECT : Z := 12.
Definition NINDIRECT : Z := BSIZE / 4.
Definition MAXFILE : Z := NDIRECT + NINDIRECT.
Definition sizeof_dinode : Z := 64.
Definition IPB : Z := BSIZE / sizeof_dinode.
Definition BPB : Z := BSIZE * 8.
Definition DIRSIZ : nat := 14.
Definition sizeof_dirent : Z := 16.

(** ** kernel/stat.h, kernel/fcntl.h *)

Definition T_DIR : Z := 1.
Definition T_FILE : Z := 2.
Definition T_DEVICE : Z := 3.

Definition O_RDONLY : Z := 0.
Definition O_WRONLY : Z := 1.
Definition O_RDWR : Z := 2.
Definition O_CREATE : Z := 512.
Definition O_TRUNC : Z := 1024.

(** The major device number of the console (file.h). *)
Definition CONSOLE : Z := 1.

(** ** Symbols set by the linker ([kernel.ld], [trampoline.S]) *)

Class Linker := {
  end_ : Z;            (* first address after the kernel *)
  etext : Z;           (* end of kernel code *)
  trampoline : Z;
  uservec : Z;
  userret : Z;
  kernelvec : Z;
  usertrap_addr : Z;
  forkret_addr : Z;
}.

(** What the kernel relies on: the image sits at [KERNBASE] below [PHYSTOP],
    and the trampoline is one page of it. *)
Class LinkerOk (L : Linker) : Prop := {
  end_lo : KERNBASE < end_;
  end_hi : end_ <= PHYSTOP;
  trampoline_aligned : trampoline mod PGSIZE = 0;
  trampoline_range : KERNBASE <= trampoline < etext;
  etext_aligned : etext mod PGSIZE = 0;
  etext_range : KERNBASE < etext <= end_;
}.

(** The values of the build kept in the repository ([kernel/kernel.sym]). *)
Definition kernel_sym : Linker := {|
  end_ := 2147639296;         (* 0x80026000 *)
  etext := 2147516416;        (* 0x80008000 *)
  trampoline := 2147512320;   (* 0x80007000 *)
  uservec := 2147512320;      (* 0x80007000 *)
  userret := 2147512464;      (* 0x80007090 *)
  kernelvec := 2147507648;    (* 0x80005dc0 *)
  usertrap_addr := 2147494340;  (* 0x800029c4 *)
  forkret_addr := 2147490254;   (* 0x800019ce *)
|}.

#[export] Instance kernel_sym_ok : LinkerOk kernel_sym.
Proof. constructor; simpl; unfold KERNBASE, PHYSTOP, PGSIZE; try done; lia. Qed.

(** ** The macros as arithmetic *)

Lemma PGROUNDDOWN_eq a : 0 <= a < 2 ^ 64 -> PGROUNDDOWN a = a - a mod PGSIZE.
Proof.
  intros. unfold PGROUNDDOWN.
  change (u64 (Z.lnot (PGSIZE - 1))) with (2 ^ 64 - 2 ^ 12).
  by rewrite land_high_mask by lia.
Qed.

Lemma PGROUNDUP_eq sz :
  0 <= sz <= 2 ^ 64 - PGSIZE -> PGROUNDUP sz = (sz + PGSIZE - 1) / PGSIZE * PGSIZE.
Proof.
  intros. unfold PGROUNDUP, PGSIZE in *.
  change (u64 (Z.lnot (4096 - 1))) with (2 ^ 64 - 2 ^ 12).
  rewrite u64_small by lia. rewrite land_high_mask by lia.
  change (2 ^ 12) with 4096. dlia.
Qed.

Lemma PX_eq level va : 0 <= level -> PX level va = va / 2 ^ (12 + 9 * level) mod 512.
Proof.
  intros. unfold PX, PXMASK, PXSHIFT, PGSHIFT.
  change 511 with (2 ^ 9 - 1). rewrite land_mask by lia.
  by rewrite Z.shiftr_div_pow2 by lia.
Qed.

Lemma PX_range level va : 0 <= level -> 0 <= PX level va < 512.
Proof. intros. rewrite PX_eq by done. apply Z.mod_pos_bound. lia. Qed.

Lemma PTE_FLAGS_eq pte : PTE_FLAGS pte = pte mod 1024.
Proof. unfold PTE_FLAGS. change 1023 with (2 ^ 10 - 1). by rewrite land_mask. Qed.

Lemma PA2PTE_eq pa : 0 <= pa < 2 ^ 64 -> PA2PTE pa = pa / 4096 * 1024.
Proof.
  intros. unfold PA2PTE. rewrite Z.shiftl_mul_pow2, Z.shiftr_div_pow2 by lia.
  change (2 ^ 12) with 4096. change (2 ^ 10) with 1024. apply u64_small. dlia.
Qed.

(** A physical address survives the trip through a page-table entry. *)
Lemma PTE2PA_eq pte : 0 <= pte < 2 ^ 62 -> PTE2PA pte = pte / 1024 * 4096.
Proof.
  intros. unfold PTE2PA. rewrite Z.shiftl_mul_pow2, Z.shiftr_div_pow2 by lia.
  change (2 ^ 12) with 4096. change (2 ^ 10) with 1024. apply u64_small. dlia.
Qed.

Lemma lor_low_high a b n : 0 <= n -> 0 <= b < 2 ^ n -> Z.lor (a * 2 ^ n) b = a * 2 ^ n + b.
Proof.
  intros Hn Hb. symmetry. apply Z.add_nocarry_lor.
  apply Z.bits_inj'. intros i Hi. rewrite Z.land_spec, Z.testbit_0_l.
  destruct (Z.lt_ge_cases i n); [by rewrite Z.mul_pow2_bits_low|].
  rewrite <- (Z.mod_small b (2 ^ n)) by done.
  rewrite Z.mod_pow2_bits_high by lia. apply andb_false_r.
Qed.

(** What [mappages] stores: [PA2PTE(pa) | perm | PTE_V]. *)
Section Mapping.
Context (pa perm : Z).
Hypothesis Hpa : 0 <= pa < 2 ^ 56.
Hypothesis Hal : pa mod PGSIZE = 0.
Hypothesis Hperm : 0 <= perm < 1024.

Lemma mkpte_eq :
  Z.lor (Z.lor (PA2PTE pa) perm) PTE_V = pa / 4096 * 1024 + Z.lor perm 1.
Proof.
  rewrite <- Z.lor_assoc, PA2PTE_eq by lia. change PTE_V with 1.
  change 1024 with (2 ^ 10). apply lor_low_high; [lia|].
  apply lor_bound; lia.
Qed.

Lemma lor_perm_range : 0 <= Z.lor perm 1 < 1024.
Proof. apply (lor_bound _ _ 10); lia. Qed.

Lemma mkpte_pa : PTE2PA (Z.lor (Z.lor (PA2PTE pa) perm) PTE_V) = pa.
Proof.
  rewrite mkpte_eq. pose proof lor_perm_range. unfold PGSIZE in *.
  rewrite PTE2PA_eq; dlia.
Qed.

Lemma mkpte_flags : PTE_FLAGS (Z.lor (Z.lor (PA2PTE pa) perm) PTE_V) = Z.lor perm PTE_V.
Proof.
  rewrite mkpte_eq, PTE_FLAGS_eq. pose proof lor_perm_range.
  change PTE_V with 1. dlia.
Qed.

Lemma mkpte_range : 0 <= Z.lor (Z.lor (PA2PTE pa) perm) PTE_V < 2 ^ 54.
Proof. rewrite mkpte_eq. pose proof lor_perm_range. dlia. Qed.
End Mapping.
