(* ===== verification/CString.v ===== *)
(** * kernel/string.c

    The memory functions work on byte memory, a [gmap Z Z] from addresses to
    bytes (an address with no entry reads as 0); the string functions work on
    character arrays, lists of bytes past whose end every read is NUL. *)

From S2P Require Import Prelude Bytes.

Definition ldb (m : gmap Z Z) (a : Z) : Z := default 0 (m !! a).

(** ** memset, memmove, memcpy, memcmp *)

Fixpoint memset_loop (k : nat) (cdst i c : Z) (m : gmap Z Z) : gmap Z Z :=
  match k with
  | O => m
  | S k' => memset_loop k' cdst (i + 1) c (<[cdst + i := u8 c]> m)
  end.

Definition memset (m : gmap Z Z) (dst c n : Z) : gmap Z Z :=
  memset_loop (Z.to_nat n) dst 0 c m.

Fixpoint copy_forward (k : nat) (d s : Z) (m : gmap Z Z) : gmap Z Z :=
  match k with
  | O => m
  | S k' => copy_forward k' (d + 1) (s + 1) (<[d := ldb m s]> m)
  end.

Fixpoint copy_backward (k : nat) (d s : Z) (m : gmap Z Z) : gmap Z Z :=
  match k with
  | O => m
  | S k' => copy_backward k' (d - 1) (s - 1) (<[d - 1 := ldb m (s - 1)]> m)
  end.

Definition memmove (m : gmap Z Z) (dst src n : Z) : gmap Z Z :=
  if n =? 0 then m
  else if (src <? dst) && (src + n >? dst)
  then copy_backward (Z.to_nat n) (dst + n) (src + n) m
  else copy_forward (Z.to_nat n) dst src m.

Definition memcpy (m : gmap Z Z) (dst src n : Z) : gmap Z Z := memmove m dst src n.

Fixpoint memcmp_loop (k : nat) (s1 s2 : Z) (m : gmap Z Z) : Z :=
  match k with
  | O => 0
  | S k' =>
      if negb (ldb m s1 =? ldb m s2) then ldb m s1 - ldb m s2
      else memcmp_loop k' (s1 + 1) (s2 + 1) m
  end.

Definition memcmp (m : gmap Z Z) (v1 v2 n : Z) : Z := memcmp_loop (Z.to_nat n) v1 v2 m.

(** Words in memory: [n]-byte little-endian loads and stores. *)
Fixpoint load (n : nat) (m : gmap Z Z) (a : Z) : list Z :=
  match n with
  | O => []
  | S n' => ldb m a :: load n' m (a + 1)
  end.

Fixpoint store (m : gmap Z Z) (a : Z) (bs : list Z) : gmap Z Z :=
  match bs with
  | [] => m
  | b :: bs' => store (<[a := b]> m) (a + 1) bs'
  end.

Definition load64 (m : gmap Z Z) (a : Z) : Z := le_val (load 8 m a).
Definition store64 (m : gmap Z Z) (a v : Z) : gmap Z Z := store m a (le_bytes 8 v).

#[global] Arguments memset : simpl never.
#[global] Arguments memmove : simpl never.
#[global] Arguments load64 : simpl never.
#[global] Arguments store64 : simpl never.

(** ** strncmp, strncpy, safestrcpy, strlen *)

Definition hd0 (l : list Z) : Z := match l with [] => 0 | c :: _ => c end.

Fixpoint strncmp (p q : list Z) (n : nat) : Z :=
  match n with
  | O => 0
  | S n' =>
      if negb (hd0 p =? 0) && (hd0 p =? hd0 q)
      then strncmp (tail p) (tail q) n'
      else u8 (hd0 p) - u8 (hd0 q)
  end.

(** The bytes [strncpy] writes: a copy up to and with the NUL, then padding. *)
Fixpoint strncpy_pad (n : nat) : list Z :=
  match n with O => [] | S n' => 0 :: strncpy_pad n' end.

Fixpoint strncpy_bytes (t : list Z) (n : nat) : list Z :=
  match n with
  | O => []
  | S n' =>
      if negb (hd0 t =? 0) then hd0 t :: strncpy_bytes (tail t) n'
      else 0 :: strncpy_pad n'
  end.

Definition strncpy (s t : list Z) (n : nat) : list Z := splice s 0 (strncpy_bytes t n).

(** The bytes [safestrcpy] writes; the argument is [n - 1]. *)
Fixpoint safestrcpy_bytes (t : list Z) (n : nat) : list Z :=
  match n with
  | O => [0]
  | S n' =>
      if negb (hd0 t =? 0) then hd0 t :: safestrcpy_bytes (tail t) n'
      else [0; 0]
  end.

Definition safestrcpy (s t : list Z) (n : Z) : list Z :=
  if n <=? 0 then s else splice s 0 (safestrcpy_bytes t (Z.to_nat (n - 1))).

Fixpoint strlen (s : list Z) : Z :=
  match s with
  | [] => 0
  | c :: s' => if c =? 0 then 0 else 1 + strlen s'
  end.

(** The string a character array holds: what comes before its first NUL. *)
Fixpoint cstr (s : list Z) : list Z :=
  match s with
  | [] => []
  | c :: s' => if c =? 0 then [] else c :: cstr s'
  end.

(** The bytes of a string literal. *)
Fixpoint str (s : string) : list Z :=
  match s with
  | EmptyString => []
  | String c s' => Z.of_nat (Ascii.nat_of_ascii c) :: str s'
  end.

(** ** Memory functions: what they leave in every byte *)

Lemma memset_loop_lookup k cdst i c m a :
  memset_loop k cdst i c m !! a =
    if decide (cdst + i <= a < cdst + i + Z.of_nat k) then Some (u8 c) else m !! a.
Proof.
  revert i m. induction k as [|k IH]; intros i m; simpl.
  - rewrite decide_False by lia. done.
  - rewrite IH, lookup_insert. repeat case_decide; try done; lia.
Qed.

Lemma memset_lookup m dst c n a : 0 <= n ->
  memset m dst c n !! a = if decide (dst <= a < dst + n) then Some (u8 c) else m !! a.
Proof.
  intros. unfold memset. rewrite memset_loop_lookup.
  replace (dst + 0 + Z.of_nat (Z.to_nat n)) with (dst + n) by lia.
  replace (dst + 0) with dst by lia. done.
Qed.

Lemma ldb_memset m dst c n a : 0 <= n ->
  ldb (memset m dst c n) a = if decide (dst <= a < dst + n) then u8 c else ldb m a.
Proof. intros. unfold ldb. rewrite memset_lookup by done. by case_decide. Qed.

Lemma ldb_insert m d x a : ldb (<[d := x]> m) a = if decide (a = d) then x else ldb m a.
Proof. unfold ldb. rewrite lookup_insert. repeat case_decide; subst; done. Qed.

Lemma copy_forward_ldb k d s m a :
  d <= s \/ s + Z.of_nat k <= d ->
  ldb (copy_forward k d s m) a =
    if decide (d <= a < d + Z.of_nat k) then ldb m (s + (a - d)) else ldb m a.
Proof.
  revert d s m. induction k as [|k IH]; intros d s m Hd; simpl.
  - rewrite decide_False by lia. done.
  - rewrite IH by lia. rewrite !ldb_insert.
    repeat case_decide; subst; try lia; try done; f_equal; lia.
Qed.

Lemma copy_backward_ldb k d s m a :
  s <= d ->
  ldb (copy_backward k d s m) a =
    if decide (d - Z.of_nat k <= a < d) then ldb m (s + (a - d)) else ldb m a.
Proof.
  revert d s m. induction k as [|k IH]; intros d s m Hd; simpl.
  - rewrite decide_False by lia. done.
  - rewrite IH by lia. rewrite !ldb_insert.
    repeat case_decide; subst; try lia; try done; f_equal; lia.
Qed.

(** Overlapping or not, the destination receives the old source bytes. *)
Lemma ldb_memmove m dst src n a : 0 <= n ->
  ldb (memmove m dst src n) a =
    if decide (dst <= a < dst + n) then ldb m (src + (a - dst)) else ldb m a.
Proof.
  intros Hn. unfold memmove. destruct (Z.eqb_spec n 0) as [->|].
  { rewrite decide_False by lia. done. }
  destruct ((src <? dst) && (src + n >? dst)) eqn:E.
  - rewrite copy_backward_ldb by lia. rewrite Z2Nat.id by lia.
    replace (dst + n - n) with dst by lia.
    case_decide; [f_equal; lia|done].
  - rewrite copy_forward_ldb by lia. by rewrite Z2Nat.id by lia.
Qed.

(** ** Loads and stores *)

Lemma length_load n m a : length (load n m a) = n.
Proof. revert a; induction n; simpl; auto. Qed.

Lemma load_ext n m m' a :
  (forall x, a <= x < a + Z.of_nat n -> ldb m x = ldb m' x) -> load n m a = load n m' a.
Proof.
  revert a. induction n as [|n IH]; intros a H; simpl; [done|].
  f_equal; [apply H; lia|]. apply IH. intros. apply H. lia.
Qed.

Lemma lookup_load n m a i : (i < n)%nat -> load n m a !! i = Some (ldb m (a + Z.of_nat i)).
Proof.
  revert a i. induction n as [|n IH]; intros a [|i] Hi; simpl; try lia.
  - by rewrite Z.add_0_r.
  - rewrite IH by lia. do 2 f_equal. lia.
Qed.

Lemma ldb_store m a bs x :
  ldb (store m a bs) x =
    if decide (a <= x < a + Z.of_nat (length bs))
    then default 0 (bs !! Z.to_nat (x - a)) else ldb m x.
Proof.
  revert a m. induction bs as [|b bs IH]; intros a m; simpl length.
  - rewrite decide_False by lia. done.
  - simpl store. rewrite IH, ldb_insert.
    destruct (decide (x = a)) as [->|].
    + rewrite decide_False, decide_True by lia. by rewrite Z.sub_diag.
    + replace (Z.to_nat (x - a)) with (Z.to_nat (x - (a + 1) + 1)) by (f_equal; lia).
      repeat case_decide; try lia.
      replace (Z.to_nat (x - (a + 1) + 1)) with (S (Z.to_nat (x - (a + 1)))) by lia. done.
Qed.

Lemma load_store_same m a bs : load (length bs) (store m a bs) a = bs.
Proof.
  apply list_eq. intros i. destruct (decide (i < length bs)%nat).
  - rewrite lookup_load, ldb_store by done. rewrite decide_True by lia.
    replace (Z.to_nat (a + Z.of_nat i - a)) with i by lia.
    destruct (lookup_lt_is_Some_2 bs i) as [x Hx]; [done|]. by rewrite Hx.
  - rewrite !lookup_ge_None_2; [done|lia|]. rewrite length_load. lia.
Qed.

Lemma load_store_disjoint n m a bs a' :
  a' + Z.of_nat n <= a \/ a + Z.of_nat (length bs) <= a' ->
  load n (store m a bs) a' = load n m a'.
Proof. intros. apply load_ext. intros. rewrite ldb_store, decide_False by lia. done. Qed.

Lemma load64_store64_same m a v : load64 (store64 m a v) a = u64 v.
Proof.
  unfold load64, store64. rewrite <- (length_le_bytes 8 v) at 1.
  rewrite load_store_same. apply le_val_le_bytes.
Qed.

Lemma load64_store64_disjoint m a v a' :
  a' + 8 <= a \/ a + 8 <= a' -> load64 (store64 m a v) a' = load64 m a'.
Proof.
  intros. unfold load64, store64.
  rewrite load_store_disjoint; [done|]. rewrite length_le_bytes. lia.
Qed.

Lemma load64_memset_zero m a n x :
  a <= x -> x + 8 <= a + n -> load64 (memset m a 0 n) x = 0.
Proof.
  intros. unfold load64.
  assert (load 8 (memset m a 0 n) x = replicate 8 0) as ->; [|done].
  apply list_eq. intros i. destruct (decide (i < 8)%nat).
  - rewrite lookup_load, lookup_replicate_2 by done.
    rewrite ldb_memset, decide_True by lia. done.
  - rewrite !lookup_ge_None_2; [done| |]; rewrite ?length_replicate, ?length_load; lia.
Qed.

Lemma load64_ext m m' a :
  (forall x, a <= x < a + 8 -> ldb m x = ldb m' x) -> load64 m a = load64 m' a.
Proof. intros. unfold load64. f_equal. by apply load_ext. Qed.

Lemma load64_memset_disjoint m a c n x :
  0 <= n -> x + 8 <= a \/ a + n <= x -> load64 (memset m a c n) x = load64 m x.
Proof. intros. apply load64_ext. intros. by rewrite ldb_memset, decide_False by lia. Qed.

(** ** String functions *)

Lemma strncmp_zero p q n :
  Forall is_byte p -> Forall is_byte q ->
  strncmp p q n = 0 <-> take n (cstr p) = take n (cstr q).
Proof.
  intros Hp Hq. revert p q Hp Hq. induction n as [|n IH]; intros p q Hp Hq; simpl.
  { by rewrite !take_0. }
  destruct p as [|a p], q as [|b q]; simpl; rewrite ?andb_false_r; simpl.
  - done.
  - apply Forall_cons in Hq as [Hb _]. unfold is_byte in Hb.
    unfold u8. rewrite !Z.mod_small by lia.
    destruct (Z.eqb_spec b 0); subst; simpl; [done|]. split; [lia|done].
  - apply Forall_cons in Hp as [Ha _]. unfold is_byte in Ha.
    destruct (Z.eqb_spec a 0) as [->|]; simpl; [done|].
    unfold u8. rewrite !Z.mod_small by lia. split; [lia|done].
  - apply Forall_cons in Hp as [Ha Hp], Hq as [Hb Hq]. unfold is_byte in Ha, Hb.
    unfold u8. rewrite !Z.mod_small by lia.
    destruct (Z.eqb_spec a 0) as [->|Ha0]; simpl.
    + destruct (Z.eqb_spec b 0) as [->|]; simpl; [done|]. split; [lia|done].
    + destruct (Z.eqb_spec a b) as [->|]; simpl.
      * destruct (Z.eqb_spec b 0); [lia|]. simpl. rewrite IH by done.
        split; [by intros ->|by intros [=]].
      * destruct (Z.eqb_spec b 0) as [->|]; simpl; split; try lia; try done.
        intros [=]. lia.
Qed.

Lemma length_strncpy_pad n : length (strncpy_pad n) = n.
Proof. induction n; simpl; auto. Qed.

Lemma length_strncpy_bytes t n : length (strncpy_bytes t n) = n.
Proof.
  revert t. induction n as [|n IH]; intros t; simpl; [done|].
  destruct (negb _); simpl; [by rewrite IH|by rewrite length_strncpy_pad].
Qed.

Lemma cstr_strncpy_bytes t n : cstr (strncpy_bytes t n) = take n (cstr t).
Proof.
  revert t. induction n as [|n IH]; intros t; simpl; [by rewrite take_0|].
  destruct t as [|c t]; simpl; [done|].
  destruct (Z.eqb_spec c 0) as [->|Hc]; simpl; [done|].
  rewrite (proj2 (Z.eqb_neq c 0) Hc). simpl. by rewrite IH.
Qed.

Lemma length_safestrcpy_bytes t n :
  (length (safestrcpy_bytes t n) <= S n)%nat.
Proof.
  revert t. induction n as [|n IH]; intros t; simpl; [lia|].
  destruct (negb _); simpl; [specialize (IH (tail t))|]; lia.
Qed.

Lemma cstr_safestrcpy_bytes t n l :
  cstr (safestrcpy_bytes t n ++ l) = take n (cstr t).
Proof.
  revert t. induction n as [|n IH]; intros t; simpl; [by rewrite take_0|].
  destruct t as [|c t]; simpl; [done|].
  destruct (Z.eqb_spec c 0) as [->|Hc]; simpl; [done|].
  rewrite (proj2 (Z.eqb_neq c 0) Hc). simpl. by rewrite IH.
Qed.

Lemma strlen_cstr s : strlen s = Z.of_nat (length (cstr s)).
Proof.
  induction s as [|c s IH]; simpl; [done|].
  destruct (c =? 0); simpl; [done|]. rewrite IH. lia.
Qed.

Lemma load_0 m a : load 0 m a = [].
Proof. done. Qed.
Lemma load_S n m a : load (S n) m a = ldb m a :: load n m (a + 1).
Proof. done. Qed.
Lemma store_nil m a : store m a [] = m.
Proof. done. Qed.
Lemma store_cons m a b bs : store m a (b :: bs) = store (<[a := b]> m) (a + 1) bs.
Proof. done. Qed.
Lemma store64_store m a v : store64 m a v = store m a (le_bytes 8 v).
Proof. done. Qed.
Lemma load64_load m a : load64 m a = le_val (load 8 m a).
Proof. done. Qed.

(** Proofs reason about memory with the lemmas above; conversion is not to
    unfold a page's worth of byte writes. *)
#[global] Opaque memset memmove load store load64 store64.
