(* ===== verification/Spinlock.v ===== *)
(** * kernel/spinlock.c

    Spin locks and the interrupt nesting of [push_off]/[pop_off], on the lock
    words, the per-CPU counters and [sstatus].  [acquire], [release] and
    [holding] are sequences of atomic accesses; here one hart runs them, and in
    SpinlockSmp any number of harts interleave them.

    [Spinlock] implements the abstract lock of [LockSpec]: the list of locks
    the hart holds.  The rest of the development uses that interface. *)

From S2P Require Import Prelude Bytes Params.

(** ** The abstract lock

    What the clients of [acquire] and [release] see of a hart: the locks it
    holds, most recent first.  [busy] says which locks another hart holds. *)
Module LockSpec.
Section Spec.
Context {L : Type} `{EqDecision L}.

Definition remove1 (l : L) (held : list L) : list L :=
  filter (fun x => x <> l) held.

Definition acquire (busy : L -> bool) (l : L) : M (list L) unit :=
  fun held =>
    if decide (l ∈ held) then Panic "acquire" held
    else if busy l then Blocked held
    else Ok tt (l :: held).

Definition release (l : L) : M (list L) unit :=
  fun held =>
    if decide (l ∈ held) then Ok tt (remove1 l held)
    else Panic "release" held.

Definition holding (l : L) : M (list L) bool :=
  fun held => Ok (bool_decide (l ∈ held)) held.
End Spec.
End LockSpec.

(** ** The C functions on one hart *)
Module Spinlock.
Section Code.
Context {L : Type} `{EqDecision L}.

Record spinlock := mkSpinlock {
  locked : Z;
  name : string;
  cpu : option nat;        (* the cpu holding the lock *)
}.

(** The part of [struct cpu] and of the hart's registers used here. *)
Record cpustate := mkCpu {
  noff : Z;
  intena : Z;
  sstatus : Z;
}.

Record state := mkState {
  locks : L -> spinlock;
  cpus : nat -> cpustate;
}.

Definition upd_lock (l : L) (f : spinlock -> spinlock) (s : state) : state :=
  mkState (fun x => if decide (x = l) then f (locks s x) else locks s x) (cpus s).
Definition upd_cpu (h : nat) (f : cpustate -> cpustate) (s : state) : state :=
  mkState (locks s) (fun x => if decide (x = h) then f (cpus s x) else cpus s x).

(** riscv.h *)
Definition intr_on (h : nat) : M state unit :=
  modify (upd_cpu h (fun c => mkCpu (noff c) (intena c) (Z.lor (sstatus c) SSTATUS_SIE))).
Definition intr_off (h : nat) : M state unit :=
  modify (upd_cpu h (fun c =>
    mkCpu (noff c) (intena c) (Z.land (sstatus c) (u64 (Z.lnot SSTATUS_SIE))))).
Definition intr_get (h : nat) : M state Z :=
  x <- gets (fun s => sstatus (cpus s h)) ;;
  ret (b2z (negb (Z.land x SSTATUS_SIE =? 0))).

Definition push_off (h : nat) : M state unit :=
  old <- intr_get h ;;
  intr_off h ;;
  n <- gets (fun s => noff (cpus s h)) ;;
  when (n =? 0)
    (modify (upd_cpu h (fun c => mkCpu (noff c) old (sstatus c)))) ;;
  modify (upd_cpu h (fun c => mkCpu (noff c + 1) (intena c) (sstatus c))).

Definition pop_off (h : nat) : M state unit :=
  i <- intr_get h ;;
  if z2b i then panic "pop_off - interruptible" else
  n <- gets (fun s => noff (cpus s h)) ;;
  if n <? 1 then panic "pop_off" else
  modify (upd_cpu h (fun c => mkCpu (noff c - 1) (intena c) (sstatus c))) ;;
  c <- gets (fun s => cpus s h) ;;
  when ((noff c =? 0) && z2b (intena c)) (intr_on h).

Definition initlock (l : L) (nm : string) : M state unit :=
  modify (upd_lock l (fun _ => mkSpinlock 0 nm None)).

(** [lk->locked && lk->cpu == mycpu()]: two loads, the second only if the first
    gives a value other than 0. *)
Definition holding_code (h : nat) (l : L) : code state bool :=
  v <~ atom (gets (fun s => locked (locks s l))) ;;
  if z2b v then
    c <~ atom (gets (fun s => cpu (locks s l))) ;;
    Ret (bool_decide (c = Some h))
  else Ret false.

(** [__sync_lock_test_and_set(&lk->locked, 1)] *)
Definition test_and_set (l : L) : M state Z :=
  old <- gets (fun s => locked (locks s l)) ;;
  modify (upd_lock l (fun k => mkSpinlock 1 (name k) (cpu k))) ;;
  ret old.

(** One round of the loop on the swap.  A hart whose swap finds 1 is [blocked]: it
    does the same again, and as long as only this hart runs it finds 1
    again. *)
Definition swap (l : L) : M state unit :=
  old <- test_and_set l ;;
  if negb (old =? 0) then blocked else ret tt.

(** The accesses of [acquire] and [release] to the lock, in order.  [push_off]
    and [pop_off] touch only the hart's own state. *)
Definition acquire_code (h : nat) (l : L) : code state unit :=
  _ <~ atom (push_off h) ;;
  b <~ holding_code h l ;;
  if (b : bool) then atom (panic "acquire") else
  _ <~ atom (swap l) ;;
  atom (modify (upd_lock l (fun k => mkSpinlock (locked k) (name k) (Some h)))).

Definition release_code (h : nat) (l : L) : code state unit :=
  b <~ holding_code h l ;;
  if negb b then atom (panic "release") else
  _ <~ atom (modify (upd_lock l (fun k => mkSpinlock (locked k) (name k) None))) ;;
  _ <~ atom (modify (upd_lock l (fun k => mkSpinlock 0 (name k) (cpu k)))) ;;
  atom (pop_off h).

Definition holding (h : nat) (l : L) : M state bool := run_code (holding_code h l).
Definition acquire (h : nat) (l : L) : M state unit := run_code (acquire_code h l).
Definition release (h : nat) (l : L) : M state unit := run_code (release_code h l).

(** *** The abstraction relation

    [held] are the locks of hart [h], [ie] is the interrupt-enable state
    that was in force before the outermost [push_off]. *)
Definition sie (s : state) (h : nat) : bool :=
  negb (Z.land (sstatus (cpus s h)) SSTATUS_SIE =? 0).

(** The locks that another hart holds. *)
Definition busy (h : nat) (s : state) (l : L) : bool :=
  (locked (locks s l) =? 1) && negb (bool_decide (cpu (locks s l) = Some h)).

Record abs (h : nat) (ie : bool) (others : L -> bool) (s : state) (held : list L)
    : Prop := {
  abs_nodup : NoDup held;
  abs_noff : noff (cpus s h) = Z.of_nat (length held);
  abs_word : forall l, locked (locks s l) = 0 \/ locked (locks s l) = 1;
  abs_held : forall l, l ∈ held <-> locked (locks s l) = 1 /\ cpu (locks s l) = Some h;
  abs_free : forall l, locked (locks s l) = 0 -> cpu (locks s l) = None;
  abs_sie : sie s h = match held with [] => ie | _ => false end;
  abs_intena : held <> [] -> intena (cpus s h) = b2z ie;
  abs_others : forall l, busy h s l = others l;
}.

(** A lock operation by one hart, in the code and in the spec; [holding] has a
    result. *)
Inductive op := Acq (l : L) | Rel (l : L) | Hold (l : L).

Definition op_code (h : nat) (o : op) : code state (option bool) :=
  match o with
  | Acq l => _ <~ acquire_code h l ;; Ret None
  | Rel l => _ <~ release_code h l ;; Ret None
  | Hold l => b <~ holding_code h l ;; Ret (Some b)
  end.

Definition exec_op (h : nat) (o : op) : M state (option bool) :=
  match o with
  | Acq l => acquire h l ;; ret None
  | Rel l => release h l ;; ret None
  | Hold l => b <- holding h l ;; ret (Some b)
  end.
Definition spec_op (others : L -> bool) (o : op) : M (list L) (option bool) :=
  match o with
  | Acq l => LockSpec.acquire others l ;; ret None
  | Rel l => LockSpec.release l ;; ret None
  | Hold l => b <- LockSpec.holding l ;; ret (Some b)
  end.

(** The code's outcome is the spec's: the same result, in related states. *)
Definition refines {A} (h : nat) (ie : bool) (others : L -> bool)
    (c : outcome state A) (a : outcome (list L) A) : Prop :=
  match a, c with
  | Ok r held, Ok r' s => r = r' /\ abs h ie others s held
  | Panic m _, Panic m' _ => m = m'
  | Blocked _, Blocked _ => True
  | _, _ => False
  end.
End Code.
Arguments spinlock : clear implicits.
Arguments state : clear implicits.
Arguments op : clear implicits.
End Spinlock.

(** ** Facts about the single-hart code *)
Section SpinlockFacts.
Context {L : Type} `{EqDecision L}.
Import Spinlock.
Implicit Types (s : state L) (h : nat) (l : L) (held : list L).

Lemma sie_testbit s h : sie s h = Z.testbit (sstatus (cpus s h)) 1.
Proof.
  unfold sie. change SSTATUS_SIE with (2 ^ 1). rewrite land_bit_zero by lia.
  apply negb_involutive.
Qed.

Lemma sie_off c : Z.testbit (Z.land (sstatus c) (u64 (Z.lnot SSTATUS_SIE))) 1 = false.
Proof. rewrite Z.land_spec, testbit_u64 by lia. apply andb_false_r. Qed.

Lemma sie_on c : Z.testbit (Z.lor (sstatus c) SSTATUS_SIE) 1 = true.
Proof. rewrite Z.lor_spec. apply orb_true_r. Qed.

(** [push_off] ends with interrupts off and one more level. *)
Lemma push_off_ok h s : exists s', push_off h s = Ok tt s' /\ locks s' = locks s /\
  noff (cpus s' h) = noff (cpus s h) + 1 /\
  intena (cpus s' h) =
    (if noff (cpus s h) =? 0 then b2z (sie s h) else intena (cpus s h)) /\
  sie s' h = false.
Proof.
  unfold push_off, intr_get, intr_off, bind, gets, modify, ret, when.
  change (negb _) with (sie s h). rewrite sie_testbit. simpl.
  rewrite decide_True by done. simpl.
  destruct (noff (cpus s h) =? 0) eqn:E; eexists; (split; [done|]); rewrite ?(sie_testbit s);
    rewrite (sie_testbit _ h); simpl; repeat (rewrite decide_True by done; simpl);
    rewrite ?sie_off; unfold sie; done.
Qed.

(** [pop_off] undoes one level, and the last one restores interrupts. *)
Lemma pop_off_ok h s :
  1 <= noff (cpus s h) -> sie s h = false ->
  exists s', pop_off h s = Ok tt s' /\ locks s' = locks s /\
    noff (cpus s' h) = noff (cpus s h) - 1 /\
    intena (cpus s' h) = intena (cpus s h) /\
    sie s' h = (noff (cpus s h) =? 1) && z2b (intena (cpus s h)).
Proof.
  intros Hn Hs. unfold pop_off, intr_get, intr_on, bind, gets, modify, ret, when.
  unfold sie in Hs. rewrite Hs. simpl.
  rewrite (proj2 (Z.ltb_ge _ _)) by done. rewrite decide_True by done. simpl.
  assert ((noff (cpus s h) - 1 =? 0) = (noff (cpus s h) =? 1)) as -> by lia.
  destruct (_ && _) eqn:E; eexists; (split; [done|]); rewrite sie_testbit; simpl;
    repeat (rewrite decide_True by done; simpl); rewrite ?sie_on; [done|].
  change (negb _) with (sie s h) in Hs. rewrite sie_testbit in Hs. by rewrite Hs.
Qed.

Lemma holding_eq h l s :
  holding h l s = Ok (z2b (locked (locks s l)) && bool_decide (cpu (locks s l) = Some h)) s.
Proof.
  unfold holding, holding_code. simpl. unfold bind, gets, ret. by destruct (z2b _).
Qed.

(** [acquire] and [release] as sequences of calls. *)
Lemma acquire_eq h l s :
  acquire h l s =
  (push_off h ;;
   b <- holding h l ;;
   if (b : bool) then panic "acquire" else
   swap l ;;
   modify (upd_lock l (fun k => mkSpinlock (locked k) (name k) (Some h)))) s.
Proof.
  unfold acquire, acquire_code, holding. simpl. unfold bind.
  destruct (push_off h s) as [[] s1| | |]; [|done..]. unfold gets, ret.
  destruct (z2b _); simpl; unfold bind; [case_bool_decide|]; simpl; unfold bind; [done|..];
    by destruct (swap l s1) as [[]| | |].
Qed.

Lemma release_eq h l s :
  release h l s =
  (b <- holding h l ;;
   if negb b then panic "release" else
   modify (upd_lock l (fun k => mkSpinlock (locked k) (name k) None)) ;;
   modify (upd_lock l (fun k => mkSpinlock 0 (name k) (cpu k))) ;;
   pop_off h) s.
Proof.
  unfold release, release_code, holding. simpl. unfold bind, gets, ret, modify.
  destruct (z2b _); simpl; unfold bind; [case_bool_decide|]; simpl; [unfold bind|done..].
  by destruct (pop_off h _) as [[]| | |].
Qed.

Lemma elem_remove1 l x held : x ∈ LockSpec.remove1 l held <-> x ∈ held /\ x <> l.
Proof. unfold LockSpec.remove1. rewrite list_elem_of_filter. naive_solver. Qed.

Lemma remove1_absent l held : l ∉ held -> LockSpec.remove1 l held = held.
Proof.
  intros Hn. unfold LockSpec.remove1. induction held as [|x held IH]; [done|].
  apply not_elem_of_cons in Hn as [??]. rewrite filter_cons_True by done. by rewrite IH.
Qed.

Lemma length_remove1 l held :
  NoDup held -> l ∈ held -> S (length (LockSpec.remove1 l held)) = length held.
Proof.
  unfold LockSpec.remove1. induction 1 as [|x held Hx Hnd IH]; [by intros ?%not_elem_of_nil|].
  intros [->|Hl]%elem_of_cons.
  - rewrite filter_cons_False by naive_solver. simpl. f_equal.
    pose proof (remove1_absent x held Hx) as E. unfold LockSpec.remove1 in E. by rewrite E.
  - rewrite filter_cons_True by (intros ->; done). simpl. by rewrite IH.
Qed.

Section Refinement.
Context (h : nat) (ie : bool) (others : L -> bool).

Lemma abs_holding s held l : abs h ie others s held ->
  z2b (locked (locks s l)) && bool_decide (cpu (locks s l) = Some h)
  = bool_decide (l ∈ held).
Proof.
  intros A. destruct (bool_decide_reflect (l ∈ held)) as [Hl|Hl].
  - apply (abs_held _ _ _ _ _ A) in Hl as [-> ->]. by rewrite bool_decide_true.
  - rewrite (abs_held _ _ _ _ _ A) in Hl.
    destruct (abs_word _ _ _ _ _ A l) as [E|E]; rewrite E in *; [done|].
    rewrite bool_decide_false by naive_solver. done.
Qed.

Lemma acquire_refines s held l : abs h ie others s held ->
  refines h ie others (acquire h l s) (LockSpec.acquire others l held).
Proof.
  intros A. rewrite acquire_eq. unfold LockSpec.acquire, bind.
  destruct (push_off_ok h s) as (s1 & -> & Hlk & Hno & Hin & Hsie).
  rewrite holding_eq, Hlk, (abs_holding s held) by done.
  destruct (decide (l ∈ held)) as [Hl|Hl].
  { by rewrite bool_decide_true. }
  rewrite bool_decide_false by done.
  unfold swap, test_and_set, bind, gets, modify, ret. rewrite Hlk.
  pose proof (abs_others _ _ _ _ _ A l) as Hb. unfold busy in Hb.
  pose proof (abs_held _ _ _ _ _ A l) as Hh.
  destruct (abs_word _ _ _ _ _ A l) as [E|E]; rewrite E in *; simpl in Hb |- *.
  2:{ rewrite bool_decide_false in Hb by naive_solver. by rewrite <- Hb. }
  rewrite <- Hb. simpl. split; [done|]. set (s2 := upd_lock l _ _).
  assert (forall x, locks s2 x = if decide (x = l) then
             mkSpinlock 1 (name (locks s l)) (Some h) else locks s x) as Hlks.
  { intros x. subst s2. simpl. rewrite Hlk. by destruct (decide (x = l)) as [->|]. }
  constructor.
  - apply NoDup_cons. by split; [|apply (abs_nodup _ _ _ _ _ A)].
  - simpl. rewrite Hno, (abs_noff _ _ _ _ _ A). lia.
  - intros x. rewrite Hlks. case_decide; [by right|]. apply (abs_word _ _ _ _ _ A).
  - intros x. rewrite Hlks, elem_of_cons, (abs_held _ _ _ _ _ A).
    destruct (decide (x = l)) as [->|Hx]; simpl; naive_solver.
  - intros x. rewrite Hlks. case_decide; [done|]. apply (abs_free _ _ _ _ _ A).
  - done.
  - intros _. simpl. rewrite Hin, (abs_noff _ _ _ _ _ A).
    destruct held as [|y held']; simpl.
    + by rewrite (abs_sie _ _ _ _ _ A).
    + by apply (abs_intena _ _ _ _ _ A).
  - intros x. rewrite <- (abs_others _ _ _ _ _ A x). unfold busy. rewrite Hlks.
    destruct (decide (x = l)) as [->|]; [|done]. simpl.
    rewrite bool_decide_true, E by done. done.
Qed.

Lemma release_refines s held l : abs h ie others s held ->
  refines h ie others (release h l s) (LockSpec.release l held).
Proof.
  intros A. rewrite release_eq. unfold LockSpec.release.
  unfold bind at 1. rewrite holding_eq, (abs_holding s held) by done.
  destruct (decide (l ∈ held)) as [Hl|Hl].
  2:{ by rewrite bool_decide_false. }
  rewrite bool_decide_true by done. unfold bind, modify. simpl.
  assert (held <> []) as Hne by (by intros ->; apply elem_of_nil in Hl).
  pose proof (proj1 (abs_held _ _ _ _ _ A l) Hl) as [E1 E2].
  set (s1 := upd_lock l _ (upd_lock l _ s)).
  destruct (pop_off_ok h s1) as (s2 & -> & Hlk & Hno & Hin & Hsie).
  { simpl. rewrite (abs_noff _ _ _ _ _ A). destruct held; [done|]. simpl. lia. }
  { unfold sie. simpl. fold (sie s h). rewrite (abs_sie _ _ _ _ _ A).
    by destruct held. }
  pose proof (length_remove1 l held (abs_nodup _ _ _ _ _ A) Hl) as Hlen.
  assert (forall x, locks s2 x = if decide (x = l) then
             mkSpinlock 0 (name (locks s l)) None else locks s x) as Hlks.
  { intros x. rewrite Hlk. subst s1. simpl. by destruct (decide (x = l)) as [->|]. }
  simpl. split; [done|]. constructor.
  - apply NoDup_filter, (abs_nodup _ _ _ _ _ A).
  - rewrite Hno. simpl. rewrite (abs_noff _ _ _ _ _ A). lia.
  - intros x. rewrite Hlks. case_decide; [by left|]. apply (abs_word _ _ _ _ _ A).
  - intros x. rewrite Hlks, elem_remove1, (abs_held _ _ _ _ _ A).
    destruct (decide (x = l)) as [->|]; simpl; naive_solver.
  - intros x. rewrite Hlks. case_decide; [done|]. apply (abs_free _ _ _ _ _ A).
  - rewrite Hsie. simpl. rewrite (abs_noff _ _ _ _ _ A), (abs_intena _ _ _ _ _ A) by done.
    destruct (LockSpec.remove1 l held) as [|y r]; simpl in Hlen.
    + rewrite <- Hlen. by destruct ie.
    + apply andb_false_iff. left. apply Z.eqb_neq. lia.
  - intros _. rewrite Hin. simpl. by apply (abs_intena _ _ _ _ _ A).
  - intros x. rewrite <- (abs_others _ _ _ _ _ A x). unfold busy. rewrite Hlks.
    destruct (decide (x = l)) as [->|]; [|done]. simpl.
    rewrite E2. rewrite (bool_decide_true (Some h = Some h)) by done.
    by rewrite andb_false_r.
Qed.
End Refinement.
End SpinlockFacts.

(** A run of operations, with their results. *)
Fixpoint run_ops {W O A} (f : O -> M W A) (os : list O) : M W (list A) :=
  match os with
  | [] => ret []
  | o :: os' => r <- f o ;; rs <- run_ops f os' ;; ret (r :: rs)
  end.

Lemma op_refines {L} `{EqDecision L} h ie others (o : Spinlock.op L) s held :
  Spinlock.abs h ie others s held ->
  Spinlock.refines h ie others (Spinlock.exec_op h o s) (Spinlock.spec_op others o held).
Proof.
  intros A. destruct o as [l|l|l]; simpl; unfold bind.
  - pose proof (acquire_refines h ie others s held l A) as R.
    destruct (LockSpec.acquire others l held), (Spinlock.acquire h l s); try done. by destruct R.
  - pose proof (release_refines h ie others s held l A) as R.
    destruct (LockSpec.release l held), (Spinlock.release h l s); try done. by destruct R.
  - rewrite holding_eq, (abs_holding h ie others s held) by done. done.
Qed.

(** C17: on one hart, every sequence of [acquire], [release] and [holding] behaves
    like the abstract lock: [holding] returns whether the hart holds the lock;
    the sequence panics exactly when a held lock is acquired or a lock that is
    not held is released, waits exactly on a lock of another hart, and
    otherwise ends in a state where [noff] is the number of locks held, the
    lock words name this hart exactly for those, interrupts are off while any
    is held, and the interrupt state from before the outermost [push_off] is
    back when none is. *)
Theorem lock_ops_refine {L} `{EqDecision L} h ie others (os : list (Spinlock.op L)) s held :
  Spinlock.abs h ie others s held ->
  Spinlock.refines h ie others
    (run_ops (Spinlock.exec_op h) os s)
    (run_ops (Spinlock.spec_op others) os held).
Proof.
  revert s held. induction os as [|o os IH]; intros s held A; simpl; [done|].
  unfold bind. pose proof (op_refines h ie others o s held A) as R. unfold Spinlock.refines in R.
  destruct (Spinlock.spec_op others o held) as [r held'|m held'|held'|held'];
    destruct (Spinlock.exec_op h o s) as [r' s'|m' s'|s'|s']; try done.
  destruct R as [-> A']. specialize (IH s' held' A'). unfold Spinlock.refines in IH.
  destruct (run_ops (Spinlock.spec_op others) os held') as [rs w| | |];
    destruct (run_ops (Spinlock.exec_op h) os s') as [rs' w'| | |]; try done.
  by destruct IH as [-> ?].
Qed.

(** Two harts, two locks; hart 1 holds lock 1. *)
Definition demo_locks : Spinlock.state nat :=
  Spinlock.mkState
    (fun l => Spinlock.mkSpinlock (if decide (l = 1%nat) then 1 else 0) "demo"
                (if decide (l = 1%nat) then Some 1%nat else None))
    (fun _ => Spinlock.mkCpu 0 0 SSTATUS_SIE).

Lemma lock_ops_refine_witness :
  Spinlock.refines 0 true (fun l => bool_decide (l = 1%nat))
    (run_ops (Spinlock.exec_op 0)
       [Spinlock.Acq 0%nat; Spinlock.Acq 2%nat; Spinlock.Rel 0%nat; Spinlock.Hold 2%nat] demo_locks)
    (run_ops (Spinlock.spec_op (fun l => bool_decide (l = 1%nat)))
       [Spinlock.Acq 0%nat; Spinlock.Acq 2%nat; Spinlock.Rel 0%nat; Spinlock.Hold 2%nat] []).
Proof.
  apply lock_ops_refine. constructor; simpl.
  - constructor.
  - done.
  - intros l. destruct (decide (l = 1%nat)); [by right|by left].
  - intros l. split; [by intros ?%not_elem_of_nil|].
    destruct (decide (l = 1%nat)); by intros [??].
  - intros l. by destruct (decide (l = 1%nat)).
  - done.
  - done.
  - intros l. unfold Spinlock.busy, demo_locks. simpl.
    destruct (decide (l = 1%nat)) as [->|]; simpl; [done|].
    by rewrite bool_decide_false.
Defined.
