(* ===== verification/SpinlockSmp.v ===== *)
(** * Spin locks on several harts: kernel/spinlock.c

    Any number of harts run [acquire], [release] and [holding] of Spinlock on
    one memory, interleaved access by access ([Smp]). *)

From S2P Require Import Prelude Bytes Params Spinlock.

(** ** Harts that interleave the code *)
Module Smp.
Section Code.
Context {L : Type} `{EqDecision L}.
Import Spinlock.

Inductive activity :=
| Idle
| Busy (o : op L) (c : code (state L) (option bool))    (* in [o], with [c] left to do *)
| Stopped (o : op L) (msg : string).                    (* in the panic of [o] *)

(** [held]: the locks whose [acquire] has returned and whose [release] has not. *)
Record hart := mkHart { held : list L; act : activity }.

Record system := mkSystem { mem : state L; harts : nat -> hart }.

Definition upd {A B} `{EqDecision A} (f : A -> B) (a : A) (b : B) : A -> B :=
  fun x => if decide (x = a) then b else f x.

Definition after (o : op L) (hs : list L) : list L :=
  match o with Acq l => l :: hs | Rel l => LockSpec.remove1 l hs | Hold _ => hs end.

(** A hart calls an operation, does its next access, goes round the loop on the
    swap once more, panics, or returns.  An interrupt handler's calls are calls
    of the idle hart it interrupts. *)
Inductive step : system -> system -> Prop :=
| step_call s h hs o :
    harts s h = mkHart hs Idle ->
    step s (mkSystem (mem s) (upd (harts s) h (mkHart hs (Busy o (op_code h o)))))
| step_access s h hs o c c' w :
    harts s h = mkHart hs (Busy o c) -> advance c (mem s) = Ok c' w ->
    step s (mkSystem w (upd (harts s) h (mkHart hs (Busy o c'))))
| step_spin s h hs o c w :
    harts s h = mkHart hs (Busy o c) -> advance c (mem s) = Blocked w ->
    step s (mkSystem w (harts s))
| step_panic s h hs o c msg w :
    harts s h = mkHart hs (Busy o c) -> advance c (mem s) = Panic msg w ->
    step s (mkSystem w (upd (harts s) h (mkHart hs (Stopped o msg))))
| step_return s h hs o r :
    harts s h = mkHart hs (Busy o (Ret r)) ->
    step s (mkSystem (mem s) (upd (harts s) h (mkHart (after o hs) Idle))).

Definition initial (s : system) : Prop :=
  (forall l, locked (locks (mem s) l) = 0 /\ cpu (locks (mem s) l) = None) /\
  (forall h, harts s h = mkHart [] Idle /\ noff (cpus (mem s) h) = 0).

Inductive reachable : system -> Prop :=
| reach_init s : initial s -> reachable s
| reach_step s s' : reachable s -> step s s' -> reachable s'.

(** Hart [h] is in the critical section of [l]: its [acquire] has returned and it
    has not called [release]. *)
Definition inside (s : system) (h : nat) (l : L) : Prop :=
  l ∈ held (harts s h) /\ forall c, act (harts s h) <> Busy (Rel l) c.
End Code.
End Smp.

(** ** The lock words and who is where

    The same system with a program counter per hart instead of the code it has
    left, and without the harts' own state.  The invariant is proved here and
    carried to the code by a simulation. *)
Module Harts.
Section Code.
Context {L : Type} `{EqDecision L}.
Import Smp(upd).

(** Where a hart is inside [acquire] or [release].  The local
    [push_off]/[pop_off] accesses touch nothing shared. *)
Inductive pc :=
| Run                     (* outside acquire and release *)
| AcqCheck (l : L)        (* about to evaluate holding(lk) *)
| AcqSwap (l : L)         (* spinning on the atomic swap *)
| AcqSet (l : L)          (* swap returned 0, about to set lk->cpu *)
| RelCheck (l : L)
| RelClear (l : L)        (* about to store lk->cpu = 0 *)
| RelStore (l : L)        (* about to store lk->locked = 0 *)
| Panicked (msg : string) (l : L).

Record hart := mkHart { held : list L; at_ : pc }.

Record word := mkWord { locked : Z; owner : option nat }.

Record state := mkState { words : L -> word; harts : nat -> hart }.

Definition set_hart (s : state) (h : nat) (t : hart) : state :=
  mkState (words s) (upd (harts s) h t).

Definition holding (s : state) (h : nat) (l : L) : bool :=
  z2b (locked (words s l)) && bool_decide (owner (words s l) = Some h).

Inductive step : state -> state -> Prop :=
| step_acquire s h hs l :
    harts s h = mkHart hs Run ->
    step s (set_hart s h (mkHart hs (AcqCheck l)))
| step_acq_panic s h hs l :
    harts s h = mkHart hs (AcqCheck l) -> holding s h l = true ->
    step s (set_hart s h (mkHart hs (Panicked "acquire" l)))
| step_acq_checked s h hs l :
    harts s h = mkHart hs (AcqCheck l) -> holding s h l = false ->
    step s (set_hart s h (mkHart hs (AcqSwap l)))
| step_acq_spin s h hs l :
    harts s h = mkHart hs (AcqSwap l) -> locked (words s l) <> 0 ->
    step s (mkState (upd (words s) l (mkWord 1 (owner (words s l)))) (harts s))
| step_acq_swap s h hs l :
    harts s h = mkHart hs (AcqSwap l) -> locked (words s l) = 0 ->
    step s (mkState (upd (words s) l (mkWord 1 (owner (words s l))))
                    (upd (harts s) h (mkHart hs (AcqSet l))))
| step_acq_set s h hs l :
    harts s h = mkHart hs (AcqSet l) ->
    step s (mkState (upd (words s) l (mkWord (locked (words s l)) (Some h)))
                    (upd (harts s) h (mkHart (l :: hs) Run)))
| step_release s h hs l :
    harts s h = mkHart hs Run ->
    step s (set_hart s h (mkHart hs (RelCheck l)))
| step_rel_panic s h hs l :
    harts s h = mkHart hs (RelCheck l) -> holding s h l = false ->
    step s (set_hart s h (mkHart hs (Panicked "release" l)))
| step_rel_checked s h hs l :
    harts s h = mkHart hs (RelCheck l) -> holding s h l = true ->
    step s (set_hart s h (mkHart hs (RelClear l)))
| step_rel_clear s h hs l :
    harts s h = mkHart hs (RelClear l) ->
    step s (mkState (upd (words s) l (mkWord (locked (words s l)) None))
                    (upd (harts s) h (mkHart (LockSpec.remove1 l hs) (RelStore l))))
| step_rel_store s h hs l :
    harts s h = mkHart hs (RelStore l) ->
    step s (mkState (upd (words s) l (mkWord 0 (owner (words s l))))
                    (upd (harts s) h (mkHart hs Run))).

Definition initial (s : state) : Prop :=
  (forall l, words s l = mkWord 0 None) /\ (forall h, harts s h = mkHart [] Run).

(** Hart [h] has won the swap on [l] and has not yet stored 0 to it. *)
Definition owns (s : state) (h : nat) (l : L) : Prop :=
  l ∈ held (harts s h) \/ at_ (harts s h) = AcqSet l \/ at_ (harts s h) = RelStore l.

Record inv (s : state) : Prop := {
  inv_word : forall l, locked (words s l) = 0 \/ locked (words s l) = 1;
  inv_locked : forall h l, owns s h l -> locked (words s l) = 1;
  inv_some : forall l, locked (words s l) = 1 -> exists h, owns s h l;
  inv_unique : forall h1 h2 l, owns s h1 l -> owns s h2 l -> h1 = h2;
  inv_owner : forall h l, owner (words s l) = Some h <-> l ∈ held (harts s h);
  inv_set : forall h l, at_ (harts s h) = AcqSet l -> l ∉ held (harts s h);
  inv_clear : forall h l, at_ (harts s h) = RelClear l -> l ∈ held (harts s h);
  inv_store : forall h l, at_ (harts s h) = RelStore l -> l ∉ held (harts s h);
  inv_acq : forall h l, at_ (harts s h) = Panicked "acquire" l -> l ∈ held (harts s h);
  inv_rel : forall h l, at_ (harts s h) = Panicked "release" l -> l ∉ held (harts s h);
}.
End Code.
End Harts.

(** ** Facts about the interleaved code *)
Section HartsFacts.
Context {L : Type} `{EqDecision L}.
Import Smp(upd) Harts.
Implicit Types (s : Harts.state (L := L)) (h : nat) (l : L).

Lemma upd_eq {A B} `{EqDecision A} (f : A -> B) a b : upd f a b a = b.
Proof. unfold upd. by rewrite decide_True. Qed.
Lemma upd_ne {A B} `{EqDecision A} (f : A -> B) a b x : x <> a -> upd f a b x = f x.
Proof. intros. unfold upd. by rewrite decide_False. Qed.

Lemma initial_inv s : initial s -> inv s.
Proof.
  intros [Hw Hh]. constructor; unfold owns; intros *; rewrite ?Hw, ?Hh; simpl;
    try set_solver; naive_solver.
Qed.

Lemma inv_holding s h l : inv s -> holding s h l = bool_decide (l ∈ held (harts s h)).
Proof.
  intros I. unfold holding. pose proof (inv_owner _ I h l) as Ho.
  destruct (bool_decide_reflect (l ∈ held (harts s h))) as [Hl|Hl].
  - rewrite (inv_locked _ I h l) by (by left). rewrite bool_decide_true by tauto. done.
  - rewrite bool_decide_false by tauto. apply andb_false_r.
Qed.

Ltac split_upd :=
  repeat match goal with
  | |- context [upd _ ?a _ ?x] =>
      destruct (decide (x = a)) as [->|]; [rewrite !upd_eq|rewrite !upd_ne by done]
  | H : context [upd _ ?a _ ?x] |- _ =>
      destruct (decide (x = a)) as [->|]; [rewrite !upd_eq in H|rewrite !upd_ne in H by done]
  end.

Definition quiet (p : pc (L := L)) : Prop := forall l, p <> AcqSet l /\ p <> RelStore l.

(** Who owns what after hart [h] moves to [t]. *)
Lemma owns_upd s ws h t h' l :
  owns (mkState ws (upd (harts s) h t)) h' l <->
  (if decide (h' = h) then l ∈ held t \/ at_ t = AcqSet l \/ at_ t = RelStore l
   else owns s h' l).
Proof. unfold owns. simpl. case_decide; subst; by rewrite ?upd_eq, ?upd_ne. Qed.

(** A move inside the code of one hart that touches no lock word. *)
Lemma local_inv s h hs p p' :
  inv s -> harts s h = mkHart hs p -> quiet p -> quiet p' ->
  (forall l, p' = RelClear l -> l ∈ hs) ->
  (forall l, p' = Panicked "acquire" l -> l ∈ hs) ->
  (forall l, p' = Panicked "release" l -> l ∉ hs) ->
  inv (set_hart s h (mkHart hs p')).
Proof.
  intros I Eh Hp Hp' Hc Ha Hr.
  assert (forall x l, owns (set_hart s h (mkHart hs p')) x l <-> owns s x l) as Ho.
  { intros x l. unfold set_hart. rewrite owns_upd. case_decide; subst; [|done].
    unfold owns. rewrite Eh. simpl. specialize (Hp l). specialize (Hp' l). tauto. }
  constructor.
  - apply I.
  - intros x l. rewrite Ho. apply I.
  - intros l Hl. destruct (inv_some _ I l Hl) as [x Hx]. exists x. by apply Ho.
  - intros h1 h2 l. rewrite !Ho. apply I.
  - intros x l. simpl. split_upd; simpl; [|apply I].
    rewrite (inv_owner _ I), Eh. done.
  - intros x l. simpl. split_upd; simpl; [|apply I]. intros E. by destruct (Hp' l).
  - intros x l. simpl. split_upd; simpl; [|apply I]. eauto.
  - intros x l. simpl. split_upd; simpl; [|apply I]. intros E. by destruct (Hp' l).
  - intros x l. simpl. split_upd; simpl; [|apply I]. eauto.
  - intros x l. simpl. split_upd; simpl; [|apply I]. eauto.
Qed.

Lemma inv_ext s ws : (forall l, ws l = words s l) -> inv s -> inv (mkState ws (harts s)).
Proof.
  intros E I. constructor; unfold owns; simpl; intros *; rewrite ?E; apply I.
Qed.

Lemma swap_inv s h hs l :
  inv s -> harts s h = mkHart hs (AcqSwap l) -> locked (words s l) = 0 ->
  inv (mkState (upd (words s) l (mkWord 1 (owner (words s l))))
               (upd (harts s) h (mkHart hs (AcqSet l)))).
Proof.
  intros I Eh E.
  assert (forall x, ~ owns s x l) as Hno.
  { intros x Hx%(inv_locked _ I). lia. }
  assert (l ∉ hs) as Hl.
  { intros Hl. apply (Hno h). left. by rewrite Eh. }
  assert (forall x y, owns s h y <-> (if decide (x = h) then y ∈ hs else owns s h y)) as Hh.
  { intros x y. case_decide; [|done]. unfold owns. rewrite Eh. simpl. naive_solver. }
  constructor; simpl.
  - intros x. split_upd; [by right|apply I].
  - intros x y. rewrite owns_upd. simpl. case_decide; subst.
    + split_upd; [done|]. intros Hx. apply (inv_locked _ I h). left. rewrite Eh. naive_solver.
    + intros Hx. split_upd; [done|]. by apply (inv_locked _ I x).
  - intros x. split_upd.
    + intros _. exists h. rewrite owns_upd, decide_True by done. naive_solver.
    + intros Hx. destruct (inv_some _ I x Hx) as [y Hy]. exists y.
      rewrite owns_upd. case_decide; [|done]. subst. left.
      unfold owns in Hy. rewrite Eh in Hy. simpl in *. naive_solver.
  - intros x y z. rewrite !owns_upd. simpl.
    assert (forall w, owns s w z -> h <> w -> z ∈ hs \/ AcqSet l = AcqSet z \/
              AcqSet l = RelStore z -> w = h) as Hx.
    { intros w Hw Hne [Hz|[E'|E']]; [|injection E' as <-; by destruct (Hno w)|discriminate].
      eapply (inv_unique _ I); [done|]. left. by rewrite Eh. }
    repeat case_decide; subst; intros; try done; [symmetry| |]; try (by eauto using inv_unique); eauto.
  - intros x y. pose proof (inv_owner _ I x y) as Ho.
    split_upd; rewrite ?Eh in Ho; done.
  - intros x y. split_upd; simpl; [by intros [= <-]|apply I].
  - intros x y. split_upd; simpl; [done|apply I].
  - intros x y. split_upd; simpl; [done|apply I].
  - intros x y. split_upd; simpl; [done|apply I].
  - intros x y. split_upd; simpl; [done|apply I].
Qed.

Lemma set_inv s h hs l :
  inv s -> harts s h = mkHart hs (AcqSet l) ->
  inv (mkState (upd (words s) l (mkWord (locked (words s l)) (Some h)))
               (upd (harts s) h (mkHart (l :: hs) Run))).
Proof.
  intros I Eh.
  assert (owns s h l) as Hown by (right; left; by rewrite Eh).
  pose proof (inv_locked _ I h l Hown) as E.
  assert (l ∉ hs) as Hl by (pose proof (inv_set _ I h l) as Hs; rewrite Eh in Hs; by apply Hs).
  assert (forall x y, owns (mkState (upd (words s) l (mkWord (locked (words s l)) (Some h)))
            (upd (harts s) h (mkHart (l :: hs) Run))) x y <-> owns s x y) as Ho.
  { intros x y. rewrite owns_upd. case_decide; [|done]. subst. unfold owns. rewrite Eh. simpl.
    rewrite elem_of_cons. naive_solver. }
  constructor.
  - intros x. simpl. split_upd; simpl; apply I.
  - intros x y. rewrite Ho. simpl. split_upd; simpl; apply I.
  - intros y. simpl. intros Hy. assert (locked (words s y) = 1) as (x & Hx)%(inv_some _ I).
    { revert Hy. by split_upd. }
    exists x. by apply Ho.
  - intros x y z. rewrite !Ho. apply I.
  - intros x y. pose proof (inv_owner _ I x y) as Hw. simpl. split_upd; simpl.
    + rewrite elem_of_cons. naive_solver.
    + split; [by intros [= ->]|]. intros Hx.
      assert (x = h); [|done]. eapply (inv_unique _ I); [by left|done].
    + rewrite Eh in Hw. rewrite elem_of_cons. simpl in Hw. naive_solver.
    + done.
  - intros x y. simpl. split_upd; simpl; [done|apply I].
  - intros x y. simpl. split_upd; simpl; [done|apply I].
  - intros x y. simpl. split_upd; simpl; [done|apply I].
  - intros x y. simpl. split_upd; simpl; [done|apply I].
  - intros x y. simpl. split_upd; simpl; [done|apply I].
Qed.

Lemma clear_inv s h hs l :
  inv s -> harts s h = mkHart hs (RelClear l) ->
  inv (mkState (upd (words s) l (mkWord (locked (words s l)) None))
               (upd (harts s) h (mkHart (LockSpec.remove1 l hs) (RelStore l)))).
Proof.
  intros I Eh.
  assert (l ∈ hs) as Hl by (pose proof (inv_clear _ I h l) as Hs; rewrite Eh in Hs; by apply Hs).
  assert (forall x y, owns (mkState (upd (words s) l (mkWord (locked (words s l)) None))
            (upd (harts s) h (mkHart (LockSpec.remove1 l hs) (RelStore l)))) x y <->
            owns s x y) as Ho.
  { intros x y. rewrite owns_upd. case_decide; [|done]. subst. unfold owns. rewrite Eh. simpl.
    rewrite elem_remove1. destruct (decide (y = l)); naive_solver. }
  constructor.
  - intros x. simpl. split_upd; simpl; apply I.
  - intros x y. rewrite Ho. simpl. split_upd; simpl; apply I.
  - intros y. simpl. intros Hy. assert (locked (words s y) = 1) as (x & Hx)%(inv_some _ I).
    { revert Hy. by split_upd. }
    exists x. by apply Ho.
  - intros x y z. rewrite !Ho. apply I.
  - intros x y. pose proof (inv_owner _ I x y) as Hw. simpl. split_upd; simpl.
    + rewrite elem_remove1. naive_solver.
    + split; [done|]. intros Hx. assert (x = h); [|done].
      eapply (inv_unique _ I); [by left|]. left. by rewrite Eh.
    + rewrite Eh in Hw. rewrite elem_remove1. simpl in Hw. naive_solver.
    + done.
  - intros x y. simpl. split_upd; simpl; [done|apply I].
  - intros x y. simpl. split_upd; simpl; [done|apply I].
  - intros x y. simpl. split_upd; simpl; [|apply I].
    intros [= <-]. rewrite elem_remove1. naive_solver.
  - intros x y. simpl. split_upd; simpl; [done|apply I].
  - intros x y. simpl. split_upd; simpl; [done|apply I].
Qed.

Lemma store_inv s h hs l :
  inv s -> harts s h = mkHart hs (RelStore l) ->
  inv (mkState (upd (words s) l (mkWord 0 (owner (words s l))))
               (upd (harts s) h (mkHart hs Run))).
Proof.
  intros I Eh.
  assert (owns s h l) as Hown by (right; right; by rewrite Eh).
  assert (l ∉ hs) as Hl by (pose proof (inv_store _ I h l) as Hs; rewrite Eh in Hs; by apply Hs).
  assert (forall x y, owns (mkState (upd (words s) l (mkWord 0 (owner (words s l))))
            (upd (harts s) h (mkHart hs Run))) x y <-> owns s x y /\ y <> l) as Ho.
  { intros x y. rewrite owns_upd. case_decide as Hx.
    - subst. unfold owns. rewrite Eh. simpl. destruct (decide (y = l)); naive_solver.
    - split; [|tauto]. intros Hy. split; [done|]. intros ->. apply Hx.
      by eapply (inv_unique _ I). }
  constructor.
  - intros x. simpl. split_upd; simpl; [by left|apply I].
  - intros x y. rewrite Ho. intros [Hy Hne]. simpl. rewrite upd_ne by done. by apply (inv_locked _ I x).
  - intros y. simpl. split_upd; [done|]. intros (x & Hx)%(inv_some _ I).
    exists x. by apply Ho.
  - intros x y z. rewrite !Ho. intros [??] [??]. by apply (inv_unique _ I x y z).
  - intros x y. pose proof (inv_owner _ I x y) as Hw. simpl.
    split_upd; simpl; rewrite ?Eh in Hw; done.
  - intros x y. simpl. split_upd; simpl; [done|apply I].
  - intros x y. simpl. split_upd; simpl; [done|apply I].
  - intros x y. simpl. split_upd; simpl; [done|apply I].
  - intros x y. simpl. split_upd; simpl; [done|apply I].
  - intros x y. simpl. split_upd; simpl; [done|apply I].
Qed.

Lemma step_inv s s' : inv s -> step s s' -> inv s'.
Proof.
  intros I Hs. destruct Hs as
    [s h hs l Eh|s h hs l Eh E|s h hs l Eh E|s h hs l Eh E|s h hs l Eh E|s h hs l Eh
    |s h hs l Eh|s h hs l Eh E|s h hs l Eh E|s h hs l Eh|s h hs l Eh].
  all: try rewrite (inv_holding s h l I) in E.
  all: try (rewrite Eh in E; simpl in E).
  1-3, 7-9: eapply local_inv; [done..| | |]; try done; try (intros ?; split; done);
    intros ?; try (intros [= <-]); try done;
    by (apply bool_decide_eq_true in E || apply bool_decide_eq_false in E).
  - apply inv_ext; [|done]. intros x. split_upd; [|done].
    destruct (inv_word _ I l) as [|E1]; [done|]. by destruct (words s l); simpl in *; subst.
  - by apply swap_inv.
  - by apply set_inv.
  - by apply clear_inv.
  - by apply store_inv.
Qed.
End HartsFacts.

(** ** The code simulates the program counters *)
Section Simulation.
Context {L : Type} `{EqDecision L}.
Import Spinlock Smp.
Implicit Types (s : system (L := L)) (t : Harts.state (L := L)) (h : nat) (l : L).

(** What [acquire], [release] and [holding] have left to do at each point. *)
Definition acq_set h l : code (state L) (option bool) :=
  _ <~ atom (modify (upd_lock l (fun k => mkSpinlock (locked k) (name k) (Some h)))) ;; Ret None.
Definition acq_rest h l (b : bool) : code (state L) unit :=
  if b then atom (panic "acquire") else
  _ <~ atom (swap l) ;;
  atom (modify (upd_lock l (fun k => mkSpinlock (locked k) (name k) (Some h)))).
Definition acq_checked h l (b : bool) : code (state L) (option bool) := _ <~ acq_rest h l b ;; Ret None.
Definition acq_check h l : code (state L) (option bool) :=
  _ <~ (b <~ holding_code h l ;; acq_rest h l b) ;; Ret None.
Definition acq_cpu h l : code (state L) (option bool) :=
  c <~ atom (gets (fun w => cpu (locks w l))) ;; acq_checked h l (bool_decide (c = Some h)).
Definition rel_pop h : code (state L) (option bool) := _ <~ atom (pop_off h) ;; Ret None.
Definition rel_store h l : code (state L) (option bool) :=
  _ <~ atom (modify (upd_lock l (fun k => mkSpinlock 0 (name k) (cpu k)))) ;; rel_pop h.
Definition rel_checked h l (b : bool) : code (state L) (option bool) :=
  _ <~ (if negb b then atom (panic "release") else
        _ <~ atom (modify (upd_lock l (fun k => mkSpinlock (locked k) (name k) None))) ;;
        _ <~ atom (modify (upd_lock l (fun k => mkSpinlock 0 (name k) (cpu k)))) ;;
        atom (pop_off h)) ;; Ret None.
Definition rel_cpu h l : code (state L) (option bool) :=
  c <~ atom (gets (fun w => cpu (locks w l))) ;; rel_checked h l (bool_decide (c = Some h)).
Definition hold_cpu h l : code (state L) (option bool) :=
  c <~ atom (gets (fun w => cpu (locks w l))) ;; Ret (Some (bool_decide (c = Some h))).

(** Where a hart is, and how many more [push_off]s than locks it has done. *)
Inductive at_pc h : hart (L := L) -> Harts.hart (L := L) -> Z -> Prop :=
| at_idle hs : at_pc h (mkHart hs Idle) (Harts.mkHart hs Harts.Run) 0
| at_acq hs l : at_pc h (mkHart hs (Busy (Acq l) (op_code h (Acq l)))) (Harts.mkHart hs (Harts.AcqCheck l)) 0
| at_acq_check hs l : at_pc h (mkHart hs (Busy (Acq l) (acq_check h l))) (Harts.mkHart hs (Harts.AcqCheck l)) 1
| at_acq_cpu hs l : at_pc h (mkHart hs (Busy (Acq l) (acq_cpu h l))) (Harts.mkHart hs (Harts.AcqCheck l)) 1
| at_acq_twice hs l : at_pc h (mkHart hs (Busy (Acq l) (acq_checked h l true)))
    (Harts.mkHart hs (Harts.Panicked "acquire" l)) 1
| at_acq_swap hs l : at_pc h (mkHart hs (Busy (Acq l) (acq_checked h l false)))
    (Harts.mkHart hs (Harts.AcqSwap l)) 1
| at_acq_set hs l : at_pc h (mkHart hs (Busy (Acq l) (acq_set h l))) (Harts.mkHart hs (Harts.AcqSet l)) 1
| at_acq_done hs l : at_pc h (mkHart hs (Busy (Acq l) (Ret None))) (Harts.mkHart (l :: hs) Harts.Run) 0
| at_acq_stop hs l : at_pc h (mkHart hs (Stopped (Acq l) "acquire")) (Harts.mkHart hs (Harts.Panicked "acquire" l)) 1
| at_rel hs l : at_pc h (mkHart hs (Busy (Rel l) (op_code h (Rel l)))) (Harts.mkHart hs (Harts.RelCheck l)) 0
| at_rel_cpu hs l : at_pc h (mkHart hs (Busy (Rel l) (rel_cpu h l))) (Harts.mkHart hs (Harts.RelCheck l)) 0
| at_rel_free hs l : at_pc h (mkHart hs (Busy (Rel l) (rel_checked h l false)))
    (Harts.mkHart hs (Harts.Panicked "release" l)) 0
| at_rel_clear hs l : at_pc h (mkHart hs (Busy (Rel l) (rel_checked h l true))) (Harts.mkHart hs (Harts.RelClear l)) 0
| at_rel_store hs l : at_pc h (mkHart hs (Busy (Rel l) (rel_store h l)))
    (Harts.mkHart (LockSpec.remove1 l hs) (Harts.RelStore l)) 1
| at_rel_pop hs l : at_pc h (mkHart hs (Busy (Rel l) (rel_pop h))) (Harts.mkHart (LockSpec.remove1 l hs) Harts.Run) 1
| at_rel_done hs l : at_pc h (mkHart hs (Busy (Rel l) (Ret None))) (Harts.mkHart (LockSpec.remove1 l hs) Harts.Run) 0
| at_rel_stop hs l : at_pc h (mkHart hs (Stopped (Rel l) "release")) (Harts.mkHart hs (Harts.Panicked "release" l)) 0
| at_hold hs l : at_pc h (mkHart hs (Busy (Hold l) (op_code h (Hold l)))) (Harts.mkHart hs Harts.Run) 0
| at_hold_cpu hs l : at_pc h (mkHart hs (Busy (Hold l) (hold_cpu h l))) (Harts.mkHart hs Harts.Run) 0
| at_hold_done hs l : at_pc h (mkHart hs (Busy (Hold l) (Ret (Some (bool_decide (l ∈ hs)))))) (Harts.mkHart hs Harts.Run) 0.

Definition same_word (k : spinlock) (w : Harts.word) : Prop :=
  locked k = Harts.locked w /\ cpu k = Harts.owner w.

(** The hart's own state: [noff] counts its locks and interrupts are off while it
    is not 0. *)
Record own_ok (w : state L) h (hs : list L) (b : Z) : Prop := {
  oo_noff : noff (cpus w h) = Z.of_nat (length hs) + b;
  oo_nodup : NoDup hs;
  oo_sie : noff (cpus w h) <> 0 -> sie w h = false;
}.

Definition hart_ok (w : state L) h (x : hart (L := L)) (y : Harts.hart (L := L)) : Prop :=
  exists b, at_pc h x y b /\ own_ok w h (Harts.held y) b.

Record sim s t : Prop := {
  sim_inv : Harts.inv t;
  sim_words : forall l, same_word (locks (mem s) l) (Harts.words t l);
  sim_hart : forall h, hart_ok (mem s) h (harts s h) (Harts.harts t h);
}.

Lemma own_ok_ext w w' h hs b : cpus w' h = cpus w h -> own_ok w h hs b -> own_ok w' h hs b.
Proof. intros E [Hn Hd Hs]. unfold sie in *. constructor; unfold sie; rewrite ?E; done. Qed.

(** One hart moves. *)
Lemma sim_move s t t' h w x y :
  sim s t -> t' = t \/ Harts.step t t' -> (forall g, Harts.harts t' g = upd (Harts.harts t) h y g) ->
  (forall l, same_word (locks w l) (Harts.words t' l)) ->
  (forall g, g <> h -> cpus w g = cpus (mem s) g) ->
  hart_ok w h x y -> sim (mkSystem w (upd (harts s) h x)) t'.
Proof.
  intros [I Hw Hh] Ht Hu Hw' Hc Hx. constructor; simpl.
  - destruct Ht as [->|Ht]; [done|]. by eapply step_inv.
  - done.
  - intros g. rewrite Hu. destruct (decide (g = h)) as [->|Hg]; [by rewrite !upd_eq|].
    rewrite !upd_ne by done. destruct (Hh g) as (b & Ha & Ho). exists b. split; [done|].
    by apply (own_ok_ext (mem s)); [apply Hc|].
Qed.

(** It moves in its code alone. *)
Lemma sim_stay s t h w x :
  sim s t -> locks w = locks (mem s) -> (forall g, g <> h -> cpus w g = cpus (mem s) g) ->
  hart_ok w h x (Harts.harts t h) -> sim (mkSystem w (upd (harts s) h x)) t.
Proof.
  intros H Hl Hc Hx. apply (sim_move s t t h w x (Harts.harts t h)); try done; [by left| |].
  - intros g. unfold upd. case_decide; by subst.
  - intros l. rewrite Hl. apply H.
Qed.

(** It moves without a change of memory. *)
Lemma sim_go s t h x y :
  sim s t -> Harts.step t (Harts.set_hart t h y) -> hart_ok (mem s) h x y ->
  sim (mkSystem (mem s) (upd (harts s) h x)) (Harts.set_hart t h y).
Proof.
  intros H Ht Hx. apply (sim_move s t _ h (mem s) x y); try done; [by right|]. apply H.
Qed.

(** It writes one lock word. *)
Lemma sim_write s t h l f v x y :
  sim s t -> Harts.step t (Harts.mkState (upd (Harts.words t) l v) (upd (Harts.harts t) h y)) ->
  same_word (f (locks (mem s) l)) v -> hart_ok (mem s) h x y ->
  sim (mkSystem (upd_lock l f (mem s)) (upd (harts s) h x))
    (Harts.mkState (upd (Harts.words t) l v) (upd (Harts.harts t) h y)).
Proof.
  intros H Ht Hv (b & Ha & Ho). eapply (sim_move s t _ h _ x y); try done; [by right|..].
  - intros l'. simpl. unfold upd. case_decide; [by subst|]. apply H.
  - exists b. split; [done|]. by apply (own_ok_ext (mem s)).
Qed.

Lemma push_off_frame h (w w' : state L) g :
  push_off h w = Ok tt w' -> g <> h -> cpus w' g = cpus w g.
Proof.
  unfold push_off, intr_get, intr_off, bind, gets, modify, ret, when. intros E Hg. simpl in E.
  rewrite decide_True in E by done. simpl in E.
  destruct (_ =? 0) in E; injection E as <-; simpl; by rewrite !decide_False by done.
Qed.

Lemma pop_off_frame h (w w' : state L) g :
  pop_off h w = Ok tt w' -> g <> h -> cpus w' g = cpus w g.
Proof.
  unfold pop_off, intr_get, intr_on, bind, gets, modify, ret, when, panic. intros E Hg. simpl in E.
  destruct (z2b _) in E; [done|]. destruct (_ <? _) in E; [done|].
  destruct (_ && _) in E; injection E as <-; simpl; by rewrite !decide_False by done.
Qed.

Lemma push_off_own h w hs : own_ok w h hs 0 ->
  exists w', push_off h w = Ok tt w' /\ locks w' = locks w /\ own_ok w' h hs 1.
Proof.
  intros [Hn Hd Hs]. destruct (push_off_ok h w) as (w' & E & Hl & Hn' & _ & Hs').
  exists w'. split_and!; [done|done|]. constructor; [lia|done|done].
Qed.

Lemma pop_off_own h w hs : own_ok w h hs 1 ->
  exists w', pop_off h w = Ok tt w' /\ locks w' = locks w /\ own_ok w' h hs 0.
Proof.
  intros [Hn Hd Hs]. destruct (pop_off_ok h w) as (w' & E & Hl & Hn' & _ & Hs'); [lia|apply Hs; lia|].
  exists w'. split_and!; [done|done|]. constructor; [lia|done|]. rewrite Hs', Hn'. intros Hne.
  apply andb_false_iff. left. apply Z.eqb_neq. lia.
Qed.

(** What the loads of [holding] see. *)
Lemma sim_cpu s t h l : sim s t ->
  bool_decide (cpu (locks (mem s) l) = Some h) = bool_decide (l ∈ Harts.held (Harts.harts t h)).
Proof.
  intros H. destruct (sim_words _ _ H l) as [_ ->]. apply bool_decide_ext. apply Harts.inv_owner, H.
Qed.

Lemma sim_unlocked s t h l : sim s t -> z2b (locked (locks (mem s) l)) = false ->
  l ∉ Harts.held (Harts.harts t h).
Proof.
  intros H Hz Hl. destruct (sim_words _ _ H l) as [E _].
  pose proof (Harts.inv_locked _ (sim_inv _ _ H) h l (or_introl Hl)) as E'.
  by rewrite E, E' in Hz.
Qed.

(** Where the hart of [Es : harts s h = _] is in its code: [Et] is its program
    counter, [Ho] its own state. *)
Ltac at_cases H Es Et Ho :=
  let Hat := fresh in let b := fresh "b" in let E := fresh in
  match type of Es with harts ?s ?h = _ =>
    destruct (sim_hart _ _ H h) as (b & Hat & Ho); rewrite Es in Hat;
    inversion Hat; subst; clear Hat;
    match goal with E : Harts.mkHart _ _ = Harts.harts _ _ |- _ =>
      rewrite <- ?E in *; simpl in *; symmetry in E; rename E into Et
    end
  end.

Ltac access H := cbn in H; unfold bind, gets, modify, panic, ret in H; cbn in H; try discriminate H.

Lemma acq_checks s t h hs l (b : bool) : sim s t ->
  Harts.harts t h = Harts.mkHart hs (Harts.AcqCheck l) -> own_ok (mem s) h hs 1 ->
  b = bool_decide (l ∈ hs) ->
  exists t', sim (mkSystem (mem s) (upd (harts s) h (mkHart hs (Busy (Acq l) (acq_checked h l b))))) t'.
Proof.
  intros H Et Ho ->. pose proof (inv_holding t h l (sim_inv _ _ H)) as E. rewrite Et in E. simpl in E.
  destruct (bool_decide (l ∈ hs)) eqn:Eb.
  - eexists. eapply sim_go; [done|by eapply Harts.step_acq_panic|]. exists 1. split; [constructor|done].
  - eexists. eapply sim_go; [done|by eapply Harts.step_acq_checked|]. exists 1. split; [constructor|done].
Qed.

Lemma acq_access s t h hs l c c' w : sim s t ->
  harts s h = mkHart hs (Busy (Acq l) c) -> advance c (mem s) = Ok c' w ->
  exists t', sim (mkSystem w (upd (harts s) h (mkHart hs (Busy (Acq l) c')))) t'.
Proof.
  intros H Es Ha. pose proof (sim_cpu s t h l H) as Hcpu. pose proof (sim_unlocked s t h l H) as Hfree.
  at_cases H Es Et Ho.
  - destruct (push_off_own h (mem s) hs Ho) as (w1 & E & Hl & Ho1). cbn in Ha. unfold bind in Ha.
    rewrite E in Ha. injection Ha as <- <-. exists t. apply sim_stay; [done|done| |].
    + intros g. by apply push_off_frame.
    + exists 1. rewrite Et. split; [apply at_acq_check|done].
  - access Ha. injection Ha as <- <-. destruct (z2b _) eqn:Ez.
    + exists t. apply sim_stay; [done..|]. exists 1. rewrite Et. split; [apply at_acq_cpu|done].
    + apply (acq_checks s t h hs l false); try done. rewrite bool_decide_eq_false_2; auto.
  - access Ha. injection Ha as <- <-. rewrite Hcpu. by apply (acq_checks s t h hs l).
  - access Ha.
  - access Ha. unfold swap, test_and_set, bind, gets, modify, blocked, ret in Ha. 
    destruct (Z.eqb_spec (locked (locks (mem s) l)) 0) as [E0|]; [|done]. injection Ha as <- <-.
    destruct (sim_words _ _ H l) as [Hlk Hw]. eexists. eapply sim_write; [done|eapply Harts.step_acq_swap; [done|lia]| |].
    + done.
    + exists 1. split; [apply at_acq_set|done].
  - access Ha. injection Ha as <- <-. destruct (sim_words _ _ H l) as [Hlk Hw].
    eexists. eapply sim_write; [done|by eapply Harts.step_acq_set|done|].
    exists 0. split; [apply at_acq_done|]. destruct Ho as [Hn Hd Hs]. constructor; [simpl; lia| |done].
    apply NoDup_cons. split; [|done]. pose proof (Harts.inv_set _ (sim_inv _ _ H) h l) as Hx.
    rewrite Et in Hx. by apply Hx.
  - access Ha. injection Ha as <- <-. exists t. apply sim_stay; [done..|]. exists 0. rewrite Et. split; [apply at_acq_done|done].
Qed.

Lemma rel_checks s t h hs l (b : bool) : sim s t ->
  Harts.harts t h = Harts.mkHart hs (Harts.RelCheck l) -> own_ok (mem s) h hs 0 ->
  b = bool_decide (l ∈ hs) ->
  exists t', sim (mkSystem (mem s) (upd (harts s) h (mkHart hs (Busy (Rel l) (rel_checked h l b))))) t'.
Proof.
  intros H Et Ho ->. pose proof (inv_holding t h l (sim_inv _ _ H)) as E. rewrite Et in E. simpl in E.
  destruct (bool_decide (l ∈ hs)) eqn:Eb.
  - eexists. eapply sim_go; [done|by eapply Harts.step_rel_checked|]. exists 0. split; [constructor|done].
  - eexists. eapply sim_go; [done|by eapply Harts.step_rel_panic|]. exists 0. split; [constructor|done].
Qed.

Lemma rel_access s t h hs l c c' w : sim s t ->
  harts s h = mkHart hs (Busy (Rel l) c) -> advance c (mem s) = Ok c' w ->
  exists t', sim (mkSystem w (upd (harts s) h (mkHart hs (Busy (Rel l) c')))) t'.
Proof.
  intros H Es Ha. pose proof (sim_cpu s t h l H) as Hcpu. pose proof (sim_unlocked s t h l H) as Hfree.
  at_cases H Es Et Ho.
  - access Ha. injection Ha as <- <-. destruct (z2b _) eqn:Ez.
    + exists t. apply sim_stay; [done..|]. exists 0. rewrite Et. split; [apply at_rel_cpu|done].
    + apply (rel_checks s t h hs l false); try done. rewrite bool_decide_eq_false_2; auto.
  - access Ha. injection Ha as <- <-. rewrite Hcpu. by apply (rel_checks s t h hs l).
  - access Ha.
  - access Ha. injection Ha as <- <-. destruct (sim_words _ _ H l) as [Hlk Hw].
    pose proof (Harts.inv_clear _ (sim_inv _ _ H) h l) as Hx. rewrite Et in Hx. specialize (Hx eq_refl).
    eexists. eapply sim_write; [done|by eapply Harts.step_rel_clear|done|].
    exists 1. split; [apply at_rel_store|]. destruct Ho as [Hn Hd Hs].
    pose proof (length_remove1 l hs Hd Hx). constructor; [simpl; lia|by apply NoDup_filter|done].
  - access Ha. injection Ha as <- <-. destruct (sim_words _ _ H l) as [Hlk Hw].
    eexists. eapply sim_write; [done|by eapply Harts.step_rel_store|done|].
    exists 1. split; [apply at_rel_pop|done].
  - destruct (pop_off_own h (mem s) _ Ho) as (w1 & E & Hl & Ho1). cbn in Ha. unfold bind in Ha.
    rewrite E in Ha. injection Ha as <- <-. exists t. apply sim_stay; [done|done| |].
    + intros g. by apply pop_off_frame.
    + exists 0. rewrite Et. split; [apply at_rel_done|done].
  - access Ha. injection Ha as <- <-. exists t. apply sim_stay; [done..|]. exists 0. rewrite Et. split; [apply at_rel_done|done].
Qed.

Lemma hold_access s t h hs l c c' w : sim s t ->
  harts s h = mkHart hs (Busy (Hold l) c) -> advance c (mem s) = Ok c' w ->
  exists t', sim (mkSystem w (upd (harts s) h (mkHart hs (Busy (Hold l) c')))) t'.
Proof.
  intros H Es Ha. pose proof (sim_cpu s t h l H) as Hcpu. pose proof (sim_unlocked s t h l H) as Hfree.
  at_cases H Es Et Ho; access Ha; injection Ha as <- <-; exists t; (apply sim_stay; [done..|]); exists 0; rewrite Et;
    (split; [|done]).
  - destruct (z2b _) eqn:Ez; [apply at_hold_cpu|].
    pose proof (at_hold_done h hs l) as A. by rewrite bool_decide_eq_false_2 in A by auto.
  - rewrite Hcpu. apply at_hold_done.
  - apply at_hold_done.
Qed.

(** Only the swap goes round. *)
Lemma spin_sim s t h hs o c w : sim s t ->
  harts s h = mkHart hs (Busy o c) -> advance c (mem s) = Blocked w -> sim (mkSystem w (harts s)) t.
Proof.
  intros H Es Ha. at_cases H Es Et Ho.
  1: destruct (push_off_own h (mem s) hs Ho) as (w1 & E & _); cbn in Ha; unfold bind in Ha; by rewrite E in Ha.
  12: destruct (pop_off_own h (mem s) _ Ho) as (w1 & E & _); cbn in Ha; unfold bind in Ha; by rewrite E in Ha.
  all: access Ha. unfold swap, test_and_set, bind, gets, modify, blocked, ret in Ha.
  destruct (Z.eqb_spec (locked (locks (mem s) l)) 0) as [|Hne]; [done|]. injection Ha as <-.
  destruct (sim_words _ _ H l) as [Hlk Hw]. constructor; simpl.
  - apply H.
  - intros l'. case_decide; [subst|apply H]. split; [|done]. simpl.
    destruct (Harts.inv_word _ (sim_inv _ _ H) l); congruence.
  - intros g. destruct (sim_hart _ _ H g) as (b & Ha & Hog). exists b. split; [done|].
    by apply (own_ok_ext (mem s)).
Qed.

(** A panic is the one of a failed check. *)
Lemma panic_sim s t h hs o c msg w : sim s t ->
  harts s h = mkHart hs (Busy o c) -> advance c (mem s) = Panic msg w ->
  sim (mkSystem w (upd (harts s) h (mkHart hs (Stopped o msg)))) t.
Proof.
  intros H Es Ha. at_cases H Es Et Ho.
  1: destruct (push_off_own h (mem s) hs Ho) as (w1 & E & _); cbn in Ha; unfold bind in Ha; by rewrite E in Ha.
  12: destruct (pop_off_own h (mem s) _ Ho) as (w1 & E & _); cbn in Ha; unfold bind in Ha; by rewrite E in Ha.
  all: access Ha.
  - injection Ha as <- <-. apply sim_stay; [done..|]. exists 1. rewrite Et. split; [apply at_acq_stop|done].
  - unfold swap, test_and_set, bind, gets, modify, blocked, ret in Ha. by destruct (_ =? _) in Ha.
  - injection Ha as <- <-. apply sim_stay; [done..|]. exists 0. rewrite Et. split; [apply at_rel_stop|done].
Qed.

Lemma return_sim s t h hs o r : sim s t ->
  harts s h = mkHart hs (Busy o (Ret r)) ->
  sim (mkSystem (mem s) (upd (harts s) h (mkHart (after o hs) Idle))) t.
Proof.
  intros H Es. at_cases H Es Et Ho; (apply sim_stay; [done..|]); exists 0; rewrite Et; (split; [constructor|done]).
Qed.

Lemma call_sim s t h hs o : sim s t -> harts s h = mkHart hs Idle ->
  exists t', sim (mkSystem (mem s) (upd (harts s) h (mkHart hs (Busy o (op_code h o))))) t'.
Proof.
  intros H Es. at_cases H Es Et Ho. destruct o as [l|l|l].
  - eexists. eapply sim_go; [done|by eapply (Harts.step_acquire _ _ hs l)|]. exists 0. split; [constructor|done].
  - eexists. eapply sim_go; [done|by eapply (Harts.step_release _ _ hs l)|]. exists 0. split; [constructor|done].
  - exists t. apply sim_stay; [done..|]. exists 0. rewrite Et. split; [apply at_hold|done].
Qed.

Lemma reachable_sim s : reachable s -> exists t, sim s t.
Proof.
  induction 1 as [s [Hl Hh]|s s' _ [t H] Hs].
  - exists (Harts.mkState (fun _ => Harts.mkWord 0 None) (fun _ => Harts.mkHart [] Harts.Run)). constructor.
    + by apply initial_inv.
    + intros l. apply Hl.
    + intros h. destruct (Hh h) as [-> Hn]. exists 0. split; [constructor|]. by constructor; simpl; [|constructor|].
  - destruct Hs as [s h hs o Es|s h hs o c c' w Es Ha|s h hs o c w Es Ha|s h hs o c msg w Es Ha|s h hs o r Es].
    + by eapply call_sim.
    + destruct o; [by eapply acq_access|by eapply rel_access|by eapply hold_access].
    + exists t. by eapply spin_sim.
    + exists t. by eapply panic_sim.
    + exists t. by eapply return_sim.
Qed.

(** A hart inside has the lock. *)
Lemma inside_held s t h l : sim s t -> inside s h l -> l ∈ Harts.held (Harts.harts t h).
Proof.
  intros H [Hl Hr]. destruct (sim_hart _ _ H h) as (b & Hat & _).
  destruct Hat; simpl in *; try done; try (by right);
    apply elem_remove1; (split; [done|]); intros ->; by eapply Hr.
Qed.

(** C18: any number of harts run [acquire], [release] and [holding] on shared
    locks, interleaved access by access.  At every point: no two harts are
    inside the critical section of a lock, from the return of [acquire] to the
    call of [release]; a hart inside one has its interrupts off; [holding]
    returns whether the hart that calls it holds the lock; a hart stops only in
    the panic of [acquire] with the lock it already holds, or in the panic of
    [release] without it, never in [pop_off]; a lock word is not 0 only while
    some hart holds the lock or is acquiring or releasing it, so no lock is
    lost; and between calls [noff] is the number of locks the hart holds. *)
Theorem spinlock_mutual_exclusion s :
  reachable s ->
  (forall h1 h2 l, inside s h1 l -> inside s h2 l -> h1 = h2) /\
  (forall h l, inside s h l -> sie (mem s) h = false) /\
  (forall h hs l r, harts s h = mkHart hs (Busy (Hold l) (Ret r)) ->
     r = Some (bool_decide (l ∈ hs))) /\
  (forall h hs o msg, harts s h = mkHart hs (Stopped o msg) ->
     exists l, o = Acq l /\ msg = "acquire" /\ l ∈ hs \/
               o = Rel l /\ msg = "release" /\ l ∉ hs) /\
  (forall l, locked (locks (mem s) l) <> 0 ->
     exists h, l ∈ held (harts s h) \/
       exists c, act (harts s h) = Busy (Acq l) c \/
                 act (harts s h) = Busy (Rel l) c) /\
  (forall h hs, harts s h = mkHart hs Idle ->
     noff (cpus (mem s) h) = Z.of_nat (length hs)).
Proof.
  intros [t H]%reachable_sim. pose proof (sim_inv _ _ H) as I. split_and!.
  - intros h1 h2 l H1 H2. eapply Harts.inv_unique; [done|left; by apply (inside_held s)..].
  - intros h l Hin. apply (inside_held s t) in Hin as Hl; [|done].
    destruct (sim_hart _ _ H h) as (b & Hat & [Hn _ Hs]). apply Hs.
    destruct (Harts.held (Harts.harts t h)) as [|x hs]; [by apply elem_of_nil in Hl|].
    destruct Hat; simpl in Hn; lia.
  - intros h hs l r Es. by at_cases H Es Et Ho.
  - intros h hs o msg Es. at_cases H Es Et Ho; exists l; [left|right]; (split_and!; [done..|]);
      [pose proof (Harts.inv_acq _ I h l) as Hx|pose proof (Harts.inv_rel _ I h l) as Hx];
      rewrite Et in Hx; by apply Hx.
  - intros l Hl. destruct (sim_words _ _ H l) as [E _].
    destruct (Harts.inv_some _ I l) as [h Ho]; [destruct (Harts.inv_word _ I l); congruence|].
    exists h. unfold Harts.owns in Ho. destruct (sim_hart _ _ H h) as (b & Hat & _).
    destruct Hat; simpl in *; rewrite ?elem_remove1, ?elem_of_cons in Ho; naive_solver.
  - intros h hs Es. at_cases H Es Et Ho. destruct Ho as [Hn _ _]. simpl in Hn. lia.
Qed.

End Simulation.

(** Hart 0 holds lock 7; hart 1 spins on it. *)
Definition demo_harts0 : Smp.system (L := nat) :=
  Smp.mkSystem
    (Spinlock.mkState (fun _ => Spinlock.mkSpinlock 0 "demo" None) (fun _ => Spinlock.mkCpu 0 0 SSTATUS_SIE))
    (fun _ => Smp.mkHart [] Smp.Idle).

Lemma spinlock_mutual_exclusion_witness :
  exists s, Smp.reachable s /\ Smp.inside s 0%nat 7%nat /\
    (exists c, Smp.act (Smp.harts s 1%nat) = Smp.Busy (Spinlock.Acq 7%nat) c) /\
    (forall h, Smp.inside s h 7%nat -> 0%nat = h).
Proof.
  assert (Smp.reachable demo_harts0) as R by (by apply Smp.reach_init; split).
  eapply Smp.reach_step in R; [|apply (Smp.step_call _ 0 [] (Spinlock.Acq 7%nat)); reflexivity].
  do 4 (eapply Smp.reach_step in R; [|eapply (Smp.step_access _ 0); reflexivity]).
  eapply Smp.reach_step in R; [|eapply (Smp.step_return _ 0); reflexivity].
  eapply Smp.reach_step in R; [|apply (Smp.step_call _ 1 [] (Spinlock.Acq 7%nat)); reflexivity].
  do 3 (eapply Smp.reach_step in R; [|eapply (Smp.step_access _ 1); reflexivity]).
  eapply Smp.reach_step in R; [|eapply (Smp.step_spin _ 1); reflexivity].
  match type of R with Smp.reachable ?x =>
    assert (Smp.inside x 0%nat 7%nat) as I0 by (split; [left|intros c E; discriminate E]); exists x
  end.
  split; [exact R|]. split; [exact I0|]. split; [eexists; reflexivity|].
  intros h Hh. exact (proj1 (spinlock_mutual_exclusion _ R) 0%nat h 7%nat I0 Hh).
Defined.
