(* ===== verification/State.v ===== *)
(** * The kernel's data structures and state

    The C structs of the [kernel/] headers as records, the tables that hold them as
    lists, and the state that the code of one hart works on, [kernel], with
    its locks and with the accessors the components share.

    A hart's code is a computation of the monad [K].  Spin locks follow the
    abstract lock of [Spinlock.LockSpec], which the code of [spinlock.c] is
    shown to implement: acquiring a lock twice panics, as does releasing one
    that is not held.  Between an [acquire] and its [release] no other hart
    touches the data the lock protects; where the code gives the processor
    away (in [sched]) the rest of the system is the environment [env]. *)

From S2P Require Import Prelude Bytes Params CString Spinlock.

(** ** Names of locks and sleep channels

    An object's address, in the C code, is what identifies a lock or a
    channel; distinct objects have distinct addresses. *)

Inductive slock :=
| SBuf (i : nat)               (* bcache.buf[i].lock *)
| SInode (i : nat).            (* itable.inode[i].lock *)

Inductive lock :=
| LKmem | LPid | LWait | LTicks | LBcache | LLog | LItable | LFtable
| LCons | LUartTx | LPr | LVdisk
| LProc (i : nat)
| LPipe (pi : Z)
| LSleep (s : slock).          (* the spin lock inside a sleep lock *)

Inductive chan :=
| CTicks                       (* &ticks *)
| CLog                         (* &log *)
| CConsR                       (* &cons.r *)
| CUartR                       (* &uart_tx_r *)
| CDiskFree                    (* &disk.free[0] *)
| CBuf (i : nat)               (* a struct buf *)
| CProc (i : nat)              (* a struct proc *)
| CPipeR (pi : Z)              (* &pi->nread *)
| CPipeW (pi : Z)              (* &pi->nwrite *)
| CSleepLock (s : slock).      (* a struct sleeplock *)

#[export] Instance slock_eq_dec : EqDecision slock.
Proof. solve_decision. Defined.
#[export] Instance lock_eq_dec : EqDecision lock.
Proof. solve_decision. Defined.
#[export] Instance chan_eq_dec : EqDecision chan.
Proof. solve_decision. Defined.

Inductive procstate := UNUSED | USED | SLEEPING | RUNNABLE | RUNNING | ZOMBIE.
Inductive ftype := FD_NONE | FD_PIPE | FD_INODE | FD_DEVICE.

#[export] Instance procstate_eq_dec : EqDecision procstate.
Proof. solve_decision. Defined.
#[export] Instance ftype_eq_dec : EqDecision ftype.
Proof. solve_decision. Defined.

(** ** Structs *)

(** Long-term locks for processes.  ([kernel/sleeplock.h]) *)
Record sleeplock := mk_sleeplock {
  sl_locked : Z;   (* is the lock held? *)
  sl_pid : Z;   (* process holding lock *)
}.

Definition sleeplock0 : sleeplock := mk_sleeplock 0 0.
#[export] Instance sleeplock_inhabited : Inhabited sleeplock := populate sleeplock0.

Definition set_sl_locked (v : Z) (r : sleeplock) : sleeplock :=
  mk_sleeplock v (sl_pid r).
Definition set_sl_pid (v : Z) (r : sleeplock) : sleeplock :=
  mk_sleeplock (sl_locked r) v.

(** One buffer of the block cache.  [b_prev] and [b_next] index the table of
    buffers; index [NBUF] is the list head.  ([kernel/buf.h]) *)
Record buf := mk_buf {
  b_valid : Z;   (* has data been read from disk? *)
  b_disk : Z;   (* does disk own buf? *)
  b_dev : Z;
  b_blockno : Z;
  b_lock : sleeplock;
  b_refcnt : Z;
  b_prev : nat;
  b_next : nat;
  b_data : list Z;
}.

Definition buf0 : buf := mk_buf 0 0 0 0 sleeplock0 0 O O (replicate 1024 0).
#[export] Instance buf_inhabited : Inhabited buf := populate buf0.

Definition set_b_valid (v : Z) (r : buf) : buf :=
  mk_buf v (b_disk r) (b_dev r) (b_blockno r) (b_lock r) (b_refcnt r) (b_prev r) (b_next r)
    (b_data r).
Definition set_b_disk (v : Z) (r : buf) : buf :=
  mk_buf (b_valid r) v (b_dev r) (b_blockno r) (b_lock r) (b_refcnt r) (b_prev r) (b_next r)
    (b_data r).
Definition set_b_dev (v : Z) (r : buf) : buf :=
  mk_buf (b_valid r) (b_disk r) v (b_blockno r) (b_lock r) (b_refcnt r) (b_prev r) (b_next r)
    (b_data r).
Definition set_b_blockno (v : Z) (r : buf) : buf :=
  mk_buf (b_valid r) (b_disk r) (b_dev r) v (b_lock r) (b_refcnt r) (b_prev r) (b_next r)
    (b_data r).
Definition set_b_lock (v : sleeplock) (r : buf) : buf :=
  mk_buf (b_valid r) (b_disk r) (b_dev r) (b_blockno r) v (b_refcnt r) (b_prev r) (b_next r)
    (b_data r).
Definition set_b_refcnt (v : Z) (r : buf) : buf :=
  mk_buf (b_valid r) (b_disk r) (b_dev r) (b_blockno r) (b_lock r) v (b_prev r) (b_next r)
    (b_data r).
Definition set_b_prev (v : nat) (r : buf) : buf :=
  mk_buf (b_valid r) (b_disk r) (b_dev r) (b_blockno r) (b_lock r) (b_refcnt r) v (b_next r)
    (b_data r).
Definition set_b_next (v : nat) (r : buf) : buf :=
  mk_buf (b_valid r) (b_disk r) (b_dev r) (b_blockno r) (b_lock r) (b_refcnt r) (b_prev r) v
    (b_data r).
Definition set_b_data (v : list Z) (r : buf) : buf :=
  mk_buf (b_valid r) (b_disk r) (b_dev r) (b_blockno r) (b_lock r) (b_refcnt r) (b_prev r)
    (b_next r) v.

(** In-memory copy of an inode.  ([kernel/file.h]) *)
Record inode := mk_inode {
  i_dev : Z;
  i_inum : Z;
  i_ref : Z;
  i_lock : sleeplock;
  i_valid : Z;
  i_type : Z;
  i_major : Z;
  i_minor : Z;
  i_nlink : Z;
  i_size : Z;
  i_addrs : list Z;
}.

Definition inode0 : inode := mk_inode 0 0 0 sleeplock0 0 0 0 0 0 0 (replicate 13 0).
#[export] Instance inode_inhabited : Inhabited inode := populate inode0.

Definition set_i_dev (v : Z) (r : inode) : inode :=
  mk_inode v (i_inum r) (i_ref r) (i_lock r) (i_valid r) (i_type r) (i_major r) (i_minor r)
    (i_nlink r) (i_size r) (i_addrs r).
Definition set_i_inum (v : Z) (r : inode) : inode :=
  mk_inode (i_dev r) v (i_ref r) (i_lock r) (i_valid r) (i_type r) (i_major r) (i_minor r)
    (i_nlink r) (i_size r) (i_addrs r).
Definition set_i_ref (v : Z) (r : inode) : inode :=
  mk_inode (i_dev r) (i_inum r) v (i_lock r) (i_valid r) (i_type r) (i_major r) (i_minor r)
    (i_nlink r) (i_size r) (i_addrs r).
Definition set_i_lock (v : sleeplock) (r : inode) : inode :=
  mk_inode (i_dev r) (i_inum r) (i_ref r) v (i_valid r) (i_type r) (i_major r) (i_minor r)
    (i_nlink r) (i_size r) (i_addrs r).
Definition set_i_valid (v : Z) (r : inode) : inode :=
  mk_inode (i_dev r) (i_inum r) (i_ref r) (i_lock r) v (i_type r) (i_major r) (i_minor r)
    (i_nlink r) (i_size r) (i_addrs r).
Definition set_i_type (v : Z) (r : inode) : inode :=
  mk_inode (i_dev r) (i_inum r) (i_ref r) (i_lock r) (i_valid r) v (i_major r) (i_minor r)
    (i_nlink r) (i_size r) (i_addrs r).
Definition set_i_major (v : Z) (r : inode) : inode :=
  mk_inode (i_dev r) (i_inum r) (i_ref r) (i_lock r) (i_valid r) (i_type r) v (i_minor r)
    (i_nlink r) (i_size r) (i_addrs r).
Definition set_i_minor (v : Z) (r : inode) : inode :=
  mk_inode (i_dev r) (i_inum r) (i_ref r) (i_lock r) (i_valid r) (i_type r) (i_major r) v
    (i_nlink r) (i_size r) (i_addrs r).
Definition set_i_nlink (v : Z) (r : inode) : inode :=
  mk_inode (i_dev r) (i_inum r) (i_ref r) (i_lock r) (i_valid r) (i_type r) (i_major r)
    (i_minor r) v (i_size r) (i_addrs r).
Definition set_i_size (v : Z) (r : inode) : inode :=
  mk_inode (i_dev r) (i_inum r) (i_ref r) (i_lock r) (i_valid r) (i_type r) (i_major r)
    (i_minor r) (i_nlink r) v (i_addrs r).
Definition set_i_addrs (v : list Z) (r : inode) : inode :=
  mk_inode (i_dev r) (i_inum r) (i_ref r) (i_lock r) (i_valid r) (i_type r) (i_major r)
    (i_minor r) (i_nlink r) (i_size r) v.

(** An open file.  ([kernel/file.h]) *)
Record file := mk_file {
  f_type : ftype;
  f_ref : Z;
  f_readable : Z;
  f_writable : Z;
  f_pipe : Z;   (* address of the pipe's page *)
  f_ip : option nat;
  f_off : Z;
  f_major : Z;
}.

Definition file0 : file := mk_file FD_NONE 0 0 0 0 None 0 0.
#[export] Instance file_inhabited : Inhabited file := populate file0.

Definition set_f_type (v : ftype) (r : file) : file :=
  mk_file v (f_ref r) (f_readable r) (f_writable r) (f_pipe r) (f_ip r) (f_off r) (f_major r).
Definition set_f_ref (v : Z) (r : file) : file :=
  mk_file (f_type r) v (f_readable r) (f_writable r) (f_pipe r) (f_ip r) (f_off r) (f_major
    r).
Definition set_f_readable (v : Z) (r : file) : file :=
  mk_file (f_type r) (f_ref r) v (f_writable r) (f_pipe r) (f_ip r) (f_off r) (f_major r).
Definition set_f_writable (v : Z) (r : file) : file :=
  mk_file (f_type r) (f_ref r) (f_readable r) v (f_pipe r) (f_ip r) (f_off r) (f_major r).
Definition set_f_pipe (v : Z) (r : file) : file :=
  mk_file (f_type r) (f_ref r) (f_readable r) (f_writable r) v (f_ip r) (f_off r) (f_major r).
Definition set_f_ip (v : option nat) (r : file) : file :=
  mk_file (f_type r) (f_ref r) (f_readable r) (f_writable r) (f_pipe r) v (f_off r) (f_major
    r).
Definition set_f_off (v : Z) (r : file) : file :=
  mk_file (f_type r) (f_ref r) (f_readable r) (f_writable r) (f_pipe r) (f_ip r) v (f_major
    r).
Definition set_f_major (v : Z) (r : file) : file :=
  mk_file (f_type r) (f_ref r) (f_readable r) (f_writable r) (f_pipe r) (f_ip r) (f_off r) v.

(** A pipe.  ([kernel/pipe.c]) *)
Record pipe := mk_pipe {
  pi_data : list Z;
  pi_nread : Z;
  pi_nwrite : Z;
  pi_readopen : Z;
  pi_writeopen : Z;
}.

Definition pipe0 : pipe := mk_pipe (replicate 512 0) 0 0 0 0.
#[export] Instance pipe_inhabited : Inhabited pipe := populate pipe0.

Definition set_pi_data (v : list Z) (r : pipe) : pipe :=
  mk_pipe v (pi_nread r) (pi_nwrite r) (pi_readopen r) (pi_writeopen r).
Definition set_pi_nread (v : Z) (r : pipe) : pipe :=
  mk_pipe (pi_data r) v (pi_nwrite r) (pi_readopen r) (pi_writeopen r).
Definition set_pi_nwrite (v : Z) (r : pipe) : pipe :=
  mk_pipe (pi_data r) (pi_nread r) v (pi_readopen r) (pi_writeopen r).
Definition set_pi_readopen (v : Z) (r : pipe) : pipe :=
  mk_pipe (pi_data r) (pi_nread r) (pi_nwrite r) v (pi_writeopen r).
Definition set_pi_writeopen (v : Z) (r : pipe) : pipe :=
  mk_pipe (pi_data r) (pi_nread r) (pi_nwrite r) (pi_readopen r) v.

(** Saved registers for kernel context switches.  ([kernel/proc.h]) *)
Record context := mk_context {
  ctx_ra : Z;
  ctx_sp : Z;
  ctx_s : list Z;   (* callee-saved s0..s11 *)
}.

Definition context0 : context := mk_context 0 0 (replicate 12 0).
#[export] Instance context_inhabited : Inhabited context := populate context0.

Definition set_ctx_ra (v : Z) (r : context) : context :=
  mk_context v (ctx_sp r) (ctx_s r).
Definition set_ctx_sp (v : Z) (r : context) : context :=
  mk_context (ctx_ra r) v (ctx_s r).
Definition set_ctx_s (v : list Z) (r : context) : context :=
  mk_context (ctx_ra r) (ctx_sp r) v.

(** Per-process state.  Pointers into the tables are indices, page pointers
    are physical addresses (0 for NULL).  ([kernel/proc.h]) *)
Record proc := mk_proc {
  p_state : procstate;
  p_chan : option chan;
  p_killed : Z;
  p_xstate : Z;
  p_pid : Z;
  p_cputime : Z;
  p_priority : Z;
  p_readytime : Z;
  p_parent : option nat;
  p_kstack : Z;
  p_sz : Z;
  p_pagetable : Z;
  p_trapframe : Z;
  p_context : context;
  p_ofile : list (option nat);
  p_cwd : option nat;
  p_name : list Z;
}.

Definition proc0 : proc := mk_proc UNUSED None 0 0 0 0 0 0 None 0 0 0 0 context0 (replicate 16 None) None (replicate 16 0).
#[export] Instance proc_inhabited : Inhabited proc := populate proc0.

Definition set_p_state (v : procstate) (r : proc) : proc :=
  mk_proc v (p_chan r) (p_killed r) (p_xstate r) (p_pid r) (p_cputime r) (p_priority r)
    (p_readytime r) (p_parent r) (p_kstack r) (p_sz r) (p_pagetable r) (p_trapframe r)
    (p_context r) (p_ofile r) (p_cwd r) (p_name r).
Definition set_p_chan (v : option chan) (r : proc) : proc :=
  mk_proc (p_state r) v (p_killed r) (p_xstate r) (p_pid r) (p_cputime r) (p_priority r)
    (p_readytime r) (p_parent r) (p_kstack r) (p_sz r) (p_pagetable r) (p_trapframe r)
    (p_context r) (p_ofile r) (p_cwd r) (p_name r).
Definition set_p_killed (v : Z) (r : proc) : proc :=
  mk_proc (p_state r) (p_chan r) v (p_xstate r) (p_pid r) (p_cputime r) (p_priority r)
    (p_readytime r) (p_parent r) (p_kstack r) (p_sz r) (p_pagetable r) (p_trapframe r)
    (p_context r) (p_ofile r) (p_cwd r) (p_name r).
Definition set_p_xstate (v : Z) (r : proc) : proc :=
  mk_proc (p_state r) (p_chan r) (p_killed r) v (p_pid r) (p_cputime r) (p_priority r)
    (p_readytime r) (p_parent r) (p_kstack r) (p_sz r) (p_pagetable r) (p_trapframe r)
    (p_context r) (p_ofile r) (p_cwd r) (p_name r).
Definition set_p_pid (v : Z) (r : proc) : proc :=
  mk_proc (p_state r) (p_chan r) (p_killed r) (p_xstate r) v (p_cputime r) (p_priority r)
    (p_readytime r) (p_parent r) (p_kstack r) (p_sz r) (p_pagetable r) (p_trapframe r)
    (p_context r) (p_ofile r) (p_cwd r) (p_name r).
Definition set_p_cputime (v : Z) (r : proc) : proc :=
  mk_proc (p_state r) (p_chan r) (p_killed r) (p_xstate r) (p_pid r) v (p_priority r)
    (p_readytime r) (p_parent r) (p_kstack r) (p_sz r) (p_pagetable r) (p_trapframe r)
    (p_context r) (p_ofile r) (p_cwd r) (p_name r).
Definition set_p_priority (v : Z) (r : proc) : proc :=
  mk_proc (p_state r) (p_chan r) (p_killed r) (p_xstate r) (p_pid r) (p_cputime r) v
    (p_readytime r) (p_parent r) (p_kstack r) (p_sz r) (p_pagetable r) (p_trapframe r)
    (p_context r) (p_ofile r) (p_cwd r) (p_name r).
Definition set_p_readytime (v : Z) (r : proc) : proc :=
  mk_proc (p_state r) (p_chan r) (p_killed r) (p_xstate r) (p_pid r) (p_cputime r) (p_priority
    r) v (p_parent r) (p_kstack r) (p_sz r) (p_pagetable r) (p_trapframe r) (p_context r)
    (p_ofile r) (p_cwd r) (p_name r).
Definition set_p_parent (v : option nat) (r : proc) : proc :=
  mk_proc (p_state r) (p_chan r) (p_killed r) (p_xstate r) (p_pid r) (p_cputime r) (p_priority
    r) (p_readytime r) v (p_kstack r) (p_sz r) (p_pagetable r) (p_trapframe r) (p_context r)
    (p_ofile r) (p_cwd r) (p_name r).
Definition set_p_kstack (v : Z) (r : proc) : proc :=
  mk_proc (p_state r) (p_chan r) (p_killed r) (p_xstate r) (p_pid r) (p_cputime r) (p_priority
    r) (p_readytime r) (p_parent r) v (p_sz r) (p_pagetable r) (p_trapframe r) (p_context r)
    (p_ofile r) (p_cwd r) (p_name r).
Definition set_p_sz (v : Z) (r : proc) : proc :=
  mk_proc (p_state r) (p_chan r) (p_killed r) (p_xstate r) (p_pid r) (p_cputime r) (p_priority
    r) (p_readytime r) (p_parent r) (p_kstack r) v (p_pagetable r) (p_trapframe r) (p_context r)
    (p_ofile r) (p_cwd r) (p_name r).
Definition set_p_pagetable (v : Z) (r : proc) : proc :=
  mk_proc (p_state r) (p_chan r) (p_killed r) (p_xstate r) (p_pid r) (p_cputime r) (p_priority
    r) (p_readytime r) (p_parent r) (p_kstack r) (p_sz r) v (p_trapframe r) (p_context r)
    (p_ofile r) (p_cwd r) (p_name r).
Definition set_p_trapframe (v : Z) (r : proc) : proc :=
  mk_proc (p_state r) (p_chan r) (p_killed r) (p_xstate r) (p_pid r) (p_cputime r) (p_priority
    r) (p_readytime r) (p_parent r) (p_kstack r) (p_sz r) (p_pagetable r) v (p_context r)
    (p_ofile r) (p_cwd r) (p_name r).
Definition set_p_context (v : context) (r : proc) : proc :=
  mk_proc (p_state r) (p_chan r) (p_killed r) (p_xstate r) (p_pid r) (p_cputime r) (p_priority
    r) (p_readytime r) (p_parent r) (p_kstack r) (p_sz r) (p_pagetable r) (p_trapframe r) v
    (p_ofile r) (p_cwd r) (p_name r).
Definition set_p_ofile (v : list (option nat)) (r : proc) : proc :=
  mk_proc (p_state r) (p_chan r) (p_killed r) (p_xstate r) (p_pid r) (p_cputime r) (p_priority
    r) (p_readytime r) (p_parent r) (p_kstack r) (p_sz r) (p_pagetable r) (p_trapframe r)
    (p_context r) v (p_cwd r) (p_name r).
Definition set_p_cwd (v : option nat) (r : proc) : proc :=
  mk_proc (p_state r) (p_chan r) (p_killed r) (p_xstate r) (p_pid r) (p_cputime r) (p_priority
    r) (p_readytime r) (p_parent r) (p_kstack r) (p_sz r) (p_pagetable r) (p_trapframe r)
    (p_context r) (p_ofile r) v (p_name r).
Definition set_p_name (v : list Z) (r : proc) : proc :=
  mk_proc (p_state r) (p_chan r) (p_killed r) (p_xstate r) (p_pid r) (p_cputime r) (p_priority
    r) (p_readytime r) (p_parent r) (p_kstack r) (p_sz r) (p_pagetable r) (p_trapframe r)
    (p_context r) (p_ofile r) (p_cwd r) v.

(** The superblock.  ([kernel/fs.h]) *)
Record superblock := mk_superblock {
  sb_magic : Z;
  sb_size : Z;
  sb_nblocks : Z;
  sb_ninodes : Z;
  sb_nlog : Z;
  sb_logstart : Z;
  sb_inodestart : Z;
  sb_bmapstart : Z;
}.

Definition superblock0 : superblock := mk_superblock 0 0 0 0 0 0 0 0.
#[export] Instance superblock_inhabited : Inhabited superblock := populate superblock0.

Definition set_sb_magic (v : Z) (r : superblock) : superblock :=
  mk_superblock v (sb_size r) (sb_nblocks r) (sb_ninodes r) (sb_nlog r) (sb_logstart r)
    (sb_inodestart r) (sb_bmapstart r).
Definition set_sb_size (v : Z) (r : superblock) : superblock :=
  mk_superblock (sb_magic r) v (sb_nblocks r) (sb_ninodes r) (sb_nlog r) (sb_logstart r)
    (sb_inodestart r) (sb_bmapstart r).
Definition set_sb_nblocks (v : Z) (r : superblock) : superblock :=
  mk_superblock (sb_magic r) (sb_size r) v (sb_ninodes r) (sb_nlog r) (sb_logstart r)
    (sb_inodestart r) (sb_bmapstart r).
Definition set_sb_ninodes (v : Z) (r : superblock) : superblock :=
  mk_superblock (sb_magic r) (sb_size r) (sb_nblocks r) v (sb_nlog r) (sb_logstart r)
    (sb_inodestart r) (sb_bmapstart r).
Definition set_sb_nlog (v : Z) (r : superblock) : superblock :=
  mk_superblock (sb_magic r) (sb_size r) (sb_nblocks r) (sb_ninodes r) v (sb_logstart r)
    (sb_inodestart r) (sb_bmapstart r).
Definition set_sb_logstart (v : Z) (r : superblock) : superblock :=
  mk_superblock (sb_magic r) (sb_size r) (sb_nblocks r) (sb_ninodes r) (sb_nlog r) v
    (sb_inodestart r) (sb_bmapstart r).
Definition set_sb_inodestart (v : Z) (r : superblock) : superblock :=
  mk_superblock (sb_magic r) (sb_size r) (sb_nblocks r) (sb_ninodes r) (sb_nlog r)
    (sb_logstart r) v (sb_bmapstart r).
Definition set_sb_bmapstart (v : Z) (r : superblock) : superblock :=
  mk_superblock (sb_magic r) (sb_size r) (sb_nblocks r) (sb_ninodes r) (sb_nlog r)
    (sb_logstart r) (sb_inodestart r) v.

(** The log, with its in-memory header [lh].  ([kernel/log.c]) *)
Record log := mk_log {
  l_start : Z;
  l_size : Z;
  l_outstanding : Z;
  l_committing : Z;
  l_dev : Z;
  lh_n : Z;
  lh_block : list Z;
}.

Definition log0 : log := mk_log 0 0 0 0 0 0 (replicate 30 0).
#[export] Instance log_inhabited : Inhabited log := populate log0.

Definition set_l_start (v : Z) (r : log) : log :=
  mk_log v (l_size r) (l_outstanding r) (l_committing r) (l_dev r) (lh_n r) (lh_block r).
Definition set_l_size (v : Z) (r : log) : log :=
  mk_log (l_start r) v (l_outstanding r) (l_committing r) (l_dev r) (lh_n r) (lh_block r).
Definition set_l_outstanding (v : Z) (r : log) : log :=
  mk_log (l_start r) (l_size r) v (l_committing r) (l_dev r) (lh_n r) (lh_block r).
Definition set_l_committing (v : Z) (r : log) : log :=
  mk_log (l_start r) (l_size r) (l_outstanding r) v (l_dev r) (lh_n r) (lh_block r).
Definition set_l_dev (v : Z) (r : log) : log :=
  mk_log (l_start r) (l_size r) (l_outstanding r) (l_committing r) v (lh_n r) (lh_block r).
Definition set_lh_n (v : Z) (r : log) : log :=
  mk_log (l_start r) (l_size r) (l_outstanding r) (l_committing r) (l_dev r) v (lh_block r).
Definition set_lh_block (v : list Z) (r : log) : log :=
  mk_log (l_start r) (l_size r) (l_outstanding r) (l_committing r) (l_dev r) (lh_n r) v.

(** The console's line buffer.  ([kernel/console.c]) *)
Record console := mk_console {
  c_buf : list Z;
  c_r : Z;
  c_w : Z;
  c_e : Z;
}.

Definition console0 : console := mk_console (replicate 128 0) 0 0 0.
#[export] Instance console_inhabited : Inhabited console := populate console0.

Definition set_c_buf (v : list Z) (r : console) : console :=
  mk_console v (c_r r) (c_w r) (c_e r).
Definition set_c_r (v : Z) (r : console) : console :=
  mk_console (c_buf r) v (c_w r) (c_e r).
Definition set_c_w (v : Z) (r : console) : console :=
  mk_console (c_buf r) (c_r r) v (c_e r).
Definition set_c_e (v : Z) (r : console) : console :=
  mk_console (c_buf r) (c_r r) (c_w r) v.

(** The UART's transmit ring, and the device's side: the values the next reads
    of LSR and RHR return, and the bytes written to THR.  ([kernel/uart.c]) *)
Record uart := mk_uart {
  u_buf : list Z;
  u_w : Z;
  u_r : Z;
  u_lsr : list Z;
  u_rhr : list Z;
  u_thr : list Z;
}.

Definition uart0 : uart := mk_uart (replicate 32 0) 0 0 [] [] [].
#[export] Instance uart_inhabited : Inhabited uart := populate uart0.

Definition set_u_buf (v : list Z) (r : uart) : uart :=
  mk_uart v (u_w r) (u_r r) (u_lsr r) (u_rhr r) (u_thr r).
Definition set_u_w (v : Z) (r : uart) : uart :=
  mk_uart (u_buf r) v (u_r r) (u_lsr r) (u_rhr r) (u_thr r).
Definition set_u_r (v : Z) (r : uart) : uart :=
  mk_uart (u_buf r) (u_w r) v (u_lsr r) (u_rhr r) (u_thr r).
Definition set_u_lsr (v : list Z) (r : uart) : uart :=
  mk_uart (u_buf r) (u_w r) (u_r r) v (u_rhr r) (u_thr r).
Definition set_u_rhr (v : list Z) (r : uart) : uart :=
  mk_uart (u_buf r) (u_w r) (u_r r) (u_lsr r) v (u_thr r).
Definition set_u_thr (v : list Z) (r : uart) : uart :=
  mk_uart (u_buf r) (u_w r) (u_r r) (u_lsr r) (u_rhr r) v.

(** The kernel's state as the code running on one hart sees it. *)
Record kernel := mk_kernel {
  k_held : list lock;   (* spin locks this hart holds *)
  k_mem : gmap Z Z;   (* physical memory, bytes *)
  k_freelist : Z;   (* kmem.freelist *)
  k_procs : list proc;   (* proc[NPROC] *)
  k_cur : option nat;   (* mycpu()->proc *)
  k_nextpid : Z;
  k_initproc : option nat;
  k_ticks : Z;
  k_bufs : list buf;   (* bcache.buf, then bcache.head *)
  k_disk : gmap Z (list Z);   (* the disk's blocks *)
  k_sb : superblock;
  k_log : log;
  k_itable : list inode;
  k_ftable : list file;
  k_pipes : gmap Z pipe;   (* by page address *)
  k_cons : console;
  k_uart : uart;
  k_first : Z;   (* forkret's static first *)
  k_panicked : Z;
  k_clock : nat;   (* context switches so far *)
}.

Definition kernel0 : kernel := mk_kernel [] ∅ 0 (replicate NPROC proc0) None 1 None 0 (replicate (S NBUF) buf0) ∅ superblock0 log0 (replicate NINODE inode0) (replicate NFILE file0) ∅ console0 uart0 1 0 O.
#[export] Instance kernel_inhabited : Inhabited kernel := populate kernel0.

Definition set_k_held (v : list lock) (r : kernel) : kernel :=
  mk_kernel v (k_mem r) (k_freelist r) (k_procs r) (k_cur r) (k_nextpid r) (k_initproc r)
    (k_ticks r) (k_bufs r) (k_disk r) (k_sb r) (k_log r) (k_itable r) (k_ftable r) (k_pipes r)
    (k_cons r) (k_uart r) (k_first r) (k_panicked r) (k_clock r).
Definition set_k_mem (v : gmap Z Z) (r : kernel) : kernel :=
  mk_kernel (k_held r) v (k_freelist r) (k_procs r) (k_cur r) (k_nextpid r) (k_initproc r)
    (k_ticks r) (k_bufs r) (k_disk r) (k_sb r) (k_log r) (k_itable r) (k_ftable r) (k_pipes r)
    (k_cons r) (k_uart r) (k_first r) (k_panicked r) (k_clock r).
Definition set_k_freelist (v : Z) (r : kernel) : kernel :=
  mk_kernel (k_held r) (k_mem r) v (k_procs r) (k_cur r) (k_nextpid r) (k_initproc r) (k_ticks
    r) (k_bufs r) (k_disk r) (k_sb r) (k_log r) (k_itable r) (k_ftable r) (k_pipes r) (k_cons r)
    (k_uart r) (k_first r) (k_panicked r) (k_clock r).
Definition set_k_procs (v : list proc) (r : kernel) : kernel :=
  mk_kernel (k_held r) (k_mem r) (k_freelist r) v (k_cur r) (k_nextpid r) (k_initproc r)
    (k_ticks r) (k_bufs r) (k_disk r) (k_sb r) (k_log r) (k_itable r) (k_ftable r) (k_pipes r)
    (k_cons r) (k_uart r) (k_first r) (k_panicked r) (k_clock r).
Definition set_k_cur (v : option nat) (r : kernel) : kernel :=
  mk_kernel (k_held r) (k_mem r) (k_freelist r) (k_procs r) v (k_nextpid r) (k_initproc r)
    (k_ticks r) (k_bufs r) (k_disk r) (k_sb r) (k_log r) (k_itable r) (k_ftable r) (k_pipes r)
    (k_cons r) (k_uart r) (k_first r) (k_panicked r) (k_clock r).
Definition set_k_nextpid (v : Z) (r : kernel) : kernel :=
  mk_kernel (k_held r) (k_mem r) (k_freelist r) (k_procs r) (k_cur r) v (k_initproc r)
    (k_ticks r) (k_bufs r) (k_disk r) (k_sb r) (k_log r) (k_itable r) (k_ftable r) (k_pipes r)
    (k_cons r) (k_uart r) (k_first r) (k_panicked r) (k_clock r).
Definition set_k_initproc (v : option nat) (r : kernel) : kernel :=
  mk_kernel (k_held r) (k_mem r) (k_freelist r) (k_procs r) (k_cur r) (k_nextpid r) v (k_ticks
    r) (k_bufs r) (k_disk r) (k_sb r) (k_log r) (k_itable r) (k_ftable r) (k_pipes r) (k_cons r)
    (k_uart r) (k_first r) (k_panicked r) (k_clock r).
Definition set_k_ticks (v : Z) (r : kernel) : kernel :=
  mk_kernel (k_held r) (k_mem r) (k_freelist r) (k_procs r) (k_cur r) (k_nextpid r)
    (k_initproc r) v (k_bufs r) (k_disk r) (k_sb r) (k_log r) (k_itable r) (k_ftable r) (k_pipes
    r) (k_cons r) (k_uart r) (k_first r) (k_panicked r) (k_clock r).
Definition set_k_bufs (v : list buf) (r : kernel) : kernel :=
  mk_kernel (k_held r) (k_mem r) (k_freelist r) (k_procs r) (k_cur r) (k_nextpid r)
    (k_initproc r) (k_ticks r) v (k_disk r) (k_sb r) (k_log r) (k_itable r) (k_ftable r)
    (k_pipes r) (k_cons r) (k_uart r) (k_first r) (k_panicked r) (k_clock r).
Definition set_k_disk (v : gmap Z (list Z)) (r : kernel) : kernel :=
  mk_kernel (k_held r) (k_mem r) (k_freelist r) (k_procs r) (k_cur r) (k_nextpid r)
    (k_initproc r) (k_ticks r) (k_bufs r) v (k_sb r) (k_log r) (k_itable r) (k_ftable r)
    (k_pipes r) (k_cons r) (k_uart r) (k_first r) (k_panicked r) (k_clock r).
Definition set_k_sb (v : superblock) (r : kernel) : kernel :=
  mk_kernel (k_held r) (k_mem r) (k_freelist r) (k_procs r) (k_cur r) (k_nextpid r)
    (k_initproc r) (k_ticks r) (k_bufs r) (k_disk r) v (k_log r) (k_itable r) (k_ftable r)
    (k_pipes r) (k_cons r) (k_uart r) (k_first r) (k_panicked r) (k_clock r).
Definition set_k_log (v : log) (r : kernel) : kernel :=
  mk_kernel (k_held r) (k_mem r) (k_freelist r) (k_procs r) (k_cur r) (k_nextpid r)
    (k_initproc r) (k_ticks r) (k_bufs r) (k_disk r) (k_sb r) v (k_itable r) (k_ftable r)
    (k_pipes r) (k_cons r) (k_uart r) (k_first r) (k_panicked r) (k_clock r).
Definition set_k_itable (v : list inode) (r : kernel) : kernel :=
  mk_kernel (k_held r) (k_mem r) (k_freelist r) (k_procs r) (k_cur r) (k_nextpid r)
    (k_initproc r) (k_ticks r) (k_bufs r) (k_disk r) (k_sb r) (k_log r) v (k_ftable r) (k_pipes
    r) (k_cons r) (k_uart r) (k_first r) (k_panicked r) (k_clock r).
Definition set_k_ftable (v : list file) (r : kernel) : kernel :=
  mk_kernel (k_held r) (k_mem r) (k_freelist r) (k_procs r) (k_cur r) (k_nextpid r)
    (k_initproc r) (k_ticks r) (k_bufs r) (k_disk r) (k_sb r) (k_log r) (k_itable r) v (k_pipes
    r) (k_cons r) (k_uart r) (k_first r) (k_panicked r) (k_clock r).
Definition set_k_pipes (v : gmap Z pipe) (r : kernel) : kernel :=
  mk_kernel (k_held r) (k_mem r) (k_freelist r) (k_procs r) (k_cur r) (k_nextpid r)
    (k_initproc r) (k_ticks r) (k_bufs r) (k_disk r) (k_sb r) (k_log r) (k_itable r) (k_ftable
    r) v (k_cons r) (k_uart r) (k_first r) (k_panicked r) (k_clock r).
Definition set_k_cons (v : console) (r : kernel) : kernel :=
  mk_kernel (k_held r) (k_mem r) (k_freelist r) (k_procs r) (k_cur r) (k_nextpid r)
    (k_initproc r) (k_ticks r) (k_bufs r) (k_disk r) (k_sb r) (k_log r) (k_itable r) (k_ftable
    r) (k_pipes r) v (k_uart r) (k_first r) (k_panicked r) (k_clock r).
Definition set_k_uart (v : uart) (r : kernel) : kernel :=
  mk_kernel (k_held r) (k_mem r) (k_freelist r) (k_procs r) (k_cur r) (k_nextpid r)
    (k_initproc r) (k_ticks r) (k_bufs r) (k_disk r) (k_sb r) (k_log r) (k_itable r) (k_ftable
    r) (k_pipes r) (k_cons r) v (k_first r) (k_panicked r) (k_clock r).
Definition set_k_first (v : Z) (r : kernel) : kernel :=
  mk_kernel (k_held r) (k_mem r) (k_freelist r) (k_procs r) (k_cur r) (k_nextpid r)
    (k_initproc r) (k_ticks r) (k_bufs r) (k_disk r) (k_sb r) (k_log r) (k_itable r) (k_ftable
    r) (k_pipes r) (k_cons r) (k_uart r) v (k_panicked r) (k_clock r).
Definition set_k_panicked (v : Z) (r : kernel) : kernel :=
  mk_kernel (k_held r) (k_mem r) (k_freelist r) (k_procs r) (k_cur r) (k_nextpid r)
    (k_initproc r) (k_ticks r) (k_bufs r) (k_disk r) (k_sb r) (k_log r) (k_itable r) (k_ftable
    r) (k_pipes r) (k_cons r) (k_uart r) (k_first r) v (k_clock r).
Definition set_k_clock (v : nat) (r : kernel) : kernel :=
  mk_kernel (k_held r) (k_mem r) (k_freelist r) (k_procs r) (k_cur r) (k_nextpid r)
    (k_initproc r) (k_ticks r) (k_bufs r) (k_disk r) (k_sb r) (k_log r) (k_itable r) (k_ftable
    r) (k_pipes r) (k_cons r) (k_uart r) (k_first r) (k_panicked r) v.
(** ** The monad of kernel code *)

Abbreviation K := (M kernel).

(** What the rest of the system does while the running process has given the
    processor away for the [n]-th time: [None] if the process never runs
    again. *)
Class Env := env : nat -> kernel -> option kernel.

Definition on_held {A} (m : M (list lock) A) : K A :=
  fun s =>
    match m (k_held s) with
    | Ok a h => Ok a (set_k_held h s)
    | Panic msg h => Panic msg (set_k_held h s)
    | Blocked h => Blocked (set_k_held h s)
    | Diverge h => Diverge (set_k_held h s)
    end.

Definition acquire (l : lock) : K unit := on_held (LockSpec.acquire (fun _ => false) l).
Definition release (l : lock) : K unit := on_held (LockSpec.release l).
Definition holding (l : lock) : K bool := on_held (LockSpec.holding l).

#[global] Arguments acquire : simpl never.
#[global] Arguments release : simpl never.
#[global] Arguments holding : simpl never.

(** [myproc()], and a pointer that is about to be dereferenced. *)
Definition myproc : K (option nat) := gets k_cur.
Definition deref {A} (p : option A) : K A :=
  match p with Some a => ret a | None => panic "kerneltrap" end.
Definition curproc : K nat := p <- myproc ;; deref p.

(** ** Table access *)

Definition get_proc (i : nat) : K proc := gets (fun s => k_procs s !!! i).
Definition upd_proc (i : nat) (f : proc -> proc) : K unit :=
  modify (fun s => set_k_procs (alter f i (k_procs s)) s).
Definition get_buf (i : nat) : K buf := gets (fun s => k_bufs s !!! i).
Definition upd_buf (i : nat) (f : buf -> buf) : K unit :=
  modify (fun s => set_k_bufs (alter f i (k_bufs s)) s).
Definition get_inode (i : nat) : K inode := gets (fun s => k_itable s !!! i).
Definition upd_inode (i : nat) (f : inode -> inode) : K unit :=
  modify (fun s => set_k_itable (alter f i (k_itable s)) s).
Definition get_file (i : nat) : K file := gets (fun s => k_ftable s !!! i).
Definition upd_file (i : nat) (f : file -> file) : K unit :=
  modify (fun s => set_k_ftable (alter f i (k_ftable s)) s).
Definition get_pipe (pi : Z) : K pipe := gets (fun s => default pipe0 (k_pipes s !! pi)).
Definition upd_pipe (pi : Z) (f : pipe -> pipe) : K unit :=
  modify (fun s => set_k_pipes (<[pi := f (default pipe0 (k_pipes s !! pi))]> (k_pipes s)) s).
Definition get_log : K log := gets k_log.
Definition upd_log (f : log -> log) : K unit := modify (fun s => set_k_log (f (k_log s)) s).
Definition get_mem : K (gmap Z Z) := gets k_mem.
Definition upd_mem (f : gmap Z Z -> gmap Z Z) : K unit :=
  modify (fun s => set_k_mem (f (k_mem s)) s).

(** ** Lock facts *)

Lemma acquire_ok l s : l ∉ k_held s -> acquire l s = Ok tt (set_k_held (l :: k_held s) s).
Proof. intros. unfold acquire, on_held, LockSpec.acquire. by rewrite decide_False. Qed.

Lemma acquire_held l s : l ∈ k_held s -> acquire l s = Panic "acquire" s.
Proof.
  intros. unfold acquire, on_held, LockSpec.acquire. rewrite decide_True by done. by destruct s.
Qed.

Lemma release_ok l s :
  l ∈ k_held s -> release l s = Ok tt (set_k_held (LockSpec.remove1 l (k_held s)) s).
Proof. intros. unfold release, on_held, LockSpec.release. by rewrite decide_True. Qed.

Lemma release_unheld l s : l ∉ k_held s -> release l s = Panic "release" s.
Proof.
  intros. unfold release, on_held, LockSpec.release. rewrite decide_False by done. by destruct s.
Qed.

Lemma remove1_cons (l : lock) held : l ∉ held -> LockSpec.remove1 l (l :: held) = held.
Proof.
  intros. unfold LockSpec.remove1. rewrite filter_cons_False by naive_solver.
  by apply remove1_absent.
Qed.

(** A critical section that leaves the held locks alone. *)
Lemma wp_acquire l Q s :
  l ∉ k_held s -> Q tt (set_k_held (l :: k_held s) s) -> wp (acquire l) Q s.
Proof. intros. eapply wp_eq; [by apply acquire_ok|done]. Qed.

Lemma wp_release l held Q s :
  k_held s = l :: held -> l ∉ held -> Q tt (set_k_held held s) -> wp (release l) Q s.
Proof.
  intros E Hl HQ. eapply wp_eq; [apply release_ok; rewrite E; left|].
  by rewrite E, remove1_cons.
Qed.

(** Accessors are [gets] and [modify]: the steps of a proof see through them. *)
Ltac unfold_acc :=
  progress unfold get_mem, upd_mem, get_proc, upd_proc, get_buf, upd_buf, get_inode, upd_inode,
    get_file, upd_file, get_pipe, upd_pipe, get_log, upd_log, curproc, myproc.
Ltac kwp := repeat first [ wp_step; cbv beta | unfold_acc ].
Ltac krun := repeat first [ run_step | unfold_acc ].

(** Only memory and the head of the free list differ. *)
Record mem_only (s s' : kernel) : Prop := {
  mem_only_eq : s' = set_k_mem (k_mem s') (set_k_freelist (k_freelist s') s);
}.

#[export] Instance mem_only_preorder : PreOrder mem_only.
Proof.
  split.
  - intros s. constructor. by destruct s.
  - intros s1 s2 s3 [H1] [H2]. constructor. rewrite H2, H1. by destruct s1.
Qed.

Lemma mem_only_mem s m : mem_only s (set_k_mem m s).
Proof. constructor. by destruct s. Qed.
Lemma mem_only_mem_freelist s m f : mem_only s (set_k_mem m (set_k_freelist f s)).
Proof. constructor. by destruct s. Qed.
Lemma mem_only_freelist_mem s m f : mem_only s (set_k_freelist f (set_k_mem m s)).
Proof. constructor. by destruct s. Qed.

Lemma mem_only_held s s' : mem_only s s' -> k_held s' = k_held s.
Proof. intros [->]. done. Qed.

#[export] Hint Resolve mem_only_mem mem_only_mem_freelist mem_only_freelist_mem : core.
