(* ===== verification/Kalloc.v ===== *)
(** * kernel/kalloc.c: the physical page allocator

    The free pages form a list threaded through the pages themselves: the
    first eight bytes of a free page hold the address of the next one.
    [freelist] is what that list represents; [kmem_inv] is the allocator's
    invariant, which every operation keeps and [kinit] establishes. *)

From S2P Require Import Prelude Bytes Params CString Spinlock State.

Section Kalloc.
Context `{Lk : Linker}.

(** Free the page of physical memory pointed at by [pa]. *)
Definition kfree (pa : Z) : K unit :=
  if negb (pa mod PGSIZE =? 0) || (pa <? end_) || (pa >=? PHYSTOP)
  then panic "kfree"
  else
    upd_mem (fun m => memset m pa 1 PGSIZE) ;;
    acquire LKmem ;;
    next <- gets k_freelist ;;
    upd_mem (fun m => store64 m pa next) ;;
    modify (set_k_freelist pa) ;;
    release LKmem.

(** Allocate one page; 0 when there is none. *)
Definition kalloc : K Z :=
  acquire LKmem ;;
  r <- gets k_freelist ;;
  when (negb (r =? 0))
    (m <- get_mem ;; modify (set_k_freelist (load64 m r))) ;;
  release LKmem ;;
  when (negb (r =? 0)) (upd_mem (fun m => memset m r 5 PGSIZE)) ;;
  ret r.

Definition freerange (pa_start pa_end : Z) : K unit :=
  loop (fun p =>
    if p + PGSIZE <=? pa_end
    then kfree p ;; ret (inl (p + PGSIZE))
    else ret (inr tt)) (PGROUNDUP pa_start).

Definition kinit : K unit := freerange end_ PHYSTOP.

(** ** What the allocator keeps *)

Definition page_ok (p : Z) : Prop := p mod PGSIZE = 0 /\ end_ <= p < PHYSTOP.

Fixpoint freelist (m : gmap Z Z) (head : Z) (pages : list Z) : Prop :=
  match pages with
  | [] => head = 0
  | p :: ps => head = p /\ page_ok p /\ freelist m (load64 m p) ps
  end.

Record kmem_inv (s : kernel) (pages : list Z) : Prop := {
  kmem_list : freelist (k_mem s) (k_freelist s) pages;
  kmem_nodup : NoDup pages;
}.

(** The pages [kinit] hands over: every whole page of [lo, hi). *)
Definition pages_from (lo : Z) (n : nat) : list Z :=
  (fun i => lo + PGSIZE * Z.of_nat i) <$> seq 0 n.

Definition all_pages : list Z :=
  pages_from (PGROUNDUP end_) (Z.to_nat ((PHYSTOP - PGROUNDUP end_) / PGSIZE)).
End Kalloc.

Section KallocFacts.
Context `{Lk : Linker} {Lo : LinkerOk Lk}.

Lemma page_ok_pos p : page_ok p -> 0 < p < 2 ^ 56.
Proof.
  intros [_ H]. pose proof end_lo. unfold KERNBASE, PHYSTOP, KERNBASE in *. lia.
Qed.

(** Distinct pages do not overlap. *)
Lemma page_disjoint p q :
  p mod PGSIZE = 0 -> q mod PGSIZE = 0 -> p <> q -> p + PGSIZE <= q \/ q + PGSIZE <= p.
Proof. unfold PGSIZE. dlia. Qed.

Lemma freelist_page_ok m head pages p : freelist m head pages -> p ∈ pages -> page_ok p.
Proof.
  revert head. induction pages as [|q ps IH]; intros head; [by intros _ ?%not_elem_of_nil|].
  intros (-> & Hq & Hf) [->|Hp]%elem_of_cons; eauto.
Qed.

(** Only the first eight bytes of the free pages matter. *)
Lemma freelist_ext m m' head pages :
  (forall p, p ∈ pages -> load64 m' p = load64 m p) ->
  freelist m head pages -> freelist m' head pages.
Proof.
  revert head. induction pages as [|p ps IH]; intros head Hm; simpl; [done|].
  intros (-> & Hp & Hf). split; [done|]. split; [done|].
  rewrite Hm by left. apply IH; [|done]. intros q Hq. apply Hm. by right.
Qed.

Lemma load64_memset_other m p c q :
  p mod PGSIZE = 0 -> q mod PGSIZE = 0 -> p <> q ->
  load64 (memset m p c PGSIZE) q = load64 m q.
Proof.
  intros. apply load64_memset_disjoint; [done|].
  pose proof (page_disjoint p q). unfold PGSIZE in *. lia.
Qed.

Lemma load64_store64_other m p v q :
  p mod PGSIZE = 0 -> q mod PGSIZE = 0 -> p <> q ->
  load64 (store64 m p v) q = load64 m q.
Proof.
  intros. apply load64_store64_disjoint.
  pose proof (page_disjoint p q). unfold PGSIZE in *. lia.
Qed.

(** ** kalloc *)

Lemma kalloc_empty s :
  kmem_inv s [] -> LKmem ∉ k_held s -> kalloc s = Ok 0 s.
Proof.
  intros [Hl _] Hh. unfold kalloc. simpl in Hl.
  rewrite (bind_ok _ _ _ _ _ (acquire_ok _ _ Hh)). run_steps. rewrite Hl. simpl.
  unfold when. run_steps. erewrite bind_ok by (apply release_ok; left). simpl.
  rewrite remove1_cons by done. by destruct s.
Qed.

Lemma kalloc_cons s p ps :
  kmem_inv s (p :: ps) -> LKmem ∉ k_held s ->
  kalloc s = Ok p (set_k_mem (memset (k_mem s) p 5 PGSIZE)
                    (set_k_freelist (load64 (k_mem s) p) s)).
Proof.
  intros [Hl _] Hh. destruct Hl as (E & Hp & _). unfold kalloc.
  rewrite (bind_ok _ _ _ _ _ (acquire_ok _ _ Hh)). run_steps. rewrite E.
  pose proof (page_ok_pos p Hp). destruct (Z.eqb_spec p 0); [lia|].
  unfold when, get_mem, upd_mem. simpl. run_steps.
  erewrite bind_ok by (apply release_ok; left). run_steps.
  by rewrite remove1_cons.
Qed.

Lemma kalloc_inv s p ps :
  kmem_inv s (p :: ps) ->
  kmem_inv (set_k_mem (memset (k_mem s) p 5 PGSIZE)
              (set_k_freelist (load64 (k_mem s) p) s)) ps.
Proof.
  intros [(_ & Hp & Hf) [Hn Hd]%NoDup_cons]. constructor; simpl; [|done].
  eapply freelist_ext; [|done]. intros q Hq.
  apply load64_memset_other; [apply Hp|by eapply freelist_page_ok|by intros ->].
Qed.

(** ** kfree *)

Lemma kfree_bad s pa : ~ page_ok pa -> kfree pa s = Panic "kfree" s.
Proof.
  intros Hp. unfold kfree, page_ok in *.
  destruct (Z.eqb_spec (pa mod PGSIZE) 0), (Z.ltb_spec pa end_), (Z.geb_spec pa PHYSTOP);
    simpl; try done. lia.
Qed.

Lemma kfree_ok s pa :
  page_ok pa -> LKmem ∉ k_held s ->
  kfree pa s = Ok tt (set_k_freelist pa
    (set_k_mem (store64 (memset (k_mem s) pa 1 PGSIZE) pa (k_freelist s)) s)).
Proof.
  intros [Ha Hr] Hh. unfold kfree.
  rewrite Ha. simpl. rewrite (proj2 (Z.ltb_ge _ _)) by lia.
  destruct (Z.geb_spec pa PHYSTOP); [lia|]. simpl.
  unfold upd_mem. run_steps. erewrite bind_ok by (by apply acquire_ok). run_steps.
  rewrite release_ok by left. simpl. by rewrite remove1_cons.
Qed.

Lemma kfree_inv s pa pages :
  page_ok pa -> pa ∉ pages -> 0 <= k_freelist s < 2 ^ 64 -> kmem_inv s pages ->
  kmem_inv (set_k_freelist pa
    (set_k_mem (store64 (memset (k_mem s) pa 1 PGSIZE) pa (k_freelist s)) s)) (pa :: pages).
Proof.
  intros Hp Hn Hr [Hf Hd]. constructor; simpl; [|by apply NoDup_cons].
  split; [done|]. split; [done|]. rewrite load64_store64_same, u64_small by done.
  eapply freelist_ext; [|done]. intros q Hq.
  assert (pa <> q) by (by intros ->). destruct (freelist_page_ok _ _ _ _ Hf Hq), Hp.
  by rewrite load64_store64_other, load64_memset_other.
Qed.

Lemma freelist_range s pages : kmem_inv s pages -> 0 <= k_freelist s < 2 ^ 64.
Proof.
  intros [Hf _]. destruct pages as [|p ps]; simpl in Hf.
  - rewrite Hf. lia.
  - destruct Hf as (-> & Hp & _). pose proof (page_ok_pos p Hp). lia.
Qed.

(** The specification the page allocator's clients use: from a free list
    [pages], [kalloc] takes its first page, filled with 5s, and [kfree] puts
    one in front; memory outside that page and the rest of the kernel do not
    change. *)
Lemma kalloc_spec s pages :
  kmem_inv s pages -> LKmem ∉ k_held s ->
  match pages with
  | [] => kalloc s = Ok 0 s
  | p :: ps => exists s', kalloc s = Ok p s' /\ kmem_inv s' ps /\ page_ok p /\
      s' = set_k_mem (memset (k_mem s) p 5 PGSIZE) (set_k_freelist (load64 (k_mem s) p) s)
  end.
Proof.
  intros I Hh. destruct pages as [|p ps]; [by apply kalloc_empty|].
  eexists. split; [by eapply kalloc_cons|]. split; [by apply kalloc_inv|].
  split; [|done]. by destruct I as [(_ & ? & _) _].
Qed.

Lemma kfree_spec s pages pa :
  kmem_inv s pages -> LKmem ∉ k_held s -> page_ok pa -> pa ∉ pages ->
  exists s', kfree pa s = Ok tt s' /\ kmem_inv s' (pa :: pages) /\
    s' = set_k_freelist pa
           (set_k_mem (store64 (memset (k_mem s) pa 1 PGSIZE) pa (k_freelist s)) s).
Proof.
  intros I Hh Hp Hn. eexists. split; [by apply kfree_ok|]. split; [|done].
  apply kfree_inv; try done. by eapply freelist_range.
Qed.

(** What [kfree] leaves in memory outside the page. *)
Lemma kfree_mem_outside m pa v a :
  ~ (pa <= a < pa + PGSIZE) ->
  ldb (store64 (memset m pa 1 PGSIZE) pa v) a = ldb m a.
Proof.
  intros Ha. rewrite store64_store, ldb_store, length_le_bytes.
  unfold PGSIZE in *. rewrite decide_False by lia.
  rewrite ldb_memset, decide_False by lia. done.
Qed.

(** ** kinit *)

Lemma pages_from_snoc lo n :
  pages_from lo (S n) = pages_from lo n ++ [lo + PGSIZE * Z.of_nat n].
Proof. unfold pages_from. by rewrite seq_S, fmap_app. Qed.

Lemma elem_pages_from lo n p :
  p ∈ pages_from lo n <-> exists i, (i < n)%nat /\ p = lo + PGSIZE * Z.of_nat i.
Proof.
  unfold pages_from. rewrite list_elem_of_fmap. setoid_rewrite elem_of_seq.
  split; intros (i & ? & ?); exists i; naive_solver lia.
Qed.

Lemma freerange_spec s lo hi pages :
  kmem_inv s pages -> LKmem ∉ k_held s ->
  lo mod PGSIZE = 0 -> end_ <= lo -> lo <= hi <= PHYSTOP ->
  (forall p, p ∈ pages -> p < lo) ->
  wp (freerange lo hi) (fun _ s' =>
    kmem_inv s' (rev (pages_from lo (Z.to_nat ((hi - lo) / PGSIZE))) ++ pages) /\
    k_held s' = k_held s) s.
Proof.
  intros I Hh Hlo He Hhi Hpg. unfold freerange.
  pose proof end_lo as Hel. unfold KERNBASE in *.
  assert (PHYSTOP < 2 ^ 60) as Hps by (unfold PHYSTOP, KERNBASE; lia).
  replace (PGROUNDUP lo) with lo.
  2:{ rewrite PGROUNDUP_eq; unfold PGSIZE in *; dlia. }
  eapply (wp_loop _ (fun p s' => exists n, p = lo + PGSIZE * Z.of_nat n /\ p <= hi /\
      kmem_inv s' (rev (pages_from lo n) ++ pages) /\ k_held s' = k_held s)
    (fun p _ => hi - p)).
  - intros p s1 (n & -> & Hle & I1 & Hh1).
    set (p := lo + PGSIZE * Z.of_nat n) in *.
    destruct (Z.leb_spec (p + PGSIZE) hi) as [Hn|Hn].
    + apply wp_bind.
      destruct (kfree_spec s1 (rev (pages_from lo n) ++ pages) p) as (s2 & E & I2 & ->).
      * done.
      * by rewrite Hh1.
      * subst p. split; [unfold PGSIZE in *; dlia|unfold PGSIZE in *; lia].
      * intros [Hx|Hx]%elem_of_app.
        -- apply list_elem_of_In, in_rev, list_elem_of_In, elem_pages_from in Hx
             as (i & Hi & Hx). subst p. unfold PGSIZE in *. lia.
        -- apply Hpg in Hx. subst p. unfold PGSIZE in *. lia.
      * eapply wp_eq; [done|]. apply wp_ret. unfold PGSIZE in *. split; [|lia].
        exists (S n). rewrite pages_from_snoc, rev_app_distr. simpl.
        split; [subst p; unfold PGSIZE; lia|]. split; [lia|]. done.
    + apply wp_ret. replace (Z.to_nat ((hi - lo) / PGSIZE)) with n; [done|].
      subst p. unfold PGSIZE in *. dlia.
  - exists O. simpl. split; [lia|]. split; [lia|]. done.
  - lia.
Qed.
End KallocFacts.

(** ** The allocator against its abstract specification *)

Module KallocSpec.
(** What a client does: take a page, give one back, or write a byte of a
    page it owns. *)
Inductive op := OpAlloc | OpFree (pa : Z) | OpWrite (a v : Z).

(** The abstract allocator: the free pages and the pages handed out. *)
Record pool := Pool { free : list Z; used : list Z }.

Definition owner (used : list Z) (a : Z) : bool :=
  existsb (fun p => (p <=? a) && (a <? p + PGSIZE)) used.

(** [None] is a client that frees or writes a page it does not own. *)
Definition step (o : op) (q : pool) : option (Z * pool) :=
  match o with
  | OpAlloc =>
      match free q with
      | [] => Some (0, q)
      | p :: ps => Some (p, Pool ps (p :: used q))
      end
  | OpFree pa =>
      if decide (pa ∈ used q)
      then Some (0, Pool (pa :: free q) (filter (fun x => x <> pa) (used q)))
      else None
  | OpWrite a v => if owner (used q) a then Some (0, q) else None
  end.

Fixpoint steps (os : list op) (q : pool) : option (list Z * pool) :=
  match os with
  | [] => Some ([], q)
  | o :: os' =>
      match step o q with
      | None => None
      | Some (r, q1) =>
          match steps os' q1 with None => None | Some (rs, q2) => Some (r :: rs, q2) end
      end
  end.

(** The same client on the code. *)
Definition exec `{Linker} (o : op) : K Z :=
  match o with
  | OpAlloc => kalloc
  | OpFree pa => kfree pa ;; ret 0
  | OpWrite a v => upd_mem (fun m => <[a := v]> m) ;; ret 0
  end.

Fixpoint execs `{Linker} (os : list op) : K (list Z) :=
  match os with
  | [] => ret []
  | o :: os' => r <- exec o ;; rs <- execs os' ;; ret (r :: rs)
  end.

(** The simulation relation: the list in memory is the pool's free list, and
    no page is twice in the pool. *)
Record rel `{Linker} (s : kernel) (q : pool) : Prop := {
  rel_inv : kmem_inv s (free q);
  rel_held : LKmem ∉ k_held s;
  rel_used : forall p, p ∈ used q -> page_ok p;
  rel_nodup : NoDup (free q ++ used q);
}.

Section Refine.
Context `{Lk : Linker} {Lo : LinkerOk Lk}.

Lemma owner_spec us a : owner us a = true -> exists p, p ∈ us /\ p <= a < p + PGSIZE.
Proof.
  unfold owner. intros (p & Hp & Hb)%existsb_exists. exists p.
  apply list_elem_of_In in Hp. apply andb_prop in Hb as [??].
  split; [done|lia].
Qed.

Lemma step_alloc s q r q' :
  rel s q -> step OpAlloc q = Some (r, q') -> exists s', kalloc s = Ok r s' /\ rel s' q'.
Proof.
  intros [I Hh Hu Hn] Hs. pose proof (kalloc_spec s (free q) I Hh) as Hk. simpl in Hs.
  destruct q as [[|p ps] us]; simplify_eq/=; [by exists s|].
  destruct Hk as (s' & E & I' & Hp & ->). eexists. split; [done|].
  constructor; simpl; [done|done| |].
  - intros x [->|Hx]%elem_of_cons; auto.
  - rewrite <- Permutation_middle. done.
Qed.

Lemma step_free s q pa r q' :
  rel s q -> step (OpFree pa) q = Some (r, q') ->
  exists s', (kfree pa ;; ret 0) s = Ok r s' /\ rel s' q'.
Proof.
  intros [I Hh Hu Hn] Hs. simpl in Hs. destruct (decide _) as [Hpa|]; simplify_eq/=.
  apply NoDup_app in Hn as (Hf & Hd & Hn).
  destruct (kfree_spec s (free q) pa I Hh (Hu _ Hpa)) as (s' & E & I' & ->).
  { intros Hx. by apply (Hd pa). }
  eexists. split; [by rewrite (bind_ok _ _ _ _ _ E)|].
  constructor; simpl; [done|done| |].
  - intros x [_ Hx]%list_elem_of_filter. auto.
  - apply NoDup_cons. split.
    { intros [?|[? _]%list_elem_of_filter]%elem_of_app; [by apply (Hd pa)|done]. }
    apply NoDup_app. split; [done|]. split; [|by apply NoDup_filter].
    intros x Hx [_ Hx']%list_elem_of_filter. by apply (Hd x).
Qed.

Lemma step_write s q a v r q' :
  rel s q -> step (OpWrite a v) q = Some (r, q') ->
  exists s', (upd_mem (fun m => <[a := v]> m) ;; ret 0) s = Ok r s' /\ rel s' q'.
Proof.
  intros [[Hl Hnd] Hh Hu Hn] Hs. simpl in Hs. destruct (owner _ _) eqn:Ho; simplify_eq/=.
  apply owner_spec in Ho as (p & Hp & Ha). apply NoDup_app in Hn as Hn'.
  destruct Hn' as (_ & Hd & _).
  eexists. split; [done|]. constructor; simpl; [|done|done|done].
  constructor; simpl; [|done]. eapply freelist_ext; [|done].
  intros x Hx. assert (x <> p) by (intros ->; by apply (Hd p)).
  destruct (freelist_page_ok _ _ _ _ Hl Hx), (Hu _ Hp).
  pose proof (page_disjoint x p). apply load64_ext. intros j Hj.
  rewrite ldb_insert, decide_False; [done|]. unfold PGSIZE in *. lia.
Qed.

(** One operation of any well-behaved client is simulated. *)
Lemma step_sim s q o r q' :
  rel s q -> step o q = Some (r, q') -> exists s', exec o s = Ok r s' /\ rel s' q'.
Proof. destruct o; [apply step_alloc|apply step_free|apply step_write]. Qed.

(** C13: the page allocator implements the abstract pool.  Whatever sequence
    of allocations, frees of its own pages and writes to its own pages a
    client makes, [kalloc] and [kfree] return what the abstract pool
    returns, without panic, and the list threaded through the free pages
    still is the pool's free list: no page is handed out twice, none is
    lost, and no write of the client reaches the list. *)
Theorem page_allocator_refines s q os rs q' :
  rel s q -> steps os q = Some (rs, q') ->
  exists s', execs os s = Ok rs s' /\ rel s' q'.
Proof.
  revert s q rs. induction os as [|o os IH]; intros s q rs Hr Hs; simpl in Hs.
  - simplify_eq. by exists s.
  - destruct (step o q) as [[r q1]|] eqn:E; [|done].
    destruct (steps os q1) as [[rs' q2]|] eqn:E2; simplify_eq.
    destruct (step_sim _ _ _ _ _ Hr E) as (s1 & Ex & Hr1).
    destruct (IH _ _ _ Hr1 E2) as (s2 & Exs & Hr2).
    exists s2. split; [|done]. simpl. rewrite (bind_ok _ _ _ _ _ Ex).
    by rewrite (bind_ok _ _ _ _ _ Exs).
Qed.

(** C16: from the zeroed free-list head of boot, [kinit] returns with every
    whole page of memory between [end] and [PHYSTOP] free, once each, and
    with no lock held. *)
Theorem kinit_frees_all_pages s :
  k_freelist s = 0 -> LKmem ∉ k_held s ->
  wp kinit (fun _ s' => rel s' (Pool (rev all_pages) [])) s.
Proof.
  intros Hf Hh. pose proof end_lo. pose proof end_hi. unfold kinit.
  assert (PGROUNDUP end_ mod PGSIZE = 0 /\ end_ <= PGROUNDUP end_ <= PHYSTOP) as [Hm Hr].
  { rewrite PGROUNDUP_eq; unfold PGSIZE, PHYSTOP, KERNBASE in *; dlia. }
  assert (freerange end_ PHYSTOP = freerange (PGROUNDUP end_) PHYSTOP) as ->.
  { unfold freerange. f_equal.
    rewrite (PGROUNDUP_eq (PGROUNDUP end_)); unfold PGSIZE, PHYSTOP, KERNBASE in *; dlia. }
  eapply wp_mono; [apply (freerange_spec s _ _ []); try done; try lia|].
  - by constructor; [|constructor].
  - by intros p ?%not_elem_of_nil.
  - intros [] s' [I Hh']. rewrite app_nil_r in I. constructor; simpl; [done| | |].
    + by rewrite Hh'.
    + by intros p ?%not_elem_of_nil.
    + rewrite app_nil_r. apply I.
Qed.
End Refine.

(** One free page, at [end]. *)
Definition one_page : kernel := set_k_freelist 2147639296 kernel0.

Lemma one_page_rel : rel (H := kernel_sym) one_page (Pool [2147639296] []).
Proof.
  constructor; simpl.
  - constructor; [|by apply NoDup_singleton]. simpl. split; [done|]. split; [|done].
    unfold page_ok. by vm_compute.
  - by apply not_elem_of_nil.
  - by intros p ?%not_elem_of_nil.
  - by apply NoDup_singleton.
Defined.

Lemma page_allocator_refines_witness : exists s',
  execs (H := kernel_sym)
    [OpAlloc; OpWrite 2147639300 7; OpAlloc; OpFree 2147639296; OpAlloc] one_page =
    Ok [2147639296; 0; 0; 0; 2147639296] s' /\
  rel (H := kernel_sym) s' (Pool [] [2147639296]).
Proof.
  apply (page_allocator_refines (Lk := kernel_sym) one_page (Pool [2147639296] []));
    [exact one_page_rel|by vm_compute].
Defined.

Lemma kinit_frees_all_pages_witness :
  wp (kinit (Lk := kernel_sym))
    (fun _ s' => rel (H := kernel_sym) s' (Pool (rev (all_pages (Lk := kernel_sym))) []))
    kernel0.
Proof.
  apply (kinit_frees_all_pages (Lk := kernel_sym)); [done|by apply not_elem_of_nil].
Defined.
End KallocSpec.
