(* ===== verification/Vm.v ===== *)
(** * kernel/vm.c: page tables and copies between kernel and user memory

    A page table is the physical address of its root page; its entries are
    read and written in [k_mem].  A kernel buffer that [copyout] reads or
    [copyin] fills is a byte list: [copyin] returns the bytes it stored from
    the start of the buffer, also when it fails half-way. *)

From S2P Require Import Prelude Bytes Params CString Spinlock State Kalloc.

(** The kernel maps no page at address 0, so an access through a null pointer
    is a fault taken in the kernel. *)
Definition nonnull (p : Z) : K Z := if p =? 0 then panic "kerneltrap" else ret p.

Section Vm.
Context `{Lk : Linker}.

(** [&pagetable[i]] *)
Definition pte_addr (pagetable i : Z) : Z := pagetable + 8 * i.

Definition has (pte flag : Z) : bool := negb (Z.land pte flag =? 0).

(** The loop of [walk]: [level] counts down to 0. *)
Fixpoint walk_level (level : nat) (pagetable va : Z) (alloc : bool) : K Z :=
  match level with
  | O => ret (pte_addr pagetable (PX 0 va))
  | S l =>
      let pte := pte_addr pagetable (PX (Z.of_nat level) va) in
      m <- get_mem ;;
      if has (load64 m pte) PTE_V
      then walk_level l (PTE2PA (load64 m pte)) va alloc
      else if negb alloc then ret 0 else
      pg <- kalloc ;;
      if pg =? 0 then ret 0 else
      upd_mem (fun m => memset m pg 0 PGSIZE) ;;
      upd_mem (fun m => store64 m pte (Z.lor (PA2PTE pg) PTE_V)) ;;
      walk_level l pg va alloc
  end.

(** The address of the PTE for [va]; 0 if there is none. *)
Definition walk (pagetable va : Z) (alloc : bool) : K Z :=
  if va >=? MAXVA then panic "walk" else walk_level 2 pagetable va alloc.

Definition walkaddr (pagetable va : Z) : K Z :=
  if va >=? MAXVA then ret 0 else
  pte <- walk pagetable va false ;;
  if pte =? 0 then ret 0 else
  m <- get_mem ;;
  if negb (has (load64 m pte) PTE_V) then ret 0 else
  if negb (has (load64 m pte) PTE_U) then ret 0 else
  ret (PTE2PA (load64 m pte)).

Definition mappages (pagetable va size pa perm : Z) : K Z :=
  if size =? 0 then panic "mappages: size" else
  let last := PGROUNDDOWN (u64 (va + size - 1)) in
  loop (fun '(a, pa) =>
    pte <- walk pagetable a true ;;
    if pte =? 0 then ret (inr (-1)) else
    m <- get_mem ;;
    if has (load64 m pte) PTE_V then panic "mappages: remap" else
    upd_mem (fun m => store64 m pte (Z.lor (Z.lor (PA2PTE pa) perm) PTE_V)) ;;
    if a =? last then ret (inr 0) else
    ret (inl (u64 (a + PGSIZE), u64 (pa + PGSIZE)))) (PGROUNDDOWN va, pa).

Definition uvmunmap (pagetable va npages : Z) (do_free : bool) : K unit :=
  if negb (va mod PGSIZE =? 0) then panic "uvmunmap: not aligned" else
  loop (fun a =>
    if negb (a <? u64 (va + u64 (npages * PGSIZE))) then ret (inr tt) else
    pte <- walk pagetable a false ;;
    if pte =? 0 then panic "uvmunmap: walk" else
    m <- get_mem ;;
    if negb (has (load64 m pte) PTE_V) then panic "uvmunmap: not mapped" else
    if PTE_FLAGS (load64 m pte) =? PTE_V then panic "uvmunmap: not a leaf" else
    when do_free (kfree (PTE2PA (load64 m pte))) ;;
    upd_mem (fun m => store64 m pte 0) ;;
    ret (inl (u64 (a + PGSIZE)))) va.

Definition uvmcreate : K Z :=
  pagetable <- kalloc ;;
  if pagetable =? 0 then ret 0 else
  upd_mem (fun m => memset m pagetable 0 PGSIZE) ;;
  ret pagetable.

Definition uvminit (pagetable : Z) (src : list Z) (sz : Z) : K unit :=
  if sz >=? PGSIZE then panic "inituvm: more than a page" else
  r <- kalloc ;;
  mem <- nonnull r ;;
  upd_mem (fun m => memset m mem 0 PGSIZE) ;;
  mappages pagetable 0 PGSIZE mem (Z.lor (Z.lor (Z.lor PTE_W PTE_R) PTE_X) PTE_U) ;;
  upd_mem (fun m => store m mem (take (Z.to_nat sz) src)).

Definition uvmdealloc (pagetable oldsz newsz : Z) : K Z :=
  if newsz >=? oldsz then ret oldsz else
  when (PGROUNDUP newsz <? PGROUNDUP oldsz)
    (let npages := i32 ((PGROUNDUP oldsz - PGROUNDUP newsz) / PGSIZE) in
     uvmunmap pagetable (PGROUNDUP newsz) (u64 npages) true) ;;
  ret newsz.

Definition uvmalloc (pagetable oldsz newsz : Z) : K Z :=
  if newsz <? oldsz then ret oldsz else
  let oldsz := PGROUNDUP oldsz in
  loop (fun a =>
    if negb (a <? newsz) then ret (inr newsz) else
    mem <- kalloc ;;
    if mem =? 0 then uvmdealloc pagetable a oldsz ;; ret (inr 0) else
    upd_mem (fun m => memset m mem 0 PGSIZE) ;;
    r <- mappages pagetable a PGSIZE mem
           (Z.lor (Z.lor (Z.lor PTE_W PTE_X) PTE_R) PTE_U) ;;
    if negb (r =? 0)
    then kfree mem ;; uvmdealloc pagetable a oldsz ;; ret (inr 0)
    else ret (inl (u64 (a + PGSIZE)))) oldsz.

(** [freewalk] recurses from the root to the leaves of a tree of three
    levels; [depth] bounds the recursion, and running out of it is a page
    table that is not such a tree. *)
Fixpoint freewalk_depth (depth : nat) (pagetable : Z) : K unit :=
  match depth with
  | O => diverge
  | S d =>
      for_all (Z.of_nat <$> seq 0 512) (fun i =>
        m <- get_mem ;;
        let pte := load64 m (pte_addr pagetable i) in
        if has pte PTE_V && negb (has pte (Z.lor (Z.lor PTE_R PTE_W) PTE_X))
        then
          freewalk_depth d (PTE2PA pte) ;;
          upd_mem (fun m => store64 m (pte_addr pagetable i) 0)
        else if has pte PTE_V then panic "freewalk: leaf"
        else ret tt) ;;
      kfree pagetable
  end.

Definition freewalk (pagetable : Z) : K unit := freewalk_depth 3 pagetable.

Definition uvmfree (pagetable sz : Z) : K unit :=
  when (sz >? 0) (uvmunmap pagetable 0 (PGROUNDUP sz / PGSIZE) true) ;;
  freewalk pagetable.

Definition uvmcopy (old new sz : Z) : K Z :=
  r <- loop (fun i =>
    if negb (i <? sz) then ret (inr None) else
    pte <- walk old i false ;;
    if pte =? 0 then panic "uvmcopy: pte should exist" else
    m <- get_mem ;;
    if negb (has (load64 m pte) PTE_V) then panic "uvmcopy: page not present" else
    let pa := PTE2PA (load64 m pte) in
    let flags := PTE_FLAGS (load64 m pte) in
    mem <- kalloc ;;
    if mem =? 0 then ret (inr (Some i)) else
    upd_mem (fun m => memmove m mem pa PGSIZE) ;;
    r <- mappages new i PGSIZE mem flags ;;
    if negb (r =? 0) then kfree mem ;; ret (inr (Some i)) else
    ret (inl (u64 (i + PGSIZE)))) 0 ;;
  match r with
  | None => ret 0
  | Some i => uvmunmap new 0 (i / PGSIZE) true ;; ret (-1)
  end.

Definition uvmclear (pagetable va : Z) : K unit :=
  pte <- walk pagetable va false ;;
  if pte =? 0 then panic "uvmclear" else
  upd_mem (fun m => store64 m pte (Z.land (load64 m pte) (u64 (Z.lnot PTE_U)))).

(** Copy [len] bytes of the kernel buffer [src] to [dstva]. *)
Definition copyout (pagetable dstva : Z) (src : list Z) (len : Z) : K Z :=
  loop (fun '(dstva, src, len) =>
    if negb (len >? 0) then ret (inr 0) else
    let va0 := PGROUNDDOWN dstva in
    pa0 <- walkaddr pagetable va0 ;;
    if pa0 =? 0 then ret (inr (-1)) else
    let n := PGSIZE - (dstva - va0) in
    let n := if n >? len then len else n in
    upd_mem (fun m => store m (pa0 + (dstva - va0)) (take (Z.to_nat n) src)) ;;
    ret (inl (u64 (va0 + PGSIZE), drop (Z.to_nat n) src, len - n))) (dstva, src, len).

(** Copy [len] bytes from [srcva]: the result and the bytes stored at [dst]. *)
Definition copyin (pagetable srcva len : Z) : K (Z * list Z) :=
  loop (fun '(srcva, dst, len) =>
    if negb (len >? 0) then ret (inr (0, dst)) else
    let va0 := PGROUNDDOWN srcva in
    pa0 <- walkaddr pagetable va0 ;;
    if pa0 =? 0 then ret (inr (-1, dst)) else
    let n := PGSIZE - (srcva - va0) in
    let n := if n >? len then len else n in
    m <- get_mem ;;
    ret (inl (u64 (va0 + PGSIZE), dst ++ load (Z.to_nat n) m (pa0 + (srcva - va0)), len - n)))
    (srcva, [], len).

(** The inner loop of [copyinstr] over the bytes of one page: what it appends
    to [dst], and whether it met the terminator. *)
Fixpoint copyinstr_page (p : list Z) : list Z * bool :=
  match p with
  | [] => ([], false)
  | c :: p' =>
      if c =? 0 then ([0], true)
      else let '(d, got_null) := copyinstr_page p' in (c :: d, got_null)
  end.

Definition copyinstr (pagetable srcva max : Z) : K (Z * list Z) :=
  loop (fun '(srcva, dst, max, got_null) =>
    if got_null || negb (max >? 0)
    then ret (inr ((if got_null : bool then 0 else -1), dst)) else
    let va0 := PGROUNDDOWN srcva in
    pa0 <- walkaddr pagetable va0 ;;
    if pa0 =? 0 then ret (inr (-1, dst)) else
    let n := PGSIZE - (srcva - va0) in
    let n := if n >? max then max else n in
    m <- get_mem ;;
    let '(d, got_null) := copyinstr_page (load (Z.to_nat n) m (pa0 + (srcva - va0))) in
    ret (inl (u64 (va0 + PGSIZE), dst ++ d, max - n, got_null)))
    (srcva, [], max, false).

(** ** The kernel's page table *)

Definition kvmmap (kpgtbl va pa sz perm : Z) : K unit :=
  r <- mappages kpgtbl va sz pa perm ;;
  when (negb (r =? 0)) (panic "kvmmap").

(** A page for each process's kernel stack, high in memory, each followed by
    an invalid guard page.  ([kernel/proc.c]) *)
Definition proc_mapstacks (kpgtbl : Z) : K unit :=
  for_all (seq 0 NPROC) (fun p =>
    pa <- kalloc ;;
    when (pa =? 0) (panic "kalloc") ;;
    let va := KSTACK (Z.of_nat p) in
    kvmmap kpgtbl va pa PGSIZE (Z.lor PTE_R PTE_W)).

Definition kvmmake : K Z :=
  r <- kalloc ;;
  kpgtbl <- nonnull r ;;
  upd_mem (fun m => memset m kpgtbl 0 PGSIZE) ;;
  kvmmap kpgtbl UART0 UART0 PGSIZE (Z.lor PTE_R PTE_W) ;;
  kvmmap kpgtbl VIRTIO0 VIRTIO0 PGSIZE (Z.lor PTE_R PTE_W) ;;
  kvmmap kpgtbl PLIC PLIC 4194304 (Z.lor PTE_R PTE_W) ;;
  kvmmap kpgtbl KERNBASE KERNBASE (etext - KERNBASE) (Z.lor PTE_R PTE_X) ;;
  kvmmap kpgtbl etext etext (PHYSTOP - etext) (Z.lor PTE_R PTE_W) ;;
  kvmmap kpgtbl TRAMPOLINE trampoline PGSIZE (Z.lor PTE_R PTE_X) ;;
  proc_mapstacks kpgtbl ;;
  ret kpgtbl.
End Vm.
