(* ===== verification/PageTable.v ===== *)
(** * What a page table represents

    A page table in memory is a tree of pages.  [G] names its pages by the
    level and the part of the virtual address that leads to them; [AS] is the
    address space it stands for, from virtual page numbers to a physical page
    and its flags.  [vm] ties a kernel state to both and to the free pages:
    the lemmas on [walk] and on the single steps of [mappages] and [uvmunmap]
    are stated with it. *)

From S2P Require Import Prelude Bytes Params CString Spinlock State Kalloc Vm.

Abbreviation tables := (gmap (nat * Z) Z).
Abbreviation aspace := (gmap Z (Z * Z)).

(** The part of [va] above the index into a table of level [l]. *)
Definition vpre (l : nat) (va : Z) : Z := va / 2 ^ (21 + 9 * Z.of_nat l).

Definition pages (G : tables) : list Z := (map_to_list G).*2.

(** Only bytes of the pages [ps] differ. *)
Definition same_outside (ps : list Z) (m m' : gmap Z Z) : Prop :=
  forall a, (forall p, p ∈ ps -> ~ (p <= a < p + PGSIZE)) -> ldb m' a = ldb m a.

Section PageTable.
Context `{Lk : Linker}.

(** An entry of an inner table leads to the table [o] of the next level. *)
Definition inner_entry (e : Z) (o : option Z) : Prop :=
  match o with
  | Some t => has e PTE_V = true /\ PTE2PA e = t /\
              has e (Z.lor (Z.lor PTE_R PTE_W) PTE_X) = false
  | None => has e PTE_V = false
  end.

Record tree (m : gmap Z Z) (root : Z) (G : tables) : Prop := {
  tree_root : G !! (2%nat, 0) = Some root;
  tree_page : forall k p, G !! k = Some p -> page_ok p;
  tree_inj : forall k k' p, G !! k = Some p -> G !! k' = Some p -> k = k';
  tree_next : forall l pre t i, G !! (S l, pre) = Some t -> 0 <= i < 512 ->
    inner_entry (load64 m (pte_addr t i)) (G !! (l, pre * 512 + i));
  tree_up : forall l pre t, G !! (l, pre) = Some t ->
    (l = 2%nat /\ pre = 0) \/ ((l < 2)%nat /\ 0 <= pre /\ is_Some (G !! (S l, pre / 512)));
}.

(** The leaf entry of a virtual page; 0 where its table is missing. *)
Definition leaf (m : gmap Z Z) (G : tables) (vpn : Z) : Z :=
  match G !! (0%nat, vpn / 512) with
  | Some t => load64 m (pte_addr t (vpn mod 512))
  | None => 0
  end.

Definition entry (e : Z) : option (Z * Z) :=
  if has e PTE_V then Some (PTE2PA e, PTE_FLAGS e) else None.

Record vm (s : kernel) (root : Z) (G : tables) (AS : aspace) (fr : list Z) : Prop := {
  vm_kmem : kmem_inv s fr;
  vm_held : LKmem ∉ k_held s;
  vm_tree : tree (k_mem s) root G;
  vm_sep : forall p, p ∈ pages G -> p ∉ fr;
  vm_leaf : forall vpn, 0 <= vpn < 2 ^ 27 -> AS !! vpn = entry (leaf (k_mem s) G vpn);
  vm_range : forall vpn e, AS !! vpn = Some e -> 0 <= vpn < 2 ^ 27;
}.

(** What the operations on one page table may change. *)
Record vstep (s : kernel) (G : tables) (fr : list Z)
    (s' : kernel) (G' : tables) (fr' : list Z) : Prop := {
  vs_mem : same_outside (fr ++ pages G) (k_mem s) (k_mem s');
  vs_pages : fr' ++ pages G' ≡ₚ fr ++ pages G;
  vs_rest : mem_only s s';
}.
End PageTable.

(** ** Address arithmetic *)

Lemma vpre_step l va : 0 <= va -> vpre l va = vpre (S l) va * 512 + PX (Z.of_nat (S l)) va.
Proof.
  intros. unfold vpre. rewrite PX_eq by lia.
  replace (21 + 9 * Z.of_nat (S l)) with (12 + 9 * Z.of_nat (S l) + 9) by lia.
  replace (21 + 9 * Z.of_nat l) with (12 + 9 * Z.of_nat (S l)) by lia.
  rewrite (Z.pow_add_r 2 _ 9), <- Z.div_div by lia. change (2 ^ 9) with 512.
  pose proof (Z.div_mod (va / 2 ^ (12 + 9 * Z.of_nat (S l))) 512). lia.
Qed.

Lemma vpre_2 va : 0 <= va < MAXVA -> vpre 2 va = 0.
Proof. intros H. unfold vpre. apply Z.div_small. change MAXVA with (2 ^ 38) in H. simpl. lia. Qed.

Lemma vpre_0 va : vpre 0 va = va / PGSIZE / 512.
Proof. unfold vpre, PGSIZE. rewrite Z.div_div by lia. done. Qed.

Lemma PX_0 va : PX 0 va = va / PGSIZE mod 512.
Proof. by rewrite PX_eq by lia. Qed.

Lemma pte_addr_inside t i : 0 <= i < 512 -> t <= pte_addr t i /\ pte_addr t i + 8 <= t + PGSIZE.
Proof. unfold pte_addr, PGSIZE. lia. Qed.

Lemma has_bit e n : 0 <= n -> has e (2 ^ n) = Z.testbit e n.
Proof. intros. unfold has. rewrite land_bit_zero by done. by rewrite negb_involutive. Qed.

Lemma has_V e : has e PTE_V = Z.testbit e 0.
Proof. by apply (has_bit e 0). Qed.

Lemma has_0 f : has 0 f = false.
Proof. done. Qed.

(** ** Pages *)

Lemma elem_pages G p : p ∈ pages G <-> exists k, G !! k = Some p.
Proof.
  unfold pages. rewrite list_elem_of_fmap. split.
  - intros ([k q] & -> & Hk). exists k. by apply elem_of_map_to_list.
  - intros (k & Hk). exists (k, p). split; [done|]. by apply elem_of_map_to_list.
Qed.

Lemma pages_insert G k p : G !! k = None -> pages (<[k := p]> G) ≡ₚ p :: pages G.
Proof. intros. unfold pages. by rewrite map_to_list_insert. Qed.

Lemma same_outside_refl ps m : same_outside ps m m.
Proof. by intros a _. Qed.

Lemma same_outside_trans ps m1 m2 m3 :
  same_outside ps m1 m2 -> same_outside ps m2 m3 -> same_outside ps m1 m3.
Proof. intros H1 H2 a Ha. by rewrite H2, H1. Qed.

Lemma same_outside_mono ps ps' m m' :
  (forall p, p ∈ ps -> p ∈ ps') -> same_outside ps m m' -> same_outside ps' m m'.
Proof. intros Hs H a Ha. apply H. intros p Hp. apply Ha. by apply Hs. Qed.

Lemma same_outside_memset p c m : same_outside [p] m (memset m p c PGSIZE).
Proof.
  intros a Ha. specialize (Ha p (list_elem_of_here _ _)). unfold PGSIZE in *.
  by rewrite ldb_memset, decide_False by lia.
Qed.

Lemma same_outside_store p a bs m :
  p <= a -> a + Z.of_nat (length bs) <= p + PGSIZE -> same_outside [p] m (store m a bs).
Proof.
  intros H1 H2 x Hx. specialize (Hx p (list_elem_of_here _ _)).
  rewrite ldb_store, decide_False by lia. done.
Qed.

Lemma same_outside_pte t i v m : 0 <= i < 512 -> same_outside [t] m (store64 m (pte_addr t i) v).
Proof.
  intros Hi. pose proof (pte_addr_inside t i Hi).
  rewrite store64_store. apply same_outside_store; rewrite ?length_le_bytes; lia.
Qed.

Lemma load64_same_outside ps m m' a q :
  same_outside ps m m' -> (forall p, p ∈ ps -> p <> q /\ p mod PGSIZE = 0) ->
  q mod PGSIZE = 0 -> q <= a -> a + 8 <= q + PGSIZE -> load64 m' a = load64 m a.
Proof.
  intros Hs Hp Hq H1 H2. apply load64_ext. intros x Hx. apply Hs. intros p Hin.
  destruct (Hp p Hin). pose proof (page_disjoint p q). lia.
Qed.

Section TreeFacts.
Context `{Lk : Linker} {Lo : LinkerOk Lk}.

(** A tree depends on the entries of its own pages only. *)
Lemma tree_ext m m' root G :
  (forall k t i, G !! k = Some t -> 0 <= i < 512 ->
     load64 m' (pte_addr t i) = load64 m (pte_addr t i)) ->
  tree m root G -> tree m' root G.
Proof.
  intros Hm [Hr Hp Hi Hn Hu]. constructor; try done.
  intros l pre t i Ht Hr'. rewrite (Hm _ _ _ Ht) by done. eauto.
Qed.

Lemma leaf_ext m m' G vpn :
  (forall k t i, G !! k = Some t -> 0 <= i < 512 ->
     load64 m' (pte_addr t i) = load64 m (pte_addr t i)) ->
  leaf m' G vpn = leaf m G vpn.
Proof.
  intros Hm. unfold leaf. destruct (G !! _) as [t|] eqn:E; [|done].
  apply (Hm _ _ _ E). apply Z.mod_pos_bound. lia.
Qed.

Lemma entries_same ps m m' G k t i :
  same_outside ps m m' ->
  (forall p, p ∈ ps -> (p ∉ pages G) /\ p mod PGSIZE = 0) ->
  (forall k p, G !! k = Some p -> page_ok p) ->
  G !! k = Some t -> 0 <= i < 512 ->
  load64 m' (pte_addr t i) = load64 m (pte_addr t i).
Proof.
  intros Hs Hp Hok Ht Hi. pose proof (pte_addr_inside t i Hi).
  eapply (load64_same_outside ps _ _ _ t); [done| |apply (Hok _ _ Ht)|lia|lia].
  intros p Hin. destruct (Hp p Hin) as [Hn Ha]. split; [|done].
  intros ->. apply Hn, elem_pages. eauto.
Qed.

(** Two entries of a tree at the same address are the same entry. *)
Lemma pte_addr_inj m root G k k' t t' i j :
  tree m root G -> G !! k = Some t -> G !! k' = Some t' ->
  0 <= i < 512 -> 0 <= j < 512 -> pte_addr t i = pte_addr t' j -> k = k' /\ i = j.
Proof.
  intros HT Ht Ht' Hi Hj E.
  assert (t = t') as <-.
  { destruct (tree_page _ _ _ HT _ _ Ht), (tree_page _ _ _ HT _ _ Ht').
    destruct (decide (t = t')); [done|].
    pose proof (page_disjoint t t'). unfold pte_addr, PGSIZE in *. lia. }
  split; [by eapply tree_inj|]. unfold pte_addr in E. lia.
Qed.

Lemma load64_pte_store m root G k k' t t' i j v :
  tree m root G -> G !! k = Some t -> G !! k' = Some t' ->
  0 <= i < 512 -> 0 <= j < 512 ->
  load64 (store64 m (pte_addr t i) v) (pte_addr t' j) =
    if decide (k = k' /\ i = j) then u64 v else load64 m (pte_addr t' j).
Proof.
  intros HT Ht Ht' Hi Hj. destruct (decide _) as [[<- <-]|Hne].
  - assert (t = t') as <- by congruence. apply load64_store64_same.
  - apply load64_store64_disjoint.
    assert (pte_addr t i <> pte_addr t' j).
    { intros E. apply Hne. by eapply pte_addr_inj. }
    destruct (tree_page _ _ _ HT _ _ Ht), (tree_page _ _ _ HT _ _ Ht').
    unfold pte_addr, PGSIZE in *. dlia.
Qed.

Lemma tree_memset m root G p c :
  tree m root G -> page_ok p -> p ∉ pages G -> tree (memset m p c PGSIZE) root G.
Proof.
  intros HT Hp Hn. eapply tree_ext; [|done]. intros k t' j Hk Hj.
  eapply (entries_same [p]); [apply same_outside_memset| |apply HT|done|done].
  intros q ->%list_elem_of_singleton. split; [done|apply Hp].
Qed.

(** ** A new table below the entry [i] of [t] *)
Section Extend.
Context (m : gmap Z Z) (root : Z) (G : tables) (l : nat) (pre t i pg : Z).
Hypothesis HT : tree m root G.
Hypothesis Ht : G !! (S l, pre) = Some t.
Hypothesis Hi : 0 <= i < 512.
Hypothesis Hnone : G !! (l, pre * 512 + i) = None.
Hypothesis Hpg : page_ok pg.
Hypothesis Hfresh : pg ∉ pages G.

Let E := Z.lor (PA2PTE pg) PTE_V.
Let m1 := memset m pg 0 PGSIZE.
Let m' := store64 m1 (pte_addr t i) E.
Let G' := <[(l, pre * 512 + i) := pg]> G.

Lemma table_entry : u64 E = E /\ inner_entry E (Some pg).
Proof.
  subst E. destruct Hpg as [Ha _]. pose proof (page_ok_pos pg Hpg).
  rewrite <- (Z.lor_0_r (PA2PTE pg)).
  pose proof (mkpte_range pg 0 ltac:(lia) ltac:(done) ltac:(lia)).
  split; [apply u64_small; lia|]. simpl.
  pose proof (mkpte_flags pg 0 ltac:(lia) ltac:(done) ltac:(lia)) as Hf.
  rewrite PTE_FLAGS_eq in Hf. change (Z.lor 0 PTE_V) with 1 in Hf.
  split; [|split].
  - rewrite has_V, Z.bit0_odd, Zodd_mod. rewrite mkpte_eq by (try done; lia).
    change (Z.lor 0 1) with 1. apply Z.eqb_eq. dlia.
  - apply mkpte_pa; [lia|done|lia].
  - unfold has. apply negb_false_iff, Z.eqb_eq.
    set (e := Z.lor _ _) in *. change (Z.lor (Z.lor PTE_R PTE_W) PTE_X) with (Z.land 14 1023).
    rewrite (Z.land_comm 14), Z.land_assoc. change 1023 with (2 ^ 10 - 1).
    rewrite land_mask by lia. change (2 ^ 10) with 1024. by rewrite Hf.
Qed.

Lemma tree_m1 : tree m1 root G.
Proof. by apply tree_memset. Qed.

Lemma new_table_entry j : 0 <= j < 512 -> load64 m' (pte_addr pg j) = 0.
Proof.
  intros Hj. pose proof (pte_addr_inside pg j Hj). subst m'.
  rewrite (load64_same_outside [t] m1 _ _ pg); [| |..].
  - subst m1. apply load64_memset_zero; unfold PGSIZE in *; lia.
  - by apply same_outside_pte.
  - intros p ->%list_elem_of_singleton. split; [|apply (tree_page _ _ _ HT _ _ Ht)].
    intros ->. apply Hfresh, elem_pages. eauto.
  - apply Hpg.
  - lia.
  - lia.
Qed.

Lemma old_table_entry k t' j :
  G !! k = Some t' -> 0 <= j < 512 ->
  load64 m' (pte_addr t' j) =
    if decide ((S l, pre) = k /\ i = j) then E else load64 m (pte_addr t' j).
Proof.
  intros Hk Hj. subst m'. erewrite load64_pte_store; [|apply tree_m1|..]; try done.
  destruct (decide _); [apply table_entry|].
  eapply (entries_same [pg]); [apply same_outside_memset| |apply HT|done|done].
  intros p ->%list_elem_of_singleton. split; [done|apply Hpg].
Qed.

Lemma tree_extend : tree m' root G'.
Proof.
  assert (forall k, G !! k = Some pg -> False) as Hno.
  { intros k Hk. apply Hfresh, elem_pages. eauto. }
  pose proof (tree_up _ _ _ HT _ _ _ Ht) as Hup.
  assert (0 <= pre) by (destruct Hup as [[_ ->]|(_ & ? & _)]; lia).
  subst G'. constructor.
  - rewrite lookup_insert_ne; [apply HT|]. intros [= -> E0].
    destruct Hup as [[? _]|[? _]]; lia.
  - intros k p. rewrite lookup_insert. case_decide; [by intros [= <-]|apply HT].
  - intros k k' p. rewrite !lookup_insert. repeat case_decide; try congruence. apply HT.
  - intros l' pre' t' j Hk Hj. rewrite lookup_insert in Hk. case_decide as Ek.
    + injection Ek as El <-. injection Hk as <-. rewrite new_table_entry by done. rewrite lookup_insert_ne by (intros [=]; lia).
      destruct (G !! (l', _)) as [t''|] eqn:E'; [|done].
      destruct (tree_up _ _ _ HT _ _ _ E') as [[-> E0]|(_ & _ & [x Hx])].
      * destruct Hup as [[? _]|[? _]]; lia.
      * replace (((pre * 512 + i) * 512 + j) / 512) with (pre * 512 + i) in Hx by dlia.
        rewrite <- El in Hx. congruence.
    + rewrite (old_table_entry _ _ _ Hk Hj). case_decide as Ed.
      * destruct Ed as [[= <- <-] <-]. rewrite lookup_insert_eq. apply table_entry.
      * rewrite lookup_insert_ne; [by apply HT|]. intros [= El E0]. apply Ed.
        rewrite El. assert (pre = pre' /\ i = j) as [<- <-] by dlia. done.
  - intros l' pre' t' Hk. rewrite lookup_insert in Hk. case_decide as Ek.
    + injection Ek as <- <-. right. split; [destruct Hup as [[? _]|[? _]]; lia|]. split; [lia|].
      replace ((pre * 512 + i) / 512) with pre by dlia.
      rewrite lookup_insert_ne by (intros [=]; lia). eauto.
    + destruct (tree_up _ _ _ HT _ _ _ Hk) as [?|(? & ? & Hs)]; [by left|right].
      split; [done|]. split; [done|]. rewrite lookup_insert. case_decide; eauto.
Qed.

Lemma leaf_extend vpn : leaf m' G' vpn = leaf m G vpn.
Proof.
  assert (0 <= vpn mod 512 < 512) by (apply Z.mod_pos_bound; lia).
  unfold leaf. subst G'. rewrite lookup_insert. case_decide as Ek.
  - injection Ek as El <-. rewrite new_table_entry by done. by rewrite <- El, Hnone.
  - destruct (G !! (0%nat, _)) as [t'|] eqn:Ht'; [|done].
    rewrite (old_table_entry _ _ _ Ht') by done. by rewrite decide_False by naive_solver.
Qed.
End Extend.

(** ** Steps on a page table *)

(** Writes outside the free pages leave the allocator alone. *)
Lemma kmem_inv_mem s fr ps m' :
  kmem_inv s fr -> same_outside ps (k_mem s) m' ->
  (forall p, p ∈ ps -> (p ∉ fr) /\ p mod PGSIZE = 0) ->
  kmem_inv (set_k_mem m' s) fr.
Proof.
  intros [Hf Hd] Hm Hp. constructor; simpl; [|done]. eapply freelist_ext; [|done].
  intros q Hq. destruct (freelist_page_ok _ _ _ _ Hf Hq) as [Ha _].
  eapply (load64_same_outside ps _ _ _ q); [done| |done|lia|unfold PGSIZE; lia].
  intros p Hin. destruct (Hp p Hin). split; [|done]. by intros ->.
Qed.

Lemma vm_page_ok s root G AS fr p : vm s root G AS fr -> p ∈ fr ++ pages G -> page_ok p.
Proof.
  intros V [Hp|Hp]%elem_of_app.
  - destruct (vm_kmem _ _ _ _ _ V) as [Hf _]. by eapply freelist_page_ok.
  - apply elem_pages in Hp as [k Hk]. by eapply tree_page; [apply V|].
Qed.

(** Memory that belongs to neither the tables nor the free pages may change. *)
Lemma vm_other s root G AS fr ps m' :
  vm s root G AS fr -> same_outside ps (k_mem s) m' ->
  (forall p, p ∈ ps -> (p ∉ fr ++ pages G) /\ p mod PGSIZE = 0) ->
  vm (set_k_mem m' s) root G AS fr.
Proof.
  intros [Hk Hh HT Hs Hl Hr] Hm Hp.
  assert (forall k t i, G !! k = Some t -> 0 <= i < 512 ->
            load64 m' (pte_addr t i) = load64 (k_mem s) (pte_addr t i)) as He.
  { intros k t i Ht Hi. eapply entries_same; [done| |apply HT|done|done].
    intros p Hin. destruct (Hp p Hin) as [Hn Ha]. split; [|done].
    intros Hx. apply Hn, elem_of_app. by right. }
  constructor; simpl; try done.
  - eapply kmem_inv_mem; [done|done|]. intros p Hin. destruct (Hp p Hin) as [Hn Ha].
    split; [|done]. intros Hx. apply Hn, elem_of_app. by left.
  - by eapply tree_ext.
  - intros vpn Hv. rewrite Hl by done. f_equal. symmetry. by apply leaf_ext.
Qed.

Lemma vstep_refl s G fr : vstep s G fr s G fr.
Proof. constructor; [apply same_outside_refl|done|done]. Qed.

Lemma vstep_trans s1 G1 f1 s2 G2 f2 s3 G3 f3 :
  vstep s1 G1 f1 s2 G2 f2 -> vstep s2 G2 f2 s3 G3 f3 -> vstep s1 G1 f1 s3 G3 f3.
Proof.
  intros [Hm Hp Hr] [Hm' Hp' Hr']. constructor.
  - eapply same_outside_trans; [done|]. eapply same_outside_mono; [|done].
    intros p. by rewrite Hp.
  - by rewrite Hp'.
  - by etrans.
Qed.

(** Every table on the way to a table is there. *)
Lemma tree_above m root G va l t :
  tree m root G -> 0 <= va -> (l < 2)%nat -> G !! (l, vpre l va) = Some t ->
  is_Some (G !! (S l, vpre (S l) va)).
Proof.
  intros HT Hva Hl Ht. destruct (tree_up _ _ _ HT _ _ _ Ht) as [[-> _]|(_ & _ & Hs)]; [lia|].
  rewrite vpre_step in Hs by done. pose proof (PX_range (Z.of_nat (S l)) va).
  by replace ((vpre (S l) va * 512 + PX (Z.of_nat (S l)) va) / 512) with (vpre (S l) va)
    in Hs by dlia.
Qed.

Lemma tree_leaf_none m root G va l :
  tree m root G -> 0 <= va -> (l <= 1)%nat -> G !! (l, vpre l va) = None ->
  G !! (0%nat, vpre 0 va) = None.
Proof.
  intros HT Hva Hl Hn. destruct (G !! (0%nat, _)) as [t|] eqn:E; [|done].
  destruct l as [|[|l]]; [congruence| |lia].
  destruct (tree_above _ _ _ va 0 t HT Hva ltac:(lia) E). congruence.
Qed.

(** The slot of [va]'s leaf entry, 0 if its table is missing. *)
Definition slot (G : tables) (va : Z) : Z :=
  match G !! (0%nat, va / PGSIZE / 512) with
  | Some t => pte_addr t (va / PGSIZE mod 512)
  | None => 0
  end.

Lemma walk_level_lookup s root G va l t :
  tree (k_mem s) root G -> 0 <= va -> (l <= 2)%nat -> G !! (l, vpre l va) = Some t ->
  walk_level l t va false s = Ok (slot G va) s.
Proof.
  intros HT Hva. revert t. induction l as [|l IH]; intros t Hl Ht.
  - simpl. unfold slot. rewrite <- vpre_0, Ht, <- PX_0. done.
  - cbn [walk_level]. unfold get_mem. run_step.
    pose proof (PX_range (Z.of_nat (S l)) va ltac:(lia)) as Hpx.
    pose proof (tree_next _ _ _ HT _ _ _ _ Ht Hpx) as He.
    rewrite <- vpre_step in He by done. destruct (G !! (l, _)) as [t'|] eqn:E.
    + destruct He as (-> & -> & _). apply IH; [lia|done].
    + simpl in He. rewrite He. unfold slot. rewrite <- vpre_0.
      by rewrite (tree_leaf_none (k_mem s) root G va l) by (try done; lia).
Qed.

Lemma walk_lookup s root G va :
  tree (k_mem s) root G -> 0 <= va < MAXVA -> walk root va false s = Ok (slot G va) s.
Proof.
  intros HT Hva. unfold walk. destruct (Z.geb_spec va MAXVA); [lia|].
  eapply walk_level_lookup; [done|lia|lia|]. rewrite vpre_2 by done. apply HT.
Qed.

Lemma slot_some m root G va t :
  tree m root G -> G !! (0%nat, va / PGSIZE / 512) = Some t ->
  slot G va = pte_addr t (va / PGSIZE mod 512) /\ (slot G va =? 0) = false.
Proof.
  intros HT Ht. unfold slot. rewrite Ht. split; [done|]. apply Z.eqb_neq.
  pose proof (page_ok_pos t (tree_page _ _ _ HT _ _ Ht)).
  pose proof (Z.mod_pos_bound (va / PGSIZE) 512). unfold pte_addr. lia.
Qed.

Lemma slot_load m root G va :
  tree m root G -> slot G va <> 0 -> load64 m (slot G va) = leaf m G (va / PGSIZE).
Proof.
  intros HT Hs. unfold slot, leaf in *. by destruct (G !! _).
Qed.

Lemma slot_zero m root G va :
  tree m root G -> slot G va = 0 -> leaf m G (va / PGSIZE) = 0.
Proof.
  intros HT Hs. unfold leaf. destruct (G !! _) as [t|] eqn:E; [|done].
  destruct (slot_some _ _ _ _ _ HT E) as [_ H]. lia.
Qed.

(** Taking a page for a new table below the entry [i] of [t]. *)
Lemma vm_new_table s root G AS p fr l pre t i :
  vm s root G AS (p :: fr) -> G !! (S l, pre) = Some t -> 0 <= i < 512 ->
  G !! (l, pre * 512 + i) = None ->
  let m5 := memset (k_mem s) p 5 PGSIZE in
  let s' := set_k_mem (store64 (memset m5 p 0 PGSIZE) (pte_addr t i) (Z.lor (PA2PTE p) PTE_V))
              (set_k_freelist (load64 (k_mem s) p) s) in
  let G' := <[(l, pre * 512 + i) := p]> G in
  vm s' root G' AS fr /\ vstep s G (p :: fr) s' G' fr.
Proof.
  intros V Ht Hi Hn m5 s' G'. pose proof V as [Hk Hh HT Hs Hl Hr].
  assert (page_ok p) as Hp by (eapply vm_page_ok; [done|left]).
  assert (p ∉ pages G) as Hpg by (intros Hx; apply (Hs p Hx); left).
  pose proof Hk as [_ [Hpf Hnd]%NoDup_cons].
  assert (t ∈ pages G) as Htp by (apply elem_pages; eauto).
  assert (tree m5 root G) as HT5 by (by apply tree_memset).
  assert (same_outside [p; t] (k_mem s) (k_mem s')) as Hout.
  { assert (forall q, q = p \/ q = t -> q ∈ [p; t]) as Hin
      by (intros q [->| ->]; [left|right; left]).
    eapply same_outside_trans; [|eapply same_outside_trans];
      (eapply same_outside_mono; [|apply same_outside_memset || by apply same_outside_pte]);
      intros q ->%list_elem_of_singleton; apply Hin; auto. }
  split; [|constructor].
  - constructor; simpl; [|done|by apply tree_extend| | |done].
    + pose proof (kalloc_inv _ _ _ Hk) as Hk'.
      apply (kmem_inv_mem _ _ [p; t] (k_mem s')) in Hk'; [done| |].
      * simpl. eapply same_outside_trans; [eapply same_outside_mono; [|apply same_outside_memset]|].
        { intros q ->%list_elem_of_singleton. left. }
        eapply same_outside_mono; [|by apply same_outside_pte].
        intros q ->%list_elem_of_singleton. right. left.
      * intros q [->| ->%list_elem_of_singleton]%elem_of_cons; split; try done; [apply Hp| |].
        { intros Hx. by apply (Hs t Htp), list_elem_of_further. }
        apply (tree_page _ _ _ HT _ _ Ht).
    + intros q Hq. unfold G' in Hq. rewrite pages_insert in Hq by done. apply elem_of_cons in Hq as [->|Hq]; [done|].
      intros Hx. by apply (Hs q Hq), list_elem_of_further.
    + intros vpn Hv. rewrite Hl by done. f_equal. symmetry. subst G'.
      rewrite (leaf_extend m5 root G) by done. apply leaf_ext. intros k t' j Hk' Hj.
      eapply (entries_same [p]); [apply same_outside_memset| |apply HT|done|done].
      intros q ->%list_elem_of_singleton. split; [done|apply Hp].
  - eapply same_outside_mono; [|done].
    intros q [->| ->%list_elem_of_singleton]%elem_of_cons; [left|].
    apply elem_of_app. by right.
  - subst G'. rewrite pages_insert by done. by rewrite <- Permutation_middle.
  - apply mem_only_mem_freelist.
Qed.

(** [walk] with [alloc]: the address space is unchanged; either the leaf's
    slot exists afterwards or memory has run out.  The walk from level [l]
    takes at most [l] pages, and none if the leaf's table is there. *)
Definition walked (l : nat) (s : kernel) (root : Z) (G : tables) (AS : aspace) (fr : list Z) (va : Z)
    (pte : Z) (s' : kernel) : Prop :=
  exists G' fr', vm s' root G' AS fr' /\ vstep s G fr s' G' fr' /\
    pte = slot G' va /\ (pte = 0 -> fr' = [] /\ (length fr < l)%nat) /\ (pte <> 0 -> G' !! (0%nat, va / PGSIZE / 512) <> None) /\
    (length fr <= length fr' + l)%nat /\ (G !! (0%nat, va / PGSIZE / 512) <> None -> fr' = fr /\ pte <> 0).

Lemma walk_level_alloc root AS va l s G fr t :
  0 <= va -> (l <= 2)%nat -> vm s root G AS fr -> G !! (l, vpre l va) = Some t ->
  wp (walk_level l t va true) (walked l s root G AS fr va) s.
Proof.
  intros Hva. revert s G fr t. induction l as [|l IH]; intros s G fr t Hl V Ht.
  - apply wp_ret. exists G, fr. rewrite vpre_0 in Ht.
    destruct (slot_some _ _ _ _ _ (vm_tree _ _ _ _ _ V) Ht) as [Hs Hz].
    split; [done|]. split; [apply vstep_refl|]. rewrite PX_0, <- Hs. split; [done|].
    apply Z.eqb_neq in Hz. split; [done|]. rewrite Ht. split; [done|]. split; [lia|done].
  - cbn [walk_level]. kwp.
    pose proof (PX_range (Z.of_nat (S l)) va ltac:(lia)) as Hpx.
    pose proof (tree_next _ _ _ (vm_tree _ _ _ _ _ V) _ _ _ _ Ht Hpx) as He.
    rewrite <- vpre_step in He by done. destruct (G !! (l, _)) as [t'|] eqn:E.
    + destruct He as (-> & -> & _). eapply wp_mono; [by apply IH; [lia| |]|].
      intros pte s' (G' & fr' & V' & S' & Hp & Hz & Hn & Hc & Hex). exists G', fr'. split_and!; try done; [intros H0; destruct (Hz H0); split; [done|lia]|lia].
    + simpl in He. rewrite He. simpl negb. cbv iota. apply wp_bind.
      pose proof (kalloc_spec s fr (vm_kmem _ _ _ _ _ V) (vm_held _ _ _ _ _ V)) as Hk.
      destruct fr as [|p ps].
      * eapply wp_eq; [done|]. apply wp_ret. exists G, [].
        rewrite <- vpre_0. pose proof (tree_leaf_none (k_mem s) root G va l (vm_tree _ _ _ _ _ V) Hva ltac:(lia) E) as E0.
        split; [done|]. split; [apply vstep_refl|]. split; [unfold slot; rewrite <- vpre_0; by rewrite E0|].
        split; [cbn; split; [done|lia]|]. split; [done|]. split; [lia|]. by rewrite E0.
      * destruct Hk as (s1 & Ek & _ & Hp & ->). eapply wp_eq; [done|].
        pose proof (page_ok_pos p Hp). rewrite (proj2 (Z.eqb_neq p 0)) by lia.
        pose proof (tree_leaf_none (k_mem s) root G va l (vm_tree _ _ _ _ _ V) Hva ltac:(lia) E) as E0. rewrite vpre_0 in E0.
        rewrite vpre_step in E by done.
        destruct (vm_new_table s root G AS p ps l _ t _ V Ht Hpx E) as [V' S'].
        kwp. simpl k_mem in *.
        eapply wp_mono; [apply IH; [lia|exact V'|by rewrite vpre_step, lookup_insert_eq by done]|].
        intros pte s' (G' & fr' & V2 & S2 & Hpte & Hz & Hn & Hc & _). exists G', fr'. cbn [length].
        split; [done|]. split; [by eapply vstep_trans|]. split_and!; [done|intros H0; destruct (Hz H0); split; [done|lia]|done|lia|by rewrite E0].
Qed.

Lemma walk_alloc s root G AS fr va :
  vm s root G AS fr -> 0 <= va < MAXVA ->
  wp (walk root va true) (walked 2 s root G AS fr va) s.
Proof.
  intros V Hva. unfold walk. destruct (Z.geb_spec va MAXVA); [lia|].
  eapply walk_level_alloc; [lia|lia|done|]. rewrite vpre_2 by done. apply V.
Qed.

(** ** Writing a leaf entry *)

Lemma vpn_range va : 0 <= va < MAXVA -> 0 <= va / PGSIZE < 2 ^ 27.
Proof. change MAXVA with (2 ^ 38). unfold PGSIZE. dlia. Qed.

Lemma leaf_store m root G t vpn x e :
  tree m root G -> 0 <= vpn -> 0 <= x -> G !! (0%nat, vpn / 512) = Some t ->
  leaf (store64 m (pte_addr t (vpn mod 512)) e) G x =
    if decide (x = vpn) then u64 e else leaf m G x.
Proof.
  intros HT Hv Hx Ht. pose proof (Z.mod_pos_bound vpn 512). pose proof (Z.mod_pos_bound x 512).
  unfold leaf. destruct (G !! (0%nat, x / 512)) as [t'|] eqn:E.
  - erewrite load64_pte_store by (try done; lia). case_decide as E1; case_decide as E2; try done.
    + destruct E1 as [[= E1] E3]. destruct E2. dlia.
    + destruct E1. by subst.
  - case_decide; [|done]. subst. congruence.
Qed.

Lemma vm_set_leaf s root G AS fr va e :
  vm s root G AS fr -> 0 <= va < MAXVA -> slot G va <> 0 ->
  let s' := set_k_mem (store64 (k_mem s) (slot G va) e) s in
  vm s' root G (partial_alter (fun _ => entry (u64 e)) (va / PGSIZE) AS) fr /\
  vstep s G fr s' G fr.
Proof.
  intros V Hva Hs s'. pose proof V as [Hk Hh HT Hsep Hl Hr].
  destruct (G !! (0%nat, va / PGSIZE / 512)) as [t|] eqn:Ht; [|unfold slot in Hs; by rewrite Ht in Hs].
  pose proof (vpn_range va Hva) as Hv. pose proof (Z.mod_pos_bound (va / PGSIZE) 512 ltac:(lia)) as Hi.
  destruct (slot_some _ _ _ _ _ HT Ht) as [E _]. subst s'. rewrite E.
  assert (t ∈ pages G) as Htp by (apply elem_pages; eauto).
  pose proof (tree_page _ _ _ HT _ _ Ht) as Hp.
  split; [|constructor; simpl; [|done|apply mem_only_mem]].
  - constructor; simpl; [|done| |done| |].
    + eapply (kmem_inv_mem _ _ [t]); [done|by apply same_outside_pte|].
      intros p ->%list_elem_of_singleton. split; [by apply Hsep|apply Hp].
    + pose proof HT as [H1 H2 H3 H4 H5]. constructor; try done.
      intros l pre t' i Ht' Hi'. erewrite load64_pte_store by (try done; lia).
      rewrite decide_False by (intros [? _]; congruence). by apply H4.
    + intros vpn Hvpn. erewrite leaf_store; [|done|lia|lia|done].
      rewrite lookup_partial_alter. case_decide as E1; case_decide as E2; subst; try done.
      by apply Hl.
    + intros vpn x. rewrite lookup_partial_alter. case_decide as E1; [by subst|eauto].
  - eapply same_outside_mono; [|by apply same_outside_pte].
    intros p ->%list_elem_of_singleton. apply elem_of_app. by right.
Qed.

(** What the loops of [mappages] and [uvmunmap] do to the address space. *)
Fixpoint map_pages (AS : aspace) (vpn pa : Z) (n : nat) (fl : Z) : aspace :=
  match n with
  | O => AS
  | S n' => <[vpn + Z.of_nat n' := (pa + PGSIZE * Z.of_nat n', fl)]> (map_pages AS vpn pa n' fl)
  end.

Fixpoint unmap_pages (AS : aspace) (vpn : Z) (n : nat) : aspace :=
  match n with O => AS | S n' => delete (vpn + Z.of_nat n') (unmap_pages AS vpn n') end.

(** The physical pages behind [n] virtual pages. *)
Definition frames (AS : aspace) (vpn : Z) (n : nat) : list Z :=
  omap (fun i => fst <$> AS !! (vpn + Z.of_nat i)) (seq 0 n).

Lemma lookup_map_pages AS vpn pa n fl x :
  map_pages AS vpn pa n fl !! x =
    if decide (vpn <= x < vpn + Z.of_nat n) then Some (pa + PGSIZE * (x - vpn), fl) else AS !! x.
Proof.
  induction n as [|n IH]; simpl map_pages; [by rewrite decide_False by lia|].
  rewrite lookup_insert, IH. repeat case_decide; try lia; try done. do 3 f_equal. lia.
Qed.

Lemma lookup_unmap_pages AS vpn n x :
  unmap_pages AS vpn n !! x = if decide (vpn <= x < vpn + Z.of_nat n) then None else AS !! x.
Proof.
  induction n as [|n IH]; simpl unmap_pages; [by rewrite decide_False by lia|].
  rewrite lookup_delete, IH. repeat case_decide; try lia; done.
Qed.

Lemma frames_S AS vpn n pa fl :
  AS !! (vpn + Z.of_nat n) = Some (pa, fl) -> frames AS vpn (S n) = frames AS vpn n ++ [pa].
Proof. intros E. unfold frames. by rewrite seq_S, omap_app; simpl; rewrite E. Qed.

Lemma elem_frames AS vpn n p :
  p ∈ frames AS vpn n <->
  exists i fl, (i < n)%nat /\ AS !! (vpn + Z.of_nat i) = Some (p, fl).
Proof.
  unfold frames. rewrite list_elem_of_omap. setoid_rewrite elem_of_seq. split.
  - intros (i & Hi & [[? fl] [E [= ->]]]%fmap_Some). exists i, fl. split; [lia|done].
  - intros (i & fl & Hi & E). exists i. split; [lia|]. by rewrite E.
Qed.
End TreeFacts.
