(* ===== verification/VmProofs.v ===== *)
(** * Proofs about kernel/vm.c

    The specification of each operation of [vm.c] in terms of the address
    space [AS] that a page table represents ([PageTable.vm]), with an account
    of every page: what the allocator, the tables and the address space own
    is conserved, also on the error paths. *)

From S2P Require Import Prelude Bytes Params CString Spinlock State Kalloc Vm PageTable.

Section VmProofs.
Context `{Lk : Linker} {Lo : LinkerOk Lk}.

(** ** mappages *)

Lemma entry_mkpte pa perm :
  0 <= pa < 2 ^ 56 -> pa mod PGSIZE = 0 -> 0 <= perm < 1024 ->
  entry (u64 (Z.lor (Z.lor (PA2PTE pa) perm) PTE_V)) = Some (pa, Z.lor perm PTE_V).
Proof.
  intros H1 H2 H3. pose proof (mkpte_range pa perm H1 H2 H3).
  rewrite u64_small by lia. unfold entry. rewrite mkpte_pa, mkpte_flags by done.
  rewrite has_V, Z.lor_spec. change (Z.testbit PTE_V 0) with true. by rewrite orb_true_r.
Qed.

Lemma entry_none e : entry e = None -> has e PTE_V = false.
Proof. unfold entry. by destruct (has e PTE_V). Qed.

Lemma PGROUNDDOWN_div a : 0 <= a < 2 ^ 64 -> PGROUNDDOWN a = PGSIZE * (a / PGSIZE).
Proof. intros. rewrite PGROUNDDOWN_eq by done. unfold PGSIZE. dlia. Qed.

(** The pages that [va, va+size) touches. *)
Definition npages_of (va size : Z) : nat :=
  Z.to_nat ((va + size - 1) / PGSIZE - va / PGSIZE + 1).

Definition mapped (s : kernel) (root : Z) (G : tables) (AS : aspace) (fr : list Z)
    (vpn pa : Z) (n : nat) (perm r : Z) (s' : kernel) : Prop :=
  exists G' fr' k,
    vm s' root G' (map_pages AS vpn pa k (Z.lor perm PTE_V)) fr' /\ vstep s G fr s' G' fr' /\
    (r = 0 /\ k = n \/ r = -1 /\ (k < n)%nat /\ fr' = []).

Lemma mappages_spec s root G AS fr va size pa perm :
  vm s root G AS fr ->
  0 <= va -> 0 < size -> va + size <= MAXVA ->
  pa mod PGSIZE = 0 -> 0 <= pa -> pa + PGSIZE * Z.of_nat (npages_of va size) <= 2 ^ 56 ->
  0 <= perm < 1024 ->
  (forall x, va / PGSIZE <= x <= (va + size - 1) / PGSIZE -> AS !! x = None) ->
  wp (mappages root va size pa perm)
    (mapped s root G AS fr (va / PGSIZE) pa (npages_of va size) perm) s.
Proof.
  intros V Hva Hsz Hmax Hal Hpa Hpa2 Hperm Hfree. unfold mappages.
  rewrite (proj2 (Z.eqb_neq size 0)) by lia. change MAXVA with (2 ^ 38) in *.
  rewrite (u64_small (va + size - 1)), !PGROUNDDOWN_div by lia. cbv zeta.
  set (v0 := va / PGSIZE) in *. set (v1 := (va + size - 1) / PGSIZE) in *.
  assert (0 <= v0 <= v1 /\ PGSIZE * v1 < 2 ^ 38) as Hv by (unfold v0, v1, PGSIZE in *; dlia).
  assert (Z.of_nat (npages_of va size) = v1 - v0 + 1) as Hn by (unfold npages_of; fold v0 v1; lia).
  eapply (wp_loop _ (fun '(a, pa') s' => exists G' fr' k,
      vm s' root G' (map_pages AS v0 pa k (Z.lor perm PTE_V)) fr' /\ vstep s G fr s' G' fr' /\
      (k < npages_of va size)%nat /\
      a = PGSIZE * (v0 + Z.of_nat k) /\ pa' = pa + PGSIZE * Z.of_nat k)
    (fun '(a, _) _ => 2 ^ 38 - a)).
  - intros [a pa'] s1 (G1 & fr1 & k & V1 & S1 & Hk & -> & ->).
    set (a := PGSIZE * (v0 + Z.of_nat k)).
    assert (0 <= a < 2 ^ 38 /\ a / PGSIZE = v0 + Z.of_nat k) as [Ha Hd]
      by (unfold a, PGSIZE in *; split; [lia|dlia]).
    apply wp_bind. eapply wp_mono; [by apply walk_alloc|].
    intros pte s2 (G2 & fr2 & V2 & S2 & -> & Hnil & Hsome & _). cbv beta.
    destruct (Z.eqb_spec (slot G2 a) 0) as [Hz|Hz].
    { apply wp_ret. exists G2, fr2, k. split; [done|]. split; [by eapply vstep_trans|].
      right. destruct (Hnil Hz). auto. }
    kwp. pose proof (vm_leaf _ _ _ _ _ V2 (a / PGSIZE) (vpn_range a Ha)) as Hl.
    rewrite slot_load with (root := root), Hd by (try apply V2; done).
    rewrite lookup_map_pages, Hd, decide_False, Hfree in Hl by lia.
    rewrite (entry_none _ (eq_sym Hl)).
    destruct (vm_set_leaf s2 root G2 _ fr2 a
      (Z.lor (Z.lor (PA2PTE (pa + PGSIZE * Z.of_nat k)) perm) PTE_V) V2 Ha Hz) as [V3 S3].
    rewrite entry_mkpte in V3 by (unfold PGSIZE in *; dlia). rewrite Hd in V3.
    kwp. destruct (Z.eqb_spec a (PGSIZE * v1)) as [He|He]; kwp.
    + eexists G2, fr2, (S k). split; [exact V3|]. split; [|left; unfold a, PGSIZE in *; lia].
      eapply vstep_trans; [done|]. by eapply vstep_trans.
    + rewrite !u64_small by (unfold a, PGSIZE in *; lia). split; [|unfold a, PGSIZE in *; lia].
      eexists G2, fr2, (S k). split; [exact V3|].
      split; [eapply vstep_trans; [done|]; by eapply vstep_trans|].
      unfold a, PGSIZE in *. lia.
  - exists G, fr, O. simpl. split; [done|]. split; [apply vstep_refl|]. unfold PGSIZE. lia.
  - unfold PGSIZE in *. lia.
Qed.

(** ** The allocator next to a page table *)

Lemma vm_kfree s root G AS fr pa :
  vm s root G AS fr -> page_ok pa -> pa ∉ fr -> pa ∉ pages G ->
  exists s', kfree pa s = Ok tt s' /\ vm s' root G AS (pa :: fr) /\
    same_outside [pa] (k_mem s) (k_mem s') /\
    mem_only s s'.
Proof.
  intros V Hp Hf Hg. pose proof V as [Hk Hh HT Hs Hl Hr].
  destruct (kfree_spec s fr pa Hk Hh Hp Hf) as (s' & E & Hk' & ->).
  eexists. split; [exact E|].
  assert (same_outside [pa] (k_mem s)
            (store64 (memset (k_mem s) pa 1 PGSIZE) pa (k_freelist s))) as Hm.
  { intros a Ha. apply kfree_mem_outside, Ha. left. }
  split; [|split; [exact Hm|apply mem_only_freelist_mem]].
  assert (vm (set_k_mem (store64 (memset (k_mem s) pa 1 PGSIZE) pa (k_freelist s)) s) root G AS fr)
    as [_ _ HT' _ Hl' _].
  { eapply vm_other; [done|done|]. intros p ->%list_elem_of_singleton.
    split; [|apply Hp]. by rewrite elem_of_app; intros [?|?]. }
  constructor; simpl; try done.
  intros p Hpg [->|Hx]%elem_of_cons; [done|]. by apply (Hs p).
Qed.

Lemma vm_kalloc s root G AS p fr :
  vm s root G AS (p :: fr) ->
  exists s', kalloc s = Ok p s' /\ vm s' root G AS fr /\ page_ok p /\ (p ∉ fr) /\ (p ∉ pages G) /\
    same_outside [p] (k_mem s) (k_mem s') /\
    mem_only s s'.
Proof.
  intros V. pose proof V as [Hk Hh HT Hs Hl Hr].
  destruct (kalloc_spec s (p :: fr) Hk Hh) as (s' & E & Hk' & Hp & ->).
  pose proof Hk as [_ [Hn _]%NoDup_cons].
  assert (p ∉ pages G) as Hpg by (intros Hx; apply (Hs p Hx); left).
  eexists. split; [exact E|]. split; [|].
  - constructor; simpl; [done|done|by apply tree_memset| | |done].
    + intros q Hq Hx. by apply (Hs q Hq), list_elem_of_further.
    + intros vpn Hv. rewrite Hl by done. f_equal. symmetry. apply leaf_ext.
      intros k t j Hk'' Hj.
      eapply (entries_same [p]); [apply same_outside_memset| |apply HT|done|done].
      intros q ->%list_elem_of_singleton. split; [done|apply Hp].
  - split; [done|]. split; [done|]. split; [done|].
    split; [apply same_outside_memset|apply mem_only_mem_freelist].
Qed.

(** ** uvmunmap *)

Section Unmap.
Context (root : Z) (G : tables) (AS : aspace) (fr : list Z) (v0 : Z) (do_free : bool).

(** The pages that [do_free] gives back. *)
Definition freed (n : nat) : list Z := if do_free then frames AS v0 n else [].

Definition unmapped (s : kernel) (n : nat) (s' : kernel) : Prop :=
  vm s' root G (unmap_pages AS v0 n) (rev (freed n) ++ fr) /\
  same_outside (freed n ++ pages G) (k_mem s) (k_mem s') /\
  mem_only s s'.

Definition unmappable (n : nat) : Prop :=
  (forall i, (i < n)%nat -> exists pa fl, AS !! (v0 + Z.of_nat i) = Some (pa, fl) /\ fl <> PTE_V) /\
  (forall p, p ∈ freed n -> page_ok p /\ (p ∉ fr) /\ (p ∉ pages G)) /\ NoDup (freed n).

Lemma freed_S n pa fl :
  AS !! (v0 + Z.of_nat n) = Some (pa, fl) ->
  freed (S n) = freed n ++ (if do_free then [pa] else []).
Proof. intros E. unfold freed. destruct do_free; [by eapply frames_S|done]. Qed.

Lemma unmappable_S n : unmappable (S n) -> unmappable n.
Proof.
  intros (Hm & Hf & Hn). destruct (Hm n ltac:(lia)) as (pa & fl & E & _).
  erewrite freed_S in Hf, Hn by done. split; [|split].
  - intros i Hi. apply Hm. lia.
  - intros p Hp. apply Hf, elem_of_app. by left.
  - by apply NoDup_app in Hn as [? _].
Qed.

(** One round of the loop. *)
Lemma unmap_step s s1 k :
  unmappable (S k) -> unmapped s k s1 -> 0 <= v0 -> PGSIZE * (v0 + Z.of_nat k) < MAXVA ->
  let a := PGSIZE * (v0 + Z.of_nat k) in
  wp (pte <- walk root a false ;;
      if pte =? 0 then panic "uvmunmap: walk" else
      m <- get_mem ;;
      if negb (has (load64 m pte) PTE_V) then panic "uvmunmap: not mapped" else
      if PTE_FLAGS (load64 m pte) =? PTE_V then panic "uvmunmap: not a leaf" else
      when do_free (kfree (PTE2PA (load64 m pte))) ;;
      upd_mem (fun m => store64 m pte 0) ;;
      ret (inl (u64 (a + PGSIZE))))
    (fun r s' => r = @inl Z unit (u64 (a + PGSIZE)) /\ unmapped s (S k) s') s1.
Proof.
  intros (Hm & Hf & Hn) (V & Hs & Hr) Hv0 Ha a.
  assert (0 <= a < MAXVA /\ a / PGSIZE = v0 + Z.of_nat k) as [Har Had]
    by (unfold a, PGSIZE in *; split; [lia|dlia]).
  destruct (Hm k ltac:(lia)) as (pa & fl & E & Hfl).
  pose proof (vm_leaf _ _ _ _ _ V _ (vpn_range a Har)) as Hl.
  rewrite lookup_unmap_pages, Had, decide_False, E in Hl by lia.
  erewrite freed_S in Hf, Hn by done. pose proof V as [_ _ HT _ _ _].
  assert (slot G a <> 0) as Hz.
  { intros Hz. apply (slot_zero _ _ _ _ HT) in Hz. by rewrite Had in Hz; rewrite Hz in Hl. }
  apply wp_bind. eapply wp_eq; [by apply walk_lookup|].
  rewrite (proj2 (Z.eqb_neq _ _) Hz). kwp.
  rewrite (slot_load _ _ _ _ HT Hz), Had. unfold entry in Hl.
  destruct (has _ PTE_V); [|done]. injection Hl as <- Hfe. rewrite <- Hfe. simpl negb. cbv iota.
  rewrite (proj2 (Z.eqb_neq _ _)) by congruence. apply wp_bind.
  assert (exists s2, when do_free (kfree pa) s1 = Ok tt s2 /\
    vm s2 root G (unmap_pages AS v0 k) ((if do_free then [pa] else []) ++ rev (freed k) ++ fr) /\
    same_outside (if do_free then [pa] else []) (k_mem s1) (k_mem s2) /\
    mem_only s1 s2) as (s2 & E2 & V2 & Hs2 & Hr2).
  { unfold when. destruct do_free; simpl app in *.
    - apply NoDup_app in Hn as (_ & Hd & _). destruct (Hf pa) as (Hp & Hpf & Hpg).
      { apply elem_of_app. right. left. }
      apply vm_kfree; [done|done| |done].
      intros [Hx|Hx]%elem_of_app; [|done]. apply list_elem_of_In, in_rev, list_elem_of_In in Hx.
      apply (Hd pa Hx). left.
    - exists s1. split; [done|]. split; [done|]. split; [apply same_outside_refl|done]. }
  eapply wp_eq; [exact E2|]. kwp.
  destruct (vm_set_leaf s2 root G _ _ a 0 V2 Har Hz) as [V3 [Hs3 _ _]].
  split; [done|]. unfold unmapped. erewrite freed_S by done.
  rewrite rev_app_distr, <- app_assoc. split; [|split].
  - rewrite Had in V3. simpl in V3. by destruct do_free.
  - eapply same_outside_trans; [eapply same_outside_mono; [|exact Hs]|].
    { intros p [?|?]%elem_of_app; rewrite !elem_of_app; auto. }
    eapply same_outside_trans; [eapply same_outside_mono; [|exact Hs2]|].
    { intros p ?; rewrite !elem_of_app; auto. }
    destruct (G !! (0%nat, a / PGSIZE / 512)) as [t|] eqn:Ht; [|by unfold slot in Hz; rewrite Ht in Hz].
    destruct (slot_some _ _ _ _ _ HT Ht) as [-> _].
    eapply same_outside_mono; [|apply same_outside_pte, Z.mod_pos_bound; lia].
    intros p ->%list_elem_of_singleton. rewrite !elem_of_app. right. apply elem_pages. eauto.
  - etrans; [exact Hr|]. etrans; [exact Hr2|]. apply mem_only_mem.
Qed.

Lemma uvmunmap_spec s n :
  vm s root G AS fr -> unmappable n -> 0 <= v0 -> PGSIZE * (v0 + Z.of_nat n) <= MAXVA ->
  wp (uvmunmap root (PGSIZE * v0) (Z.of_nat n) do_free) (fun _ s' => unmapped s n s') s.
Proof.
  intros V Hu Hv Hmax. unfold uvmunmap. change MAXVA with (2 ^ 38) in Hmax.
  replace (PGSIZE * v0 mod PGSIZE) with 0 by (unfold PGSIZE; dlia). simpl negb. cbv iota.
  rewrite (u64_small (Z.of_nat n * PGSIZE)) by (unfold PGSIZE in *; lia).
  rewrite (u64_small (PGSIZE * v0 + _)) by (unfold PGSIZE in *; lia).
  eapply (wp_loop _ (fun a s' => exists k, (k <= n)%nat /\ a = PGSIZE * (v0 + Z.of_nat k) /\
      unmapped s k s') (fun a _ => 2 ^ 38 - a)).
  - intros a s1 (k & Hk & -> & U1). destruct (Z.ltb_spec (PGSIZE * (v0 + Z.of_nat k))
      (PGSIZE * v0 + Z.of_nat n * PGSIZE)) as [Hlt|Hge]; simpl negb; cbv iota.
    + assert (unmappable (S k)) as Hu'.
      { clear -Hu Hk Hlt. assert (S k <= n)%nat as Hle by (unfold PGSIZE in *; lia).
        clear Hk Hlt. induction Hle; [done|]. by apply IHHle, unmappable_S. }
      eapply wp_mono.
      { apply (unmap_step s s1 k); [done|done|done|]. change MAXVA with (2 ^ 38).
        unfold PGSIZE in *. lia. }
      intros r s2 [-> U2]. rewrite u64_small by (unfold PGSIZE in *; lia).
      split; [|unfold PGSIZE in *; lia]. exists (S k). unfold PGSIZE in *.
      split; [lia|]. split; [lia|done].
    + apply wp_ret. replace n with k; [done|]. unfold PGSIZE in *. lia.
  - exists O. split; [lia|]. split; [unfold PGSIZE; lia|]. unfold unmapped.
    unfold freed, frames. simpl. replace (if do_free then [] else []) with (@nil Z) by (by destruct do_free).
    simpl. split; [done|]. split; [apply same_outside_refl|done].
  - unfold PGSIZE in *. lia.
Qed.
End Unmap.
End VmProofs.
