(* ===== verification/UserSpace.v ===== *)
(** * User address spaces

    [user_space s root G AS fr n]: the page table [root] maps the first [n]
    pages of user memory, each to a physical page of its own, and nothing
    else below the trap frame.  [uvmalloc], [uvmdealloc], [uvmcopy] and
    [uvmfree] keep it and lose no page. *)

From S2P Require Import Prelude Bytes Params CString Spinlock State Kalloc Vm PageTable VmProofs.

Definition UTOP : Z := TRAPFRAME / PGSIZE.

Section UserSpace.
Context `{Lk : Linker}.

Record user_space (s : kernel) (root : Z) (G : tables) (AS : aspace) (fr : list Z) (n : nat)
    : Prop := {
  us_vm : vm s root G AS fr;
  us_mapped : forall i, (i < n)%nat ->
    exists pa fl, AS !! Z.of_nat i = Some (pa, fl) /\ fl <> PTE_V;
  us_unmapped : forall x, Z.of_nat n <= x < UTOP -> AS !! x = None;
  us_frames : forall p, p ∈ frames AS 0 n -> page_ok p /\ (p ∉ fr) /\ (p ∉ pages G);
  us_nodup : NoDup (frames AS 0 n);
  us_top : Z.of_nat n <= UTOP;
}.

(** The [k] pages above the first [n] are new, and each satisfies [C] (of its
    number, its physical page, its flags and memory). *)
Record grown (C : Z -> Z -> Z -> gmap Z Z -> Prop) (root : Z)
    (s : kernel) (G : tables) (AS : aspace) (fr : list Z) (n : nat)
    (s' : kernel) (G' : tables) (AS' : aspace) (fr' : list Z) (k : nat) : Prop := {
  gr_us : user_space s' root G' AS' fr' (n + k);
  gr_same : forall x, ~ (Z.of_nat n <= x < Z.of_nat (n + k)) -> AS' !! x = AS !! x;
  gr_new : forall i, (i < k)%nat -> exists p fl,
    AS' !! Z.of_nat (n + i) = Some (p, fl) /\ C (Z.of_nat (n + i)) p fl (k_mem s');
  gr_pages : fr' ++ pages G' ++ frames AS' (Z.of_nat n) k ≡ₚ fr ++ pages G;
  gr_mem : same_outside (fr ++ pages G) (k_mem s) (k_mem s');
  gr_rest : mem_only s s';
}.
End UserSpace.

(** A condition on a page's contents that other pages do not affect. *)
Definition page_local (C : Z -> Z -> Z -> gmap Z Z -> Prop) : Prop :=
  forall v p fl m m', (forall a, p <= a < p + PGSIZE -> ldb m' a = ldb m a) ->
    C v p fl m -> C v p fl m'.

Section UserSpaceFacts.
Context `{Lk : Linker} {Lo : LinkerOk Lk}.

Lemma frames_app AS v n k :
  frames AS v (n + k) = frames AS v n ++ frames AS (v + Z.of_nat n) k.
Proof.
  induction k as [|k IH]; [by rewrite Nat.add_0_r, app_nil_r|].
  rewrite Nat.add_succ_r. unfold frames in *.
  rewrite !seq_S, !omap_app, IH, <- app_assoc. do 2 f_equal. simpl.
  by replace (v + Z.of_nat (n + k)) with (v + Z.of_nat n + Z.of_nat k) by lia.
Qed.

Lemma frames_ext AS AS' v n :
  (forall i, (i < n)%nat -> AS' !! (v + Z.of_nat i) = AS !! (v + Z.of_nat i)) ->
  frames AS' v n = frames AS v n.
Proof.
  induction n as [|n IH]; intros H; [done|]. unfold frames in *.
  rewrite seq_S, !omap_app, IH by (intros; apply H; lia). f_equal. simpl.
  by rewrite H by lia.
Qed.

Lemma elem_frames_0 AS n p :
  p ∈ frames AS 0 n <-> exists i fl, (i < n)%nat /\ AS !! Z.of_nat i = Some (p, fl).
Proof. rewrite elem_frames. done. Qed.

(** A user page is outside the tables and the free pages, and outside every
    other user page. *)
Lemma us_frame s root G AS fr n i p fl :
  user_space s root G AS fr n -> (i < n)%nat -> AS !! Z.of_nat i = Some (p, fl) ->
  page_ok p /\ (p ∉ fr ++ pages G).
Proof.
  intros U Hi E. destruct (us_frames _ _ _ _ _ _ U p) as (? & ? & ?).
  { apply elem_frames_0. eauto. }
  split; [done|]. by intros [?|?]%elem_of_app.
Qed.

Lemma us_inj s root G AS fr n i j p fl fl' :
  user_space s root G AS fr n -> (i < n)%nat -> (j < n)%nat ->
  AS !! Z.of_nat i = Some (p, fl) -> AS !! Z.of_nat j = Some (p, fl') -> i = j.
Proof.
  intros U. pose proof (us_nodup _ _ _ _ _ _ U) as Hn.
  pose proof (us_mapped _ _ _ _ _ _ U) as Hm. clear U. revert i j fl fl' Hn Hm.
  induction n as [|n IH]; intros i j fl fl' Hn Hm Hi Hj Ei Ej; [lia|].
  destruct (Hm n ltac:(lia)) as (q & flq & Eq & _).
  erewrite (frames_S AS 0 n) in Hn by done.
  apply NoDup_app in Hn as (Hn & Hd & _).
  assert (forall i fl, (i < n)%nat -> AS !! Z.of_nat i = Some (p, fl) -> p <> q) as Hne.
  { intros i' fl'' Hi' Ei' ->. apply (Hd q); [|left]. apply elem_frames_0. eauto. }
  destruct (decide (i = n)) as [->|], (decide (j = n)) as [->|]; [done| | |].
  - destruct (Hne j fl'); [lia|done|congruence].
  - destruct (Hne i fl); [lia|done|congruence].
  - eapply IH; try done; try lia. intros x Hx. apply Hm. lia.
Qed.

(** Memory outside the tables and the free pages may change. *)
Lemma us_mem s root G AS fr n ps m' :
  user_space s root G AS fr n -> same_outside ps (k_mem s) m' ->
  (forall p, p ∈ ps -> (p ∉ fr ++ pages G) /\ p mod PGSIZE = 0) ->
  user_space (set_k_mem m' s) root G AS fr n.
Proof. intros [V ?????] Hs Hp. constructor; try done. by eapply vm_other. Qed.

Lemma us_kalloc s root G AS p fr n :
  user_space s root G AS (p :: fr) n ->
  exists s', kalloc s = Ok p s' /\ user_space s' root G AS fr n /\
    page_ok p /\ (p ∉ fr ++ pages G) /\ (p ∉ frames AS 0 n) /\
    same_outside [p] (k_mem s) (k_mem s') /\
    mem_only s s'.
Proof.
  intros [V Hm Hu Hf Hn Ht]. destruct (vm_kalloc _ _ _ _ _ _ V) as (s' & E & V' & Hp & H1 & H2 & HH).
  exists s'. split; [done|]. split.
  - constructor; try done. intros q Hq. destruct (Hf q Hq) as (? & Hx & ?).
    split; [done|]. split; [|done]. intros ?. by apply Hx, list_elem_of_further.
  - split; [done|]. split; [by intros [?|?]%elem_of_app|]. split; [|done].
    intros Hx. destruct (Hf p Hx) as (_ & Hy & _). apply Hy. left.
Qed.

Lemma us_kfree s root G AS fr n p :
  user_space s root G AS fr n -> page_ok p -> p ∉ fr ++ pages G -> p ∉ frames AS 0 n ->
  exists s', kfree p s = Ok tt s' /\ user_space s' root G AS (p :: fr) n /\
    same_outside [p] (k_mem s) (k_mem s') /\
    mem_only s s'.
Proof.
  intros [V Hm Hu Hf Hn Ht] Hp Ha Hb. rewrite elem_of_app in Ha.
  destruct (vm_kfree _ _ _ _ _ p V Hp ltac:(auto) ltac:(auto)) as (s' & E & V' & HH).
  exists s'. split; [done|]. split; [|done]. constructor; try done.
  intros q Hq. destruct (Hf q Hq) as (? & ? & ?). split; [done|]. split; [|done].
  intros [->|?]%elem_of_cons; done.
Qed.

(** New tables do not disturb the user pages. *)
Lemma us_vstep s root G AS fr n s' G' fr' :
  user_space s root G AS fr n -> vm s' root G' AS fr' -> vstep s G fr s' G' fr' ->
  user_space s' root G' AS fr' n.
Proof.
  intros [V Hm Hu Hf Hn Ht] V' [_ Hp _]. constructor; try done.
  intros p Hin. destruct (Hf p Hin) as (Hok & H1 & H2).
  assert (p ∉ fr' ++ pages G') as Hx by (rewrite Hp; by intros [?|?]%elem_of_app).
  rewrite elem_of_app in Hx. tauto.
Qed.

(** ** One more page *)
Lemma us_map s root G AS fr n p perm :
  user_space s root G AS fr n -> page_ok p -> p ∉ fr ++ pages G -> p ∉ frames AS 0 n ->
  Z.of_nat n < UTOP -> 0 <= perm < 1024 /\ Z.lor perm PTE_V <> PTE_V ->
  wp (mappages root (PGSIZE * Z.of_nat n) PGSIZE p perm) (fun r s' => exists G' fr',
    vstep s G fr s' G' fr' /\
    (r = 0 /\ user_space s' root G' (<[Z.of_nat n := (p, Z.lor perm PTE_V)]> AS) fr' (S n) \/
     r = -1 /\ user_space s' root G' AS fr' n)) s.
Proof.
  intros U Hp Hfp Hpf Htop [Hperm Hfl]. pose proof (page_ok_pos p Hp).
  assert (PGSIZE * Z.of_nat n / PGSIZE = Z.of_nat n /\
          (PGSIZE * Z.of_nat n + PGSIZE - 1) / PGSIZE = Z.of_nat n) as [E1 E2]
    by (unfold PGSIZE; split; dlia).
  assert (npages_of (PGSIZE * Z.of_nat n) PGSIZE = 1%nat) as E3
    by (unfold npages_of; rewrite E1, E2; lia).
  change UTOP with (2 ^ 26 - 2) in Htop. pose proof Hp as [Hal Hr].
  eapply wp_mono.
  { apply (mappages_spec s root G AS fr); try done; try (unfold PGSIZE; lia).
    - apply U.
    - change MAXVA with (2 ^ 38). unfold PGSIZE. lia.
    - rewrite E3. unfold PHYSTOP, KERNBASE, PGSIZE in *. lia.
    - rewrite E1, E2. intros x Hx. apply (us_unmapped _ _ _ _ _ _ U). change UTOP with (2 ^ 26 - 2). lia. }
  rewrite E1, E3. intros r s' (G' & fr' & k & V' & S' & Hres). exists G', fr'. split; [done|].
  destruct Hres as [[-> ->]|(-> & Hk & ->)]; [left|right].
  - split; [done|]. simpl in V'. rewrite Z.add_0_r in V'.
    replace (p + PGSIZE * Z.of_nat 0) with p in V' by (unfold PGSIZE; lia).
    destruct U as [V Hm Hu Hf Hn Ht]. destruct S' as [_ Hperm' _].
    assert (frames (<[Z.of_nat n := (p, Z.lor perm PTE_V)]> AS) 0 (S n) = frames AS 0 n ++ [p]) as Ef.
    { erewrite frames_S by (rewrite Z.add_0_l, lookup_insert_eq; done). f_equal. apply frames_ext.
      intros i Hi. by rewrite lookup_insert_ne by lia. }
    constructor; [done| | | | |].
    + intros i Hi. destruct (decide (i = n)) as [->|].
      * rewrite lookup_insert_eq. eauto.
      * rewrite lookup_insert_ne by lia. apply Hm. lia.
    + intros x Hx. rewrite lookup_insert_ne by lia. apply Hu. lia.
    + rewrite Ef. intros q Hq.
      assert (page_ok q /\ q ∉ fr' ++ pages G') as [? Hx].
      { rewrite Hperm'. apply elem_of_app in Hq as [Hq| ->%list_elem_of_singleton]; [|done].
        destruct (Hf q Hq) as (? & ? & ?). split; [done|]. by intros [?|?]%elem_of_app. }
      rewrite elem_of_app in Hx. tauto.
    + rewrite Ef. apply NoDup_app. split; [done|]. split; [|apply NoDup_singleton].
      intros q Hq ->%list_elem_of_singleton. done.
    + change UTOP with (2 ^ 26 - 2). lia.
  - split; [done|]. replace k with O in V' by lia. by eapply us_vstep.
Qed.

(** The top [k] pages given back. *)
Lemma us_shrink s root G AS fr n k :
  user_space s root G AS fr (n + k) ->
  wp (uvmunmap root (PGSIZE * Z.of_nat n) (Z.of_nat k) true) (fun _ s' =>
    user_space s' root G (unmap_pages AS (Z.of_nat n) k)
      (rev (frames AS (Z.of_nat n) k) ++ fr) n /\
    same_outside (frames AS (Z.of_nat n) k ++ pages G) (k_mem s) (k_mem s') /\
    mem_only s s') s.
Proof.
  intros [V Hm Hu Hf Hn Ht]. change UTOP with (2 ^ 26 - 2) in *.
  rewrite frames_app in Hf, Hn. rewrite Z.add_0_l in Hf, Hn.
  pose proof Hn as (Hn1 & Hd & Hn2)%NoDup_app.
  eapply wp_mono.
  { apply (uvmunmap_spec root G AS fr (Z.of_nat n) true s k V); [|lia|].
    - split; [|split; [|done]].
      + intros i Hi. destruct (Hm (n + i)%nat ltac:(lia)) as (pa & fl & E & Hfl).
        exists pa, fl. split; [|done]. rewrite <- E. f_equal. lia.
      + intros p Hp. apply Hf, elem_of_app. by right.
    - change MAXVA with (2 ^ 38). unfold PGSIZE. lia. }
  intros _ s' (V' & Hs' & Hr'). split; [|done]. simpl freed in *.
  assert (frames (unmap_pages AS (Z.of_nat n) k) 0 n = frames AS 0 n) as Ef.
  { apply frames_ext. intros i Hi. by rewrite lookup_unmap_pages, decide_False by lia. }
  constructor; [done| | | | |].
  - intros i Hi. rewrite lookup_unmap_pages, decide_False by lia. apply Hm. lia.
  - intros x Hx. rewrite lookup_unmap_pages. case_decide; [done|]. apply Hu. change UTOP with (2 ^ 26 - 2) in *. lia.
  - rewrite Ef. intros p Hp. destruct (Hf p) as (? & ? & ?); [apply elem_of_app; by left|].
    split; [done|]. split; [|done]. intros [Hx|?]%elem_of_app; [|done].
    apply list_elem_of_In, in_rev, list_elem_of_In in Hx. by apply (Hd p).
  - by rewrite Ef.
  - change UTOP with (2 ^ 26 - 2). lia.
Qed.

(** ** Growing page by page *)
Section Grow.
Context (C : Z -> Z -> Z -> gmap Z Z -> Prop) (HC : page_local C).
Context (root : Z) (s : kernel) (G : tables) (AS : aspace) (fr : list Z) (n : nat).

Abbreviation grown' := (grown C root s G AS fr n).

Lemma grown_refl : user_space s root G AS fr n -> grown' s G AS fr 0.
Proof.
  intros U. constructor; [by rewrite Nat.add_0_r|done|lia| |apply same_outside_refl|done].
  unfold frames. simpl. by rewrite app_nil_r.
Qed.

Lemma page_untouched ps m m' p a :
  same_outside ps m m' -> (forall q, q ∈ ps -> q mod PGSIZE = 0) -> p mod PGSIZE = 0 ->
  p ∉ ps -> p <= a < p + PGSIZE -> ldb m' a = ldb m a.
Proof.
  intros Hs Hal Hp Hn Ha. apply Hs. intros q Hq.
  assert (q <> p) by (by intros ->). pose proof (page_disjoint q p). specialize (Hal q Hq). lia.
Qed.

(** Steps within the pages of the allocator and the tables. *)
Lemma grown_step s1 G1 AS1 f1 k s2 G2 f2 :
  grown' s1 G1 AS1 f1 k -> user_space s2 root G2 AS1 f2 (n + k) ->
  same_outside (f1 ++ pages G1) (k_mem s1) (k_mem s2) ->
  f2 ++ pages G2 ≡ₚ f1 ++ pages G1 ->
  mem_only s1 s2 ->
  grown' s2 G2 AS1 f2 k.
Proof.
  intros [U Hsame Hnew Hpg Hmem Hrest] U2 Hs Hp Hr. constructor; [done|done| | | |].
  - intros i Hi. destruct (Hnew i Hi) as (p & fl & E & Hc). exists p, fl. split; [done|].
    eapply HC; [|done]. intros a Ha.
    destruct (us_frame _ _ _ _ _ _ (n + i)%nat p fl U ltac:(lia) E) as [Hok Hn].
    eapply page_untouched; [exact Hs| |apply Hok|done|done].
    intros q Hq. apply (vm_page_ok _ _ _ _ _ _ (us_vm _ _ _ _ _ _ U) Hq).
  - by rewrite app_assoc, Hp, <- app_assoc.
  - eapply same_outside_trans; [done|]. eapply same_outside_mono; [|done].
    intros p Hin. rewrite <- Hpg, app_assoc, elem_of_app. by left.
  - by etrans.
Qed.

(** A page taken from the allocator, filled, and mapped on top. *)
Lemma grown_snoc s1 G1 AS1 p f1 k s2 s3 G3 f3 fl :
  grown' s1 G1 AS1 (p :: f1) k ->
  user_space s2 root G1 AS1 f1 (n + k) -> p ∉ f1 ++ pages G1 -> page_ok p ->
  same_outside [p] (k_mem s1) (k_mem s2) ->
  mem_only s1 s2 ->
  C (Z.of_nat (n + k)) p fl (k_mem s2) ->
  vstep s2 G1 f1 s3 G3 f3 ->
  user_space s3 root G3 (<[Z.of_nat (n + k) := (p, fl)]> AS1) f3 (S (n + k)) ->
  grown' s3 G3 (<[Z.of_nat (n + k) := (p, fl)]> AS1) f3 (S k).
Proof.
  intros [U Hsame Hnew Hpg Hmem Hrest] U2 Hpn Hpok Hs2 Hr2 Hcp [Hs3 Hp3 Hr3] U3.
  assert (forall q, q ∈ f1 ++ pages G1 -> q mod PGSIZE = 0) as Hal.
  { intros q Hq. apply (vm_page_ok _ _ _ _ _ _ (us_vm _ _ _ _ _ _ U2) Hq). }
  constructor.
  - by rewrite Nat.add_succ_r.
  - intros x Hx. rewrite lookup_insert_ne by lia. apply Hsame. lia.
  - intros i Hi. destruct (decide (i = k)) as [->|].
    + exists p, fl. rewrite lookup_insert_eq. split; [done|].
      eapply HC; [|exact Hcp]. intros a Ha. by eapply page_untouched; [|done|apply Hpok|..].
    + rewrite lookup_insert_ne by lia. destruct (Hnew i ltac:(lia)) as (q & flq & E & Hc).
      exists q, flq. split; [done|].
      destruct (us_frame _ _ _ _ _ _ (n + i)%nat q flq U ltac:(lia) E) as [Hok Hn].
      eapply HC; [|exact Hc]. intros a Ha. rewrite (page_untouched _ _ _ q a Hs3);
        [|done|apply Hok| |done].
      * eapply page_untouched; [exact Hs2| |apply Hok| |done].
        { intros ? ->%list_elem_of_singleton. apply Hpok. }
        intros ->%list_elem_of_singleton. apply Hn. left.
      * intros Hx. apply Hn. by right.
  - erewrite (frames_S _ _ k) by (rewrite <- Nat2Z.inj_add, lookup_insert_eq; done).
    rewrite (frames_ext AS1) by (intros i Hi; by rewrite lookup_insert_ne by lia).
    rewrite <- Hpg. simpl. rewrite (app_assoc f3), Hp3. rewrite (app_assoc f1).
    rewrite app_assoc, <- Permutation_cons_append. done.
  - eapply same_outside_trans; [exact Hmem|].
    assert (forall q, q ∈ p :: f1 ++ pages G1 -> q ∈ fr ++ pages G) as Hin.
    { intros q Hq. rewrite <- Hpg. simpl. rewrite app_assoc. apply elem_of_cons in Hq as [->|Hq];
        [left|]. right. apply elem_of_app. by left. }
    eapply same_outside_trans; (eapply same_outside_mono; [|eassumption]).
    + intros q ->%list_elem_of_singleton. apply Hin. left.
    + intros q Hq. apply Hin. by right.
  - etrans; [exact Hrest|]. by etrans.
Qed.

(** Giving the new pages back restores the address space. *)
Lemma grown_undo s1 G1 AS1 f1 k :
  user_space s root G AS fr n -> grown' s1 G1 AS1 f1 k ->
  wp (uvmunmap root (PGSIZE * Z.of_nat n) (Z.of_nat k) true) (fun _ s2 =>
    exists f2, grown' s2 G1 AS f2 0) s1.
Proof.
  intros U0 [U Hsame Hnew Hpg Hmem Hrest].
  eapply wp_mono; [by apply us_shrink|]. intros _ s2 (U2 & Hs2 & Hr2).
  assert (unmap_pages AS1 (Z.of_nat n) k = AS) as Eas.
  { apply map_eq. intros x. rewrite lookup_unmap_pages. case_decide as Hx; [|apply Hsame; lia].
    symmetry. apply (us_unmapped _ _ _ _ _ _ U0). pose proof (us_top _ _ _ _ _ _ U). lia. }
  rewrite Eas in U2. eexists. constructor; [by rewrite Nat.add_0_r|done|lia| | |].
  - unfold frames at 2. simpl. rewrite app_nil_r, <- Hpg.
    rewrite <- Permutation_rev, <- app_assoc, (Permutation_app_comm (pages G1)).
    rewrite !app_assoc. f_equiv. apply Permutation_app_comm.
  - eapply same_outside_trans; [done|]. eapply same_outside_mono; [|exact Hs2].
    intros p Hp. rewrite <- Hpg. rewrite !elem_of_app in *. tauto.
  - by etrans.
Qed.
End Grow.
End UserSpaceFacts.
