(* ===== verification/UvmProofs.v ===== *)
(** * uvmalloc, uvmdealloc, uvmcopy

    Growing, shrinking and copying a user address space: on success the new
    pages hold what they should, on failure the address space is what it was,
    and in both cases no page is lost. *)

From S2P Require Import Prelude Bytes Params CString Spinlock State Kalloc Vm PageTable VmProofs UserSpace.

(** The pages that [sz] bytes of user memory take. *)
Definition npg (sz : Z) : nat := Z.to_nat ((sz + PGSIZE - 1) / PGSIZE).

Lemma PGROUNDUP_npg sz :
  0 <= sz <= 2 ^ 38 -> PGROUNDUP sz = PGSIZE * Z.of_nat (npg sz).
Proof. intros. rewrite PGROUNDUP_eq; unfold npg, PGSIZE in *; dlia. Qed.

Lemma npg_page k : npg (PGSIZE * Z.of_nat k) = k.
Proof. unfold npg, PGSIZE. dlia. Qed.

Section Uvm.
Context `{Lk : Linker} {Lo : LinkerOk Lk}.

Definition zeroed (v p fl : Z) (m : gmap Z Z) : Prop :=
  fl = Z.lor (Z.lor (Z.lor (Z.lor PTE_W PTE_X) PTE_R) PTE_U) PTE_V /\
  forall a, p <= a < p + PGSIZE -> ldb m a = 0.

Lemma zeroed_local : page_local zeroed.
Proof. intros v p fl m m' H [? Hz]. split; [done|]. intros a Ha. rewrite H by done. auto. Qed.

Lemma uvmdealloc_pages root n k s :
  Z.of_nat (n + k) <= UTOP ->
  uvmdealloc root (PGSIZE * Z.of_nat (n + k)) (PGSIZE * Z.of_nat n) s =
    (when (0 <? Z.of_nat k) (uvmunmap root (PGSIZE * Z.of_nat n) (Z.of_nat k) true) ;;
     ret (PGSIZE * Z.of_nat n)) s.
Proof.
  intros Ht. change UTOP with (2 ^ 26 - 2) in Ht. unfold uvmdealloc.
  assert (PGSIZE * Z.of_nat (n + k) <= 2 ^ 38) by (unfold PGSIZE; lia).
  destruct (Z.geb_spec (PGSIZE * Z.of_nat n) (PGSIZE * Z.of_nat (n + k))) as [Hk|Hk].
  - assert (k = O) as -> by (unfold PGSIZE in *; lia). rewrite Nat.add_0_r. done.
  - rewrite !PGROUNDUP_npg, !npg_page by (unfold PGSIZE in *; lia).
    rewrite (proj2 (Z.ltb_lt _ _)) by lia. rewrite (proj2 (Z.ltb_lt 0 _)) by (unfold PGSIZE in *; lia).
    replace ((PGSIZE * Z.of_nat (n + k) - PGSIZE * Z.of_nat n) / PGSIZE) with (Z.of_nat k)
      by (unfold PGSIZE; dlia).
    by rewrite i32_small, u64_small by lia.
Qed.

Lemma uvmdealloc_undo C root s G AS fr n s1 G1 AS1 f1 k :
  user_space s root G AS fr n -> grown C root s G AS fr n s1 G1 AS1 f1 k ->
  wp (uvmdealloc root (PGSIZE * Z.of_nat (n + k)) (PGSIZE * Z.of_nat n))
    (fun _ s2 => exists f2, grown C root s G AS fr n s2 G1 AS f2 0) s1.
Proof.
  intros U Gr. pose proof (us_top _ _ _ _ _ _ (gr_us _ _ _ _ _ _ _ _ _ _ _ _ Gr)) as Ht.
  unfold wp. rewrite uvmdealloc_pages by done. apply wp_bind. unfold when.
  destruct (Z.ltb_spec 0 (Z.of_nat k)).
  - eapply wp_mono; [by eapply grown_undo|]. intros [] s2 H2. by apply wp_ret.
  - assert (k = O) as -> by lia. do 2 apply wp_ret. exists f1.
    assert (AS1 = AS) as <-; [|done]. apply map_eq. intros x. apply Gr. lia.
Qed.

Lemma user_perm_ok :
  let perm := Z.lor (Z.lor (Z.lor PTE_W PTE_X) PTE_R) PTE_U in
  0 <= perm < 1024 /\ Z.lor perm PTE_V <> PTE_V.
Proof. vm_compute. done. Qed.

(** One round of [uvmalloc]'s loop. *)
Lemma uvmalloc_round root s G AS fr n s1 G1 AS1 f1 k :
  user_space s root G AS fr n -> grown zeroed root s G AS fr n s1 G1 AS1 f1 k ->
  Z.of_nat (n + k) < UTOP ->
  let a := PGSIZE * Z.of_nat (n + k) in
  wp (mem <- kalloc ;;
      if mem =? 0 then uvmdealloc root a (PGSIZE * Z.of_nat n) ;; ret (inr 0) else
      upd_mem (fun m => memset m mem 0 PGSIZE) ;;
      r <- mappages root a PGSIZE mem (Z.lor (Z.lor (Z.lor PTE_W PTE_X) PTE_R) PTE_U) ;;
      if negb (r =? 0)
      then kfree mem ;; uvmdealloc root a (PGSIZE * Z.of_nat n) ;; ret (inr 0)
      else ret (inl (u64 (a + PGSIZE))))
    (fun r s2 => exists G2 AS2 f2,
       r = @inl Z Z (u64 (a + PGSIZE)) /\ grown zeroed root s G AS fr n s2 G2 AS2 f2 (S k) \/
       r = inr 0 /\ grown zeroed root s G AS fr n s2 G2 AS f2 0) s1.
Proof.
  intros U Gr Ht a. pose proof (gr_us _ _ _ _ _ _ _ _ _ _ _ _ Gr) as U1. apply wp_bind.
  destruct f1 as [|p f1].
  { pose proof (us_vm _ _ _ _ _ _ U1) as V1. eapply wp_eq; [apply kalloc_empty; apply V1|].
    simpl. apply wp_bind. eapply wp_mono; [by eapply uvmdealloc_undo|].
    intros ? s2 [f2 G2]. apply wp_ret. exists G1, AS, f2. by right. }
  destruct (us_kalloc _ _ _ _ _ _ _ U1) as (s2 & E2 & U2 & Hp & Hpf & Hpn & Hs2 & Hr2).
  eapply wp_eq; [exact E2|]. pose proof (page_ok_pos p Hp).
  rewrite (proj2 (Z.eqb_neq p 0)) by lia. kwp.
  set (s3 := set_k_mem (memset (k_mem s2) p 0 PGSIZE) s2).
  assert (user_space s3 root G1 AS1 f1 (n + k)) as U3.
  { eapply us_mem; [done|apply same_outside_memset|].
    intros q ->%list_elem_of_singleton. split; [done|apply Hp]. }
  assert (same_outside [p] (k_mem s1) (k_mem s3)) as Hs3
    by (eapply same_outside_trans; [exact Hs2|apply same_outside_memset]).
  assert (mem_only s1 s3) as Hr3
    by (etrans; [exact Hr2|apply mem_only_mem]).
  eapply wp_mono; [apply (us_map s3 root G1 AS1 f1 (n + k) p _ U3 Hp Hpf Hpn Ht user_perm_ok)|].
  intros r s4 (G4 & f4 & S4 & [[-> U4]|[-> U4]]); simpl; kwp.
  - exists G4. eexists _, f4. left. split; [done|].
    eapply (grown_snoc zeroed zeroed_local);
      [exact Gr|exact U3|exact Hpf|exact Hp|exact Hs3|exact Hr3| |exact S4|exact U4].
    split; [done|]. intros x Hx. unfold s3. simpl. unfold PGSIZE in *.
    by rewrite ldb_memset, decide_True by lia.
  - destruct S4 as [Hs4 Hp4 Hr4].
    destruct (us_kfree s4 root G4 AS1 f4 (n + k) p U4 Hp ltac:(by rewrite Hp4) Hpn)
      as (s5 & E5 & U5 & Hs5 & Hr5).
    eapply wp_eq; [exact E5|]. apply wp_bind. eapply wp_mono.
    + eapply (uvmdealloc_undo zeroed); [done|].
      eapply (grown_step zeroed zeroed_local); [exact Gr|exact U5| | |].
      * eapply same_outside_trans; [eapply same_outside_mono; [|exact Hs3]|].
        { intros q ->%list_elem_of_singleton. left. }
        eapply same_outside_trans; [eapply same_outside_mono; [|exact Hs4]|].
        { intros q Hq. by right. }
        eapply same_outside_mono; [|exact Hs5]. intros q ->%list_elem_of_singleton. left.
      * simpl. by rewrite Hp4.
      * etrans; [exact Hr3|]. by etrans.
    + intros ? s6 [f6 G6]. apply wp_ret. exists G4, AS, f6. by right.
Qed.

Lemma uvmalloc_spec root s G AS fr oldsz newsz :
  user_space s root G AS fr (npg oldsz) -> 0 <= oldsz <= newsz -> newsz <= TRAPFRAME ->
  wp (uvmalloc root oldsz newsz) (fun r s' => exists G' AS' fr' k,
    grown zeroed root s G AS fr (npg oldsz) s' G' AS' fr' k /\
    (r = newsz /\ (npg oldsz + k)%nat = npg newsz \/ r = 0 /\ k = O /\ AS' = AS)) s.
Proof.
  intros U Hsz Htop. change TRAPFRAME with (2 ^ 38 - 8192) in Htop. unfold uvmalloc.
  destruct (Z.ltb_spec newsz oldsz); [lia|]. rewrite PGROUNDUP_npg by lia.
  set (n := npg oldsz) in *. assert (Z.of_nat (npg newsz) <= UTOP) as Hu
    by (change UTOP with (2 ^ 26 - 2); unfold npg, PGSIZE; dlia).
  assert (n <= npg newsz)%nat as Hle by (unfold n, npg, PGSIZE; dlia).
  eapply (wp_loop _ (fun a s1 => exists G1 AS1 f1 k,
      a = PGSIZE * Z.of_nat (n + k) /\ (n + k <= npg newsz)%nat /\
      grown zeroed root s G AS fr n s1 G1 AS1 f1 k)
    (fun a _ => 2 ^ 39 - a)).
  - intros a s1 (G1 & AS1 & f1 & k & -> & Hk & Gr).
    destruct (Z.ltb_spec (PGSIZE * Z.of_nat (n + k)) newsz) as [Hlt|Hge]; simpl negb; cbv iota.
    + assert (n + k < npg newsz)%nat by (unfold npg, PGSIZE in *; dlia).
      eapply wp_mono; [eapply uvmalloc_round; [done|done|lia]|].
      intros r s2 (G2 & AS2 & f2 & [[-> Gr2]|[-> Gr2]]).
      * change UTOP with (2 ^ 26 - 2) in *. rewrite u64_small by (unfold PGSIZE; lia).
        split; [|unfold PGSIZE; lia]. exists G2, AS2, f2, (S k).
        split; [unfold PGSIZE; lia|]. split; [lia|done].
      * eauto 10.
    + apply wp_ret. exists G1, AS1, f1, k. split; [done|]. left. split; [done|].
      unfold npg, PGSIZE in *. dlia.
  - exists G, AS, fr, O. rewrite Nat.add_0_r. split; [done|]. split; [done|]. by apply grown_refl.
  - change UTOP with (2 ^ 26 - 2) in *. unfold PGSIZE. lia.
Qed.

(** ** uvmcopy *)

Lemma lor_flags_V e : has e PTE_V = true -> Z.lor (PTE_FLAGS e) PTE_V = PTE_FLAGS e.
Proof.
  rewrite has_V. intros H. apply Z.bits_inj'. intros i Hi. rewrite Z.lor_spec.
  destruct (decide (i = 0)) as [->|Hne].
  - unfold PTE_FLAGS. by rewrite Z.land_spec, H.
  - change PTE_V with (2 ^ 0). rewrite Z.pow2_bits_false by lia. apply orb_false_r.
Qed.

Lemma tree_same_outside ps m m' root G :
  tree m root G -> same_outside ps m m' ->
  (forall p, p ∈ ps -> (p ∉ pages G) /\ p mod PGSIZE = 0) ->
  tree m' root G /\ forall vpn, leaf m' G vpn = leaf m G vpn.
Proof.
  intros HT Hs Hp. pose proof (entries_same ps m m' G) as He.
  split; [eapply tree_ext; [|done]|intros vpn; apply leaf_ext]; intros k t i Hk Hi;
    eapply He; try done; apply HT.
Qed.

Section Copy.
Context (old new : Z) (s : kernel) (Go G : tables) (ASo AS : aspace) (fr : list Z) (np : nat).
Hypothesis Uo : user_space s old Go ASo fr np.
Hypothesis Un : user_space s new G AS fr 0.
Hypothesis Hsep : forall p, p ∈ pages Go ++ frames ASo 0 np -> p ∉ pages G.

(** The child's page has the parent's flags and the parent's bytes. *)
Definition copied (v p fl : Z) (m : gmap Z Z) : Prop :=
  exists pa, ASo !! v = Some (pa, fl) /\
    forall off, 0 <= off < PGSIZE -> ldb m (p + off) = ldb (k_mem s) (pa + off).

Lemma copied_local : page_local copied.
Proof.
  intros v p fl m m' H (pa & E & Hb). exists pa. split; [done|].
  intros off Hoff. rewrite H by lia. auto.
Qed.

Abbreviation grown' := (grown copied new s G AS fr 0).

(** The parent is outside everything the copy touches. *)
Lemma parent_outside p : p ∈ pages Go ++ frames ASo 0 np -> p ∉ fr ++ pages G.
Proof.
  intros Hp [Hx|Hx]%elem_of_app; [|by apply (Hsep p)].
  apply elem_of_app in Hp as [Hp|Hp].
  - by apply (vm_sep _ _ _ _ _ (us_vm _ _ _ _ _ _ Uo) p).
  - by destruct (us_frames _ _ _ _ _ _ Uo p Hp) as (_ & ? & _).
Qed.

Lemma parent_tree s1 :
  same_outside (fr ++ pages G) (k_mem s) (k_mem s1) ->
  tree (k_mem s1) old Go /\ forall vpn, leaf (k_mem s1) Go vpn = leaf (k_mem s) Go vpn.
Proof.
  intros Hs. eapply tree_same_outside; [apply Uo|done|]. intros p Hp. split.
  - intros Hx. apply (parent_outside p); [apply elem_of_app; by left|done].
  - apply (vm_page_ok _ _ _ _ _ _ (us_vm _ _ _ _ _ _ Un) Hp).
Qed.

Lemma parent_bytes s1 k pa fl a :
  same_outside (fr ++ pages G) (k_mem s) (k_mem s1) ->
  (k < np)%nat -> ASo !! Z.of_nat k = Some (pa, fl) -> pa <= a < pa + PGSIZE ->
  ldb (k_mem s1) a = ldb (k_mem s) a.
Proof.
  intros Hs Hk E Ha. eapply page_untouched; [exact Hs| | | |exact Ha].
  - intros q Hq. apply (vm_page_ok _ _ _ _ _ _ (us_vm _ _ _ _ _ _ Un) Hq).
  - apply (us_frame _ _ _ _ _ _ _ _ _ Uo Hk E).
  - apply parent_outside, elem_of_app. right. apply elem_frames_0. eauto.
Qed.

(** The bytes that [memmove] puts into the new page. *)
Lemma copied_page s1 s2 k p pa fl :
  same_outside (fr ++ pages G) (k_mem s) (k_mem s1) -> same_outside [p] (k_mem s1) (k_mem s2) ->
  (k < np)%nat -> ASo !! Z.of_nat k = Some (pa, fl) -> page_ok p -> p <> pa ->
  copied (Z.of_nat k) p fl (memmove (k_mem s2) p pa PGSIZE).
Proof.
  intros Hs1 Hs2 Hk E Hp Hne. exists pa. split; [done|]. intros off Hoff.
  rewrite ldb_memmove by (unfold PGSIZE; lia). rewrite decide_True by lia.
  replace (pa + (p + off - p)) with (pa + off) by lia.
  destruct (us_frame _ _ _ _ _ _ _ _ _ Uo Hk E) as [Hok _].
  rewrite (page_untouched [p] (k_mem s1) _ pa); [|done| |apply Hok| |lia].
  - by eapply parent_bytes; [| |exact E|lia].
  - intros q ->%list_elem_of_singleton. apply Hp.
  - by intros ->%list_elem_of_singleton.
Qed.

(** What the loop reads from the parent's page table. *)
Lemma parent_pte s1 k :
  same_outside (fr ++ pages G) (k_mem s) (k_mem s1) -> (k < np)%nat ->
  let a := PGSIZE * Z.of_nat k in
  exists pa fl, walk old a false s1 = Ok (slot Go a) s1 /\ slot Go a <> 0 /\
    ASo !! Z.of_nat k = Some (pa, fl) /\ fl <> PTE_V /\ 0 <= fl < 1024 /\ Z.lor fl PTE_V = fl /\
    has (load64 (k_mem s1) (slot Go a)) PTE_V = true /\
    PTE2PA (load64 (k_mem s1) (slot Go a)) = pa /\ PTE_FLAGS (load64 (k_mem s1) (slot Go a)) = fl.
Proof.
  intros Hs Hk a. destruct (us_mapped _ _ _ _ _ _ Uo k Hk) as (pa & fl & E & Hfl).
  destruct (parent_tree s1 Hs) as [HT Hl]. pose proof (us_top _ _ _ _ _ _ Uo) as Ht.
  change UTOP with (2 ^ 26 - 2) in Ht.
  assert (0 <= a < MAXVA /\ a / PGSIZE = Z.of_nat k) as [Ha Hd]
    by (change MAXVA with (2 ^ 38); unfold a, PGSIZE; split; [lia|dlia]).
  pose proof (vm_leaf _ _ _ _ _ (us_vm _ _ _ _ _ _ Uo) (Z.of_nat k) ltac:(lia)) as He.
  rewrite E, <- Hl in He. unfold entry in He. destruct (has _ PTE_V) eqn:Hv; [|done].
  injection He as He1 He2.
  assert (slot Go a <> 0) as Hz.
  { intros Hz. apply (slot_zero _ _ _ _ HT) in Hz. rewrite Hd in Hz. by rewrite Hz in Hv. }
  exists pa, fl. split; [by apply walk_lookup|]. split; [done|]. split; [done|]. split; [done|].
  rewrite (slot_load _ _ _ _ HT Hz), Hd. split; [|split; [|done]].
  - rewrite He2, PTE_FLAGS_eq. apply Z.mod_pos_bound. lia.
  - rewrite He2. by apply lor_flags_V.
Qed.

(** One round of [uvmcopy]'s loop. *)
Lemma uvmcopy_round s1 G1 AS1 f1 k :
  grown' s1 G1 AS1 f1 k -> (k < np)%nat ->
  let i := PGSIZE * Z.of_nat k in
  wp (pte <- walk old i false ;;
      if pte =? 0 then panic "uvmcopy: pte should exist" else
      m <- get_mem ;;
      if negb (has (load64 m pte) PTE_V) then panic "uvmcopy: page not present" else
      let pa := PTE2PA (load64 m pte) in
      let flags := PTE_FLAGS (load64 m pte) in
      mem <- kalloc ;;
      if mem =? 0 then ret (inr (Some i)) else
      upd_mem (fun m => memmove m mem pa PGSIZE) ;;
      r <- mappages new i PGSIZE mem flags ;;
      if negb (r =? 0) then kfree mem ;; ret (inr (Some i)) else
      ret (inl (u64 (i + PGSIZE))))
    (fun r s2 => exists G2 AS2 f2,
       r = @inl Z (option Z) (u64 (i + PGSIZE)) /\ grown' s2 G2 AS2 f2 (S k) \/
       r = inr (Some i) /\ grown' s2 G2 AS2 f2 k) s1.
Proof.
  intros Gr Hk i. pose proof (gr_us _ _ _ _ _ _ _ _ _ _ _ _ Gr) as U1.
  destruct (parent_pte s1 k (gr_mem _ _ _ _ _ _ _ _ _ _ _ _ Gr) Hk)
    as (pa & fl & Ew & Hz & E & Hfl & Hfr & Hlor & Hv & Epa & Efl). fold i in Ew, Hz, Hv, Epa, Efl.
  apply wp_bind. eapply wp_eq; [exact Ew|]. rewrite (proj2 (Z.eqb_neq _ _) Hz). kwp.
  rewrite Hv, Epa, Efl. simpl negb. cbv iota zeta. apply wp_bind. destruct f1 as [|p f1].
  { eapply wp_eq; [apply kalloc_empty; apply (us_vm _ _ _ _ _ _ U1)|]. apply wp_ret. eauto 10. }
  destruct (us_kalloc _ _ _ _ _ _ _ U1) as (s2 & E2 & U2 & Hp & Hpf & Hpn & Hs2 & Hr2).
  eapply wp_eq; [exact E2|]. pose proof (page_ok_pos p Hp).
  rewrite (proj2 (Z.eqb_neq p 0)) by lia. kwp.
  assert (p <> pa) as Hne.
  { intros ->. apply (parent_outside pa).
    - apply elem_of_app. right. apply elem_frames_0. eauto.
    - rewrite <- (gr_pages _ _ _ _ _ _ _ _ _ _ _ _ Gr). left. }
  set (s3 := set_k_mem (memmove (k_mem s2) p pa PGSIZE) s2).
  assert (same_outside [p] (k_mem s2) (k_mem s3)) as Hs3'.
  { intros a Ha. simpl. rewrite ldb_memmove, decide_False; [done|apply Ha; left|unfold PGSIZE; lia]. }
  assert (user_space s3 new G1 AS1 f1 (0 + k)) as U3.
  { eapply us_mem; [done|exact Hs3'|]. intros q ->%list_elem_of_singleton. split; [done|apply Hp]. }
  assert (same_outside [p] (k_mem s1) (k_mem s3)) as Hs3 by (by eapply same_outside_trans).
  assert (mem_only s1 s3) as Hr3
    by (etrans; [exact Hr2|apply mem_only_mem]).
  pose proof (us_top _ _ _ _ _ _ Uo) as Ht.
  eapply wp_mono.
  { apply (us_map s3 new G1 AS1 f1 k p fl U3 Hp Hpf Hpn); [lia|]. split; [done|congruence]. }
  intros r s4 (G4 & f4 & S4 & [[-> U4]|[-> U4]]); simpl; kwp.
  - exists G4. eexists _, f4. left. split; [done|]. rewrite Hlor in U4.
    eapply (grown_snoc copied copied_local);
      [exact Gr|exact U3|exact Hpf|exact Hp|exact Hs3|exact Hr3| |exact S4|exact U4].
    eapply copied_page; [apply Gr|exact Hs2|exact Hk|exact E|exact Hp|exact Hne].
  - destruct S4 as [Hs4 Hp4 Hr4].
    destruct (us_kfree s4 new G4 AS1 f4 k p U4 Hp ltac:(by rewrite Hp4) Hpn)
      as (s5 & E5 & U5 & Hs5 & Hr5).
    eapply wp_eq; [exact E5|]. apply wp_ret. exists G4, AS1, (p :: f4). right. split; [done|].
    eapply (grown_step copied copied_local); [exact Gr|exact U5| | |].
    + eapply same_outside_trans; [eapply same_outside_mono; [|exact Hs3]|].
      { intros q ->%list_elem_of_singleton. left. }
      eapply same_outside_trans; [eapply same_outside_mono; [|exact Hs4]|].
      { intros q Hq. by right. }
      eapply same_outside_mono; [|exact Hs5]. intros q ->%list_elem_of_singleton. left.
    + simpl. by rewrite Hp4.
    + etrans; [exact Hr3|]. by etrans.
Qed.

Lemma uvmcopy_spec sz :
  np = npg sz -> 0 <= sz -> wp (uvmcopy old new sz) (fun r s' => exists G' AS' fr' k,
    grown' s' G' AS' fr' k /\ (r = 0 /\ k = np \/ r = -1 /\ k = O /\ AS' = AS)) s.
Proof.
  intros Hnp Hsz. unfold uvmcopy. apply wp_bind. pose proof (us_top _ _ _ _ _ _ Uo) as Ht.
  change UTOP with (2 ^ 26 - 2) in Ht.
  eapply (wp_loop _ (fun i s1 => exists G1 AS1 f1 k,
      i = PGSIZE * Z.of_nat k /\ (k <= np)%nat /\ grown' s1 G1 AS1 f1 k)
    (fun i _ => 2 ^ 39 - i)).
  - intros i s1 (G1 & AS1 & f1 & k & -> & Hk & Gr).
    destruct (Z.ltb_spec (PGSIZE * Z.of_nat k) sz) as [Hlt|Hge]; simpl negb; cbv iota.
    + assert (k < np)%nat by (rewrite Hnp; unfold npg, PGSIZE in *; dlia).
      eapply wp_mono; [by eapply uvmcopy_round|].
      intros r s2 (G2 & AS2 & f2 & [[-> Gr2]|[-> Gr2]]).
      * rewrite u64_small by (unfold PGSIZE; lia). split; [|unfold PGSIZE; lia].
        exists G2, AS2, f2, (S k). split; [unfold PGSIZE; lia|]. split; [lia|done].
      * apply wp_bind. replace (PGSIZE * Z.of_nat k / PGSIZE) with (Z.of_nat k) by (unfold PGSIZE; dlia).
        eapply wp_mono; [exact (grown_undo _ _ _ _ _ _ _ _ _ _ _ _ Un Gr2)|].
        intros ? s3 [f3 G3]. apply wp_ret. eauto 10.
    + apply wp_ret. apply wp_ret. exists G1, AS1, f1, k. split; [done|]. left. split; [done|].
      rewrite Hnp in *. unfold npg, PGSIZE in *. dlia.
  - exists G, AS, fr, O. split; [done|]. split; [lia|]. by apply grown_refl.
  - unfold PGSIZE. lia.
Qed.
End Copy.
End Uvm.
