(* ===== verification/FreeWalk.v ===== *)
(** * freewalk and uvmfree

    Taking a page table down: every page of it, and every page of user memory
    it maps, goes back to the free list exactly once. *)

From S2P Require Import Prelude Bytes Params CString Spinlock State Kalloc Vm PageTable VmProofs UserSpace UvmProofs.

Lemma elem_of_concat {A} (p : A) L : p ∈ concat L <-> exists l, l ∈ L /\ p ∈ l.
Proof. setoid_rewrite list_elem_of_In. apply in_concat. Qed.

Section Subtree.
Context `{Lk : Linker} {Lo : LinkerOk Lk}.

(** The table [t] of level [l] has no valid leaf below it, and its pages are
    [ps], in the order in which [freewalk] frees them. *)
Fixpoint subtree (m : gmap Z Z) (l : nat) (t : Z) (ps : list Z) : Prop :=
  page_ok t /\ exists kids : nat -> list Z, ps = concat (kids <$> seq 0 512) ++ [t] /\
    forall i, (i < 512)%nat ->
      let e := load64 m (pte_addr t (Z.of_nat i)) in
      has e PTE_V = false /\ kids i = [] \/
      match l with
      | O => False
      | S l' => has e PTE_V = true /\ has e (Z.lor (Z.lor PTE_R PTE_W) PTE_X) = false /\ subtree m l' (PTE2PA e) (kids i)
      end.

Lemma elem_kids (kids : nat -> list Z) i n p : (i < n)%nat -> p ∈ kids i -> p ∈ concat (kids <$> seq 0 n).
Proof. intros Hi Hp. apply elem_of_concat. exists (kids i). split; [|done]. apply list_elem_of_fmap. exists i. split; [done|]. apply elem_of_seq. lia. Qed.

Lemma subtree_ok m l t ps p : subtree m l t ps -> p ∈ ps -> page_ok p.
Proof.
  revert t ps. induction l as [|l IH]; intros t ps (Ht & kids & -> & Hk) Hp; apply elem_of_app in Hp as [Hp|Hp%list_elem_of_singleton]; [|by subst| |by subst];
    apply elem_of_concat in Hp as (k & (i & -> & Hi%elem_of_seq)%list_elem_of_fmap & Hpk);
    (destruct (Hk i ltac:(lia)) as [[_ E]|H]; [by rewrite E in Hpk; apply not_elem_of_nil in Hpk|]); [done|].
  destruct H as (_ & _ & H). by apply (IH _ _ H).
Qed.

(** A subtree depends on its own pages only. *)
Lemma subtree_frame qs m m' l t ps : same_outside qs m m' -> (forall q, q ∈ qs -> (q ∉ ps) /\ q mod PGSIZE = 0) -> subtree m l t ps -> subtree m' l t ps.
Proof.
  intros Hs. revert t ps. induction l as [|l IH]; intros t ps Hq (Ht & kids & -> & Hk);
    (assert (forall i, (i < 512)%nat -> load64 m' (pte_addr t (Z.of_nat i)) = load64 m (pte_addr t (Z.of_nat i))) as He;
     [intros i Hi; pose proof (pte_addr_inside t (Z.of_nat i) ltac:(lia)); eapply (load64_same_outside qs _ _ _ t); [done| |apply Ht|lia|lia];
      intros q Hqq; destruct (Hq q Hqq) as [Hn Ha]; split; [|done]; intros ->; apply Hn, elem_of_app; right; by apply list_elem_of_singleton|]);
    (split; [done|]; exists kids; split; [done|]; intros i Hi; cbv zeta; rewrite He by done; destruct (Hk i Hi) as [?|H]; [by left|]); [done|].
  right. destruct H as (H1 & H2 & H3). split; [done|]. split; [done|]. apply IH; [|done]. intros q Hqq. destruct (Hq q Hqq) as [Hn Ha]. split; [|done].
  intros Hx. apply Hn, elem_of_app. left. by eapply elem_kids.
Qed.

Lemma seq_kids (kids : nat -> list Z) a : concat (kids <$> seq 0 (S a)) = concat (kids <$> seq 0 a) ++ kids a.
Proof. rewrite seq_S, fmap_app, concat_app. cbn. by rewrite app_nil_r. Qed.

Lemma elem_of_rev {A} (p : A) l : p ∈ rev l <-> p ∈ l.
Proof. rewrite !list_elem_of_In. symmetry. apply in_rev. Qed.

(** The tables freed so far by the loop over the entries of [t]. *)
Record freeing (s : kernel) (fr : list Z) (t : Z) (kids : nat -> list Z) (a : nat) (s1 : kernel) : Prop := {
  fg_kmem : kmem_inv s1 (rev (concat (kids <$> seq 0 a)) ++ fr);
  fg_mem : same_outside (concat (kids <$> seq 0 a) ++ [t]) (k_mem s) (k_mem s1);
  fg_rest : mem_only s s1;
  fg_todo : forall i, (a <= i < 512)%nat -> load64 (k_mem s1) (pte_addr t (Z.of_nat i)) = load64 (k_mem s) (pte_addr t (Z.of_nat i));
}.

Definition frees (f : Z -> K unit) (l : nat) : Prop := forall s t fr ps,
  subtree (k_mem s) l t ps -> NoDup ps -> (forall p, p ∈ ps -> p ∉ fr) -> kmem_inv s fr -> LKmem ∉ k_held s ->
  wp (f t) (fun _ s' => kmem_inv s' (rev ps ++ fr) /\ same_outside ps (k_mem s) (k_mem s') /\ mem_only s s') s.

(** The entry [i] of [t] once the table below it is free. *)
Lemma clear_entry s fr t kids a s1 s2 :
  freeing s fr t kids a s1 -> (a < 512)%nat -> page_ok t -> t ∉ rev (kids a) ++ rev (concat (kids <$> seq 0 a)) ++ fr ->
  (forall p, p ∈ kids a -> page_ok p) ->
  kmem_inv s2 (rev (kids a) ++ rev (concat (kids <$> seq 0 a)) ++ fr) -> same_outside (kids a) (k_mem s1) (k_mem s2) -> mem_only s1 s2 ->
  freeing s fr t kids (S a) (set_k_mem (store64 (k_mem s2) (pte_addr t (Z.of_nat a)) 0) s2).
Proof.
  intros [H1 H2 H3 H4] Ha Ht Hn Hok Hk Hs Hr. pose proof (same_outside_pte t (Z.of_nat a) 0 (k_mem s2) ltac:(lia)) as Hst.
  assert (t ∉ kids a) as Htk by (intros Hx; apply Hn, elem_of_app; left; by rewrite elem_of_rev).
  constructor.
  - rewrite seq_kids, rev_app_distr, <- app_assoc. eapply kmem_inv_mem; [exact Hk|exact Hst|]. intros p ->%list_elem_of_singleton. split; [done|apply Ht].
  - rewrite seq_kids. eapply same_outside_trans; [eapply same_outside_mono; [|exact H2]|eapply same_outside_trans; [eapply same_outside_mono; [|exact Hs]|eapply same_outside_mono; [|exact Hst]]];
      intros p Hp; rewrite !elem_of_app in *; tauto.
  - etrans; [exact H3|]. etrans; [exact Hr|]. apply mem_only_mem.
  - intros i Hi. cbn [k_mem set_k_mem]. pose proof (pte_addr_inside t (Z.of_nat i) ltac:(lia)). rewrite <- H4 by lia.
    rewrite load64_store64_disjoint by (unfold pte_addr; lia). eapply (load64_same_outside (kids a) _ _ _ t); [done| |apply Ht|lia|lia].
    intros p Hp. split; [by intros ->|by apply Hok].
Qed.

(** One entry of [t]. *)
Lemma freewalk_entry s fr t kids a s1 l f :
  subtree (k_mem s) l t (concat (kids <$> seq 0 512) ++ [t]) -> NoDup (concat (kids <$> seq 0 512) ++ [t]) ->
  (forall p, p ∈ concat (kids <$> seq 0 512) ++ [t] -> p ∉ fr) -> LKmem ∉ k_held s ->
  (let e := load64 (k_mem s) (pte_addr t (Z.of_nat a)) in
   has e PTE_V = false /\ kids a = [] \/
   match l with
   | O => False
   | S l' => frees f l' /\ has e PTE_V = true /\ has e (Z.lor (Z.lor PTE_R PTE_W) PTE_X) = false /\ subtree (k_mem s) l' (PTE2PA e) (kids a)
   end) ->
  freeing s fr t kids a s1 -> (a < 512)%nat ->
  wp (m <- get_mem ;;
      let pte := load64 m (pte_addr t (Z.of_nat a)) in
      if has pte PTE_V && negb (has pte (Z.lor (Z.lor PTE_R PTE_W) PTE_X))
      then f (PTE2PA pte) ;; upd_mem (fun m => store64 m (pte_addr t (Z.of_nat a)) 0)
      else if has pte PTE_V then panic "freewalk: leaf"
      else ret tt) (fun _ s2 => freeing s fr t kids (S a) s2) s1.
Proof.
  intros HT Hn Hd Hh He F Ha. pose proof F as [F1 F2 F3 F4]. kwp. rewrite F4 by lia. cbv zeta in He |- *.
  assert (exists before after, concat (kids <$> seq 0 512) = before ++ kids a ++ after /\ before = concat (kids <$> seq 0 a)) as (before & after & Ec & Eb).
  { exists (concat (kids <$> seq 0 a)), (concat (kids <$> seq (S a) (511 - a))). split; [|done].
    replace 512%nat with (S a + (511 - a))%nat at 1 by lia. by rewrite seq_app, fmap_app, concat_app, seq_kids, <- app_assoc. }
  destruct He as [[He Ek]|He].
  { rewrite He. apply wp_ret. constructor; [by rewrite seq_kids, Ek, app_nil_r| |done|].
    - by rewrite seq_kids, Ek, app_nil_r.
    - intros i Hi. apply F4. lia. }
  destruct l as [|l]; [done|]. destruct He as (IH & Hv & Hx & Hsub). rewrite Hv, Hx. cbn [negb andb].
  rewrite Ec in HT, Hn, Hd. rewrite <- !app_assoc in HT, Hn, Hd. rewrite <- Eb in F1, F2.
  assert (forall p, p ∈ kids a -> p ∉ before ++ [t]) as Hkb.
  { intros p Hp. apply NoDup_app in Hn as (_ & Hn1 & Hn2). rewrite elem_of_app, list_elem_of_singleton. intros [Hb| ->].
    - apply (Hn1 p Hb), elem_of_app. by left.
    - apply NoDup_app in Hn2 as (_ & Hn2 & _). apply (Hn2 t Hp), elem_of_app. right. by left. }
  assert (page_ok t) as Ht by (eapply subtree_ok; [exact HT|]; rewrite !elem_of_app; right; right; right; by left).
  assert (NoDup (kids a)) as Hnk by (apply NoDup_app in Hn as (_ & _ & Hn); by apply NoDup_app in Hn as [? _]).
  apply wp_bind. eapply wp_mono; [apply (IH s1 _ (rev before ++ fr) (kids a))|].
  - eapply subtree_frame; [exact F2| |exact Hsub]. intros q Hq. split; [intros Hqk; by apply (Hkb q)|]. eapply subtree_ok; [exact HT|].
    rewrite !elem_of_app in *. tauto.
  - done.
  - intros p Hp. rewrite elem_of_app, elem_of_rev. intros [Hb|Hb]; [apply (Hkb p Hp), elem_of_app; by left|].
    apply (Hd p); [|done]. rewrite !elem_of_app. auto.
  - exact F1.
  - by rewrite (mem_only_held _ _ F3).
  - intros [] s2 (K & S & R). kwp. eapply clear_entry; [exact F|done|done| |intros p Hp; by eapply subtree_ok|by rewrite <- Eb|done|done].
    rewrite <- Eb, !elem_of_app, !elem_of_rev. intros [Hb|[Hb|Hb]].
    + apply (Hkb t Hb), elem_of_app. right. by left.
    + apply NoDup_app in Hn as (_ & Hn1 & _). apply (Hn1 t Hb). rewrite !elem_of_app. right. right. by left.
    + apply (Hd t); [|done]. rewrite !elem_of_app. right. right. right. by left.
Qed.

(** A table, given what is done with the tables below it. *)
Lemma freewalk_table f l : match l with O => True | S l' => frees f l' end ->
  frees (fun t => for_all (Z.of_nat <$> seq 0 512) (fun i =>
      m <- get_mem ;;
      let pte := load64 m (pte_addr t i) in
      if has pte PTE_V && negb (has pte (Z.lor (Z.lor PTE_R PTE_W) PTE_X))
      then f (PTE2PA pte) ;; upd_mem (fun m => store64 m (pte_addr t i) 0)
      else if has pte PTE_V then panic "freewalk: leaf"
      else ret tt) ;; kfree t) l.
Proof.
  intros IH s t fr ps HT Hn Hd Hk Hh. assert (exists kids : nat -> list Z, page_ok t /\ ps = concat (kids <$> seq 0 512) ++ [t] /\
    forall i, (i < 512)%nat -> let e := load64 (k_mem s) (pte_addr t (Z.of_nat i)) in
      has e PTE_V = false /\ kids i = [] \/
      match l with O => False | S l' => has e PTE_V = true /\ has e (Z.lor (Z.lor PTE_R PTE_W) PTE_X) = false /\ subtree (k_mem s) l' (PTE2PA e) (kids i) end)
    as (kids & Ht & -> & He) by (destruct l; destruct HT as (? & kids & ? & ?); by exists kids).
  apply wp_bind, (wp_for_all _ _ (fun done s1 => freeing s fr t kids (length done) s1)).
  - intros done x todo s1 E F. pose proof (f_equal length E) as El. rewrite length_fmap, length_seq, length_app in El. cbn [length] in El.
    assert (x = Z.of_nat (length done)) as ->.
    { pose proof (f_equal (fun l => l !! length done) E) as Ex. cbn beta in Ex. rewrite list_lookup_middle, list_lookup_fmap, lookup_seq_lt in Ex by lia. by injection Ex. }
    rewrite length_app, Nat.add_1_r. apply (freewalk_entry s fr t kids _ s1 l f); try done; [|lia].
    destruct (He (length done) ltac:(lia)) as [?|H]; [by left|right]. by destruct l.
  - rewrite length_fmap, length_seq. intros s1 [F1 F2 F3 F4].
    destruct (kfree_spec s1 _ t F1) as (s2 & E & K & ->); [by rewrite (mem_only_held _ _ F3)|done| |].
    { rewrite elem_of_app, elem_of_rev. intros [Hb|Hb].
      - apply NoDup_app in Hn as (_ & Hn & _). apply (Hn t Hb). by left.
      - apply (Hd t); [|done]. apply elem_of_app. right. by left. }
    eapply wp_eq; [exact E|]. rewrite rev_app_distr. split; [exact K|]. split.
    + eapply same_outside_trans; [exact F2|]. eapply same_outside_mono; [|intros x Hx; apply kfree_mem_outside, Hx; by left]. intros p Hp. apply elem_of_app. by right.
    + etrans; [exact F3|]. apply mem_only_freelist_mem.
  - cbn. constructor; [done|apply same_outside_refl|done|done].
Qed.

Lemma freewalk_frees l : frees (freewalk_depth (S l)) l.
Proof.
  induction l as [|l IH]; [exact (freewalk_table (freewalk_depth 0) 0 I)|]. exact (freewalk_table (freewalk_depth (S l)) (S l) IH).
Qed.

(** ** From the map of the tables to the subtree *)

(** The pages of the tables below entry [i] of the table [(l, pre)], and below
    all of its entries. *)
Fixpoint below (G : tables) (l : nat) (pre : Z) : list Z :=
  match l with
  | O => []
  | S l' => concat ((fun i => match G !! (l', pre * 512 + Z.of_nat i) with Some t => below G l' (pre * 512 + Z.of_nat i) ++ [t] | None => [] end) <$> seq 0 512)
  end.

Lemma NoDup_concat_seq (f : nat -> list Z) a n : (forall i, (a <= i < a + n)%nat -> NoDup (f i)) ->
  (forall i j p, (a <= i < a + n)%nat -> (a <= j < a + n)%nat -> p ∈ f i -> p ∈ f j -> i = j) -> NoDup (concat (f <$> seq a n)).
Proof.
  revert a. induction n as [|n IH]; intros a H1 H2; [constructor|]. cbn [seq fmap list_fmap concat]. apply NoDup_app. split; [apply H1; lia|]. split.
  - intros p Hp (l & (j & -> & Hj%elem_of_seq)%list_elem_of_fmap & Hpj)%elem_of_concat. pose proof (H2 a j p ltac:(lia) ltac:(lia) Hp Hpj). lia.
  - apply IH; [intros i Hi; apply H1; lia|intros i j p Hi Hj; apply H2; lia].
Qed.

Section Tree.
Context (m : gmap Z Z) (root : Z) (G : tables) (HT : tree m root G).

(** A page below [(l, pre)] is a table whose number has the prefix [pre]. *)
Lemma elem_below l pre p : p ∈ below G l pre -> exists l' pre', (l' < l)%nat /\ G !! (l', pre') = Some p /\ pre' / 512 ^ Z.of_nat (l - l') = pre.
Proof.
  revert pre. induction l as [|l IH]; intros pre Hp; [by apply not_elem_of_nil in Hp|]. cbn [below] in Hp.
  apply elem_of_concat in Hp as (k & (i & -> & Hi%elem_of_seq)%list_elem_of_fmap & Hp). destruct (G !! (l, _)) as [t|] eqn:E; [|by apply not_elem_of_nil in Hp].
  apply elem_of_app in Hp as [Hp|Hp%list_elem_of_singleton].
  - destruct (IH _ Hp) as (l' & pre' & Hl & Eg & Ed). exists l', pre'. split_and!; [lia|done|]. replace (S l - l')%nat with (S (l - l')) by lia.
    rewrite Nat2Z.inj_succ, Z.pow_succ_r by lia. rewrite Z.mul_comm, <- Z.div_div by lia. rewrite Ed. dlia.
  - subst p. exists l, (pre * 512 + Z.of_nat i). split_and!; [lia|done|]. replace (S l - l)%nat with 1%nat by lia. change (512 ^ Z.of_nat 1) with 512. dlia.
Qed.

Lemma NoDup_below l pre : NoDup (below G l pre).
Proof.
  revert pre. induction l as [|l IH]; intros pre; [constructor|]. cbn [below]. apply NoDup_concat_seq.
  - intros i _. destruct (G !! (l, _)) as [t|] eqn:E; [|constructor]. apply NoDup_app. split; [done|]. split; [|apply NoDup_singleton].
    intros p Hp ->%list_elem_of_singleton. destruct (elem_below _ _ _ Hp) as (l' & pre' & Hl & Eg & _). pose proof (tree_inj _ _ _ HT _ _ _ E Eg) as [= ? ?]. lia.
  - assert (forall i p, p ∈ match G !! (l, pre * 512 + Z.of_nat i) with Some t => below G l (pre * 512 + Z.of_nat i) ++ [t] | None => [] end ->
      exists l' pre', (l' <= l)%nat /\ G !! (l', pre') = Some p /\ pre' / 512 ^ Z.of_nat (l - l') = pre * 512 + Z.of_nat i) as Hin.
    { intros i p. destruct (G !! (l, _)) as [t|] eqn:E; [|by intros ?%not_elem_of_nil]. intros [Hp|Hp%list_elem_of_singleton]%elem_of_app.
      - destruct (elem_below _ _ _ Hp) as (l' & pre' & Hl & Eg & Ed). exists l', pre'. split_and!; [lia|done|done].
      - subst p. exists l, (pre * 512 + Z.of_nat i). rewrite Nat.sub_diag. split_and!; [lia|done|apply Z.div_1_r]. }
    intros i j p _ _ (l1 & p1 & Hl1 & E1 & D1)%Hin (l2 & p2 & Hl2 & E2 & D2)%Hin. pose proof (tree_inj _ _ _ HT _ _ _ E1 E2) as [= -> ->]. lia.
Qed.

Lemma below_child l pre i t : 0 <= i < 512 -> G !! (l, pre * 512 + i) = Some t -> forall p, p ∈ below G l (pre * 512 + i) ++ [t] -> p ∈ below G (S l) pre.
Proof.
  intros Hi E p Hp. cbn [below]. apply elem_of_concat. eexists. split; [apply list_elem_of_fmap; exists (Z.to_nat i); split; [done|apply elem_of_seq; lia]|].
  cbn beta. replace (Z.of_nat (Z.to_nat i)) with i by lia. by rewrite E.
Qed.

Lemma pages_below : below G 2 0 ++ [root] ≡ₚ pages G.
Proof.
  pose proof (tree_root _ _ _ HT) as Hr. assert (forall l pre p, G !! (l, pre) = Some p -> p ∈ below G 2 0 ++ [root]) as Hall.
  { intros l pre p E. apply elem_of_app. destruct (tree_up _ _ _ HT _ _ _ E) as [[-> ->]|(Hl & Hp & t & Et)]; [right; rewrite Hr in E; injection E as ->; by left|left].
    destruct l as [|[|l]]; [| |lia].
    - destruct (tree_up _ _ _ HT _ _ _ Et) as [[[=] _]|(_ & Hp2 & u & Eu)]. destruct (tree_up _ _ _ HT _ _ _ Eu) as [[_ E0]|(? & _)]; [|lia].
      apply (below_child 1 0 (pre / 512) t); [dlia|by rewrite Z.add_0_l|]. apply elem_of_app. left.
      apply (below_child 0 (0 * 512 + pre / 512) (pre mod 512) p); [dlia| |by left]. by replace ((0 * 512 + pre / 512) * 512 + pre mod 512) with pre by dlia.
    - destruct (tree_up _ _ _ HT _ _ _ Et) as [[_ E0]|(? & _)]; [|lia].
      apply (below_child 1 0 pre p); [dlia|by rewrite Z.add_0_l|]. apply elem_of_app. right. by left. }
  apply NoDup_Permutation.
  - apply NoDup_app. split; [apply NoDup_below|]. split; [|apply NoDup_singleton]. intros p Hp ->%list_elem_of_singleton.
    destruct (elem_below _ _ _ Hp) as (l & pre & Hl & E & _). pose proof (tree_inj _ _ _ HT _ _ _ Hr E) as [= ? ?]. lia.
  - unfold pages. apply NoDup_fmap_2_strong; [|apply NoDup_map_to_list]. intros [k p] [k' p'] Hk%elem_of_map_to_list Hk'%elem_of_map_to_list E. cbn in E. subst p'.
    by rewrite (tree_inj _ _ _ HT _ _ _ Hk Hk').
  - intros p. split; [|by intros [[l pre] E]%elem_pages; eapply Hall]. intros [Hp|Hp%list_elem_of_singleton]%elem_of_app; apply elem_pages.
    + destruct (elem_below _ _ _ Hp) as (l & pre & _ & E & _). eauto.
    + subst p. eauto.
Qed.

Lemma subtree_below : (forall pre t i, G !! (0%nat, pre) = Some t -> 0 <= i < 512 -> has (load64 m (pte_addr t i)) PTE_V = false) ->
  forall l pre t, G !! (l, pre) = Some t -> subtree m l t (below G l pre ++ [t]).
Proof.
  intros Hleaf l. induction l as [|l IH]; intros pre t E; (split; [by apply (tree_page _ _ _ HT _ _ E)|]).
  - exists (fun _ => []). split; [by vm_compute|]. intros i Hi. left. split; [apply (Hleaf _ _ _ E); lia|done].
  - exists (fun i => match G !! (l, pre * 512 + Z.of_nat i) with Some t => below G l (pre * 512 + Z.of_nat i) ++ [t] | None => [] end).
    split; [done|]. intros i Hi. cbv zeta. pose proof (tree_next _ _ _ HT _ _ _ (Z.of_nat i) E ltac:(lia)) as He.
    destruct (G !! (l, _)) as [t'|] eqn:E'; [|by left]. right. destruct He as (H1 & H2 & H3). rewrite H2. split_and!; [done|done|by apply IH].
Qed.
End Tree.

(** The pages [ps] have gone back to the free list. *)
Definition returned (s : kernel) (fr ps : list Z) (s' : kernel) : Prop :=
  exists fr', kmem_inv s' fr' /\ fr' ≡ₚ fr ++ ps /\ same_outside ps (k_mem s) (k_mem s') /\ mem_only s s'.

(** [freewalk] of a page table that maps nothing. *)
Lemma freewalk_spec s root G AS fr : vm s root G AS fr -> (forall x, AS !! x = None) -> wp (freewalk root) (fun _ s' => returned s fr (pages G) s') s.
Proof.
  intros [Hk Hh HT Hs Hl _] HAS. pose proof (pages_below _ _ _ HT) as Hp. pose proof (tree_root _ _ _ HT) as Hr.
  assert (subtree (k_mem s) 2 root (below G 2 0 ++ [root])) as Hsub.
  { apply (subtree_below _ root _ HT); [|done]. intros pre t i E Hi.
    destruct (tree_up _ _ _ HT _ _ _ E) as [[? _]|(_ & Hp0 & t1 & E1)]; [done|].
    destruct (tree_up _ _ _ HT _ _ _ E1) as [[? _]|(_ & Hp1 & t2 & E2)]; [done|]. destruct (tree_up _ _ _ HT _ _ _ E2) as [[_ E0]|(? & _)]; [|lia].
    pose proof (Hl (pre * 512 + i) ltac:(dlia)) as He. rewrite HAS in He. unfold leaf in He.
    replace ((pre * 512 + i) / 512) with pre in He by dlia. replace ((pre * 512 + i) mod 512) with i in He by dlia.
    rewrite E in He. unfold entry in He. by destruct (has _ PTE_V). }
  eapply wp_mono; [apply (freewalk_frees 2 s root fr _ Hsub)|]; [| |done|done|].
  - apply NoDup_app. split; [by eapply NoDup_below|]. split; [|apply NoDup_singleton]. intros p Hpb ->%list_elem_of_singleton.
    destruct (elem_below G _ _ _ Hpb) as (l & pre & Hlt & E & _). pose proof (tree_inj _ _ _ HT _ _ _ Hr E) as [= ? ?]. lia.
  - intros p Hpb. apply Hs. by rewrite <- Hp.
  - intros [] s' (K & S & R). eexists. split; [exact K|]. split_and!; [|eapply same_outside_mono; [|exact S]; intros p Hpb; by rewrite <- Hp|done].
    by rewrite <- Hp, <- Permutation_rev, Permutation_app_comm.
Qed.

(** [uvmfree] of a page table that maps only the user memory of [sz] bytes. *)
Lemma uvmfree_spec s root G AS fr sz : user_space s root G AS fr (npg sz) -> (forall x, Z.of_nat (npg sz) <= x -> AS !! x = None) -> 0 <= sz ->
  wp (uvmfree root sz) (fun _ s' => returned s fr (frames AS 0 (npg sz) ++ pages G) s') s.
Proof.
  intros U Hx Hsz. pose proof (us_top _ _ _ _ _ _ U) as Ht. change UTOP with (2 ^ 26 - 2) in Ht. set (n := npg sz) in *.
  assert (wp (when (sz >? 0) (uvmunmap root 0 (PGROUNDUP sz / PGSIZE) true)) (fun _ s' =>
    user_space s' root G (unmap_pages AS 0 n) (rev (frames AS 0 n) ++ fr) 0 /\
    same_outside (frames AS 0 n ++ pages G) (k_mem s) (k_mem s') /\ mem_only s s') s) as Hun.
  { unfold when. destruct (Z.gtb_spec sz 0) as [Hpos|Hz].
    - rewrite PGROUNDUP_npg by (unfold n, npg, PGSIZE in *; dlia). fold n. replace (PGSIZE * Z.of_nat n / PGSIZE) with (Z.of_nat n) by (unfold PGSIZE; dlia).
      apply (us_shrink s root G AS fr 0 n U).
    - apply wp_ret. assert (n = O) as En by (unfold n, npg, PGSIZE; dlia). clearbody n. subst n. split; [done|]. split; [apply same_outside_refl|done]. }
  apply wp_bind. eapply wp_mono; [exact Hun|]. intros [] s1 (U1 & S1 & R1). eapply wp_mono; [apply (freewalk_spec s1 root G _ _ (us_vm _ _ _ _ _ _ U1))|].
  - intros x. rewrite lookup_unmap_pages. case_decide; [done|]. destruct (AS !! x) eqn:E; [|done].
    pose proof (vm_range _ _ _ _ _ (us_vm _ _ _ _ _ _ U) _ _ E). rewrite Hx in E by lia. done.
  - intros [] s2 (fr' & K & P & S2 & R2). exists fr'. split_and!; [done| | |by etrans].
    + rewrite P, <- Permutation_rev. rewrite (Permutation_app_comm (frames AS 0 n) fr). by rewrite <- app_assoc.
    + eapply same_outside_trans; [exact S1|]. eapply same_outside_mono; [|exact S2]. intros p Hp. apply elem_of_app. by right.
Qed.
End Subtree.
