(* ===== verification/UserCopy.v ===== *)
(** * copyout, copyin, copyinstr

    The code copies page by page; here it is shown equal to reading or
    writing user memory byte by byte through the address space, up to the
    first byte that is not mapped for the user.  The round trip and the
    isolation of other memory follow for the reference definitions. *)

From S2P Require Import Prelude Bytes Params CString Spinlock State Kalloc Vm PageTable VmProofs UserSpace.

(** Where the user's byte [va] is in physical memory. *)
Definition uaddr (AS : aspace) (va : Z) : option Z :=
  if va >=? MAXVA then None else
  match AS !! (va / PGSIZE) with
  | Some (pa, fl) => if has fl PTE_U then Some (pa + va mod PGSIZE) else None
  | None => None
  end.

(** Byte-by-byte copies; the flag says that every byte was mapped. *)
Fixpoint uread (AS : aspace) (m : gmap Z Z) (va : Z) (n : nat) : list Z * bool :=
  match n with
  | O => ([], true)
  | S n' =>
      match uaddr AS va with
      | None => ([], false)
      | Some a => let '(l, ok) := uread AS m (va + 1) n' in (ldb m a :: l, ok)
      end
  end.

Fixpoint uwrite (AS : aspace) (m : gmap Z Z) (va : Z) (bs : list Z) : gmap Z Z * bool :=
  match bs with
  | [] => (m, true)
  | b :: bs' =>
      match uaddr AS va with
      | None => (m, false)
      | Some a => uwrite AS (<[a := b]> m) (va + 1) bs'
      end
  end.

(** The bytes up to and including the terminator, and whether there is one
    among the first [n], all mapped up to there. *)
Fixpoint ureadstr (AS : aspace) (m : gmap Z Z) (va : Z) (n : nat) : list Z * bool :=
  match n with
  | O => ([], false)
  | S n' =>
      match uaddr AS va with
      | None => ([], false)
      | Some a =>
          if ldb m a =? 0 then ([0], true)
          else let '(l, ok) := ureadstr AS m (va + 1) n' in (ldb m a :: l, ok)
      end
  end.

Section UserCopy.
Context `{Lk : Linker} {Lo : LinkerOk Lk}.

(** User pages are the user's own: physical pages outside the tables and the
    free list, and never page 0. *)
Record uvm (s : kernel) (root : Z) (G : tables) (AS : aspace) (fr : list Z) : Prop := {
  uvm_vm : vm s root G AS fr;
  uvm_user : forall x pa fl, AS !! x = Some (pa, fl) -> has fl PTE_U = true ->
    page_ok pa /\ (pa ∉ fr ++ pages G);
}.

Lemma has_flags_U e : has (PTE_FLAGS e) PTE_U = has e PTE_U.
Proof.
  change PTE_U with (2 ^ 4). rewrite !has_bit by lia. unfold PTE_FLAGS.
  rewrite Z.land_spec. change (Z.testbit 1023 4) with true. by rewrite andb_true_r.
Qed.

Lemma walkaddr_spec s root G AS fr va :
  vm s root G AS fr -> 0 <= va ->
  walkaddr root va s =
    Ok (if va >=? MAXVA then 0 else
        match AS !! (va / PGSIZE) with
        | Some (pa, fl) => if has fl PTE_U then pa else 0
        | None => 0
        end) s.
Proof.
  intros V Hva. unfold walkaddr. destruct (Z.geb_spec va MAXVA); [done|].
  pose proof (vm_tree _ _ _ _ _ V) as HT. pose proof (vpn_range va ltac:(lia)) as Hr.
  rewrite (bind_ok _ _ _ _ _ (walk_lookup s root G va HT ltac:(lia))).
  rewrite (vm_leaf _ _ _ _ _ V _ Hr). destruct (Z.eqb_spec (slot G va) 0) as [Hz|Hz].
  - by rewrite (slot_zero _ _ _ _ HT Hz).
  - krun. rewrite (slot_load _ _ _ _ HT Hz). unfold entry.
    destruct (has _ PTE_V); simpl; [|done]. rewrite has_flags_U. by destruct (has _ PTE_U).
Qed.

(** In one page, the bytes are consecutive. *)
Lemma uaddr_page AS va pa fl i :
  va < MAXVA -> 0 <= va -> AS !! (va / PGSIZE) = Some (pa, fl) -> has fl PTE_U = true ->
  0 <= i -> va mod PGSIZE + i < PGSIZE -> uaddr AS (va + i) = Some (pa + va mod PGSIZE + i).
Proof.
  intros Hm H0 E Hu Hi Hp. unfold uaddr. change MAXVA with (2 ^ 38) in *.
  assert ((va + i) / PGSIZE = va / PGSIZE /\ (va + i) mod PGSIZE = va mod PGSIZE + i /\ va + i < 2 ^ 38)
    as (E1 & E2 & E3) by (unfold PGSIZE in *; split; [dlia|split; dlia]).
  destruct (Z.geb_spec (va + i) (2 ^ 38)); [lia|]. rewrite E1, E, Hu, E2. f_equal. lia.
Qed.

Section Page.
Context (AS : aspace) (va pa fl : Z).
Hypothesis Hmax : 0 <= va < MAXVA.
Hypothesis Hpage : AS !! (va / PGSIZE) = Some (pa, fl).
Hypothesis Huser : has fl PTE_U = true.

Lemma uread_page m n r i :
  0 <= i -> va mod PGSIZE + i + Z.of_nat n <= PGSIZE ->
  uread AS m (va + i) (n + r) =
    (let '(l, ok) := uread AS m (va + i + Z.of_nat n) r in
     (load n m (pa + va mod PGSIZE + i) ++ l, ok)).
Proof.
  revert i. induction n as [|n IH]; intros i Hi Hn.
  - rewrite Z.add_0_r, load_0. simpl. by destruct (uread _ _ _ _).
  - simpl. rewrite (uaddr_page AS va pa fl) by (try done; lia).
    replace (va + i + 1) with (va + (i + 1)) by lia. rewrite IH by lia.
    replace (va + (i + 1) + Z.of_nat n) with (va + i + Z.of_nat (S n)) by lia.
    destruct (uread AS m _ r). by rewrite load_S, Z.add_assoc.
Qed.

Lemma uwrite_page m bs bs' i :
  0 <= i -> va mod PGSIZE + i + Z.of_nat (length bs) <= PGSIZE ->
  uwrite AS m (va + i) (bs ++ bs') =
    uwrite AS (store m (pa + va mod PGSIZE + i) bs) (va + i + Z.of_nat (length bs)) bs'.
Proof.
  revert m i. induction bs as [|b bs IH]; intros m i Hi Hn; simpl in *.
  - by rewrite Z.add_0_r, store_nil.
  - rewrite (uaddr_page AS va pa fl) by (try done; lia).
    replace (va + i + 1) with (va + (i + 1)) by lia. rewrite IH by lia.
    rewrite store_cons, Z.add_assoc. f_equal. lia.
Qed.

Lemma ureadstr_page m n r i :
  0 <= i -> va mod PGSIZE + i + Z.of_nat n <= PGSIZE ->
  ureadstr AS m (va + i) (n + r) =
    (let '(d, got) := copyinstr_page (load n m (pa + va mod PGSIZE + i)) in
     if got : bool then (d, true)
     else let '(l, ok) := ureadstr AS m (va + i + Z.of_nat n) r in (d ++ l, ok)).
Proof.
  revert i. induction n as [|n IH]; intros i Hi Hn.
  - rewrite Z.add_0_r, load_0. simpl. by destruct (ureadstr _ _ _ _).
  - rewrite load_S. simpl. rewrite (uaddr_page AS va pa fl) by (try done; lia).
    destruct (ldb m _ =? 0); [done|].
    replace (va + i + 1) with (va + (i + 1)) by lia. rewrite IH by lia.
    replace (va + (i + 1) + Z.of_nat n) with (va + i + Z.of_nat (S n)) by lia.
    rewrite Z.add_assoc. destruct (copyinstr_page _) as [d []]; [done|].
    by destruct (ureadstr AS m _ r).
Qed.
End Page.

(** What the three loops compute for the page that holds [va]. *)
Definition upage (AS : aspace) (va : Z) : option Z :=
  if va >=? MAXVA then None else
  match AS !! (va / PGSIZE) with
  | Some (pa, fl) => if has fl PTE_U then Some pa else None
  | None => None
  end.

Lemma upage_some AS va pa : upage AS va = Some pa ->
  va < MAXVA /\ exists fl, AS !! (va / PGSIZE) = Some (pa, fl) /\ has fl PTE_U = true.
Proof.
  unfold upage. destruct (Z.geb_spec va MAXVA); [done|].
  destruct (AS !! _) as [[pa' fl]|]; [|done]. destruct (has fl PTE_U) eqn:E; [|done].
  intros [= ->]. eauto.
Qed.

Lemma upage_none AS va : upage AS va = None -> uaddr AS va = None.
Proof.
  unfold upage, uaddr. destruct (va >=? MAXVA); [done|].
  destruct (AS !! _) as [[pa' fl]|]; [|done]. by destruct (has fl PTE_U).
Qed.

Lemma walkaddr_page s root G AS fr va :
  uvm s root G AS fr -> 0 <= va < 2 ^ 64 ->
  walkaddr root (PGROUNDDOWN va) s = Ok (default 0 (upage AS va)) s /\
  forall pa, upage AS va = Some pa -> pa <> 0.
Proof.
  intros [V Hu] Hva. rewrite PGROUNDDOWN_div by done.
  erewrite walkaddr_spec; [|done|unfold PGSIZE; dlia].
  replace (PGSIZE * (va / PGSIZE) / PGSIZE) with (va / PGSIZE) by (unfold PGSIZE; dlia).
  assert ((PGSIZE * (va / PGSIZE) >=? MAXVA) = (va >=? MAXVA)) as ->.
  { change MAXVA with (2 ^ 38). unfold PGSIZE.
    destruct (Z.geb_spec va (2 ^ 38)), (Z.geb_spec (4096 * (va / 4096)) (2 ^ 38)); dlia. }
  split.
  - unfold upage. destruct (va >=? MAXVA); [done|].
    destruct (AS !! _) as [[pa fl]|]; [|done]. by destruct (has fl PTE_U).
  - intros pa (_ & fl & E & Hf)%upage_some. destruct (Hu _ _ _ E Hf) as [Hp _].
    pose proof (page_ok_pos pa Hp). lia.
Qed.

(** The length of the chunk copied in one round. *)
Lemma chunk va len :
  0 <= va < 2 ^ 64 -> 0 < len ->
  let n := PGSIZE - (va - PGROUNDDOWN va) in
  let n := if n >? len then len else n in
  0 < n <= len /\ va mod PGSIZE + n <= PGSIZE /\ va - PGROUNDDOWN va = va mod PGSIZE /\
  (va < MAXVA -> 0 < len - n -> u64 (PGROUNDDOWN va + PGSIZE) = va + n).
Proof.
  intros Hva Hlen n0 n. rewrite PGROUNDDOWN_eq in * by done. subst n n0. rewrite PGROUNDDOWN_eq by done.
  pose proof (Z.mod_pos_bound va PGSIZE ltac:(unfold PGSIZE; lia)). change MAXVA with (2 ^ 38).
  destruct (Z.gtb_spec (PGSIZE - (va - (va - va mod PGSIZE))) len).
  - split; [lia|]. split; [lia|]. split; lia.
  - split; [lia|]. split; [lia|]. split; [lia|]. intros.
    rewrite u64_small; unfold PGSIZE in *; lia.
Qed.

Lemma copyin_bytes s root G AS fr va len :
  uvm s root G AS fr -> 0 <= va < 2 ^ 64 -> 0 <= len < 2 ^ 64 ->
  copyin root va len s =
    Ok (let '(l, ok) := uread AS (k_mem s) va (Z.to_nat len) in (if ok : bool then 0 else -1, l)) s.
Proof.
  intros U Hva Hlen. set (m := k_mem s).
  assert (wp (copyin root va len) (fun r s' => s' = s /\
    r = (let '(l, ok) := uread AS m va (Z.to_nat len) in (if ok : bool then 0 else -1, l))) s) as H.
  2:{ apply wp_Ok in H as (r & s' & E & -> & ->). exact E. }
  unfold copyin.
  eapply (wp_loop _ (fun '(a, dst, n) s' => s' = s /\ 0 <= n <= len /\ (0 < n -> 0 <= a < 2 ^ 64) /\
      uread AS m va (Z.to_nat len) =
        (let '(l, ok) := uread AS m a (Z.to_nat n) in (dst ++ l, ok)))
    (fun '(_, _, n) _ => n)).
  - intros [[a dst] n] s1 (-> & Hn & Ha & E). destruct (Z.gtb_spec n 0) as [Hn0|Hn0].
    + simpl negb. cbv iota zeta. specialize (Ha Hn0). apply wp_bind.
      destruct (walkaddr_page s root G AS fr a U Ha) as [Ew Hz]. eapply wp_eq; [exact Ew|].
      destruct (chunk a n Ha Hn0) as (Hc1 & Hc2 & Hc3 & Hc4). rewrite Hc3 in *.
      set (c := if _ >? n then _ else _) in *.
      destruct (upage AS a) as [pa|] eqn:Ep; simpl default.
      * rewrite (proj2 (Z.eqb_neq pa 0)) by auto. kwp.
        apply upage_some in Ep as (Hmax & fl & Epa & Hfl). split; [|lia]. split; [done|]. split; [lia|].
        pose proof (uread_page AS a pa fl ltac:(lia) Epa Hfl m (Z.to_nat c) (Z.to_nat (n - c)) 0
          ltac:(lia) ltac:(lia)) as Hp.
        rewrite !Z.add_0_r, <- Z2Nat.inj_add, Zplus_minus in Hp by lia. rewrite Hp in E.
        split; [intros; apply u64_range|]. rewrite E, Z2Nat.id by lia.
        destruct (decide (0 < n - c)).
        -- rewrite Hc4 by done. destruct (uread AS m (a + c) _). by rewrite app_assoc.
        -- replace (n - c) with 0 by lia. simpl. by rewrite !app_nil_r.
      * apply wp_ret. split; [done|]. rewrite E.
        destruct (Z.to_nat n) eqn:En; [lia|]. simpl. rewrite upage_none by done.
        by rewrite app_nil_r.
    + apply wp_ret. split; [done|]. rewrite E. replace n with 0 by lia. simpl. by rewrite app_nil_r.
  - split; [done|]. split; [lia|]. split; [done|]. by destruct (uread _ _ _ _).
  - lia.
Qed.

(** A store into a user page keeps the page table. *)
Lemma uvm_store s root G AS fr va pa bs :
  uvm s root G AS fr -> upage AS va = Some pa ->
  va mod PGSIZE + Z.of_nat (length bs) <= PGSIZE ->
  uvm (set_k_mem (store (k_mem s) (pa + va mod PGSIZE) bs) s) root G AS fr.
Proof.
  intros [V Hu] (_ & fl & E & Hf)%upage_some Hb. destruct (Hu _ _ _ E Hf) as [Hp Hn].
  constructor; [|done]. pose proof (Z.mod_pos_bound va PGSIZE ltac:(unfold PGSIZE; lia)).
  eapply (vm_other _ _ _ _ _ [pa]); [done|apply same_outside_store; lia|].
  intros q ->%list_elem_of_singleton. split; [done|apply Hp].
Qed.

Lemma copyout_bytes s root G AS fr va src len :
  uvm s root G AS fr -> 0 <= va < 2 ^ 64 -> 0 <= len <= Z.of_nat (length src) -> len < 2 ^ 64 ->
  copyout root va src len s =
    (let '(m', ok) := uwrite AS (k_mem s) va (take (Z.to_nat len) src) in
     Ok (if ok : bool then 0 else -1) (set_k_mem m' s)).
Proof.
  intros U Hva Hlen Hl64. set (m := k_mem s). set (bs := take (Z.to_nat len) src).
  assert (wp (copyout root va src len) (fun r s' =>
    let '(m', ok) := uwrite AS m va bs in
    r = (if ok : bool then 0 else -1) /\ s' = set_k_mem m' s) s) as H.
  2:{ apply wp_Ok in H as (r & s' & E & H). destruct (uwrite AS m va bs) as [m' ok].
      destruct H as [-> ->]. exact E. }
  unfold copyout.
  eapply (wp_loop _ (fun '(a, src', n) s1 =>
      uvm s1 root G AS fr /\ s1 = set_k_mem (k_mem s1) s /\
      0 <= n <= Z.of_nat (length src') /\ n <= len /\ (0 < n -> 0 <= a < 2 ^ 64) /\
      uwrite AS m va bs = uwrite AS (k_mem s1) a (take (Z.to_nat n) src'))
    (fun '(_, _, n) _ => n)).
  - intros [[a src'] n] s1 (U1 & Hs1 & Hn & Hnl & Ha & E). destruct (Z.gtb_spec n 0) as [Hn0|Hn0].
    + simpl negb. cbv iota zeta. specialize (Ha Hn0). apply wp_bind.
      destruct (walkaddr_page s1 root G AS fr a U1 Ha) as [Ew Hz]. eapply wp_eq; [exact Ew|].
      destruct (chunk a n Ha Hn0) as (Hc1 & Hc2 & Hc3 & Hc4). rewrite Hc3 in *.
      set (c := if _ >? n then _ else _) in *.
      destruct (upage AS a) as [pa|] eqn:Ep; simpl default.
      * rewrite (proj2 (Z.eqb_neq pa 0)) by auto. kwp. simpl k_mem.
        assert (length (take (Z.to_nat c) src') = Z.to_nat c) as Hlc by (rewrite length_take; lia).
        pose proof (uvm_store s1 root G AS fr a pa (take (Z.to_nat c) src') U1 Ep ltac:(lia)) as U2.
        apply upage_some in Ep as (Hmax & fl & Epa & Hfl).
        split; [|lia]. split; [done|]. split; [rewrite Hs1; by destruct s|].
        rewrite length_drop. split; [lia|]. split; [lia|]. split; [intros; apply u64_range|].
        pose proof (uwrite_page AS a pa fl ltac:(lia) Epa Hfl (k_mem s1) (take (Z.to_nat c) src')
          (take (Z.to_nat (n - c)) (drop (Z.to_nat c) src')) 0 ltac:(lia) ltac:(lia)) as Hp.
        rewrite take_take_drop, !Z.add_0_r, Hlc, <- Z2Nat.inj_add, Zplus_minus in Hp by lia.
        rewrite E, Hp, Z2Nat.id by lia.
        destruct (decide (0 < n - c)); [by rewrite Hc4|].
        replace (n - c) with 0 by lia. by rewrite take_0.
      * apply wp_ret. rewrite E. destruct (Z.to_nat n) eqn:En; [lia|].
        destruct src' as [|b src']; [simpl in Hn; lia|]. simpl. rewrite upage_none by done.
        split; [done|]. exact Hs1.
    + apply wp_ret. rewrite E. replace n with 0 by lia. simpl. done.
  - split; [done|]. split; [by destruct s|]. split; [lia|]. done.
  - lia.
Qed.

Lemma copyinstr_bytes s root G AS fr va max :
  uvm s root G AS fr -> 0 <= va < 2 ^ 64 -> 0 <= max < 2 ^ 64 ->
  copyinstr root va max s =
    Ok (let '(l, ok) := ureadstr AS (k_mem s) va (Z.to_nat max) in
        (if ok : bool then 0 else -1, l)) s.
Proof.
  intros U Hva Hlen. set (m := k_mem s).
  assert (wp (copyinstr root va max) (fun r s' => s' = s /\
    r = (let '(l, ok) := ureadstr AS m va (Z.to_nat max) in (if ok : bool then 0 else -1, l))) s) as H.
  2:{ apply wp_Ok in H as (r & s' & E & -> & ->). exact E. }
  unfold copyinstr.
  eapply (wp_loop _ (fun '(a, dst, n, got) s' => s' = s /\ 0 <= n <= max /\ (0 < n -> 0 <= a < 2 ^ 64) /\
      ureadstr AS m va (Z.to_nat max) =
        if got : bool then (dst, true)
        else let '(l, ok) := ureadstr AS m a (Z.to_nat n) in (dst ++ l, ok))
    (fun '(_, _, n, _) _ => n)).
  - intros [[[a dst] n] got] s1 (-> & Hn & Ha & E). destruct got; simpl orb; cbv iota.
    { apply wp_ret. by rewrite E. }
    destruct (Z.gtb_spec n 0) as [Hn0|Hn0]; simpl negb; cbv iota zeta.
    + specialize (Ha Hn0). apply wp_bind.
      destruct (walkaddr_page s root G AS fr a U Ha) as [Ew Hz]. eapply wp_eq; [exact Ew|].
      destruct (chunk a n Ha Hn0) as (Hc1 & Hc2 & Hc3 & Hc4). rewrite Hc3 in *.
      set (c := if _ >? n then _ else _) in *.
      destruct (upage AS a) as [pa|] eqn:Ep; simpl default.
      * rewrite (proj2 (Z.eqb_neq pa 0)) by auto. kwp.
        apply upage_some in Ep as (Hmax & fl & Epa & Hfl).
        pose proof (ureadstr_page AS a pa fl ltac:(lia) Epa Hfl m (Z.to_nat c) (Z.to_nat (n - c)) 0
          ltac:(lia) ltac:(lia)) as Hp.
        rewrite !Z.add_0_r, <- Z2Nat.inj_add, Zplus_minus in Hp by lia. rewrite Hp in E. fold m.
        destruct (copyinstr_page _) as [d got]. apply wp_ret. split; [|lia].
        split; [done|]. split; [lia|]. split; [intros; apply u64_range|].
        rewrite E, Z2Nat.id by lia. destruct got; [done|].
        destruct (decide (0 < n - c)).
        -- rewrite Hc4 by done. destruct (ureadstr AS m (a + c) _). by rewrite app_assoc.
        -- replace (n - c) with 0 by lia. simpl. by rewrite !app_nil_r.
      * apply wp_ret. split; [done|]. rewrite E.
        destruct (Z.to_nat n) eqn:En; [lia|]. simpl. rewrite upage_none by done.
        by rewrite app_nil_r.
    + apply wp_ret. split; [done|]. rewrite E. replace n with 0 by lia. simpl. by rewrite app_nil_r.
  - split; [done|]. split; [lia|]. split; [done|]. by destruct (ureadstr _ _ _ _).
  - lia.
Qed.

(** ** Round trip and isolation *)

Definition uinj (AS : aspace) : Prop :=
  forall x y pa fl fl', AS !! x = Some (pa, fl) -> AS !! y = Some (pa, fl') ->
    has fl PTE_U = true -> has fl' PTE_U = true -> x = y.

Lemma uaddr_some AS va a :
  uaddr AS va = Some a -> exists pa fl, AS !! (va / PGSIZE) = Some (pa, fl) /\
    has fl PTE_U = true /\ a = pa + va mod PGSIZE.
Proof.
  unfold uaddr. destruct (va >=? MAXVA); [done|]. destruct (AS !! _) as [[pa fl]|]; [|done].
  destruct (has fl PTE_U) eqn:E; [|done]. intros [= <-]. eauto.
Qed.

Lemma uaddr_inj s root G AS fr v v' a :
  uvm s root G AS fr -> uinj AS -> uaddr AS v = Some a -> uaddr AS v' = Some a -> v = v'.
Proof.
  intros [_ Hu] Hi (pa & fl & E & Hf & ->)%uaddr_some (pa' & fl' & E' & Hf' & Ea)%uaddr_some.
  destruct (Hu _ _ _ E Hf) as [[Hal _] _], (Hu _ _ _ E' Hf') as [[Hal' _] _].
  assert (pa = pa' /\ v mod PGSIZE = v' mod PGSIZE) as [-> Hm] by (unfold PGSIZE in *; dlia).
  pose proof (Hi _ _ _ _ _ E E' Hf Hf'). unfold PGSIZE in *. dlia.
Qed.

Lemma uwrite_other AS m va bs m' ok a :
  uwrite AS m va bs = (m', ok) ->
  (forall i, 0 <= i < Z.of_nat (length bs) -> uaddr AS (va + i) <> Some a) -> ldb m' a = ldb m a.
Proof.
  revert m va. induction bs as [|b bs IH]; intros m va E Ha; simpl in *; [by simplify_eq|].
  destruct (uaddr AS va) as [x|] eqn:Ex; [|by simplify_eq].
  rewrite (IH _ _ E).
  - rewrite ldb_insert, decide_False; [done|]. intros ->. apply (Ha 0); [lia|]. by rewrite Z.add_0_r.
  - intros i Hi. rewrite <- Z.add_assoc. apply Ha. lia.
Qed.

Lemma uread_uwrite s root G AS fr m va bs m' :
  uvm s root G AS fr -> uinj AS -> uwrite AS m va bs = (m', true) ->
  uread AS m' va (length bs) = (bs, true).
Proof.
  intros U Hi. revert m va. induction bs as [|b bs IH]; intros m va E; simpl in *; [done|].
  destruct (uaddr AS va) as [x|] eqn:Ex; [|done]. rewrite (IH _ _ E). do 2 f_equal.
  rewrite (uwrite_other _ _ _ _ _ _ _ E), ldb_insert, decide_True; [done|done|].
  intros i Hr Hx. pose proof (uaddr_inj _ _ _ _ _ _ _ _ U Hi Ex Hx). lia.
Qed.

Lemma uvm_uwrite s root G AS fr va bs m' ok :
  uvm s root G AS fr -> uwrite AS (k_mem s) va bs = (m', ok) ->
  uvm (set_k_mem m' s) root G AS fr.
Proof.
  revert s va. induction bs as [|b bs IH]; intros s va U E; simpl in E.
  { simplify_eq. by destruct s. }
  destruct (uaddr AS va) as [x|] eqn:Ex; [|simplify_eq; by destruct s].
  specialize (IH (set_k_mem (<[x := b]> (k_mem s)) s) (va + 1)). simpl in IH.
  replace (set_k_mem m' s) with (set_k_mem m' (set_k_mem (<[x := b]> (k_mem s)) s)) by (by destruct s).
  apply IH; [|done]. apply uaddr_some in Ex as (pa & fl & E1 & Hf & ->). destruct U as [V Hu].
  destruct (Hu _ _ _ E1 Hf) as [Hp Hn]. constructor; [|done].
  pose proof (Z.mod_pos_bound va PGSIZE ltac:(unfold PGSIZE; lia)).
  eapply (vm_other _ _ _ _ _ [pa]); [done| |].
  - rewrite <- (store_nil (<[_ := b]> _) (pa + va mod PGSIZE + 1)), <- store_cons.
    apply same_outside_store; simpl; lia.
  - intros q ->%list_elem_of_singleton. split; [done|apply Hp].
Qed.

(** The address space only depends on memory and the allocator. *)
Lemma uvm_frame s s' root G AS fr :
  uvm s root G AS fr -> k_mem s' = k_mem s -> k_freelist s' = k_freelist s -> LKmem ∉ k_held s' ->
  uvm s' root G AS fr.
Proof.
  intros [[[Hf Hn] _ Ht Hs Hl Hr] Hu] Em Ef Hh. constructor; [|done].
  constructor; rewrite ?Em; try done. constructor; [by rewrite Em, Ef|done].
Qed.
End UserCopy.

Lemma uread_app AS m va n1 n2 :
  uread AS m va (n1 + n2) =
    let '(l1, ok1) := uread AS m va n1 in
    if ok1 : bool then let '(l2, ok2) := uread AS m (va + Z.of_nat n1) n2 in (l1 ++ l2, ok2) else (l1, false).
Proof.
  revert va. induction n1 as [|n1 IH]; intros va; simpl.
  { rewrite Z.add_0_r. by destruct (uread AS m va n2). }
  destruct (uaddr AS va) as [a|]; [|done]. rewrite IH.
  replace (va + Z.of_nat (S n1)) with (va + 1 + Z.of_nat n1) by lia.
  destruct (uread AS m (va + 1) n1) as [l1 []]; [|done]. by destruct (uread AS m _ n2).
Qed.

Lemma uwrite_app AS m va bs1 bs2 :
  uwrite AS m va (bs1 ++ bs2) =
    let '(m1, ok1) := uwrite AS m va bs1 in
    if ok1 : bool then uwrite AS m1 (va + Z.of_nat (length bs1)) bs2 else (m1, false).
Proof.
  revert m va. induction bs1 as [|b bs1 IH]; intros m va; simpl; [by rewrite Z.add_0_r|].
  destruct (uaddr AS va) as [a|]; [|done]. rewrite IH.
  by replace (va + Z.of_nat (S (length bs1))) with (va + 1 + Z.of_nat (length bs1)) by lia.
Qed.

Lemma uread_length AS m va n l : uread AS m va n = (l, true) -> length l = n.
Proof.
  revert va l. induction n as [|n IH]; intros va l; simpl; [by intros [= <-]|].
  destruct (uaddr AS va); [|done]. destruct (uread AS m (va + 1) n) as [l' ok] eqn:El. intros [= <- ->].
  simpl. by rewrite (IH _ _ El).
Qed.
