(* ===== verification/VmTheorems.v ===== *)
(** * The guarantees of kernel/vm.c

    The theorems about address spaces that the rest of the kernel relies on,
    each with a concrete instance. *)

From S2P Require Import Prelude Bytes Params CString Spinlock State Kalloc Vm PageTable VmProofs UserSpace UvmProofs UserCopy.

Section Empty.
Context `{Lk : Linker} {Lo : LinkerOk Lk}.

(** A zeroed page is an empty user page table. *)
Lemma empty_user_space s root fr :
  kmem_inv s fr -> LKmem ∉ k_held s -> page_ok root -> root ∉ fr ->
  (forall a, root <= a < root + PGSIZE -> ldb (k_mem s) a = 0) ->
  user_space s root {[(2%nat, 0) := root]} ∅ fr 0.
Proof.
  intros Hk Hh Hp Hf Hz.
  assert (forall i, 0 <= i < 512 -> load64 (k_mem s) (pte_addr root i) = 0) as He.
  { intros i Hi. pose proof (pte_addr_inside root i Hi).
    rewrite <- (load64_memset_zero (k_mem s) root PGSIZE (pte_addr root i)) by lia.
    apply load64_ext. intros x Hx. rewrite Hz by lia.
    by rewrite ldb_memset, decide_True by (unfold PGSIZE in *; lia). }
  constructor; [|lia|done| |constructor|done].
  2:{ intros p Hp'. by apply not_elem_of_nil in Hp'. }
  constructor; [done|done| | | |].
  - constructor.
    + apply lookup_insert_eq.
    + intros k p [<- <-]%lookup_singleton_Some. done.
    + intros k k' p [<- _]%lookup_singleton_Some [<- _]%lookup_singleton_Some. done.
    + intros l pre t i [E <-]%lookup_singleton_Some Hi. simplify_eq.
      rewrite He by done. by rewrite lookup_singleton_ne by (intros [=]; lia).
    + intros l pre t [E <-]%lookup_singleton_Some. simplify_eq. by left.
  - intros p [k [_ <-]%lookup_singleton_Some]%elem_pages. done.
  - intros vpn Hv. unfold leaf. by rewrite lookup_singleton_ne.
  - intros vpn e. by rewrite lookup_empty.
Qed.

(** C19: [mappages] on a page table that represents the address space [AS]
    returns 0 with exactly the pages of [va, va+size) added, mapped to
    consecutive physical pages with the permissions asked for; or it returns
    -1 with the free list exhausted and only a prefix of them added.  Every
    page is accounted for: it is free or a page of the page table, as before. *)
Theorem mappages_correct s root G AS fr va size pa perm :
  vm s root G AS fr ->
  0 <= va -> 0 < size -> va + size <= MAXVA ->
  pa mod PGSIZE = 0 -> 0 <= pa -> pa + PGSIZE * Z.of_nat (npages_of va size) <= 2 ^ 56 ->
  0 <= perm < 1024 ->
  (forall x, va / PGSIZE <= x <= (va + size - 1) / PGSIZE -> AS !! x = None) ->
  wp (mappages root va size pa perm) (fun r s' => exists G' AS' fr' k,
    vm s' root G' AS' fr' /\ fr' ++ pages G' ≡ₚ fr ++ pages G /\
    (forall x, AS' !! x =
       if decide (va / PGSIZE <= x < va / PGSIZE + Z.of_nat k)
       then Some (pa + PGSIZE * (x - va / PGSIZE), Z.lor perm PTE_V) else AS !! x) /\
    (r = 0 /\ k = npages_of va size \/ r = -1 /\ (k < npages_of va size)%nat /\ fr' = [])) s.
Proof.
  intros. eapply wp_mono; [by apply mappages_spec|].
  intros r s' (G' & fr' & k & V' & [_ Hp _] & Hr). exists G', (map_pages AS (va / PGSIZE) pa k (Z.lor perm PTE_V)), fr', k.
  split; [done|]. split; [done|]. split; [|done]. intros x. by rewrite lookup_map_pages.
Qed.

(** C20: growing a process from [oldsz] to [newsz] bytes.  [uvmalloc] returns
    [newsz] with new zeroed, writable and executable user pages on top and
    the old ones untouched; or, out of memory, it returns 0 with the address
    space it started from.  In both cases no page is lost or shared. *)
Theorem uvmalloc_correct s root G AS fr oldsz newsz :
  user_space s root G AS fr (npg oldsz) -> 0 <= oldsz <= newsz -> newsz <= TRAPFRAME ->
  wp (uvmalloc root oldsz newsz) (fun r s' => exists G' AS' fr' k,
    grown zeroed root s G AS fr (npg oldsz) s' G' AS' fr' k /\
    (r = newsz /\ (npg oldsz + k)%nat = npg newsz \/ r = 0 /\ k = O /\ AS' = AS)) s.
Proof. intros. by apply uvmalloc_spec. Qed.

(** C9: [uvmcopy] gives the child a private copy of the parent's memory.  On
    success (0) every page of the child has the parent's flags and bytes, in
    a physical page of its own; on failure (-1) the child's address space is
    empty again.  Nothing outside the free pages and the child's page table
    is written, so the parent is unchanged, and no page is lost. *)
Theorem uvmcopy_correct old new s Go G ASo AS fr sz :
  user_space s old Go ASo fr (npg sz) -> user_space s new G AS fr 0 ->
  (forall p, p ∈ pages Go ++ frames ASo 0 (npg sz) -> p ∉ pages G) -> 0 <= sz ->
  wp (uvmcopy old new sz) (fun r s' => exists G' AS' fr' k,
    grown (copied s ASo) new s G AS fr 0 s' G' AS' fr' k /\
    (r = 0 /\ k = npg sz \/ r = -1 /\ k = O /\ AS' = AS)) s.
Proof. intros. by eapply uvmcopy_spec. Qed.

(** C12: what [copyout] stores, [copyin] reads back, and nothing else changes:
    if [copyout] of [src] to [va] succeeds, then [copyin] from [va] succeeds
    with the same bytes, and every physical byte that is not one of the bytes
    [va, va + length src) of this address space keeps its value. *)
Theorem copyout_copyin_roundtrip s root G AS fr va src s1 :
  uvm s root G AS fr -> uinj AS -> 0 <= va < 2 ^ 64 -> Z.of_nat (length src) < 2 ^ 64 ->
  copyout root va src (Z.of_nat (length src)) s = Ok 0 s1 ->
  copyin root va (Z.of_nat (length src)) s1 = Ok (0, src) s1 /\
  (forall a, (forall i, 0 <= i < Z.of_nat (length src) -> uaddr AS (va + i) <> Some a) ->
     ldb (k_mem s1) a = ldb (k_mem s) a) /\
  s1 = set_k_mem (k_mem s1) s.
Proof.
  intros U Hi Hva Hl E. erewrite copyout_bytes in E by (try done; lia).
  rewrite Nat2Z.id, take_ge in E by lia.
  destruct (uwrite AS (k_mem s) va src) as [m' ok] eqn:Ew. destruct ok; simplify_eq. simpl.
  split; [|split; [intros a; by eapply uwrite_other|by destruct s]].
  pose proof (uvm_uwrite _ _ _ _ _ _ _ _ _ U Ew) as U1.
  erewrite copyin_bytes by (try done; lia). simpl.
  by rewrite Nat2Z.id, (uread_uwrite _ _ _ _ _ _ _ _ _ U Hi Ew).
Qed.

(** C21: [copyin], [copyout] and [copyinstr] copy page by page, but behave as
    the byte-by-byte definitions: they fail exactly if a byte they need is
    beyond [MAXVA], unmapped or not a user byte, having transferred the bytes
    before it; [copyinstr] stops at the terminator. *)
Theorem user_copies_bytewise s root G AS fr va n src :
  uvm s root G AS fr -> 0 <= va < 2 ^ 64 -> 0 <= n < 2 ^ 64 -> n <= Z.of_nat (length src) ->
  copyin root va n s =
    Ok (let '(l, ok) := uread AS (k_mem s) va (Z.to_nat n) in (if ok : bool then 0 else -1, l)) s /\
  copyinstr root va n s =
    Ok (let '(l, ok) := ureadstr AS (k_mem s) va (Z.to_nat n) in
        (if ok : bool then 0 else -1, l)) s /\
  copyout root va src n s =
    (let '(m', ok) := uwrite AS (k_mem s) va (take (Z.to_nat n) src) in
     Ok (if ok : bool then 0 else -1) (set_k_mem m' s)).
Proof.
  intros U Hva Hn Hs. split; [by eapply copyin_bytes|].
  split; [by eapply copyinstr_bytes|]. by eapply copyout_bytes; [done|done|lia|lia].
Qed.
End Empty.

(** ** Instances *)
Module VmDemo.
(** The page table root [pg 0], an unused zero page [pg 9], and five free
    pages [pg 1] to [pg 5]. *)
Definition pg (i : Z) : Z := 2147639296 + 4096 * i.
Definition links (m : gmap Z Z) : gmap Z Z :=
  store64 (store64 (store64 (store64 m (pg 1) (pg 2)) (pg 2) (pg 3)) (pg 3) (pg 4)) (pg 4) (pg 5).
Definition st : kernel := set_k_freelist (pg 1) (set_k_mem (links ∅) kernel0).
Definition G0 : tables := {[(2%nat, 0) := pg 0]}.
Definition fr0 : list Z := [pg 1; pg 2; pg 3; pg 4; pg 5].

Abbreviation us := (user_space (Lk := kernel_sym)).

Lemma st_kmem : kmem_inv (Lk := kernel_sym) st fr0.
Proof.
  constructor; [|apply (bool_decide_unpack _); by vm_compute].
  repeat (split; [by vm_compute|]). by vm_compute.
Qed.

Lemma st_zero i a : i = 0 \/ i = 9 -> pg i <= a < pg i + PGSIZE -> ldb (k_mem st) a = 0.
Proof.
  intros Hi Ha. unfold st, links. simpl. rewrite !store64_store, !ldb_store, !length_le_bytes.
  unfold pg, PGSIZE in *. repeat (rewrite decide_False by lia). done.
Qed.

Lemma pg_ok i : 0 <= i < 10 -> page_ok (Lk := kernel_sym) (pg i).
Proof. intros. unfold page_ok, pg, PGSIZE, PHYSTOP, KERNBASE. simpl. split; [dlia|lia]. Qed.

Lemma st_us i : i = 0 \/ i = 9 -> us st (pg i) {[(2%nat, 0) := pg i]} ∅ fr0 0.
Proof.
  intros Hi. apply empty_user_space; [apply st_kmem|by apply not_elem_of_nil|apply pg_ok; lia| |].
  - destruct Hi as [-> | ->]; apply (bool_decide_unpack _); by vm_compute.
  - intros a. by apply st_zero.
Qed.

(** One user page. *)
Definition one_page_of (s0 : kernel) (root : Z) (G0 : tables) (fr0 : list Z) : Prop :=
  exists s G AS fr p,
  us s root G AS fr 1 /\ (forall x, x <> 0 -> AS !! x = None) /\
  AS !! 0 = Some (p, 31) /\ fr ++ pages G ++ frames AS 0 1 ≡ₚ fr0 ++ pages G0 /\
  same_outside (fr0 ++ pages G0) (k_mem s0) (k_mem s) /\ mem_only s0 s.

Lemma one_page_alloc s0 root G0 fr0 :
  us s0 root G0 ∅ fr0 0 ->
  wp (uvmalloc (Lk := kernel_sym) root 0 4096) (fun r _ => r = 4096) s0 ->
  one_page_of s0 root G0 fr0.
Proof.
  intros U Hr. assert (4096 <= TRAPFRAME) as Ht by (vm_compute; discriminate).
  pose proof (uvmalloc_spec root s0 G0 ∅ fr0 0 4096 U ltac:(lia) Ht) as H. clear Ht.
  apply wp_Ok in H as (r & s & E & G & AS & fr & k & Gr & Hk).
  rewrite (wp_eq_inv _ _ _ _ _ Hr E) in Hk. clear E Hr. destruct Hk as [[_ Hk]|[? _]]; [|lia].
  change (npg 0) with 0%nat in *. assert (k = 1%nat) as -> by exact Hk.
  destruct Gr as [U' Hsame Hnew Hp Hm Ho]. destruct (Hnew 0%nat ltac:(lia)) as (p & fl & Ep & Hf & _).
  change (Z.of_nat (0 + 0)) with 0 in Ep. change (Z.lor _ PTE_V) with 31 in Hf. subst fl.
  exists s, G, AS, fr, p. split; [done|]. split; [|done]. intros x Hx. rewrite Hsame by lia. done.
Qed.

Lemma one_page_space : one_page_of st (pg 0) G0 fr0.
Proof.
  apply one_page_alloc; [exact (st_us 0 (or_introl eq_refl))|]. vm_compute. reflexivity.
Qed.

Lemma mappages_correct_witness :
  wp (mappages (pg 0) 8192 4096 (pg 7) 22) (fun r s' => exists G' AS' fr' k,
    vm (Lk := kernel_sym) s' (pg 0) G' AS' fr' /\ fr' ++ pages G' ≡ₚ fr0 ++ pages G0 /\
    (forall x, AS' !! x =
       if decide (8192 / PGSIZE <= x < 8192 / PGSIZE + Z.of_nat k)
       then Some (pg 7 + PGSIZE * (x - 8192 / PGSIZE), Z.lor 22 PTE_V) else (∅ : aspace) !! x) /\
    (r = 0 /\ k = npages_of 8192 4096 \/ r = -1 /\ (k < npages_of 8192 4096)%nat /\ fr' = [])) st.
Proof.
  apply (mappages_correct (Lk := kernel_sym) st (pg 0) G0 ∅ fr0 8192 4096 (pg 7) 22).
  - apply (us_vm _ _ _ _ _ _ (st_us 0 (or_introl eq_refl))).
  - lia.
  - lia.
  - change MAXVA with (2 ^ 38). lia.
  - reflexivity.
  - unfold pg. lia.
  - change (npages_of 8192 4096) with 1%nat. unfold pg, PGSIZE. lia.
  - lia.
  - intros. apply lookup_empty.
Defined.

Lemma uvmalloc_correct_witness :
  wp (uvmalloc (Lk := kernel_sym) (pg 0) 0 8192) (fun r s' => exists G' AS' fr' k,
    grown (Lk := kernel_sym) zeroed (pg 0) st G0 ∅ fr0 (npg 0) s' G' AS' fr' k /\
    (r = 8192 /\ (npg 0 + k)%nat = npg 8192 \/ r = 0 /\ k = O /\ AS' = ∅)) st.
Proof.
  apply (uvmalloc_correct (Lk := kernel_sym) st (pg 0) G0 ∅ fr0 0 8192).
  - exact (st_us 0 (or_introl eq_refl)).
  - lia.
  - vm_compute. discriminate.
Defined.

(** A second, empty page table beside the one-page space. *)
Lemma child_space s0 root G fr s G1 AS1 f1 root' :
  us s0 root G ∅ fr 0 -> us s0 root' {[(2%nat, 0) := root']} ∅ fr 0 ->
  (forall a, root' <= a < root' + PGSIZE -> ldb (k_mem s0) a = 0) ->
  root' ∉ fr ++ pages G -> us s root G1 AS1 f1 1 ->
  f1 ++ pages G1 ++ frames AS1 0 1 ≡ₚ fr ++ pages G ->
  same_outside (fr ++ pages G) (k_mem s0) (k_mem s) -> mem_only s0 s ->
  us s root' {[(2%nat, 0) := root']} ∅ f1 0 /\
  (forall p, p ∈ pages G1 ++ frames AS1 0 1 -> p ∉ pages {[(2%nat, 0) := root']}).
Proof.
  intros U U' Hz Hn U1 Hp Hs Ho.
  assert (page_ok (Lk := kernel_sym) root') as Hok.
  { eapply tree_page; [apply (vm_tree _ _ _ _ _ (us_vm _ _ _ _ _ _ U'))|]. apply lookup_insert_eq. }
  split.
  - apply empty_user_space; [apply (us_vm _ _ _ _ _ _ U1)|apply (us_vm _ _ _ _ _ _ U1)|done| |].
    + intros Hx. apply Hn. rewrite <- Hp. apply elem_of_app. by left.
    + intros a Ha. rewrite (page_untouched _ _ _ root' a Hs); [auto| |apply Hok|done|done].
      intros q Hq. apply (vm_page_ok _ _ _ _ _ _ (us_vm _ _ _ _ _ _ U) Hq).
  - intros p Hin [k [_ <-]%lookup_singleton_Some]%elem_pages. apply Hn. rewrite <- Hp.
    apply elem_of_app. by right.
Qed.

Lemma uvmcopy_correct_witness : exists s Go ASo fr,
  us s (pg 0) Go ASo fr (npg 4096) /\
  wp (uvmcopy (Lk := kernel_sym) (pg 0) (pg 9) 4096) (fun r s' => exists G' AS' fr' k,
    grown (Lk := kernel_sym) (copied s ASo) (pg 9) s {[(2%nat, 0) := pg 9]} ∅ fr 0 s' G' AS' fr' k /\
    (r = 0 /\ k = npg 4096 \/ r = -1 /\ k = O /\ AS' = ∅)) s.
Proof.
  destruct one_page_space as (s & G & AS & fr & p & U & _ & _ & Hp & Hs & Ho).
  pose proof (st_us 9 (or_intror eq_refl)) as U9.
  assert (pg 9 ∉ fr0 ++ pages G0) as Hn by (apply (bool_decide_unpack _); by vm_compute).
  destruct (child_space _ _ _ _ _ _ _ _ _ (st_us 0 (or_introl eq_refl)) U9
    (fun a => st_zero 9 a (or_intror eq_refl)) Hn U Hp Hs Ho) as [U' Hd].
  exists s, G, AS, fr. split; [exact U|].
  apply (uvmcopy_correct (Lk := kernel_sym) (pg 0) (pg 9) s G _ AS ∅ fr 4096).
  - exact U.
  - exact U'.
  - exact Hd.
  - lia.
Defined.

Lemma one_page_uvm : exists s G AS fr p,
  uvm (Lk := kernel_sym) s (pg 0) G AS fr /\ uinj AS /\ AS !! 0 = Some (p, 31).
Proof.
  destruct one_page_space as (s & G & AS & fr & p & U & Hx & E & _).
  assert (forall x e, AS !! x = Some e -> x = 0) as H0.
  { intros x e Ex. destruct (decide (x = 0)); [done|]. by rewrite Hx in Ex. }
  exists s, G, AS, fr, p. split; [|split; [|done]].
  - constructor; [apply U|]. intros x pa fl Ex _. pose proof (H0 _ _ Ex) as ->.
    by apply (us_frame _ _ _ _ _ _ 0%nat pa fl U); [lia|].
  - intros x y pa fl fl' Ex Ey _ _. by rewrite (H0 _ _ Ex), (H0 _ _ Ey).
Qed.

Lemma uaddr_first AS p v : AS !! 0 = Some (p, 31) -> 0 <= v < 4096 -> uaddr AS v = Some (p + v).
Proof.
  intros E H. unfold uaddr. change MAXVA with (2 ^ 38). destruct (Z.geb_spec v (2 ^ 38)); [lia|].
  replace (v / PGSIZE) with 0 by (unfold PGSIZE; dlia). rewrite E.
  by replace (v mod PGSIZE) with v by (unfold PGSIZE; dlia).
Qed.

Lemma copyout_copyin_roundtrip_witness : exists s s1,
  copyout (pg 0) 10 [104; 105] 2 s = Ok 0 s1 /\ copyin (pg 0) 10 2 s1 = Ok (0, [104; 105]) s1.
Proof.
  destruct one_page_uvm as (s & G & AS & fr & p & U & Hi & E).
  assert (exists s1, copyout (pg 0) 10 [104; 105] 2 s = Ok 0 s1) as [s1 E1].
  { rewrite (copyout_bytes (Lk := kernel_sym) s (pg 0) G AS fr) by (try exact U; simpl; lia). simpl.
    rewrite !(uaddr_first AS p) by (try exact E; lia). eauto. }
  exists s, s1. split; [exact E1|].
  apply (copyout_copyin_roundtrip (Lk := kernel_sym) s (pg 0) G AS fr 10 [104; 105] s1 U Hi);
    [lia|simpl; lia|exact E1].
Defined.

Lemma user_copies_bytewise_witness : exists s AS,
  copyin (pg 0) 4094 2 s = Ok (0, (uread AS (k_mem s) 4094 2).1) s /\
  copyin (pg 0) 4095 2 s = Ok (-1, (uread AS (k_mem s) 4095 2).1) s.
Proof.
  destruct one_page_space as (s & G & AS & fr & p & U & Hx & E & _).
  assert (uvm (Lk := kernel_sym) s (pg 0) G AS fr) as Uv.
  { constructor; [apply U|]. intros x pa fl Ex _. destruct (decide (x = 0)) as [->|].
    - by apply (us_frame _ _ _ _ _ _ 0%nat pa fl U); [lia|].
    - by rewrite Hx in Ex. }
  exists s, AS. split.
  - rewrite (proj1 (user_copies_bytewise (Lk := kernel_sym) s (pg 0) G AS fr 4094 2 [0; 0] Uv
      ltac:(lia) ltac:(lia) ltac:(simpl; lia))).
    simpl. rewrite !(uaddr_first AS p) by (try exact E; lia). done.
  - rewrite (proj1 (user_copies_bytewise (Lk := kernel_sym) s (pg 0) G AS fr 4095 2 [0; 0] Uv
      ltac:(lia) ltac:(lia) ltac:(simpl; lia))).
    simpl. rewrite !(uaddr_first AS p 4095) by (try exact E; lia).
    unfold uaddr. change ((4095 + 1) / PGSIZE) with 1. by rewrite (Hx 1).
Defined.
End VmDemo.
