(* ===== verification/Sched.v ===== *)
(** * Sleep, wakeup and the scheduler: kernel/proc.c and kernel/sleeplock.c

    The part of [proc.c] that the rest of the kernel builds on: the scheduler
    and the switch to it, [sleep] and [wakeup], [kill], process ids, and
    copies to and from "either" a user or a kernel address; and the sleep
    locks.  What runs between a process's [sched] and its return is the
    environment [env]. *)

From S2P Require Import Prelude Bytes Params CString Spinlock State Kalloc Vm.

(** ** Process ids *)

Definition allocpid : K Z :=
  acquire LPid ;;
  pid <- gets k_nextpid ;;
  modify (set_k_nextpid (i32 (pid + 1))) ;;
  release LPid ;;
  ret pid.

(** ** Switching processes *)

(** One round of the scheduler's loop over the process table; [run p] is the
    time that process [p] holds the processor, from the [swtch] into it to
    its [swtch] back. *)
Definition scheduler_visit (run : nat -> K unit) (p : nat) : K unit :=
  acquire (LProc p) ;;
  q <- get_proc p ;;
  when (bool_decide (p_state q = RUNNABLE))
    (upd_proc p (set_p_state RUNNING) ;;
     modify (set_k_cur (Some p)) ;;
     run p ;;
     modify (set_k_cur None)) ;;
  release (LProc p).

Definition scheduler_round (run : nat -> K unit) : K unit :=
  for_all (seq 0 NPROC) (scheduler_visit run).

(** [swtch] to the scheduler and back.  On the way out the scheduler clears
    [c->proc] and releases [p->lock]; other processes run; when a scheduler
    next finds [p] runnable it takes the lock, marks [p] running and switches
    to it. *)
Definition swtch_out (p : nat) : K unit :=
  modify (fun s => set_k_held (LockSpec.remove1 (LProc p) (k_held s)) (set_k_cur None s)).
Definition swtch_in (p : nat) : K unit := fun s =>
  if decide (p_state (k_procs s !!! p) = RUNNABLE)
  then Ok tt (set_k_held [LProc p] (set_k_cur (Some p)
                (set_k_procs (alter (set_p_state RUNNING) p (k_procs s)) s)))
  else Blocked s.

(** [intr_get]: with a spin lock held interrupts are off ([Spinlock.abs]). *)
Definition interruptible : K bool := gets (fun s => bool_decide (k_held s = [])).

(** The tests of [sched].  [mycpu()->intena], which [sched] keeps across the
    switch, is state of the locks' implementation. *)
Definition sched_check : K nat :=
  p <- curproc ;;
  h <- holding (LProc p) ;;
  if negb h then panic "sched p->lock" else
  noff <- gets (fun s => length (k_held s)) ;;
  if negb (noff =? 1)%nat then panic "sched locks" else
  q <- get_proc p ;;
  if bool_decide (p_state q = RUNNING) then panic "sched running" else
  i <- interruptible ;;
  if (i : bool) then panic "sched interruptible" else
  ret p.

(** [sched] and [sleep] in atomic actions, over the code [sw] of [swtch]. *)
Definition sched_code (sw : nat -> code kernel unit) : code kernel unit :=
  p <~ atom sched_check ;;
  sw p.

(** Atomically release [lk] and sleep on [chan]. *)
Definition sleep_code (sw : nat -> code kernel unit) (chan : chan) (lk : lock) : code kernel unit :=
  p <~ atom curproc ;;
  _ <~ atom (acquire (LProc p)) ;;
  _ <~ atom (release lk) ;;
  _ <~ atom (upd_proc p (set_p_chan (Some chan))) ;;
  _ <~ atom (upd_proc p (set_p_state SLEEPING)) ;;
  _ <~ sched_code sw ;;
  _ <~ atom (upd_proc p (set_p_chan None)) ;;
  _ <~ atom (release (LProc p)) ;;
  atom (acquire lk).

Section Sched.
Context {E : Env}.

(** What the other processes do while this one is out. *)
Definition others : K unit := fun s =>
  match env (k_clock s) s with
  | None => Blocked s
  | Some s2 => Ok tt (set_k_clock (S (k_clock s)) s2)
  end.

Definition swtch (p : nat) : K unit :=
  swtch_out p ;;
  others ;;
  swtch_in p.

Definition sched : K unit := run_code (sched_code (fun p => atom (swtch p))).

Definition yield : K unit :=
  p <- curproc ;;
  acquire (LProc p) ;;
  upd_proc p (set_p_state RUNNABLE) ;;
  sched ;;
  release (LProc p).

Definition sleep (chan : chan) (lk : lock) : K unit :=
  run_code (sleep_code (fun p => atom (swtch p)) chan lk).
End Sched.

(** [ticks] is read under its lock.  ([kernel/sysproc.c]) *)
Definition uptime_code : code kernel Z :=
  _ <~ atom (acquire LTicks) ;;
  xticks <~ atom (gets k_ticks) ;;
  _ <~ atom (release LTicks) ;;
  Ret xticks.
Definition sys_uptime : K Z := run_code uptime_code.

(** One process of [wakeup]'s loop. *)
Definition wakeup_one (chan : option chan) (p : nat) : code kernel unit :=
  me <~ atom myproc ;;
  if bool_decide (me = Some p) then Ret tt else
  _ <~ atom (acquire (LProc p)) ;;
  q <~ atom (get_proc p) ;;
  _ <~ (if bool_decide (p_state q = SLEEPING) && bool_decide (p_chan q = chan) then
          _ <~ atom (upd_proc p (set_p_state RUNNABLE)) ;;
          t <~ uptime_code ;;
          atom (upd_proc p (set_p_readytime t))
        else Ret tt) ;;
  atom (release (LProc p)).

Definition wakeup_code (chan : option chan) : code kernel unit :=
  code_all (seq 0 NPROC) (wakeup_one chan).
Definition wakeup (chan : option chan) : K unit := run_code (wakeup_code chan).

Definition kill (pid : Z) : K Z :=
  r <- for_each (seq 0 NPROC) (fun p =>
    acquire (LProc p) ;;
    q <- get_proc p ;;
    if p_pid q =? pid then
      upd_proc p (set_p_killed 1) ;;
      when (bool_decide (p_state q = SLEEPING)) (upd_proc p (set_p_state RUNNABLE)) ;;
      release (LProc p) ;;
      ret (Some 0)
    else
      release (LProc p) ;;
      ret None) ;;
  ret (default (-1) r).

(** ** Copies to or from either kind of address

    A kernel destination is physical memory or a local buffer of the caller,
    which then takes the bytes itself; a kernel source is the bytes. *)

Inductive cdst := DUser (va : Z) | DPhys (pa : Z) | DLocal.
Inductive csrc := SUser (va : Z) | SLocal (bs : list Z).

Definition dst_add (d : cdst) (n : Z) : cdst :=
  match d with
  | DUser va => DUser (u64 (va + n))
  | DPhys pa => DPhys (u64 (pa + n))
  | DLocal => DLocal
  end.
Definition src_add (d : csrc) (n : Z) : csrc :=
  match d with
  | SUser va => SUser (u64 (va + n))
  | SLocal bs => SLocal (drop (Z.to_nat n) bs)
  end.

Definition either_copyout (d : cdst) (src : list Z) (len : Z) : K Z :=
  me <- myproc ;;
  match d with
  | DUser va => p <- deref me ;; q <- get_proc p ;; copyout (p_pagetable q) va src len
  | DPhys pa => upd_mem (fun m => store m pa (take (Z.to_nat len) src)) ;; ret 0
  | DLocal => ret 0
  end.

(** The result, and the bytes stored at the kernel destination. *)
Definition either_copyin (src : csrc) (len : Z) : K (Z * list Z) :=
  me <- myproc ;;
  match src with
  | SUser va => p <- deref me ;; q <- get_proc p ;; copyin (p_pagetable q) va len
  | SLocal bs => ret (0, take (Z.to_nat len) bs)
  end.

(** ** Process information: getprocs *)

Definition procstate_num (st : procstate) : Z :=
  match st with UNUSED => 0 | USED => 1 | SLEEPING => 2 | RUNNABLE => 3 | RUNNING => 4 | ZOMBIE => 5 end.

(** [struct pstat]: the offsets of its fields. *)
Definition sizeof_pstat : nat := 56.
Definition pstat_set (st : list Z) (pid state size ppid : Z) (name : list Z) : list Z :=
  splice (put_le 4 (put_le 8 (put_le 4 (put_le 4 st 4 pid) 8 state) 16 size) 24 ppid) 28
    (take 16 name).

(** [junk] is what the stack holds where the local [struct pstat] lives: the
    code sets five of its eight fields. *)
Definition procinfo (junk : list Z) (addr : Z) : K Z :=
  thisproc <- curproc ;;
  r <- loop (fun '(ps, addr, nprocs, st) =>
    match ps with
    | [] => ret (inr nprocs)
    | p :: ps' =>
        q <- get_proc p ;;
        if bool_decide (p_state q = UNUSED) then ret (inl (ps', addr, nprocs, st)) else
        ppid <- match p_parent q with
                | Some pp => qq <- get_proc pp ;; ret (p_pid qq)
                | None => ret 0
                end ;;
        let st := pstat_set st (p_pid q) (procstate_num (p_state q)) (p_sz q) ppid (p_name q) in
        me <- get_proc thisproc ;;
        r <- copyout (p_pagetable me) addr st (Z.of_nat sizeof_pstat) ;;
        if r <? 0 then ret (inr (-1)) else
        ret (inl (ps', u64 (addr + Z.of_nat sizeof_pstat), nprocs + 1, st))
    end) (seq 0 NPROC, addr, 0, junk) ;;
  ret r.

(** ** Sleep locks *)

Definition get_sleeplock (lk : slock) : K sleeplock :=
  match lk with
  | SBuf i => b <- get_buf i ;; ret (b_lock b)
  | SInode i => ip <- get_inode i ;; ret (i_lock ip)
  end.
Definition upd_sleeplock (lk : slock) (f : sleeplock -> sleeplock) : K unit :=
  match lk with
  | SBuf i => upd_buf i (fun b => set_b_lock (f (b_lock b)) b)
  | SInode i => upd_inode i (fun ip => set_i_lock (f (i_lock ip)) ip)
  end.

Definition initsleeplock (lk : slock) : K unit :=
  upd_sleeplock lk (set_sl_locked 0) ;;
  upd_sleeplock lk (set_sl_pid 0).

Definition acquiresleep {E : Env} (lk : slock) : K unit :=
  acquire (LSleep lk) ;;
  loop (fun _ : unit =>
    l <- get_sleeplock lk ;;
    if z2b (sl_locked l) then sleep (CSleepLock lk) (LSleep lk) ;; ret (inl tt)
    else ret (inr tt)) tt ;;
  upd_sleeplock lk (set_sl_locked 1) ;;
  p <- curproc ;;
  q <- get_proc p ;;
  upd_sleeplock lk (set_sl_pid (p_pid q)) ;;
  release (LSleep lk).

Definition releasesleep (lk : slock) : K unit :=
  acquire (LSleep lk) ;;
  upd_sleeplock lk (set_sl_locked 0) ;;
  upd_sleeplock lk (set_sl_pid 0) ;;
  wakeup (Some (CSleepLock lk)) ;;
  release (LSleep lk).

Definition holdingsleep (lk : slock) : K Z :=
  acquire (LSleep lk) ;;
  l <- get_sleeplock lk ;;
  r <- (if z2b (sl_locked l) then
          p <- curproc ;;
          q <- get_proc p ;;
          ret (b2z (sl_pid l =? p_pid q))
        else ret 0) ;;
  release (LSleep lk) ;;
  ret r.
