(* ===== verification/Console.v ===== *)
(** * Console, UART and kernel printf

    [kernel/uart.c], [kernel/console.c], [kernel/printf.c] and the console's
    user [procdump] of [kernel/proc.c].

    The UART's registers are the scripted values [u_lsr] and [u_rhr] of the
    next reads (after the script the transmitter is idle and no input is
    waiting) and the bytes [u_thr] written so far.  Interrupt masking around
    the registers and the boot-time set-up of the device have no state here. *)

From S2P Require Import Prelude Bytes Params CString Spinlock State Kalloc Vm Sched.

Definition get_uart : K uart := gets k_uart.
Definition upd_uart (f : uart -> uart) : K unit := modify (fun s => set_k_uart (f (k_uart s)) s).
Definition get_cons : K console := gets k_cons.
Definition upd_cons (f : console -> console) : K unit :=
  modify (fun s => set_k_cons (f (k_cons s)) s).

(** ** The UART's registers *)

Definition LSR_RX_READY : Z := 1.
Definition LSR_TX_IDLE : Z := 32.
Definition UART_TX_BUF_SIZE : Z := 32.

Definition read_LSR : K Z :=
  u <- get_uart ;;
  upd_uart (fun u => set_u_lsr (tail (u_lsr u)) u) ;;
  ret (hd LSR_TX_IDLE (u_lsr u)).
Definition read_RHR : K Z :=
  u <- get_uart ;;
  upd_uart (fun u => set_u_rhr (tail (u_rhr u)) u) ;;
  ret (hd 0 (u_rhr u)).
Definition write_THR (c : Z) : K unit := upd_uart (fun u => set_u_thr (u_thr u ++ [u8 c]) u).

(** ** Output *)

(** Send what is buffered while the UART is idle. *)
Definition uartstart : K unit :=
  loop (fun _ : unit =>
    u <- get_uart ;;
    if u_w u =? u_r u then ret (inr tt) else
    lsr <- read_LSR ;;
    if Z.land lsr LSR_TX_IDLE =? 0 then ret (inr tt) else
    let c := u_buf u !!! Z.to_nat (u_r u mod UART_TX_BUF_SIZE) in
    upd_uart (fun u => set_u_r (u64 (u_r u + 1)) u) ;;
    wakeup (Some CUartR) ;;
    write_THR c ;;
    ret (inl tt)) tt.

Definition uartputc {E : Env} (c : Z) : K unit :=
  acquire LUartTx ;;
  pk <- gets k_panicked ;;
  if z2b pk then diverge else
  loop (fun _ : unit =>
    u <- get_uart ;;
    if u_w u =? u64 (u_r u + UART_TX_BUF_SIZE)
    then sleep CUartR LUartTx ;; ret (inl tt)
    else
      upd_uart (fun u =>
        set_u_buf (<[Z.to_nat (u_w u mod UART_TX_BUF_SIZE) := u8 c]> (u_buf u)) u) ;;
      upd_uart (fun u => set_u_w (u64 (u_w u + 1)) u) ;;
      uartstart ;;
      release LUartTx ;;
      ret (inr tt)) tt.

Definition uartputc_sync (c : Z) : K unit :=
  pk <- gets k_panicked ;;
  if z2b pk then diverge else
  loop (fun _ : unit =>
    lsr <- read_LSR ;;
    if Z.land lsr LSR_TX_IDLE =? 0 then ret (inl tt) else ret (inr tt)) tt ;;
  write_THR c.

Definition BACKSPACE : Z := 256.

Definition consputc (c : Z) : K unit :=
  if c =? BACKSPACE
  then uartputc_sync 8 ;; uartputc_sync 32 ;; uartputc_sync 8
  else uartputc_sync c.

(** ** Kernel printf *)

Definition digits : list Z := str "0123456789abcdef".

(** The digits of [x], least significant first; [fuel] bounds the number of
    digits of a 32-bit value. *)
Fixpoint digit_loop (fuel : nat) (x base : Z) : list Z :=
  match fuel with
  | O => []
  | S f =>
      digits !!! Z.to_nat (x mod base) ::
      (if x / base =? 0 then [] else digit_loop f (x / base) base)
  end.

(** The characters that [printint] sends, in order. *)
Definition printint_chars (xx base sign : Z) : list Z :=
  let neg := z2b sign && (xx <? 0) in
  let x := if neg then u32 (- xx) else u32 xx in
  rev (digit_loop 32 x base ++ (if neg then [45] else [])).

Definition printint (xx base sign : Z) : K unit :=
  for_all (printint_chars xx base sign) consputc.

Definition printptr_chars (x : Z) : list Z :=
  (fun i => digits !!! Z.to_nat (Z.shiftr (u64 (Z.shiftl x (4 * Z.of_nat i))) 60)) <$> seq 0 16.

Definition printptr (x : Z) : K unit :=
  consputc 48 ;; consputc 120 ;; for_all (printptr_chars x) consputc.

(** An argument of [printf]; a string argument may be null. *)
Inductive parg := PInt (x : Z) | PStr (s : option (list Z)).
Definition parg_int (a : option parg) : Z := match a with Some (PInt x) => x | _ => 0 end.
Definition parg_str (a : option parg) : list Z :=
  match a with Some (PStr (Some s)) => cstr s | _ => str "(null)" end.

Fixpoint printf_loop (fmt : list Z) (ap : list parg) : K unit :=
  match fmt with
  | [] => ret tt
  | c :: fmt' =>
      if c =? 0 then ret tt else
      if negb (c =? 37) then consputc c ;; printf_loop fmt' ap else
      match fmt' with
      | [] => ret tt
      | d :: fmt'' =>
          if d =? 0 then ret tt else
          if d =? 100 then printint (i32 (parg_int (head ap))) 10 1 ;; printf_loop fmt'' (tail ap) else
          if d =? 120 then printint (i32 (parg_int (head ap))) 16 1 ;; printf_loop fmt'' (tail ap) else
          if d =? 112 then printptr (u64 (parg_int (head ap))) ;; printf_loop fmt'' (tail ap) else
          if d =? 115 then for_all (parg_str (head ap)) consputc ;; printf_loop fmt'' (tail ap) else
          if d =? 37 then consputc 37 ;; printf_loop fmt'' ap else
          consputc 37 ;; consputc d ;; printf_loop fmt'' ap
      end
  end.

(** [printf] after [printfinit], when [pr.locking] is set. *)
Definition printf (fmt : list Z) (ap : list parg) : K unit :=
  acquire LPr ;;
  printf_loop fmt ap ;;
  release LPr.

(** ** procdump *)

(** The table [states] has no entry for [USED]. *)
Definition state_name (st : procstate) : list Z :=
  match st with
  | UNUSED => str "unused"
  | USED => str "???"
  | SLEEPING => str "sleep "
  | RUNNABLE => str "runble"
  | RUNNING => str "run   "
  | ZOMBIE => str "zombie"
  end.

Definition procdump : K unit :=
  printf [10] [] ;;
  for_all (seq 0 NPROC) (fun p =>
    q <- get_proc p ;;
    if bool_decide (p_state q = UNUSED) then ret tt else
    printf (str "%d %s %s") [PInt (p_pid q); PStr (Some (state_name (p_state q))); PStr (Some (p_name q))] ;;
    printf [10] []).

(** ** Console input and output *)

Definition INPUT_BUF : Z := 128.
Definition ctrl (c : Z) : Z := c - 64.

Definition consolewrite {E : Env} (src : csrc) (n : Z) : K Z :=
  loop (fun i =>
    if negb (i <? n) then ret (inr i) else
    let* (r, c) := either_copyin (src_add src i) 1 in
    if r =? -1 then ret (inr i) else
    uartputc (hd 0 c) ;;
    ret (inl (i + 1))) 0.

(** Wait for input; [false] if the process has been killed. *)
Definition console_wait {E : Env} : K bool :=
  loop (fun _ : unit =>
    c <- get_cons ;;
    if negb (c_r c =? c_w c) then ret (inr true) else
    p <- curproc ;;
    q <- get_proc p ;;
    if z2b (p_killed q) then release LCons ;; ret (inr false) else
    sleep CConsR LCons ;;
    ret (inl tt)) tt.

Definition consoleread {E : Env} (dst : cdst) (n : Z) : K Z :=
  let target := u32 n in
  acquire LCons ;;
  r <- loop (fun '(n, dst) =>
    if negb (n >? 0) then ret (inr (Some n)) else
    ok <- console_wait ;;
    if negb ok then ret (inr None) else
    cs <- get_cons ;;
    let c := c_buf cs !!! Z.to_nat (c_r cs mod INPUT_BUF) in
    upd_cons (fun cs => set_c_r (u32 (c_r cs + 1)) cs) ;;
    if c =? ctrl 68 then
      when (u32 n <? target) (upd_cons (fun cs => set_c_r (u32 (c_r cs - 1)) cs)) ;;
      ret (inr (Some n))
    else
      r <- either_copyout dst [u8 c] 1 ;;
      if r =? -1 then ret (inr (Some n)) else
      if c =? 10 then ret (inr (Some (n - 1))) else
      ret (inl (n - 1, dst_add dst 1))) (n, dst) ;;
  match r with
  | None => ret (-1)
  | Some n => release LCons ;; ret (i32 (target - n))
  end.

(** The default case of [consoleintr]: echo, store, and wake the reader at
    the end of a line. *)
Definition consoleintr_store (c : Z) : K unit :=
  cs <- get_cons ;;
  if negb (c =? 0) && (u32 (c_e cs - c_r cs) <? INPUT_BUF) then
    let c := if c =? 13 then 10 else c in
    consputc c ;;
    upd_cons (fun cs => set_c_buf (<[Z.to_nat (c_e cs mod INPUT_BUF) := u8 c]> (c_buf cs)) cs) ;;
    upd_cons (fun cs => set_c_e (u32 (c_e cs + 1)) cs) ;;
    cs <- get_cons ;;
    when ((c =? 10) || (c =? ctrl 68) || (c_e cs =? u32 (c_r cs + INPUT_BUF)))
      (upd_cons (fun cs => set_c_w (c_e cs) cs) ;;
       wakeup (Some CConsR))
  else ret tt.

Definition consoleintr (c : Z) : K unit :=
  acquire LCons ;;
  (if c =? ctrl 80 then procdump
   else if c =? ctrl 85 then
     loop (fun _ : unit =>
       cs <- get_cons ;;
       if negb (c_e cs =? c_w cs) &&
          negb (c_buf cs !!! Z.to_nat (u32 (c_e cs - 1) mod INPUT_BUF) =? 10)
       then
         upd_cons (fun cs => set_c_e (u32 (c_e cs - 1)) cs) ;;
         consputc BACKSPACE ;;
         ret (inl tt)
       else ret (inr tt)) tt
   else if (c =? ctrl 72) || (c =? 127) then
     cs <- get_cons ;;
     when (negb (c_e cs =? c_w cs))
       (upd_cons (fun cs => set_c_e (u32 (c_e cs - 1)) cs) ;;
        consputc BACKSPACE)
   else consoleintr_store c) ;;
  release LCons.

(** ** The UART's interrupt handler *)

Definition uartgetc : K Z :=
  lsr <- read_LSR ;;
  if z2b (Z.land lsr LSR_RX_READY) then read_RHR else ret (-1).

Definition uartintr : K unit :=
  loop (fun _ : unit =>
    c <- uartgetc ;;
    if c =? -1 then ret (inr tt) else
    consoleintr c ;;
    ret (inl tt)) tt ;;
  acquire LUartTx ;;
  uartstart ;;
  release LUartTx.
