(* ===== verification/Bio.v ===== *)
(** * kernel/bio.c: the buffer cache

    The cache is a doubly linked list of [NBUF] buffers, most recently used
    first, threaded through [b_next] and [b_prev] with the list head at index
    [NBUF].  The disk driver is used through the interface [Disk]. *)

From S2P Require Import Prelude Bytes Params CString Spinlock State Kalloc Vm Sched.

(** What the cache asks of the disk driver: move the buffer's block to
    ([true]) or from the disk. *)
Class Disk := virtio_disk_rw : nat -> bool -> K unit.

(** The transfer itself.  The driver of [kernel/virtio_disk.c] wraps it in a
    descriptor exchange with the device. *)
Definition disk_block (d : gmap Z (list Z)) (bno : Z) : list Z :=
  default (replicate (Z.to_nat BSIZE) 0) (d !! bno).

Definition disk_transfer (b : nat) (write : bool) : K unit :=
  x <- get_buf b ;;
  if write
  then modify (fun s => set_k_disk (<[b_blockno x := b_data x]> (k_disk s)) s)
  else
    d <- gets k_disk ;;
    upd_buf b (set_b_data (disk_block d (b_blockno x))).

Definition bhead : nat := NBUF.

Definition binit : K unit :=
  upd_buf bhead (set_b_prev bhead) ;;
  upd_buf bhead (set_b_next bhead) ;;
  for_all (seq 0 NBUF) (fun b =>
    h <- get_buf bhead ;;
    upd_buf b (set_b_next (b_next h)) ;;
    upd_buf b (set_b_prev bhead) ;;
    initsleeplock (SBuf b) ;;
    h <- get_buf bhead ;;
    upd_buf (b_next h) (set_b_prev b) ;;
    upd_buf bhead (set_b_next b)).

(** The two searches of [bget], from [head.next] and from [head.prev]. *)
Definition bget_cached (dev blockno : Z) : K (option nat) :=
  h <- get_buf bhead ;;
  loop (fun b =>
    if (b =? bhead)%nat then ret (inr None) else
    x <- get_buf b ;;
    if (b_dev x =? dev) && (b_blockno x =? blockno) then ret (inr (Some b)) else
    ret (inl (b_next x))) (b_next h).

Definition bget_unused : K (option nat) :=
  h <- get_buf bhead ;;
  loop (fun b =>
    if (b =? bhead)%nat then ret (inr None) else
    x <- get_buf b ;;
    if b_refcnt x =? 0 then ret (inr (Some b)) else
    ret (inl (b_prev x))) (b_prev h).

Definition bget {E : Env} (dev blockno : Z) : K nat :=
  acquire LBcache ;;
  r <- bget_cached dev blockno ;;
  match r with
  | Some b =>
      upd_buf b (fun x => set_b_refcnt (u32 (b_refcnt x + 1)) x) ;;
      release LBcache ;;
      acquiresleep (SBuf b) ;;
      ret b
  | None =>
      r <- bget_unused ;;
      match r with
      | Some b =>
          upd_buf b (set_b_dev dev) ;;
          upd_buf b (set_b_blockno blockno) ;;
          upd_buf b (set_b_valid 0) ;;
          upd_buf b (set_b_refcnt 1) ;;
          release LBcache ;;
          acquiresleep (SBuf b) ;;
          ret b
      | None => panic "bget: no buffers"
      end
  end.

Section Bio.
Context {E : Env} {D : Disk}.

Definition bread (dev blockno : Z) : K nat :=
  b <- bget dev blockno ;;
  x <- get_buf b ;;
  when (negb (z2b (b_valid x)))
    (virtio_disk_rw b false ;;
     upd_buf b (set_b_valid 1)) ;;
  ret b.

Definition bwrite (b : nat) : K unit :=
  h <- holdingsleep (SBuf b) ;;
  if negb (z2b h) then panic "bwrite" else
  virtio_disk_rw b true.
End Bio.

(** Unlink [b] and put it behind the list head. *)
Definition move_to_front (b : nat) : K unit :=
  x <- get_buf b ;;
  upd_buf (b_next x) (set_b_prev (b_prev x)) ;;
  x <- get_buf b ;;
  upd_buf (b_prev x) (set_b_next (b_next x)) ;;
  h <- get_buf bhead ;;
  upd_buf b (set_b_next (b_next h)) ;;
  upd_buf b (set_b_prev bhead) ;;
  h <- get_buf bhead ;;
  upd_buf (b_next h) (set_b_prev b) ;;
  upd_buf bhead (set_b_next b).

Definition brelse (b : nat) : K unit :=
  h <- holdingsleep (SBuf b) ;;
  if negb (z2b h) then panic "brelse" else
  releasesleep (SBuf b) ;;
  acquire LBcache ;;
  upd_buf b (fun x => set_b_refcnt (u32 (b_refcnt x - 1)) x) ;;
  x <- get_buf b ;;
  when (b_refcnt x =? 0) (move_to_front b) ;;
  release LBcache.

Definition bpin (b : nat) : K unit :=
  acquire LBcache ;;
  upd_buf b (fun x => set_b_refcnt (u32 (b_refcnt x + 1)) x) ;;
  release LBcache.

Definition bunpin (b : nat) : K unit :=
  acquire LBcache ;;
  upd_buf b (fun x => set_b_refcnt (u32 (b_refcnt x - 1)) x) ;;
  release LBcache.
