(* ===== verification/Log.v ===== *)
(** * kernel/log.c: the redo log

    The on-disk header block is [struct logheader] in the first bytes of a
    block: the count, then the block numbers, four bytes each. *)

From S2P Require Import Prelude Bytes Params CString Spinlock State Kalloc Vm Sched Bio.

(** An array access beyond the array: what the C code then does is not
    determined. *)
Definition undefined {A} : K A := panic "undefined behaviour".

(** [log.lh.block[i] = v] *)
Definition store_lh_block (i v : Z) : K unit :=
  if (0 <=? i) && (i <? LOGSIZE)
  then upd_log (fun l => set_lh_block (<[Z.to_nat i := v]> (lh_block l)) l)
  else undefined.
Definition lh_block_at (l : log) (i : Z) : Z := lh_block l !!! Z.to_nat i.

(** The fields of the header in a block. *)
Definition hb_n (data : list Z) : Z := i32 (get_le 4 data 0).
Definition hb_block (data : list Z) (i : Z) : Z := i32 (get_le 4 data (Z.to_nat (4 + 4 * i))).

Section Log.
Context {E : Env} {D : Disk}.

(** Copy committed blocks from the log to their home location. *)
Definition install_trans (recovering : Z) : K unit :=
  loop (fun tail =>
    l <- get_log ;;
    if negb (tail <? lh_n l) then ret (inr tt) else
    lbuf <- bread (l_dev l) (u32 (l_start l + tail + 1)) ;;
    l <- get_log ;;
    dbuf <- bread (l_dev l) (u32 (lh_block_at l tail)) ;;
    lb <- get_buf lbuf ;;
    upd_buf dbuf (set_b_data (b_data lb)) ;;
    bwrite dbuf ;;
    when (recovering =? 0) (bunpin dbuf) ;;
    brelse lbuf ;;
    brelse dbuf ;;
    ret (inl (tail + 1))) 0.

Definition read_head : K unit :=
  l <- get_log ;;
  buf <- bread (l_dev l) (u32 (l_start l)) ;;
  b <- get_buf buf ;;
  upd_log (set_lh_n (hb_n (b_data b))) ;;
  loop (fun i =>
    l <- get_log ;;
    if negb (i <? lh_n l) then ret (inr tt) else
    b <- get_buf buf ;;
    store_lh_block i (hb_block (b_data b) i) ;;
    ret (inl (i + 1))) 0 ;;
  brelse buf.

Definition write_head : K unit :=
  l <- get_log ;;
  buf <- bread (l_dev l) (u32 (l_start l)) ;;
  l <- get_log ;;
  upd_buf buf (fun b => set_b_data (put_le 4 (b_data b) 0 (lh_n l)) b) ;;
  loop (fun i =>
    l <- get_log ;;
    if negb (i <? lh_n l) then ret (inr tt) else
    upd_buf buf (fun b =>
      set_b_data (put_le 4 (b_data b) (Z.to_nat (4 + 4 * i)) (lh_block_at l i)) b) ;;
    ret (inl (i + 1))) 0 ;;
  bwrite buf ;;
  brelse buf.

Definition recover_from_log : K unit :=
  read_head ;;
  install_trans 1 ;;
  upd_log (set_lh_n 0) ;;
  write_head.

(** [sizeof(struct logheader)] is less than [BSIZE]. *)
Definition initlog (dev : Z) : K unit :=
  if 4 + 4 * LOGSIZE >=? BSIZE then panic "initlog: too big logheader" else
  sb <- gets k_sb ;;
  upd_log (set_l_start (i32 (sb_logstart sb))) ;;
  upd_log (set_l_size (i32 (sb_nlog sb))) ;;
  upd_log (set_l_dev dev) ;;
  recover_from_log.

Definition begin_op : K unit :=
  acquire LLog ;;
  loop (fun _ : unit =>
    l <- get_log ;;
    if z2b (l_committing l) then sleep CLog LLog ;; ret (inl tt)
    else if lh_n l + (l_outstanding l + 1) * MAXOPBLOCKS >? LOGSIZE
    then sleep CLog LLog ;; ret (inl tt)
    else
      upd_log (fun l => set_l_outstanding (l_outstanding l + 1) l) ;;
      release LLog ;;
      ret (inr tt)) tt.

(** Copy modified blocks from the cache to the log. *)
Definition write_log : K unit :=
  loop (fun tail =>
    l <- get_log ;;
    if negb (tail <? lh_n l) then ret (inr tt) else
    to <- bread (l_dev l) (u32 (l_start l + tail + 1)) ;;
    l <- get_log ;;
    from <- bread (l_dev l) (u32 (lh_block_at l tail)) ;;
    fb <- get_buf from ;;
    upd_buf to (set_b_data (b_data fb)) ;;
    bwrite to ;;
    brelse from ;;
    brelse to ;;
    ret (inl (tail + 1))) 0.

Definition commit : K unit :=
  l <- get_log ;;
  when (lh_n l >? 0)
    (write_log ;;
     write_head ;;
     install_trans 0 ;;
     upd_log (set_lh_n 0) ;;
     write_head).

Definition end_op : K unit :=
  acquire LLog ;;
  upd_log (fun l => set_l_outstanding (l_outstanding l - 1) l) ;;
  l <- get_log ;;
  if z2b (l_committing l) then panic "log.committing" else
  let do_commit := l_outstanding l =? 0 in
  (if do_commit then upd_log (set_l_committing 1) else wakeup (Some CLog)) ;;
  release LLog ;;
  when do_commit
    (commit ;;
     acquire LLog ;;
     upd_log (set_l_committing 0) ;;
     wakeup (Some CLog) ;;
     release LLog).
End Log.

(** The first slot of the log header that names block [bno]; [lh_n] if none. *)
Definition log_slot (l : log) (bno : Z) : Z :=
  match list_find (fun x => x = bno) (take (Z.to_nat (lh_n l)) (lh_block l)) with
  | Some (i, _) => Z.of_nat i
  | None => lh_n l
  end.

Definition log_write (b : nat) : K unit :=
  acquire LLog ;;
  l <- get_log ;;
  if (lh_n l >=? LOGSIZE) || (lh_n l >=? l_size l - 1) then panic "too big a transaction" else
  if l_outstanding l <? 1 then panic "log_write outside of trans" else
  x <- get_buf b ;;
  let i := log_slot l (i32 (b_blockno x)) in
  store_lh_block i (i32 (b_blockno x)) ;;
  when (i =? lh_n l)
    (bpin b ;;
     upd_log (fun l => set_lh_n (lh_n l + 1) l)) ;;
  release LLog.
