(* ===== verification/Fs.v ===== *)
(** * kernel/fs.c: blocks, inodes, directories, path names

    Structures on disk are bytes of a block, decoded at their offsets.  The
    destination of a read is an address or a local buffer of the caller
    ([Sched.cdst]); [readi] returns the bytes a local buffer received next to
    its result.  A path is a byte list whose end stands for the terminator. *)

From S2P Require Import Prelude Bytes Params CString Spinlock State Kalloc Vm Sched Bio Log.

(** ** On-disk structures *)

Definition dec_superblock (d : list Z) : superblock :=
  mk_superblock (get_le 4 d 0) (get_le 4 d 4) (get_le 4 d 8) (get_le 4 d 12)
    (get_le 4 d 16) (get_le 4 d 20) (get_le 4 d 24) (get_le 4 d 28).

Record dinode := mk_dinode {
  d_type : Z; d_major : Z; d_minor : Z; d_nlink : Z; d_size : Z; d_addrs : list Z }.

Definition dec_dinode (d : list Z) (off : nat) : dinode :=
  mk_dinode (i16 (get_le 2 d off)) (i16 (get_le 2 d (off + 2))) (i16 (get_le 2 d (off + 4)))
    (i16 (get_le 2 d (off + 6))) (get_le 4 d (off + 8))
    ((fun k => get_le 4 d (off + 12 + 4 * k)) <$> seq 0 13).

(** The stores of [iupdate], in order. *)
Definition enc_addrs (d : list Z) (off : nat) (addrs : list Z) : list Z :=
  splice d off (concat (le_bytes 4 <$> addrs)).
Definition enc_dinode (d : list Z) (off : nat) (di : dinode) : list Z :=
  enc_addrs
    (put_le 4 (put_le 2 (put_le 2 (put_le 2 (put_le 2 d
      off (d_type di)) (off + 2) (d_major di)) (off + 4) (d_minor di)) (off + 6) (d_nlink di))
      (off + 8) (d_size di)) (off + 12) (d_addrs di).

Definition IBLOCK (i : Z) (sb : superblock) : Z := u32 (i / IPB + sb_inodestart sb).
Definition BBLOCK (b : Z) (sb : superblock) : Z := u32 (b / BPB + sb_bmapstart sb).
Definition dinode_off (inum : Z) : nat := Z.to_nat (inum mod IPB * sizeof_dinode).

Definition byte_at (d : list Z) (i : Z) : Z := d !!! Z.to_nat i.
Definition set_byte (i v : Z) (d : list Z) : list Z := <[Z.to_nat i := u8 v]> d.
Definition upd_data (b : nat) (f : list Z -> list Z) : K unit :=
  upd_buf b (fun x => set_b_data (f (b_data x)) x).

Section Fs.
Context {E : Env} {D : Disk}.

Definition readsb (dev : Z) : K unit :=
  bp <- bread dev 1 ;;
  b <- get_buf bp ;;
  modify (set_k_sb (dec_superblock (b_data b))) ;;
  brelse bp.

Definition fsinit (dev : Z) : K unit :=
  readsb dev ;;
  sb <- gets k_sb ;;
  if negb (sb_magic sb =? FSMAGIC) then panic "invalid file system" else
  initlog dev.

(** ** Blocks *)

Definition bzero (dev bno : Z) : K unit :=
  bp <- bread dev (u32 bno) ;;
  upd_data bp (fun _ => replicate (Z.to_nat BSIZE) 0) ;;
  log_write bp ;;
  brelse bp.

(** The inner loop of [balloc]: the first clear bit of the bitmap block in
    [bp], which covers the blocks from [b] on. *)
Definition balloc_scan (bp : nat) (b : Z) : K (option Z) :=
  loop (fun bi =>
    sb <- gets k_sb ;;
    if negb ((bi <? BPB) && (b + bi <? sb_size sb)) then ret (inr None) else
    let m := Z.shiftl 1 (bi mod 8) in
    x <- get_buf bp ;;
    if Z.land (byte_at (b_data x) (bi / 8)) m =? 0 then
      upd_data bp (fun d => set_byte (bi / 8) (Z.lor (byte_at d (bi / 8)) m) d) ;;
      ret (inr (Some bi))
    else ret (inl (bi + 1))) 0.

Definition balloc (dev : Z) : K Z :=
  loop (fun b =>
    sb <- gets k_sb ;;
    if negb (b <? sb_size sb) then panic "balloc: out of blocks" else
    bp <- bread dev (BBLOCK b sb) ;;
    r <- balloc_scan bp b ;;
    match r with
    | Some bi =>
        log_write bp ;;
        brelse bp ;;
        bzero dev (b + bi) ;;
        ret (inr (b + bi))
    | None => brelse bp ;; ret (inl (b + BPB))
    end) 0.

Definition bfree (dev b : Z) : K unit :=
  sb <- gets k_sb ;;
  bp <- bread dev (BBLOCK b sb) ;;
  let bi := b mod BPB in
  let m := Z.shiftl 1 (bi mod 8) in
  x <- get_buf bp ;;
  if Z.land (byte_at (b_data x) (bi / 8)) m =? 0 then panic "freeing free block" else
  upd_data bp (fun d => set_byte (bi / 8) (Z.land (byte_at d (bi / 8)) (Z.lnot m)) d) ;;
  log_write bp ;;
  brelse bp.

(** ** Inodes *)

Definition iinit : K unit := for_all (seq 0 NINODE) (fun i => initsleeplock (SInode i)).

(** The scan of [iget]: a live entry for the inode, or the first free slot. *)
Definition iget_scan (dev inum : Z) : K (nat + option nat) :=
  loop (fun '(l, empty) =>
    match l with
    | [] => ret (inr (inr empty))
    | ip :: l' =>
        x <- get_inode ip ;;
        if (i_ref x >? 0) && (i_dev x =? dev) && (i_inum x =? inum) then ret (inr (inl ip)) else
        ret (inl (l', if bool_decide (empty = None) && (i_ref x =? 0) then Some ip else empty))
    end) (seq 0 NINODE, None).

Definition iget (dev inum : Z) : K nat :=
  acquire LItable ;;
  r <- iget_scan dev inum ;;
  match r with
  | inl ip =>
      upd_inode ip (fun x => set_i_ref (i_ref x + 1) x) ;;
      release LItable ;;
      ret ip
  | inr None => panic "iget: no inodes"
  | inr (Some ip) =>
      upd_inode ip (set_i_dev dev) ;;
      upd_inode ip (set_i_inum inum) ;;
      upd_inode ip (set_i_ref 1) ;;
      upd_inode ip (set_i_valid 0) ;;
      release LItable ;;
      ret ip
  end.

Definition ialloc (dev type : Z) : K nat :=
  loop (fun inum =>
    sb <- gets k_sb ;;
    if negb (inum <? sb_ninodes sb) then panic "ialloc: no inodes" else
    bp <- bread dev (IBLOCK inum sb) ;;
    b <- get_buf bp ;;
    if d_type (dec_dinode (b_data b) (dinode_off inum)) =? 0 then
      upd_data bp (fun d => splice d (dinode_off inum) (replicate (Z.to_nat sizeof_dinode) 0)) ;;
      upd_data bp (fun d => put_le 2 d (dinode_off inum) type) ;;
      log_write bp ;;
      brelse bp ;;
      ip <- iget dev inum ;;
      ret (inr ip)
    else
      brelse bp ;;
      ret (inl (inum + 1))) 1.

Definition inode_dinode (x : inode) : dinode :=
  mk_dinode (i_type x) (i_major x) (i_minor x) (i_nlink x) (i_size x) (i_addrs x).

Definition iupdate (ip : nat) : K unit :=
  x <- get_inode ip ;;
  sb <- gets k_sb ;;
  bp <- bread (i_dev x) (IBLOCK (i_inum x) sb) ;;
  x <- get_inode ip ;;
  upd_data bp (fun d => enc_dinode d (dinode_off (i_inum x)) (inode_dinode x)) ;;
  log_write bp ;;
  brelse bp.

Definition idup (ip : nat) : K nat :=
  acquire LItable ;;
  upd_inode ip (fun x => set_i_ref (i_ref x + 1) x) ;;
  release LItable ;;
  ret ip.

(** Copy the disk inode into the table entry. *)
Definition load_dinode (di : dinode) (x : inode) : inode :=
  set_i_type (d_type di) (set_i_major (d_major di) (set_i_minor (d_minor di)
    (set_i_nlink (d_nlink di) (set_i_size (d_size di) (set_i_addrs (d_addrs di) x))))).

Definition ilock (oip : option nat) : K unit :=
  match oip with
  | None => panic "ilock"
  | Some ip =>
      x <- get_inode ip ;;
      if i_ref x <? 1 then panic "ilock" else
      acquiresleep (SInode ip) ;;
      x <- get_inode ip ;;
      when (i_valid x =? 0)
        (sb <- gets k_sb ;;
         bp <- bread (i_dev x) (IBLOCK (i_inum x) sb) ;;
         b <- get_buf bp ;;
         upd_inode ip (fun y => load_dinode (dec_dinode (b_data b) (dinode_off (i_inum y))) y) ;;
         brelse bp ;;
         upd_inode ip (set_i_valid 1) ;;
         x <- get_inode ip ;;
         when (i_type x =? 0) (panic "ilock: no type"))
  end.

Definition iunlock (oip : option nat) : K unit :=
  match oip with
  | None => panic "iunlock"
  | Some ip =>
      h <- holdingsleep (SInode ip) ;;
      if negb (z2b h) then panic "iunlock" else
      x <- get_inode ip ;;
      if i_ref x <? 1 then panic "iunlock" else
      releasesleep (SInode ip)
  end.

(** Free the blocks an inode's [addrs] names. *)
Definition itrunc (ip : nat) : K unit :=
  for_all (seq 0 (Z.to_nat NDIRECT)) (fun i =>
    x <- get_inode ip ;;
    let a := i_addrs x !!! i in
    when (negb (a =? 0))
      (bfree (i_dev x) a ;;
       upd_inode ip (fun x => set_i_addrs (<[i := 0]> (i_addrs x)) x))) ;;
  x <- get_inode ip ;;
  let ind := i_addrs x !!! Z.to_nat NDIRECT in
  when (negb (ind =? 0))
    (bp <- bread (i_dev x) ind ;;
     for_all (seq 0 (Z.to_nat NINDIRECT)) (fun j =>
       b <- get_buf bp ;;
       let a := get_le 4 (b_data b) (4 * j) in
       when (negb (a =? 0)) (bfree (i_dev x) a)) ;;
     brelse bp ;;
     bfree (i_dev x) ind ;;
     upd_inode ip (fun x => set_i_addrs (<[Z.to_nat NDIRECT := 0]> (i_addrs x)) x)) ;;
  upd_inode ip (set_i_size 0) ;;
  iupdate ip.

Definition iput (ip : nat) : K unit :=
  acquire LItable ;;
  x <- get_inode ip ;;
  when ((i_ref x =? 1) && z2b (i_valid x) && (i_nlink x =? 0))
    (acquiresleep (SInode ip) ;;
     release LItable ;;
     itrunc ip ;;
     upd_inode ip (set_i_type 0) ;;
     iupdate ip ;;
     upd_inode ip (set_i_valid 0) ;;
     releasesleep (SInode ip) ;;
     acquire LItable) ;;
  upd_inode ip (fun x => set_i_ref (i_ref x - 1) x) ;;
  release LItable.

Definition iunlockput (ip : nat) : K unit := iunlock (Some ip) ;; iput ip.

(** The disk block of the [bn]th block of the file, allocated if missing. *)
Definition bmap (ip : nat) (bn : Z) : K Z :=
  x <- get_inode ip ;;
  if bn <? NDIRECT then
    let addr := i_addrs x !!! Z.to_nat bn in
    if negb (addr =? 0) then ret addr else
    addr <- balloc (i_dev x) ;;
    upd_inode ip (fun x => set_i_addrs (<[Z.to_nat bn := addr]> (i_addrs x)) x) ;;
    ret addr
  else
  let bn := bn - NDIRECT in
  if bn <? NINDIRECT then
    ind <- (let ind := i_addrs x !!! Z.to_nat NDIRECT in
            if negb (ind =? 0) then ret ind else
            ind <- balloc (i_dev x) ;;
            upd_inode ip (fun x => set_i_addrs (<[Z.to_nat NDIRECT := ind]> (i_addrs x)) x) ;;
            ret ind) ;;
    bp <- bread (i_dev x) ind ;;
    b <- get_buf bp ;;
    addr <- (let addr := get_le 4 (b_data b) (Z.to_nat (4 * bn)) in
             if negb (addr =? 0) then ret addr else
             addr <- balloc (i_dev x) ;;
             upd_data bp (fun d => put_le 4 d (Z.to_nat (4 * bn)) addr) ;;
             log_write bp ;;
             ret addr) ;;
    brelse bp ;;
    ret addr
  else panic "bmap: out of range".

(** [struct stat], over what the local variable held ([junk]) before. *)
Definition sizeof_stat : nat := 24.
Definition stati (ip : nat) (junk : list Z) : K (list Z) :=
  x <- get_inode ip ;;
  ret (put_le 8 (put_le 2 (put_le 2 (put_le 4 (put_le 4 junk
    0 (i_dev x)) 4 (i_inum x)) 8 (i_type x)) 10 (i_nlink x)) 16 (i_size x)).

(** ** Reading and writing *)

Definition readi (ip : nat) (dst : cdst) (off n : Z) : K (Z * list Z) :=
  x <- get_inode ip ;;
  if (off >? i_size x) || (u32 (off + n) <? off) then ret (0, []) else
  let n := if u32 (off + n) >? i_size x then u32 (i_size x - off) else n in
  loop (fun '(tot, off, dst, acc) =>
    if negb (tot <? n) then ret (inr (i32 tot, acc)) else
    addr <- bmap ip (off / BSIZE) ;;
    x <- get_inode ip ;;
    bp <- bread (i_dev x) addr ;;
    let m := Z.min (n - tot) (BSIZE - off mod BSIZE) in
    b <- get_buf bp ;;
    let bytes := slice (b_data b) (Z.to_nat (off mod BSIZE)) (Z.to_nat m) in
    r <- either_copyout dst bytes m ;;
    brelse bp ;;
    if r =? -1 then ret (inr (-1, acc)) else
    ret (inl (tot + m, u32 (off + m), dst_add dst m, acc ++ bytes))) (0, off, dst, []).

Definition writei (ip : nat) (src : csrc) (off n : Z) : K Z :=
  x <- get_inode ip ;;
  if (off >? i_size x) || (u32 (off + n) <? off) then ret (-1) else
  if u32 (off + n) >? MAXFILE * BSIZE then ret (-1) else
  let* (tot, off) := loop (fun '(tot, off, src) =>
    if negb (tot <? n) then ret (inr (tot, off)) else
    addr <- bmap ip (off / BSIZE) ;;
    x <- get_inode ip ;;
    bp <- bread (i_dev x) addr ;;
    let m := Z.min (n - tot) (BSIZE - off mod BSIZE) in
    let* (r, bytes) := either_copyin src m in
    upd_data bp (fun d => splice d (Z.to_nat (off mod BSIZE)) bytes) ;;
    if r =? -1 then brelse bp ;; ret (inr (tot, off)) else
    log_write bp ;;
    brelse bp ;;
    ret (inl (tot + m, u32 (off + m), src_add src m))) (0, off, src) in
  x <- get_inode ip ;;
  when (off >? i_size x) (upd_inode ip (set_i_size off)) ;;
  iupdate ip ;;
  ret (i32 tot).

(** ** Directories *)

Definition namecmp (s t : list Z) : Z := strncmp s t DIRSIZ.

Definition de_inum (de : list Z) : Z := get_le 2 de 0.
Definition de_name (de : list Z) : list Z := slice de 2 DIRSIZ.

(** The inode of the entry [name], and the entry's offset. *)
Definition dirlookup (dp : nat) (name : list Z) : K (option (nat * Z)) :=
  x <- get_inode dp ;;
  if negb (i_type x =? T_DIR) then panic "dirlookup not DIR" else
  loop (fun off =>
    x <- get_inode dp ;;
    if negb (off <? i_size x) then ret (inr None) else
    let* (r, de) := readi dp DLocal off sizeof_dirent in
    if negb (r =? sizeof_dirent) then panic "dirlookup read" else
    if de_inum de =? 0 then ret (inl (u32 (off + sizeof_dirent))) else
    if namecmp name (de_name de) =? 0 then
      x <- get_inode dp ;;
      ip <- iget (i_dev x) (de_inum de) ;;
      ret (inr (Some (ip, off)))
    else ret (inl (u32 (off + sizeof_dirent)))) 0.

(** The offset of the first empty entry, or the end of the directory, with
    the last entry read ([de0] is what the local variable held before). *)
Definition dirlink_slot (dp : nat) (de0 : list Z) : K (Z * list Z) :=
  loop (fun '(off, de) =>
    x <- get_inode dp ;;
    if negb (off <? i_size x) then ret (inr (off, de)) else
    let* (r, de) := readi dp DLocal off sizeof_dirent in
    if negb (r =? sizeof_dirent) then panic "dirlink read" else
    if de_inum de =? 0 then ret (inr (off, de)) else
    ret (inl (off + sizeof_dirent, de))) (0, de0).

Definition dirlink (dp : nat) (name : list Z) (inum : Z) : K Z :=
  r <- dirlookup dp name ;;
  match r with
  | Some (ip, _) => iput ip ;; ret (-1)
  | None =>
      let* (off, de) := dirlink_slot dp (replicate 16 0) in
      let de := splice de 2 (strncpy_bytes name DIRSIZ) in
      let de := put_le 2 de 0 inum in
      r <- writei dp (SLocal de) off sizeof_dirent ;;
      if negb (r =? sizeof_dirent) then panic "dirlink" else
      ret 0
  end.
End Fs.

(** ** Paths *)

Fixpoint skip_slashes (path : list Z) : list Z :=
  match path with
  | c :: path' => if c =? 47 then skip_slashes path' else path
  | [] => []
  end.

(** The element at the front of [path], and what follows it. *)
Fixpoint split_elem (path : list Z) : list Z * list Z :=
  match path with
  | c :: path' =>
      if (c =? 47) || (c =? 0) then ([], path)
      else let '(e, rest) := split_elem path' in (c :: e, rest)
  | [] => ([], [])
  end.

(** The rest of the path and the contents of [name], or none. *)
Definition skipelem (path name : list Z) : option (list Z * list Z) :=
  let path := skip_slashes path in
  if hd0 path =? 0 then None else
  let '(s, path) := split_elem path in
  let name := if (DIRSIZ <=? length s)%nat then splice name 0 (take DIRSIZ s)
              else splice name 0 (s ++ [0]) in
  Some (skip_slashes path, name).

Section Names.
Context {E : Env} {D : Disk}.

(** The inode, and the last contents of [name]. *)
Definition namex (path : list Z) (nameiparent : bool) (name : list Z) : K (option nat * list Z) :=
  ip <- (if hd0 path =? 47 then iget ROOTDEV ROOTINO
         else p <- curproc ;; q <- get_proc p ;; cwd <- deref (p_cwd q) ;; idup cwd) ;;
  loop (fun '(path, ip, name) =>
    match skipelem path name with
    | None =>
        if nameiparent then iput ip ;; ret (inr (None, name))
        else ret (inr (Some ip, name))
    | Some (path, name) =>
        ilock (Some ip) ;;
        x <- get_inode ip ;;
        if negb (i_type x =? T_DIR) then iunlockput ip ;; ret (inr (None, name)) else
        if nameiparent && (hd0 path =? 0) then iunlock (Some ip) ;; ret (inr (Some ip, name)) else
        next <- dirlookup ip name ;;
        match next with
        | None => iunlockput ip ;; ret (inr (None, name))
        | Some (next, _) => iunlockput ip ;; ret (inl (path, next, name))
        end
    end) (path, ip, name).

Definition namei (path : list Z) : K (option nat) :=
  let* (ip, _) := namex path false (replicate DIRSIZ 0) in ret ip.

Definition nameiparent (path name : list Z) : K (option nat * list Z) := namex path true name.
End Names.
