(* ===== verification/File.v ===== *)
(** * Open files and pipes: kernel/file.c and kernel/pipe.c

    A pipe lives in a page of its own; [k_pipes] holds the contents of those
    pages as [struct pipe], by page address, while the page is in use as a
    pipe.  The device table [devsw] is as [consoleinit] leaves it. *)

From S2P Require Import Prelude Bytes Params CString Spinlock State Kalloc Vm Sched Console Bio Log Fs.

Definition PIPESIZE : Z := 512.

(** ** Reference counts *)

Definition filealloc : K (option nat) :=
  acquire LFtable ;;
  r <- for_each (seq 0 NFILE) (fun f =>
    x <- get_file f ;;
    if f_ref x =? 0 then
      upd_file f (set_f_ref 1) ;;
      release LFtable ;;
      ret (Some f)
    else ret None) ;;
  match r with
  | Some f => ret (Some f)
  | None => release LFtable ;; ret None
  end.

Definition filedup (f : nat) : K nat :=
  acquire LFtable ;;
  x <- get_file f ;;
  if f_ref x <? 1 then panic "filedup" else
  upd_file f (set_f_ref (f_ref x + 1)) ;;
  release LFtable ;;
  ret f.

(** ** Pipes *)

Definition pipeclose `{Lk : Linker} (pi writable : Z) : K unit :=
  acquire (LPipe pi) ;;
  (if z2b writable
   then upd_pipe pi (set_pi_writeopen 0) ;; wakeup (Some (CPipeR pi))
   else upd_pipe pi (set_pi_readopen 0) ;; wakeup (Some (CPipeW pi))) ;;
  x <- get_pipe pi ;;
  if (pi_readopen x =? 0) && (pi_writeopen x =? 0) then
    release (LPipe pi) ;;
    modify (fun s => set_k_pipes (delete pi (k_pipes s)) s) ;;
    kfree pi
  else release (LPipe pi).

Definition pipewrite {E : Env} (pi addr n : Z) : K Z :=
  pr <- curproc ;;
  acquire (LPipe pi) ;;
  r <- loop (fun i =>
    if negb (i <? n) then ret (inr (Some i)) else
    x <- get_pipe pi ;;
    q <- get_proc pr ;;
    if (pi_readopen x =? 0) || z2b (p_killed q) then release (LPipe pi) ;; ret (inr None) else
    if pi_nwrite x =? u32 (pi_nread x + PIPESIZE) then
      wakeup (Some (CPipeR pi)) ;;
      sleep (CPipeW pi) (LPipe pi) ;;
      ret (inl i)
    else
      let* (r, ch) := copyin (p_pagetable q) (u64 (addr + i)) 1 in
      if r =? -1 then ret (inr (Some i)) else
      upd_pipe pi (fun x =>
        set_pi_data (<[Z.to_nat (pi_nwrite x mod PIPESIZE) := hd 0 ch]> (pi_data x)) x) ;;
      upd_pipe pi (fun x => set_pi_nwrite (u32 (pi_nwrite x + 1)) x) ;;
      ret (inl (i + 1))) 0 ;;
  match r with
  | None => ret (-1)
  | Some i =>
      wakeup (Some (CPipeR pi)) ;;
      release (LPipe pi) ;;
      ret i
  end.

(** Wait until there is data or no writer; [false] if killed. *)
Definition pipe_wait {E : Env} (pi : Z) (pr : nat) : K bool :=
  loop (fun _ : unit =>
    x <- get_pipe pi ;;
    if negb ((pi_nread x =? pi_nwrite x) && z2b (pi_writeopen x)) then ret (inr true) else
    q <- get_proc pr ;;
    if z2b (p_killed q) then release (LPipe pi) ;; ret (inr false) else
    sleep (CPipeR pi) (LPipe pi) ;;
    ret (inl tt)) tt.

Definition piperead {E : Env} (pi addr n : Z) : K Z :=
  pr <- curproc ;;
  acquire (LPipe pi) ;;
  ok <- pipe_wait pi pr ;;
  if negb ok then ret (-1) else
  i <- loop (fun i =>
    if negb (i <? n) then ret (inr i) else
    x <- get_pipe pi ;;
    if pi_nread x =? pi_nwrite x then ret (inr i) else
    let ch := pi_data x !!! Z.to_nat (pi_nread x mod PIPESIZE) in
    upd_pipe pi (fun x => set_pi_nread (u32 (pi_nread x + 1)) x) ;;
    q <- get_proc pr ;;
    r <- copyout (p_pagetable q) (u64 (addr + i)) [ch] 1 ;;
    if r =? -1 then ret (inr i) else ret (inl (i + 1))) 0 ;;
  wakeup (Some (CPipeW pi)) ;;
  release (LPipe pi) ;;
  ret i.

(** ** Closing, and the operations on an open file *)

Section File.
Context `{Lk : Linker} {E : Env} {D : Disk}.

Definition fileclose (f : nat) : K unit :=
  acquire LFtable ;;
  x <- get_file f ;;
  if f_ref x <? 1 then panic "fileclose" else
  upd_file f (set_f_ref (f_ref x - 1)) ;;
  if f_ref x - 1 >? 0 then release LFtable else
  ff <- get_file f ;;
  upd_file f (set_f_ref 0) ;;
  upd_file f (set_f_type FD_NONE) ;;
  release LFtable ;;
  match f_type ff with
  | FD_PIPE => pipeclose (f_pipe ff) (f_writable ff)
  | FD_INODE | FD_DEVICE =>
      begin_op ;;
      ip <- deref (f_ip ff) ;;
      iput ip ;;
      end_op
  | FD_NONE => ret tt
  end.

(** Both ends of a new pipe.  [kalloc] leaves the page filled with 5s. *)
Definition pipealloc : K (option (nat * nat)) :=
  let bad (pi : Z) (f0 f1 : option nat) : K (option (nat * nat)) :=
    when (negb (pi =? 0)) (kfree pi) ;;
    match f0 with Some f => fileclose f | None => ret tt end ;;
    match f1 with Some f => fileclose f | None => ret tt end ;;
    ret None in
  f0 <- filealloc ;;
  match f0 with
  | None => bad 0 None None
  | Some a =>
      f1 <- filealloc ;;
      match f1 with
      | None => bad 0 f0 None
      | Some b =>
          pi <- kalloc ;;
          if pi =? 0 then bad 0 f0 f1 else
          modify (fun s => set_k_pipes
            (<[pi := mk_pipe (replicate (Z.to_nat PIPESIZE) 5) 0 0 1 1]> (k_pipes s)) s) ;;
          upd_file a (fun x => set_f_type FD_PIPE (set_f_readable 1 (set_f_writable 0 (set_f_pipe pi x)))) ;;
          upd_file b (fun x => set_f_type FD_PIPE (set_f_readable 0 (set_f_writable 1 (set_f_pipe pi x)))) ;;
          ret (Some (a, b))
      end
  end.

Definition filestat (f : nat) (addr : Z) (junk : list Z) : K Z :=
  p <- curproc ;;
  x <- get_file f ;;
  match f_type x with
  | FD_INODE | FD_DEVICE =>
      ilock (f_ip x) ;;
      ip <- deref (f_ip x) ;;
      st <- stati ip junk ;;
      iunlock (f_ip x) ;;
      q <- get_proc p ;;
      r <- copyout (p_pagetable q) addr st (Z.of_nat sizeof_stat) ;;
      if r <? 0 then ret (-1) else ret 0
  | _ => ret (-1)
  end.

Definition fileread (f : nat) (addr n : Z) : K Z :=
  x <- get_file f ;;
  if f_readable x =? 0 then ret (-1) else
  match f_type x with
  | FD_PIPE => piperead (f_pipe x) addr n
  | FD_DEVICE =>
      if (f_major x <? 0) || (f_major x >=? NDEV) || negb (f_major x =? CONSOLE) then ret (-1) else
      consoleread (DUser addr) n
  | FD_INODE =>
      ilock (f_ip x) ;;
      ip <- deref (f_ip x) ;;
      let* (r, _) := readi ip (DUser addr) (f_off x) (u32 n) in
      when (r >? 0) (upd_file f (fun x => set_f_off (u32 (f_off x + r)) x)) ;;
      iunlock (f_ip x) ;;
      ret r
  | FD_NONE => panic "fileread"
  end.

(** A few blocks at a time, so that one transaction fits the log. *)
Definition filewrite_max : Z := (MAXOPBLOCKS - 1 - 1 - 2) / 2 * BSIZE.

Definition filewrite (f : nat) (addr n : Z) : K Z :=
  x <- get_file f ;;
  if f_writable x =? 0 then ret (-1) else
  match f_type x with
  | FD_PIPE => pipewrite (f_pipe x) addr n
  | FD_DEVICE =>
      if (f_major x <? 0) || (f_major x >=? NDEV) || negb (f_major x =? CONSOLE) then ret (-1) else
      consolewrite (SUser addr) n
  | FD_INODE =>
      i <- loop (fun i =>
        if negb (i <? n) then ret (inr i) else
        let n1 := if n - i >? filewrite_max then filewrite_max else n - i in
        begin_op ;;
        ilock (f_ip x) ;;
        ip <- deref (f_ip x) ;;
        y <- get_file f ;;
        r <- writei ip (SUser (u64 (addr + i))) (f_off y) n1 ;;
        when (r >? 0) (upd_file f (fun y => set_f_off (u32 (f_off y + r)) y)) ;;
        iunlock (f_ip x) ;;
        end_op ;;
        if negb (r =? n1) then ret (inr i) else
        ret (inl (i + r))) 0 ;;
      ret (if i =? n then n else -1)
  | FD_NONE => panic "filewrite"
  end.
End File.
