(* ===== verification/Proc.v ===== *)
(** * Processes: kernel/proc.c

    The life cycle of a process: allocation and release of its slot and its
    memory, [fork], [exit], [wait] and [wait2], and the growth of its memory.
    A process's trapframe is a page of physical memory; [tf_get] and [tf_set]
    are its fields by offset. *)

From S2P Require Import Prelude Bytes Params CString Spinlock State Kalloc Vm Sched Console Bio Log Fs File.

(** ** The trapframe page ([kernel/proc.h]) *)

Definition TF_kernel_satp : Z := 0.
Definition TF_kernel_sp : Z := 8.
Definition TF_kernel_trap : Z := 16.
Definition TF_epc : Z := 24.
Definition TF_kernel_hartid : Z := 32.
Definition TF_sp : Z := 48.
(** [a0] to [a7] are consecutive. *)
Definition TF_a (n : Z) : Z := 112 + 8 * n.
Definition sizeof_trapframe : Z := 288.

Definition tf_get (p : nat) (off : Z) : K Z :=
  q <- get_proc p ;;
  tf <- nonnull (p_trapframe q) ;;
  gets (fun s => load64 (k_mem s) (tf + off)).
Definition tf_set (p : nat) (off v : Z) : K unit :=
  q <- get_proc p ;;
  tf <- nonnull (p_trapframe q) ;;
  upd_mem (fun m => store64 m (tf + off) v).

Definition procinit : K unit :=
  for_all (seq 0 NPROC) (fun p => upd_proc p (set_p_kstack (KSTACK (Z.of_nat p)))).

(** [uchar initcode[]]: a user program that calls exec("/init"). *)
Definition initcode : list Z :=
  [23; 5; 0; 0; 19; 5; 69; 2;
   151; 5; 0; 0; 147; 133; 53; 2;
   147; 8; 112; 0; 115; 0; 0; 0;
   147; 8; 32; 0; 115; 0; 0; 0;
   239; 240; 159; 255; 47; 105; 110; 105;
   116; 0; 0; 36; 0; 0; 0; 0;
   0; 0; 0; 0].

Section Proc.
Context `{Lk : Linker}.

(** ** Address spaces of processes *)

Definition proc_pagetable (p : nat) : K Z :=
  pagetable <- uvmcreate ;;
  if pagetable =? 0 then ret 0 else
  r <- mappages pagetable TRAMPOLINE PGSIZE trampoline (Z.lor PTE_R PTE_X) ;;
  if r <? 0 then uvmfree pagetable 0 ;; ret 0 else
  q <- get_proc p ;;
  r <- mappages pagetable TRAPFRAME PGSIZE (p_trapframe q) (Z.lor PTE_R PTE_W) ;;
  if r <? 0 then
    uvmunmap pagetable TRAMPOLINE 1 false ;;
    uvmfree pagetable 0 ;;
    ret 0
  else ret pagetable.

Definition proc_freepagetable (pagetable sz : Z) : K unit :=
  uvmunmap pagetable TRAMPOLINE 1 false ;;
  uvmunmap pagetable TRAPFRAME 1 false ;;
  uvmfree pagetable sz.

(** ** Slots of the process table *)

Definition freeproc (p : nat) : K unit :=
  q <- get_proc p ;;
  when (z2b (p_trapframe q)) (kfree (p_trapframe q)) ;;
  upd_proc p (set_p_trapframe 0) ;;
  q <- get_proc p ;;
  when (z2b (p_pagetable q)) (proc_freepagetable (p_pagetable q) (p_sz q)) ;;
  upd_proc p (set_p_pagetable 0) ;;
  upd_proc p (set_p_sz 0) ;;
  upd_proc p (set_p_pid 0) ;;
  upd_proc p (set_p_parent None) ;;
  upd_proc p (fun q => set_p_name (<[O := 0]> (p_name q)) q) ;;
  upd_proc p (set_p_chan None) ;;
  upd_proc p (set_p_killed 0) ;;
  upd_proc p (set_p_xstate 0) ;;
  upd_proc p (set_p_state UNUSED).

(** The scan of [allocproc]: an unused slot, returned with its lock held. *)
Definition allocproc_scan : K (option nat) :=
  for_each (seq 0 NPROC) (fun p =>
    acquire (LProc p) ;;
    q <- get_proc p ;;
    if bool_decide (p_state q = UNUSED) then ret (Some p) else
    release (LProc p) ;;
    upd_proc p (set_p_cputime 0) ;;
    ret None).

Definition allocproc : K (option nat) :=
  r <- allocproc_scan ;;
  match r with
  | None => ret None
  | Some p =>
      pid <- allocpid ;;
      upd_proc p (set_p_pid pid) ;;
      upd_proc p (set_p_state USED) ;;
      tf <- kalloc ;;
      upd_proc p (set_p_trapframe tf) ;;
      if tf =? 0 then freeproc p ;; release (LProc p) ;; ret None else
      pt <- proc_pagetable p ;;
      upd_proc p (set_p_pagetable pt) ;;
      if pt =? 0 then freeproc p ;; release (LProc p) ;; ret None else
      upd_proc p (set_p_context context0) ;;
      upd_proc p (fun q => set_p_context (set_ctx_ra forkret_addr (p_context q)) q) ;;
      upd_proc p (fun q =>
        set_p_context (set_ctx_sp (u64 (p_kstack q + PGSIZE)) (p_context q)) q) ;;
      ret (Some p)
  end.

(** ** Memory *)

(** [sz] is a [uint]: the sums wrap at 32 bits. *)
Definition growproc (n : Z) : K Z :=
  p <- curproc ;;
  q <- get_proc p ;;
  let sz := u32 (p_sz q) in
  if n >? 0 then
    r <- uvmalloc (p_pagetable q) sz (u32 (sz + n)) ;;
    if u32 r =? 0 then ret (-1) else
    upd_proc p (set_p_sz (u32 r)) ;; ret 0
  else if n <? 0 then
    r <- uvmdealloc (p_pagetable q) sz (u32 (sz + n)) ;;
    upd_proc p (set_p_sz (u32 r)) ;; ret 0
  else upd_proc p (set_p_sz sz) ;; ret 0.

(** Pass [p]'s abandoned children to init. *)
Definition reparent (p : nat) : K unit :=
  for_all (seq 0 NPROC) (fun pp =>
    q <- get_proc pp ;;
    when (bool_decide (p_parent q = Some p))
      (ip <- gets k_initproc ;;
       upd_proc pp (set_p_parent ip) ;;
       wakeup (CProc <$> ip))).

Section Life.
Context {E : Env} {D : Disk}.

Definition userinit : K unit :=
  r <- allocproc ;;
  modify (set_k_initproc r) ;;
  p <- deref r ;;
  q <- get_proc p ;;
  uvminit (p_pagetable q) initcode (Z.of_nat (length initcode)) ;;
  upd_proc p (set_p_sz PGSIZE) ;;
  tf_set p TF_epc 0 ;;
  tf_set p TF_sp PGSIZE ;;
  upd_proc p (fun q => set_p_name (safestrcpy (p_name q) (str "initcode") 16) q) ;;
  cwd <- namei (str "/") ;;
  upd_proc p (set_p_cwd cwd) ;;
  upd_proc p (set_p_state RUNNABLE) ;;
  release (LProc p).

(** The second half of [fork]: the child has a copy of the parent's memory. *)
Definition fork_child (p np : nat) (q nq : proc) : K Z :=
  upd_proc np (set_p_sz (p_sz q)) ;;
  src <- nonnull (p_trapframe q) ;;
  dst <- nonnull (p_trapframe nq) ;;
  upd_mem (fun m => memmove m dst src sizeof_trapframe) ;;
  tf_set np (TF_a 0) 0 ;;
  for_all (seq 0 NOFILE) (fun i =>
    q <- get_proc p ;;
    match p_ofile q !!! i with
    | Some f =>
        f' <- filedup f ;;
        upd_proc np (fun q => set_p_ofile (<[i := Some f']> (p_ofile q)) q)
    | None => ret tt
    end) ;;
  cwd <- deref (p_cwd q) ;;
  ip <- idup cwd ;;
  upd_proc np (set_p_cwd (Some ip)) ;;
  upd_proc np (fun nq => set_p_name (safestrcpy (p_name nq) (p_name q) 16) nq) ;;
  nq <- get_proc np ;;
  let pid := p_pid nq in
  release (LProc np) ;;
  acquire LWait ;;
  upd_proc np (set_p_parent (Some p)) ;;
  release LWait ;;
  acquire (LProc np) ;;
  upd_proc np (set_p_state RUNNABLE) ;;
  release (LProc np) ;;
  ret pid.

Definition fork : K Z :=
  p <- curproc ;;
  r <- allocproc ;;
  match r with
  | None => ret (-1)
  | Some np =>
      q <- get_proc p ;;
      nq <- get_proc np ;;
      r <- uvmcopy (p_pagetable q) (p_pagetable nq) (p_sz q) ;;
      if r <? 0 then
        freeproc np ;;
        release (LProc np) ;;
        ret (-1)
      else fork_child p np q nq
  end.

Definition exit (status : Z) : K unit :=
  p <- curproc ;;
  ip <- gets k_initproc ;;
  if bool_decide (ip = Some p) then panic "init exiting" else
  for_all (seq 0 NOFILE) (fun fd =>
    q <- get_proc p ;;
    match p_ofile q !!! fd with
    | Some f =>
        fileclose f ;;
        upd_proc p (fun q => set_p_ofile (<[fd := None]> (p_ofile q)) q)
    | None => ret tt
    end) ;;
  begin_op ;;
  q <- get_proc p ;;
  cwd <- deref (p_cwd q) ;;
  iput cwd ;;
  end_op ;;
  upd_proc p (set_p_cwd None) ;;
  acquire LWait ;;
  reparent p ;;
  q <- get_proc p ;;
  wakeup (CProc <$> p_parent q) ;;
  acquire (LProc p) ;;
  upd_proc p (set_p_xstate status) ;;
  upd_proc p (set_p_state ZOMBIE) ;;
  release LWait ;;
  sched ;;
  panic "zombie exit".

(** The scan for exited children of [p]: [reap np] is what the caller does
    with an exited child [np], the result of the scan otherwise whether there
    is any child. *)
Fixpoint wait_scan (p : nat) (reap : nat -> K Z) (nps : list nat) (havekids : bool) : K (Z + bool) :=
  match nps with
  | [] => ret (inr havekids)
  | np :: nps' =>
      q <- get_proc np ;;
      if bool_decide (p_parent q = Some p) then
        acquire (LProc np) ;;
        q <- get_proc np ;;
        if bool_decide (p_state q = ZOMBIE) then
          r <- reap np ;;
          release (LProc np) ;;
          release LWait ;;
          ret (inl r)
        else
          release (LProc np) ;;
          wait_scan p reap nps' true
      else wait_scan p reap nps' havekids
  end.

(** The loop shared by [wait] and [wait2]. *)
Definition wait_loop (p : nat) (reap : nat -> K Z) : K Z :=
  acquire LWait ;;
  loop (fun _ : unit =>
    r <- wait_scan p reap (seq 0 NPROC) false ;;
    match r with
    | inl z => ret (inr z)
    | inr havekids =>
        q <- get_proc p ;;
        if negb havekids || z2b (p_killed q) then release LWait ;; ret (inr (-1)) else
        sleep (CProc p) LWait ;;
        ret (inl tt)
    end) tt.

(** [if(addr != 0 && copyout(p->pagetable, addr, ...) < 0)]: did it fail? *)
Definition copy_result (p : nat) (addr : Z) (bs : list Z) : K bool :=
  if addr =? 0 then ret false else
  q <- get_proc p ;;
  r <- copyout (p_pagetable q) addr bs (Z.of_nat (length bs)) ;;
  ret (r <? 0).

Definition wait (addr : Z) : K Z :=
  p <- curproc ;;
  wait_loop p (fun np =>
    q <- get_proc np ;;
    let pid := p_pid q in
    bad <- copy_result p addr (le_bytes 4 (p_xstate q)) ;;
    if bad : bool then ret (-1) else
    freeproc np ;;
    ret pid).

Definition wait2 (addr addr2 : Z) : K Z :=
  p <- curproc ;;
  wait_loop p (fun np =>
    q <- get_proc np ;;
    let pid := p_pid q in
    let cru := le_bytes 4 (p_cputime q) in
    bad <- copy_result p addr (le_bytes 4 (p_xstate q)) ;;
    if bad : bool then ret (-1) else
    bad <- copy_result p addr2 cru ;;
    if bad : bool then ret (-1) else
    freeproc np ;;
    ret pid).
End Life.
End Proc.
