(* ===== verification/Exec.v ===== *)
(** * Program loading: kernel/exec.c

    The structures of an ELF file are decoded from the bytes [readi] leaves
    in the local variables.  [argv] is the array of [MAXARG] pointers to
    kernel pages that [sys_exec] fills. *)

From S2P Require Import Prelude Bytes Params CString Spinlock State Kalloc Vm Sched Console Bio Log Fs File Proc.

Definition ELF_MAGIC : Z := 1179403647.   (* 0x464C457F *)
Definition ELF_PROG_LOAD : Z := 1.

(** [struct elfhdr] and [struct proghdr] ([kernel/elf.h]). *)
Definition sizeof_elfhdr : Z := 64.
Definition elf_magic (h : list Z) : Z := get_le 4 h 0.
Definition elf_entry (h : list Z) : Z := get_le 8 h 24.
Definition elf_phoff (h : list Z) : Z := get_le 8 h 32.
Definition elf_phnum (h : list Z) : Z := get_le 2 h 56.

Definition sizeof_proghdr : Z := 56.
Definition ph_type (h : list Z) : Z := get_le 4 h 0.
Definition ph_off (h : list Z) : Z := get_le 8 h 8.
Definition ph_vaddr (h : list Z) : Z := get_le 8 h 16.
Definition ph_filesz (h : list Z) : Z := get_le 8 h 32.
Definition ph_memsz (h : list Z) : Z := get_le 8 h 40.

(** What follows the last slash of [s], or [last] if there is none. *)
Fixpoint path_last (s last : list Z) : list Z :=
  match s with
  | [] => last
  | c :: s' => if c =? 0 then last else path_last s' (if c =? 47 then s' else last)
  end.

(** The string of a kernel page, with its NUL: an unterminated one runs out
    of the page. *)
Definition page_string (a : Z) : K (list Z) :=
  m <- get_mem ;;
  let bs := load (Z.to_nat PGSIZE) m a in
  if strlen bs <? PGSIZE then ret (take (Z.to_nat (strlen bs + 1)) bs) else undefined.

Section Exec.
Context `{Lk : Linker} {E : Env} {D : Disk}.

Definition loadseg (pagetable va : Z) (ip : nat) (offset sz : Z) : K Z :=
  loop (fun i =>
    if negb (i <? sz) then ret (inr 0) else
    pa <- walkaddr pagetable (u64 (va + i)) ;;
    if pa =? 0 then panic "loadseg: address should exist" else
    let n := if sz - i <? PGSIZE then sz - i else PGSIZE in
    let* (r, _) := readi ip (DPhys pa) (u32 (offset + i)) n in
    if negb (r =? n) then ret (inr (-1)) else
    ret (inl (u32 (i + PGSIZE)))) 0.

(** The loop over the program headers, from [sz] of memory: the new size, and
    whether every segment was loaded. *)
Definition exec_segments (pagetable : Z) (ip : nat) (elf : list Z) : K (bool * Z) :=
  loop (fun '(i, off, sz) =>
    if negb (i <? elf_phnum elf) then ret (inr (true, sz)) else
    let* (r, ph) := readi ip DLocal (u32 off) sizeof_proghdr in
    if negb (r =? sizeof_proghdr) then ret (inr (false, sz)) else
    if negb (ph_type ph =? ELF_PROG_LOAD)
    then ret (inl (i + 1, i32 (off + sizeof_proghdr), sz)) else
    if ph_memsz ph <? ph_filesz ph then ret (inr (false, sz)) else
    if u64 (ph_vaddr ph + ph_memsz ph) <? ph_vaddr ph then ret (inr (false, sz)) else
    sz1 <- uvmalloc pagetable sz (u64 (ph_vaddr ph + ph_memsz ph)) ;;
    if sz1 =? 0 then ret (inr (false, sz)) else
    let sz := sz1 in
    if negb (ph_vaddr ph mod PGSIZE =? 0) then ret (inr (false, sz)) else
    r <- loadseg pagetable (ph_vaddr ph) ip (u32 (ph_off ph)) (u32 (ph_filesz ph)) ;;
    if r <? 0 then ret (inr (false, sz)) else
    ret (inl (i + 1, i32 (off + sizeof_proghdr), sz)))
    (0, i32 (elf_phoff elf), 0).

(** Push the argument strings: the stack pointer, and the pointers of
    [ustack], unless the stack page is too small. *)
Definition exec_args (pagetable : Z) (argv : list Z) (sz stackbase : Z) : K (option (Z * list Z)) :=
  loop (fun '(argc, sp, ustack) =>
    if (length argv <=? argc)%nat then undefined else
    let a := argv !!! argc in
    if a =? 0 then ret (inr (Some (sp, ustack))) else
    if (MAXARG <=? argc)%nat then ret (inr None) else
    s <- page_string a ;;
    let sp := u64 (sp - (strlen s + 1)) in
    let sp := sp - sp mod 16 in
    if sp <? stackbase then ret (inr None) else
    r <- copyout pagetable sp s (strlen s + 1) ;;
    if r <? 0 then ret (inr None) else
    ret (inl (S argc, sp, ustack ++ [sp]))) (0%nat, sz, []).

Definition exec_bad (pagetable sz : Z) (ip : option nat) : K Z :=
  when (z2b pagetable) (proc_freepagetable pagetable sz) ;;
  match ip with
  | Some ip => iunlockput ip ;; end_op
  | None => ret tt
  end ;;
  ret (-1).

(** The second half of [exec]: the stack, its contents, and the switch to the
    new image. *)
Definition exec_stack (pagetable sz : Z) (elf path argv : list Z) : K Z :=
  p <- curproc ;;
  q <- get_proc p ;;
  let oldsz := p_sz q in
  let sz := PGROUNDUP sz in
  sz1 <- uvmalloc pagetable sz (u64 (sz + 2 * PGSIZE)) ;;
  if sz1 =? 0 then exec_bad pagetable sz None else
  let sz := sz1 in
  uvmclear pagetable (u64 (sz - 2 * PGSIZE)) ;;
  let stackbase := u64 (sz - PGSIZE) in
  r <- exec_args pagetable argv sz stackbase ;;
  match r with
  | None => exec_bad pagetable sz None
  | Some (sp, ustack) =>
      let argc := Z.of_nat (length ustack) in
      let sp := u64 (sp - (argc + 1) * 8) in
      let sp := sp - sp mod 16 in
      if sp <? stackbase then exec_bad pagetable sz None else
      r <- copyout pagetable sp (concat (le_bytes 8 <$> (ustack ++ [0]))) ((argc + 1) * 8) ;;
      if r <? 0 then exec_bad pagetable sz None else
      tf_set p (TF_a 1) sp ;;
      upd_proc p (fun q => set_p_name (safestrcpy (p_name q) (path_last path path) 16) q) ;;
      q <- get_proc p ;;
      let oldpagetable := p_pagetable q in
      upd_proc p (set_p_pagetable pagetable) ;;
      upd_proc p (set_p_sz sz) ;;
      tf_set p TF_epc (elf_entry elf) ;;
      tf_set p TF_sp sp ;;
      proc_freepagetable oldpagetable oldsz ;;
      ret argc
  end.

Definition exec (path argv : list Z) : K Z :=
  p <- curproc ;;
  begin_op ;;
  r <- namei path ;;
  match r with
  | None => end_op ;; ret (-1)
  | Some ip =>
      ilock (Some ip) ;;
      let* (r, elf) := readi ip DLocal 0 sizeof_elfhdr in
      if negb (r =? sizeof_elfhdr) then exec_bad 0 0 (Some ip) else
      if negb (elf_magic elf =? ELF_MAGIC) then exec_bad 0 0 (Some ip) else
      pagetable <- proc_pagetable p ;;
      if pagetable =? 0 then exec_bad 0 0 (Some ip) else
      let* (ok, sz) := exec_segments pagetable ip elf in
      if negb ok then exec_bad pagetable sz (Some ip) else
      iunlockput ip ;;
      end_op ;;
      exec_stack pagetable sz elf path argv
  end.
End Exec.
