(* ===== verification/Sysfile.v ===== *)
(** * System call arguments and the file system's system calls

    The argument part of [kernel/syscall.c], and [kernel/sysfile.c]: argument
    checking on top of the operations of [file.c] and [fs.c].  A system call
    returns the value that [syscall] puts, as 64 bits, in the caller's a0;
    C strings in local arrays are the bytes copied in, with their NUL. *)

From S2P Require Import Prelude Bytes Params CString Spinlock State Kalloc Vm Sched Console Bio Log Fs File Proc Exec.

(** ** Fetching arguments *)

(** The result, and the word stored through [ip] on success. *)
Definition fetchaddr (addr : Z) : K (Z * Z) :=
  p <- curproc ;;
  q <- get_proc p ;;
  if (addr >=? p_sz q) || (u64 (addr + 8) >? p_sz q) then ret (-1, 0) else
  let* (r, bs) := copyin (p_pagetable q) addr 8 in
  if negb (r =? 0) then ret (-1, 0) else ret (0, le_val bs).

(** The result, and the bytes stored at [buf]. *)
Definition fetchstr (addr max : Z) : K (Z * list Z) :=
  p <- curproc ;;
  q <- get_proc p ;;
  let* (err, buf) := copyinstr (p_pagetable q) addr max in
  if err <? 0 then ret (err, buf) else ret (strlen buf, buf).

Definition argraw (n : Z) : K Z :=
  p <- curproc ;;
  if (0 <=? n) && (n <=? 5) then tf_get p (TF_a n) else panic "argraw".

Definition argint (n : Z) : K Z := x <- argraw n ;; ret (i32 x).
Definition argaddr (n : Z) : K Z := argraw n.
Definition argstr (n max : Z) : K (Z * list Z) :=
  addr <- argaddr n ;;
  fetchstr addr max.

Definition argfd (n : Z) : K (option (nat * nat)) :=
  fd <- argint n ;;
  if (fd <? 0) || (fd >=? Z.of_nat NOFILE) then ret None else
  p <- curproc ;;
  q <- get_proc p ;;
  match p_ofile q !!! Z.to_nat fd with
  | None => ret None
  | Some f => ret (Some (Z.to_nat fd, f))
  end.

Definition set_ofile (p fd : nat) (f : option nat) : K unit :=
  upd_proc p (fun q => set_p_ofile (<[fd := f]> (p_ofile q)) q).

Definition fdalloc (f : nat) : K (option nat) :=
  p <- curproc ;;
  for_each (seq 0 NOFILE) (fun fd =>
    q <- get_proc p ;;
    match p_ofile q !!! fd with
    | None => set_ofile p fd (Some f) ;; ret (Some fd)
    | Some _ => ret None
    end).

(** ** System calls on open files *)

Definition sys_dup : K Z :=
  r <- argfd 0 ;;
  match r with
  | None => ret (-1)
  | Some (_, f) =>
      r <- fdalloc f ;;
      match r with
      | None => ret (-1)
      | Some fd => filedup f ;; ret (Z.of_nat fd)
      end
  end.

Section Sysfile.
Context `{Lk : Linker} {E : Env} {D : Disk}.

Definition sys_read : K Z :=
  r <- argfd 0 ;;
  match r with
  | None => ret (-1)
  | Some (_, f) => n <- argint 2 ;; p <- argaddr 1 ;; fileread f p n
  end.

Definition sys_write : K Z :=
  r <- argfd 0 ;;
  match r with
  | None => ret (-1)
  | Some (_, f) => n <- argint 2 ;; p <- argaddr 1 ;; filewrite f p n
  end.

Definition sys_close : K Z :=
  r <- argfd 0 ;;
  match r with
  | None => ret (-1)
  | Some (fd, f) =>
      p <- curproc ;;
      set_ofile p fd None ;;
      fileclose f ;;
      ret 0
  end.

(** [junk] is what the stack holds where the [struct stat] of [filestat] is. *)
Definition sys_fstat (junk : list Z) : K Z :=
  r <- argfd 0 ;;
  match r with
  | None => ret (-1)
  | Some (_, f) => st <- argaddr 1 ;; filestat f st junk
  end.

(** ** Directories *)

Definition name0 : list Z := replicate DIRSIZ 0.

(** The [bad] exit of [sys_link]: undo the link count. *)
Definition link_bad (ip : nat) : K Z :=
  ilock (Some ip) ;;
  upd_inode ip (fun x => set_i_nlink (i16 (i_nlink x - 1)) x) ;;
  iupdate ip ;;
  iunlockput ip ;;
  end_op ;;
  ret (-1).

Definition sys_link : K Z :=
  let* (r, old) := argstr 0 MAXPATH in
  if r <? 0 then ret (-1) else
  let* (r, new) := argstr 1 MAXPATH in
  if r <? 0 then ret (-1) else
  begin_op ;;
  oip <- namei old ;;
  match oip with
  | None => end_op ;; ret (-1)
  | Some ip =>
      ilock (Some ip) ;;
      x <- get_inode ip ;;
      if i_type x =? T_DIR then iunlockput ip ;; end_op ;; ret (-1) else
      upd_inode ip (fun x => set_i_nlink (i16 (i_nlink x + 1)) x) ;;
      iupdate ip ;;
      iunlock (Some ip) ;;
      let* (odp, name) := nameiparent new name0 in
      match odp with
      | None => link_bad ip
      | Some dp =>
          ilock (Some dp) ;;
          d <- get_inode dp ;;
          x <- get_inode ip ;;
          bad <- (if negb (i_dev d =? i_dev x) then ret true
                  else r <- dirlink dp name (i_inum x) ;; ret (r <? 0)) ;;
          if bad : bool then iunlockput dp ;; link_bad ip else
          iunlockput dp ;;
          iput ip ;;
          end_op ;;
          ret 0
      end
  end.

Definition isdirempty (dp : nat) : K bool :=
  loop (fun off =>
    x <- get_inode dp ;;
    if negb (off <? i_size x) then ret (inr true) else
    let* (r, de) := readi dp DLocal off sizeof_dirent in
    if negb (r =? sizeof_dirent) then panic "isdirempty: readi" else
    if negb (de_inum de =? 0) then ret (inr false) else
    ret (inl (off + sizeof_dirent))) (2 * sizeof_dirent).

Definition unlink_bad (dp : nat) : K Z := iunlockput dp ;; end_op ;; ret (-1).

Definition sys_unlink : K Z :=
  let* (r, path) := argstr 0 MAXPATH in
  if r <? 0 then ret (-1) else
  begin_op ;;
  let* (odp, name) := nameiparent path name0 in
  match odp with
  | None => end_op ;; ret (-1)
  | Some dp =>
      ilock (Some dp) ;;
      if (namecmp name (str ".") =? 0) || (namecmp name (str "..") =? 0) then unlink_bad dp else
      r <- dirlookup dp name ;;
      match r with
      | None => unlink_bad dp
      | Some (ip, off) =>
          ilock (Some ip) ;;
          x <- get_inode ip ;;
          if i_nlink x <? 1 then panic "unlink: nlink < 1" else
          full <- (if i_type x =? T_DIR then e <- isdirempty ip ;; ret (negb e) else ret false) ;;
          if full : bool then iunlockput ip ;; unlink_bad dp else
          r <- writei dp (SLocal (replicate (Z.to_nat sizeof_dirent) 0)) off sizeof_dirent ;;
          if negb (r =? sizeof_dirent) then panic "unlink: writei" else
          when (i_type x =? T_DIR)
            (upd_inode dp (fun d => set_i_nlink (i16 (i_nlink d - 1)) d) ;; iupdate dp) ;;
          iunlockput dp ;;
          upd_inode ip (fun x => set_i_nlink (i16 (i_nlink x - 1)) x) ;;
          iupdate ip ;;
          iunlockput ip ;;
          end_op ;;
          ret 0
      end
  end.

(** The new inode is returned locked. *)
Definition create (path : list Z) (type major minor : Z) : K (option nat) :=
  let* (odp, name) := nameiparent path name0 in
  match odp with
  | None => ret None
  | Some dp =>
      ilock (Some dp) ;;
      r <- dirlookup dp name ;;
      match r with
      | Some (ip, _) =>
          iunlockput dp ;;
          ilock (Some ip) ;;
          x <- get_inode ip ;;
          if (type =? T_FILE) && ((i_type x =? T_FILE) || (i_type x =? T_DEVICE))
          then ret (Some ip)
          else iunlockput ip ;; ret None
      | None =>
          d <- get_inode dp ;;
          ip <- ialloc (i_dev d) type ;;
          ilock (Some ip) ;;
          upd_inode ip (set_i_major major) ;;
          upd_inode ip (set_i_minor minor) ;;
          upd_inode ip (set_i_nlink 1) ;;
          iupdate ip ;;
          x <- get_inode ip ;;
          when (type =? T_DIR)
            (upd_inode dp (fun d => set_i_nlink (i16 (i_nlink d + 1)) d) ;;
             iupdate dp ;;
             r <- dirlink ip (str ".") (i_inum x) ;;
             if r <? 0 then panic "create dots" else
             r <- dirlink ip (str "..") (i_inum d) ;;
             if r <? 0 then panic "create dots" else ret tt) ;;
          r <- dirlink dp name (i_inum x) ;;
          if r <? 0 then panic "create: dirlink" else
          iunlockput dp ;;
          ret (Some ip)
      end
  end.

(** [omode & flag] *)
Definition flag (omode f : Z) : bool := negb (Z.land omode f =? 0).

(** The inode a call of open is about, locked. *)
Definition open_inode (path : list Z) (omode : Z) : K (option nat) :=
  if flag omode O_CREATE then create path T_FILE 0 0 else
  oip <- namei path ;;
  match oip with
  | None => ret None
  | Some ip =>
      ilock (Some ip) ;;
      x <- get_inode ip ;;
      if (i_type x =? T_DIR) && negb (omode =? O_RDONLY)
      then iunlockput ip ;; ret None
      else ret (Some ip)
  end.

Definition sys_open : K Z :=
  let* (n, path) := argstr 0 MAXPATH in
  if n <? 0 then ret (-1) else
  omode <- argint 1 ;;
  begin_op ;;
  oip <- open_inode path omode ;;
  match oip with
  | None => end_op ;; ret (-1)
  | Some ip =>
      x <- get_inode ip ;;
      if (i_type x =? T_DEVICE) && ((i_major x <? 0) || (i_major x >=? NDEV))
      then iunlockput ip ;; end_op ;; ret (-1) else
      fo <- filealloc ;;
      ofd <- match fo with Some f => fdalloc f | None => ret None end ;;
      match fo, ofd with
      | Some f, Some fd =>
          (if i_type x =? T_DEVICE
           then upd_file f (fun y => set_f_major (i_major x) (set_f_type FD_DEVICE y))
           else upd_file f (fun y => set_f_off 0 (set_f_type FD_INODE y))) ;;
          upd_file f (set_f_ip (Some ip)) ;;
          upd_file f (set_f_readable (b2z (negb (flag omode O_WRONLY)))) ;;
          upd_file f (set_f_writable (b2z (flag omode O_WRONLY || flag omode O_RDWR))) ;;
          when (flag omode O_TRUNC && (i_type x =? T_FILE)) (itrunc ip) ;;
          iunlock (Some ip) ;;
          end_op ;;
          ret (Z.of_nat fd)
      | _, _ =>
          match fo with Some f => fileclose f | None => ret tt end ;;
          iunlockput ip ;;
          end_op ;;
          ret (-1)
      end
  end.

Definition sys_mkdir : K Z :=
  begin_op ;;
  let* (r, path) := argstr 0 MAXPATH in
  oip <- (if r <? 0 then ret None else create path T_DIR 0 0) ;;
  match oip with
  | None => end_op ;; ret (-1)
  | Some ip => iunlockput ip ;; end_op ;; ret 0
  end.

Definition sys_mknod : K Z :=
  begin_op ;;
  let* (r, path) := argstr 0 MAXPATH in
  oip <- (if r <? 0 then ret None else
          major <- argint 1 ;;
          minor <- argint 2 ;;
          create path T_DEVICE (i16 major) (i16 minor)) ;;
  match oip with
  | None => end_op ;; ret (-1)
  | Some ip => iunlockput ip ;; end_op ;; ret 0
  end.

Definition sys_chdir : K Z :=
  p <- curproc ;;
  begin_op ;;
  let* (r, path) := argstr 0 MAXPATH in
  oip <- (if r <? 0 then ret None else namei path) ;;
  match oip with
  | None => end_op ;; ret (-1)
  | Some ip =>
      ilock (Some ip) ;;
      x <- get_inode ip ;;
      if negb (i_type x =? T_DIR) then iunlockput ip ;; end_op ;; ret (-1) else
      iunlock (Some ip) ;;
      q <- get_proc p ;;
      cwd <- deref (p_cwd q) ;;
      iput cwd ;;
      end_op ;;
      upd_proc p (set_p_cwd (Some ip)) ;;
      ret 0
  end.

(** ** exec and pipe *)

(** The loop of [sys_exec] that copies the argument strings to pages of their
    own: the pages, and whether all went well. *)
Definition sys_exec_args (uargv : Z) : K (bool * list Z) :=
  loop (fun argv =>
    let i := length argv in
    if (MAXARG <=? i)%nat then ret (inr (false, argv)) else
    let* (r, uarg) := fetchaddr (u64 (uargv + 8 * Z.of_nat i)) in
    if r <? 0 then ret (inr (false, argv)) else
    if uarg =? 0 then ret (inr (true, argv)) else
    a <- kalloc ;;
    if a =? 0 then ret (inr (false, argv)) else
    let* (r, buf) := fetchstr uarg PGSIZE in
    upd_mem (fun m => store m a buf) ;;
    if r <? 0 then ret (inr (false, argv ++ [a])) else
    ret (inl (argv ++ [a]))) [].

Definition sys_exec : K Z :=
  let* (r, path) := argstr 0 MAXPATH in
  if r <? 0 then ret (-1) else
  uargv <- argaddr 1 ;;
  let* (ok, argv) := sys_exec_args uargv in
  r <- (if ok : bool then exec path (argv ++ replicate (MAXARG - length argv) 0) else ret (-1)) ;;
  for_all argv kfree ;;
  ret r.

Definition sys_pipe : K Z :=
  p <- curproc ;;
  fdarray <- argaddr 0 ;;
  r <- pipealloc ;;
  match r with
  | None => ret (-1)
  | Some (rf, wf) =>
      let bad (fds : list nat) : K Z :=
        for_all fds (fun fd => set_ofile p fd None) ;;
        fileclose rf ;;
        fileclose wf ;;
        ret (-1) in
      r0 <- fdalloc rf ;;
      match r0 with
      | None => bad []
      | Some fd0 =>
          r1 <- fdalloc wf ;;
          match r1 with
          | None => bad [fd0]
          | Some fd1 =>
              q <- get_proc p ;;
              r <- copyout (p_pagetable q) fdarray (le_bytes 4 (Z.of_nat fd0)) 4 ;;
              if r <? 0 then bad [fd0; fd1] else
              r <- copyout (p_pagetable q) (u64 (fdarray + 4)) (le_bytes 4 (Z.of_nat fd1)) 4 ;;
              if r <? 0 then bad [fd0; fd1] else
              ret 0
          end
      end
  end.
End Sysfile.
