(* ===== verification/Syscall.v ===== *)
(** * Process system calls and the dispatcher: kernel/sysproc.c, kernel/syscall.c

    [syscall] reads the call number from the caller's a7 and puts the result
    in its a0.  [junk] stands for the stack contents that [fstat] and
    [getprocs] copy to the user in the fields they do not set. *)

From S2P Require Import Prelude Bytes Params CString Spinlock State Kalloc Vm Sched Console Bio Log Fs File Proc Exec Sysfile.

Definition sys_getpid : K Z := p <- curproc ;; q <- get_proc p ;; ret (p_pid q).

Definition sys_kill : K Z := pid <- argint 0 ;; kill pid.

Definition sys_getpriority : K Z := p <- curproc ;; q <- get_proc p ;; ret (p_priority q).

Definition sys_setpriority : K Z :=
  priority <- argint 0 ;;
  p <- curproc ;;
  upd_proc p (set_p_priority priority) ;;
  ret 0.

Definition sys_getprocs (junk : list Z) : K Z := addr <- argaddr 0 ;; procinfo junk addr.

(** [ticks - ticks0 < n] compares as [uint]. *)
Definition sys_sleep {E : Env} : K Z :=
  n <- argint 0 ;;
  acquire LTicks ;;
  ticks0 <- gets k_ticks ;;
  loop (fun _ : unit =>
    t <- gets k_ticks ;;
    if negb (u32 (t - ticks0) <? u32 n) then release LTicks ;; ret (inr 0) else
    p <- curproc ;;
    q <- get_proc p ;;
    if z2b (p_killed q) then release LTicks ;; ret (inr (-1)) else
    sleep CTicks LTicks ;;
    ret (inl tt)) tt.

Section Syscall.
Context `{Lk : Linker} {E : Env} {D : Disk}.

Definition sys_exit : K Z := n <- argint 0 ;; exit n ;; ret 0.
Definition sys_fork : K Z := fork.
Definition sys_wait : K Z := p <- argaddr 0 ;; wait p.
Definition sys_wait2 : K Z := p <- argaddr 0 ;; p2 <- argaddr 1 ;; wait2 p p2.

Definition sys_sbrk : K Z :=
  n <- argint 0 ;;
  p <- curproc ;;
  q <- get_proc p ;;
  let addr := i32 (p_sz q) in
  r <- growproc n ;;
  if r <? 0 then ret (-1) else ret addr.

(** The table [syscalls], indexed by call number. *)
Definition syscalls (junk : list Z) (num : Z) : option (K Z) :=
  nth (Z.to_nat num)
    [ None;
      Some sys_fork; Some sys_exit; Some sys_wait; Some sys_pipe; Some sys_read;
      Some sys_kill; Some sys_exec; Some (sys_fstat junk); Some sys_chdir; Some sys_dup;
      Some sys_getpid; Some sys_sbrk; Some sys_sleep; Some sys_uptime; Some sys_open;
      Some sys_write; Some sys_mknod; Some sys_unlink; Some sys_link; Some sys_mkdir;
      Some sys_close; Some sys_wait2; Some (sys_getprocs junk); Some sys_getpriority;
      Some sys_setpriority ] None.

Definition NSYSCALLS : Z := 26.

Definition syscall (junk : list Z) : K unit :=
  p <- curproc ;;
  a7 <- tf_get p (TF_a 7) ;;
  let num := i32 a7 in
  match (if (num >? 0) && (num <? NSYSCALLS) then syscalls junk num else None) with
  | Some f =>
      r <- f ;;
      tf_set p (TF_a 0) (u64 r)
  | None =>
      q <- get_proc p ;;
      printf (str "%d %s: unknown sys call %d" ++ [10])
        [PInt (p_pid q); PStr (Some (p_name q)); PInt num] ;;
      tf_set p (TF_a 0) (u64 (-1))
  end.
End Syscall.
