(* ===== verification/Virtio.v ===== *)
(** * The disk driver: kernel/virtio_disk.c

    The driver and the device share a set of descriptors, a ring of requests
    ([avail]) and a ring of completions ([used]).  An address in a descriptor
    is one of the three kinds the driver uses: a command header, a buffer's
    data, a status byte.  The driver's state is [vdisk]; what the device, the
    interrupt handler and other processes do to it while a process sleeps in
    the driver is the environment [disk_env]. *)

From S2P Require Import Prelude Bytes Params CString Spinlock State Kalloc Vm Sched Bio Log.

(** ** kernel/virtio.h *)

Definition NUM : nat := 8.
Definition VRING_DESC_F_NEXT : Z := 1.
Definition VRING_DESC_F_WRITE : Z := 2.
Definition VIRTIO_BLK_T_IN : Z := 0.
Definition VIRTIO_BLK_T_OUT : Z := 1.
Definition sizeof_blk_req : Z := 16.

(** The registers, by offset, and the bits of the status register. *)
Definition MMIO_MAGIC_VALUE : Z := 0.
Definition MMIO_VERSION : Z := 4.
Definition MMIO_DEVICE_ID : Z := 8.
Definition MMIO_VENDOR_ID : Z := 12.
Definition MMIO_DEVICE_FEATURES : Z := 16.
Definition MMIO_DRIVER_FEATURES : Z := 32.
Definition MMIO_GUEST_PAGE_SIZE : Z := 40.
Definition MMIO_QUEUE_SEL : Z := 48.
Definition MMIO_QUEUE_NUM_MAX : Z := 52.
Definition MMIO_QUEUE_NUM : Z := 56.
Definition MMIO_QUEUE_PFN : Z := 64.
Definition MMIO_QUEUE_NOTIFY : Z := 80.
Definition MMIO_INTERRUPT_ACK : Z := 100.
Definition MMIO_STATUS : Z := 112.

Definition S_ACKNOWLEDGE : Z := 1.
Definition S_DRIVER : Z := 2.
Definition S_DRIVER_OK : Z := 4.
Definition S_FEATURES_OK : Z := 8.

Inductive daddr := DNull | DOps (i : nat) | DData (b : nat) | DStatus (i : nat).
#[export] Instance daddr_eq_dec : EqDecision daddr.
Proof. solve_decision. Defined.

Record virtq_desc := mk_desc { vq_addr : daddr; vq_len : Z; vq_flags : Z; vq_next : Z }.
Definition desc0 : virtq_desc := mk_desc DNull 0 0 0.
#[export] Instance desc_inhabited : Inhabited virtq_desc := populate desc0.

Record virtio_blk_req := mk_req { rq_type : Z; rq_reserved : Z; rq_sector : Z }.
Definition req0 : virtio_blk_req := mk_req 0 0 0.
#[export] Instance req_inhabited : Inhabited virtio_blk_req := populate req0.

(** [static struct disk], with the shared pages as the structures they hold. *)
Record vdisk := mk_vdisk {
  vd_desc : list virtq_desc;
  vd_avail_idx : Z;
  vd_avail_ring : list Z;
  vd_dev_idx : Z;              (* used->idx, written by the device *)
  vd_used_ring : list Z;       (* the ids of used->ring *)
  vd_free : list Z;
  vd_used_idx : Z;
  vd_info_b : list (option nat);
  vd_info_status : list Z;
  vd_ops : list virtio_blk_req;
  vd_isr : Z;                  (* what the device's INTERRUPT_STATUS register reads as *)
  vd_mmio : list (Z * Z);      (* the writes to the device's registers, in order *)
}.

Definition vdisk0 : vdisk :=
  mk_vdisk (replicate NUM desc0) 0 (replicate NUM 0) 0 (replicate NUM 0) (replicate NUM 0) 0
    (replicate NUM None) (replicate NUM 0) (replicate NUM req0) 0 [].

Definition set_vd_desc (i : nat) (d : virtq_desc) (v : vdisk) : vdisk :=
  mk_vdisk (<[i := d]> (vd_desc v)) (vd_avail_idx v) (vd_avail_ring v) (vd_dev_idx v)
    (vd_used_ring v) (vd_free v) (vd_used_idx v) (vd_info_b v) (vd_info_status v) (vd_ops v)
    (vd_isr v) (vd_mmio v).
Definition set_vd_free (i : nat) (x : Z) (v : vdisk) : vdisk :=
  mk_vdisk (vd_desc v) (vd_avail_idx v) (vd_avail_ring v) (vd_dev_idx v) (vd_used_ring v)
    (<[i := x]> (vd_free v)) (vd_used_idx v) (vd_info_b v) (vd_info_status v) (vd_ops v)
    (vd_isr v) (vd_mmio v).
Definition set_vd_info_b (i : nat) (b : option nat) (v : vdisk) : vdisk :=
  mk_vdisk (vd_desc v) (vd_avail_idx v) (vd_avail_ring v) (vd_dev_idx v) (vd_used_ring v)
    (vd_free v) (vd_used_idx v) (<[i := b]> (vd_info_b v)) (vd_info_status v) (vd_ops v)
    (vd_isr v) (vd_mmio v).
Definition set_vd_status (i : nat) (x : Z) (v : vdisk) : vdisk :=
  mk_vdisk (vd_desc v) (vd_avail_idx v) (vd_avail_ring v) (vd_dev_idx v) (vd_used_ring v)
    (vd_free v) (vd_used_idx v) (vd_info_b v) (<[i := x]> (vd_info_status v)) (vd_ops v)
    (vd_isr v) (vd_mmio v).
Definition set_vd_op (i : nat) (r : virtio_blk_req) (v : vdisk) : vdisk :=
  mk_vdisk (vd_desc v) (vd_avail_idx v) (vd_avail_ring v) (vd_dev_idx v) (vd_used_ring v)
    (vd_free v) (vd_used_idx v) (vd_info_b v) (vd_info_status v) (<[i := r]> (vd_ops v))
    (vd_isr v) (vd_mmio v).
Definition push_avail (x : Z) (v : vdisk) : vdisk :=
  mk_vdisk (vd_desc v) (vd_avail_idx v)
    (<[Z.to_nat (vd_avail_idx v mod Z.of_nat NUM) := x]> (vd_avail_ring v))
    (vd_dev_idx v) (vd_used_ring v) (vd_free v) (vd_used_idx v) (vd_info_b v) (vd_info_status v)
    (vd_ops v) (vd_isr v) (vd_mmio v).
Definition incr_avail (v : vdisk) : vdisk :=
  mk_vdisk (vd_desc v) (u16 (vd_avail_idx v + 1)) (vd_avail_ring v) (vd_dev_idx v) (vd_used_ring v)
    (vd_free v) (vd_used_idx v) (vd_info_b v) (vd_info_status v) (vd_ops v) (vd_isr v) (vd_mmio v).
Definition wr_reg (reg x : Z) (v : vdisk) : vdisk :=
  mk_vdisk (vd_desc v) (vd_avail_idx v) (vd_avail_ring v) (vd_dev_idx v) (vd_used_ring v)
    (vd_free v) (vd_used_idx v) (vd_info_b v) (vd_info_status v) (vd_ops v) (vd_isr v)
    (vd_mmio v ++ [(reg, x)]).
Definition incr_used (v : vdisk) : vdisk :=
  mk_vdisk (vd_desc v) (vd_avail_idx v) (vd_avail_ring v) (vd_dev_idx v) (vd_used_ring v)
    (vd_free v) (u16 (vd_used_idx v + 1)) (vd_info_b v) (vd_info_status v) (vd_ops v)
    (vd_isr v) (vd_mmio v).

(** ** The monad of the driver: its own state beside the kernel's *)

Abbreviation V := (M (vdisk * kernel)).

Definition liftK {A} (m : K A) : V A := fun '(v, k) =>
  match m k with
  | Ok a k' => Ok a (v, k')
  | Panic msg k' => Panic msg (v, k')
  | Blocked k' => Blocked (v, k')
  | Diverge k' => Diverge (v, k')
  end.
Definition vgets {A} (f : vdisk -> A) : V A := gets (fun w => f w.1).
Definition vmod (f : vdisk -> vdisk) : V unit := modify (fun w => (f w.1, w.2)).

(** What happens to the driver's state while a process sleeps in it for the
    [n]-th time. *)
Class DiskEnv := disk_env : nat -> vdisk -> vdisk.

(** ** Initialisation: the handshake over the device's registers

    [rd] is what the registers read as, [pages] the address of [disk.pages]. *)

(** The features the driver turns off. *)
Definition refused_features : list Z := [5; 7; 11; 12; 27; 29; 28].
Definition negotiate (features : Z) : Z :=
  foldl (fun f i => Z.land f (u64 (Z.lnot (Z.shiftl 1 i)))) features refused_features.

Definition virtio_disk_init (rd : Z -> Z) (pages : Z) : V unit :=
  if negb (rd MMIO_MAGIC_VALUE =? 1953655158) || negb (rd MMIO_VERSION =? 1) ||
     negb (rd MMIO_DEVICE_ID =? 2) || negb (rd MMIO_VENDOR_ID =? 1431127377)
  then panic "could not find virtio disk" else
  let status := Z.lor 0 S_ACKNOWLEDGE in
  vmod (wr_reg MMIO_STATUS status) ;;
  let status := Z.lor status S_DRIVER in
  vmod (wr_reg MMIO_STATUS status) ;;
  vmod (wr_reg MMIO_DRIVER_FEATURES (u32 (negotiate (rd MMIO_DEVICE_FEATURES)))) ;;
  let status := Z.lor status S_FEATURES_OK in
  vmod (wr_reg MMIO_STATUS status) ;;
  let status := Z.lor status S_DRIVER_OK in
  vmod (wr_reg MMIO_STATUS status) ;;
  vmod (wr_reg MMIO_GUEST_PAGE_SIZE PGSIZE) ;;
  vmod (wr_reg MMIO_QUEUE_SEL 0) ;;
  let max := rd MMIO_QUEUE_NUM_MAX in
  if max =? 0 then panic "virtio disk has no queue 0" else
  if max <? Z.of_nat NUM then panic "virtio disk max queue too short" else
  vmod (wr_reg MMIO_QUEUE_NUM (Z.of_nat NUM)) ;;
  vmod (fun v => mk_vdisk (replicate NUM desc0) 0 (replicate NUM 0) 0 (replicate NUM 0)
                   (vd_free v) (vd_used_idx v) (vd_info_b v) (vd_info_status v) (vd_ops v)
                   (vd_isr v) (vd_mmio v)) ;;
  vmod (wr_reg MMIO_QUEUE_PFN (u32 (Z.shiftr pages PGSHIFT))) ;;
  for_all (seq 0 NUM) (fun i => vmod (set_vd_free i 1)).

(** ** Descriptors *)

Definition alloc_desc : V (option nat) :=
  for_each (seq 0 NUM) (fun i =>
    f <- vgets vd_free ;;
    if z2b (f !!! i) then vmod (set_vd_free i 0) ;; ret (Some i) else ret None).

Definition free_desc (i : nat) : V unit :=
  if (NUM <=? i)%nat then panic "free_desc 1" else
  f <- vgets vd_free ;;
  if z2b (f !!! i) then panic "free_desc 2" else
  vmod (set_vd_desc i desc0) ;;
  vmod (set_vd_free i 1) ;;
  liftK (wakeup (Some CDiskFree)).

Definition free_chain (i : nat) : V unit :=
  loop (fun i =>
    ds <- vgets vd_desc ;;
    let flag := vq_flags (ds !!! i) in
    let nxt := vq_next (ds !!! i) in
    free_desc i ;;
    if negb (Z.land flag VRING_DESC_F_NEXT =? 0) then ret (inl (Z.to_nat nxt))
    else ret (inr tt)) i.

(** Three descriptors; those already taken are given back on failure. *)
Definition alloc3_desc : V (option (nat * nat * nat)) :=
  i0 <- alloc_desc ;;
  match i0 with
  | None => ret None
  | Some i0 =>
      i1 <- alloc_desc ;;
      match i1 with
      | None => free_desc i0 ;; ret None
      | Some i1 =>
          i2 <- alloc_desc ;;
          match i2 with
          | None => free_desc i0 ;; free_desc i1 ;; ret None
          | Some i2 => ret (Some (i0, i1, i2))
          end
      end
  end.

(** ** Requests *)

(** The three descriptors of a request for buffer [b], as [virtio_disk_rw]
    fills them, and its registration. *)
Definition format_request (i0 i1 i2 : nat) (b : nat) (write : bool) (sector : Z) : V unit :=
  vmod (set_vd_op i0 (mk_req (if write then VIRTIO_BLK_T_OUT else VIRTIO_BLK_T_IN) 0 sector)) ;;
  vmod (set_vd_desc i0 (mk_desc (DOps i0) sizeof_blk_req VRING_DESC_F_NEXT (Z.of_nat i1))) ;;
  vmod (set_vd_desc i1 (mk_desc (DData b) BSIZE
    (Z.lor (if write then 0 else VRING_DESC_F_WRITE) VRING_DESC_F_NEXT) (Z.of_nat i2))) ;;
  vmod (set_vd_status i0 255) ;;
  vmod (set_vd_desc i2 (mk_desc (DStatus i0) 1 VRING_DESC_F_WRITE 0)).

Definition submit_request (i0 b : nat) : V unit :=
  liftK (upd_buf b (set_b_disk 1)) ;;
  vmod (set_vd_info_b i0 (Some b)) ;;
  vmod (push_avail (Z.of_nat i0)) ;;
  vmod incr_avail ;;
  vmod (wr_reg MMIO_QUEUE_NOTIFY 0).

Section Virtio.
Context {E : Env} {DE : DiskEnv}.

Definition vsleep (c : chan) (lk : lock) : V unit :=
  n <- gets (fun w => k_clock w.2) ;;
  liftK (sleep c lk) ;;
  vmod (disk_env n).

Definition virtio_rw (b : nat) (write : bool) : V unit :=
  x <- liftK (get_buf b) ;;
  let sector := u32 (b_blockno x * (BSIZE / 512)) in
  liftK (acquire LVdisk) ;;
  let* (i0, i1, i2) := loop (fun _ : unit =>
    r <- alloc3_desc ;;
    match r with
    | Some idx => ret (inr idx)
    | None => vsleep CDiskFree LVdisk ;; ret (inl tt)
    end) tt in
  format_request i0 i1 i2 b write sector ;;
  submit_request i0 b ;;
  loop (fun _ : unit =>
    x <- liftK (get_buf b) ;;
    if negb (b_disk x =? 1) then ret (inr tt) else
    vsleep (CBuf b) LVdisk ;;
    ret (inl tt)) tt ;;
  vmod (set_vd_info_b i0 None) ;;
  free_chain i0 ;;
  liftK (release LVdisk).

(** The completion interrupt.  A completion id or an [info] entry that the
    driver never posted is outside what C defines. *)
Definition virtio_disk_intr : V unit :=
  liftK (acquire LVdisk) ;;
  st <- vgets vd_isr ;;
  vmod (wr_reg MMIO_INTERRUPT_ACK (Z.land st 3)) ;;
  loop (fun _ : unit =>
    v <- vgets id ;;
    if vd_used_idx v =? vd_dev_idx v then ret (inr tt) else
    let id := Z.to_nat (vd_used_ring v !!! Z.to_nat (vd_used_idx v mod Z.of_nat NUM)) in
    if (NUM <=? id)%nat then liftK undefined else
    if negb (vd_info_status v !!! id =? 0) then panic "virtio_disk_intr status" else
    b <- liftK (deref (vd_info_b v !!! id)) ;;
    liftK (upd_buf b (set_b_disk 0)) ;;
    liftK (wakeup (Some (CBuf b))) ;;
    vmod incr_used ;;
    ret (inl tt)) tt ;;
  liftK (release LVdisk).
End Virtio.
