(* ===== verification/Trap.v ===== *)
(** * Traps and interrupts: kernel/trap.c and kernel/plic.c

    The handlers run on a hart: [hart] holds the control registers they read
    and write, and the device registers of the interrupt controller.  When a
    handler gives the processor away the registers come back as other traps
    left them, [hart_env]; nothing is assumed of it. *)

From S2P Require Import Prelude Bytes Params CString Spinlock State Kalloc Vm Sched Console Bio Log Fs File Proc Exec Sysfile Syscall Virtio.

Record hart := mk_hart {
  h_sstatus : Z;
  h_stvec : Z;
  h_sepc : Z;
  h_scause : Z;
  h_stval : Z;
  h_satp : Z;
  h_tp : Z;
  h_sip : Z;
  h_claims : list Z;         (* what the next reads of the PLIC's claim register return *)
  h_mmio : list (Z * Z);     (* writes to the PLIC and to the UART's control registers *)
}.

Definition set_h_sstatus (v : Z) (h : hart) : hart :=
  mk_hart v (h_stvec h) (h_sepc h) (h_scause h) (h_stval h) (h_satp h) (h_tp h) (h_sip h)
    (h_claims h) (h_mmio h).
Definition set_h_stvec (v : Z) (h : hart) : hart :=
  mk_hart (h_sstatus h) v (h_sepc h) (h_scause h) (h_stval h) (h_satp h) (h_tp h) (h_sip h)
    (h_claims h) (h_mmio h).
Definition set_h_sepc (v : Z) (h : hart) : hart :=
  mk_hart (h_sstatus h) (h_stvec h) v (h_scause h) (h_stval h) (h_satp h) (h_tp h) (h_sip h)
    (h_claims h) (h_mmio h).
Definition set_h_satp (v : Z) (h : hart) : hart :=
  mk_hart (h_sstatus h) (h_stvec h) (h_sepc h) (h_scause h) (h_stval h) v (h_tp h) (h_sip h)
    (h_claims h) (h_mmio h).
Definition set_h_sip (v : Z) (h : hart) : hart :=
  mk_hart (h_sstatus h) (h_stvec h) (h_sepc h) (h_scause h) (h_stval h) (h_satp h) (h_tp h) v
    (h_claims h) (h_mmio h).
Definition set_h_claims (v : list Z) (h : hart) : hart :=
  mk_hart (h_sstatus h) (h_stvec h) (h_sepc h) (h_scause h) (h_stval h) (h_satp h) (h_tp h)
    (h_sip h) v (h_mmio h).
Definition mmio (a v : Z) (h : hart) : hart :=
  mk_hart (h_sstatus h) (h_stvec h) (h_sepc h) (h_scause h) (h_stval h) (h_satp h) (h_tp h)
    (h_sip h) (h_claims h) (h_mmio h ++ [(a, v)]).

Abbreviation T := (M (hart * (vdisk * kernel))).

Definition liftV {A} (m : V A) : T A := fun '(h, w) =>
  match m w with
  | Ok a w' => Ok a (h, w')
  | Panic msg w' => Panic msg (h, w')
  | Blocked w' => Blocked (h, w')
  | Diverge w' => Diverge (h, w')
  end.
Definition liftT {A} (m : K A) : T A := liftV (liftK m).
Definition hget {A} (f : hart -> A) : T A := gets (fun w => f w.1).
Definition hmod (f : hart -> hart) : T unit := modify (fun w => (f w.1, w.2)).

(** ** Register access *)

(** [intr_on], [intr_off], [intr_get] of [kernel/riscv.h]. *)
Definition intr_on : T unit := hmod (fun h => set_h_sstatus (Z.lor (h_sstatus h) SSTATUS_SIE) h).
Definition intr_off : T unit :=
  hmod (fun h => set_h_sstatus (Z.land (h_sstatus h) (u64 (Z.lnot SSTATUS_SIE))) h).
Definition intr_get : T bool := hget (fun h => flag (h_sstatus h) SSTATUS_SIE).

(** [cpuid()] *)
Definition cpuid : T Z := hget (fun h => i32 (h_tp h)).

Definition PLIC_SENABLE (hart : Z) : Z := PLIC + 8320 + hart * 256.         (* 0x2080, 0x100 *)
Definition PLIC_SPRIORITY (hart : Z) : Z := PLIC + 2101248 + hart * 8192.   (* 0x201000, 0x2000 *)
Definition PLIC_SCLAIM (hart : Z) : Z := PLIC + 2101252 + hart * 8192.      (* 0x201004, 0x2000 *)

Definition plicinit : T unit :=
  hmod (mmio (PLIC + UART0_IRQ * 4) 1) ;;
  hmod (mmio (PLIC + VIRTIO0_IRQ * 4) 1).

Definition plicinithart : T unit :=
  hart <- cpuid ;;
  hmod (mmio (PLIC_SENABLE hart) (Z.lor (Z.shiftl 1 UART0_IRQ) (Z.shiftl 1 VIRTIO0_IRQ))) ;;
  hmod (mmio (PLIC_SPRIORITY hart) 0).

(** With nothing left to claim the register reads 0. *)
Definition plic_claim : T Z :=
  c <- hget h_claims ;;
  hmod (set_h_claims (tail c)) ;;
  ret (i32 (hd 0 c)).

Definition plic_complete (irq : Z) : T unit :=
  hart <- cpuid ;;
  hmod (mmio (PLIC_SCLAIM hart) (u32 irq)).

(** ** The clock *)

Definition clockintr : K unit :=
  acquire LTicks ;;
  modify (fun s => set_k_ticks (u32 (k_ticks s + 1)) s) ;;
  wakeup (Some CTicks) ;;
  release LTicks.

(** ** Handlers *)

Definition nl : list Z := [10].

(** 2 for a timer interrupt, 1 for another device, 0 if not recognised. *)
Definition devintr : T Z :=
  scause <- hget h_scause ;;
  if flag scause (2 ^ 63) && (Z.land scause 255 =? 9) then
    irq <- plic_claim ;;
    (if irq =? UART0_IRQ then liftT uartintr
     else if irq =? VIRTIO0_IRQ then liftV virtio_disk_intr
     else when (z2b irq) (liftT (printf (str "unexpected interrupt irq=%d" ++ nl) [PInt irq]))) ;;
    when (z2b irq) (plic_complete irq) ;;
    ret 1
  else if scause =? 2 ^ 63 + 1 then
    id <- cpuid ;;
    when (id =? 0) (liftT clockintr) ;;
    hmod (fun h => set_h_sip (Z.land (h_sip h) (u64 (Z.lnot 2))) h) ;;
    ret 2
  else ret 0.

Class HartEnv := hart_env : nat -> hart -> hart.

Section Trap.
Context `{Lk : Linker} {E : Env} {D : Disk} {HE : HartEnv}.

(** Kernel code that may give the processor away. *)
Definition liftE {A} (m : K A) : T A :=
  n <- gets (fun w => k_clock w.2.2) ;;
  a <- liftT m ;;
  hmod (hart_env n) ;;
  ret a.

Definition trapinithart : T unit := hmod (set_h_stvec kernelvec).

(** The jump to [userret] in the trampoline: its address and arguments. *)
Definition usertrapret : T (Z * Z * Z) :=
  p <- liftT curproc ;;
  intr_off ;;
  hmod (set_h_stvec (TRAMPOLINE + (uservec - trampoline))) ;;
  satp <- hget h_satp ;;
  liftT (tf_set p TF_kernel_satp satp) ;;
  q <- liftT (get_proc p) ;;
  liftT (tf_set p TF_kernel_sp (u64 (p_kstack q + PGSIZE))) ;;
  liftT (tf_set p TF_kernel_trap usertrap_addr) ;;
  tp <- hget h_tp ;;
  liftT (tf_set p TF_kernel_hartid tp) ;;
  x <- hget h_sstatus ;;
  let x := Z.land x (u64 (Z.lnot SSTATUS_SPP)) in
  let x := Z.lor x SSTATUS_SPIE in
  hmod (set_h_sstatus x) ;;
  epc <- liftT (tf_get p TF_epc) ;;
  hmod (set_h_sepc epc) ;;
  q <- liftT (get_proc p) ;;
  ret (TRAMPOLINE + (userret - trampoline), TRAPFRAME, MAKE_SATP (p_pagetable q)).

(** [if(p->killed) exit(-1);] *)
Definition exit_if_killed (p : nat) : T unit :=
  q <- liftT (get_proc p) ;;
  when (z2b (p_killed q)) (liftE (exit (-1))).

Definition usertrap (junk : list Z) : T (Z * Z * Z) :=
  st <- hget h_sstatus ;;
  if flag st SSTATUS_SPP then panic "usertrap: not from user mode" else
  hmod (set_h_stvec kernelvec) ;;
  p <- liftT curproc ;;
  sepc <- hget h_sepc ;;
  liftT (tf_set p TF_epc sepc) ;;
  scause <- hget h_scause ;;
  which_dev <-
    (if scause =? 8 then
       exit_if_killed p ;;
       epc <- liftT (tf_get p TF_epc) ;;
       liftT (tf_set p TF_epc (u64 (epc + 4))) ;;
       intr_on ;;
       liftE (syscall junk) ;;
       ret 0
     else
       which_dev <- devintr ;;
       when (which_dev =? 0)
         (q <- liftT (get_proc p) ;;
          liftT (printf (str "usertrap(): unexpected scause %p pid=%d" ++ nl)
                   [PInt scause; PInt (p_pid q)]) ;;
          sepc <- hget h_sepc ;;
          stval <- hget h_stval ;;
          liftT (printf (str "            sepc=%p stval=%p" ++ nl) [PInt sepc; PInt stval]) ;;
          liftT (upd_proc p (set_p_killed 1))) ;;
       ret which_dev) ;;
  exit_if_killed p ;;
  when (which_dev =? 2)
    (liftT (upd_proc p (fun q => set_p_cputime (u32 (p_cputime q + 1)) q))) ;;
  liftE yield ;;
  usertrapret.

Definition kerneltrap : T unit :=
  op <- liftT myproc ;;
  sepc <- hget h_sepc ;;
  sstatus <- hget h_sstatus ;;
  scause <- hget h_scause ;;
  if negb (flag sstatus SSTATUS_SPP) then panic "kerneltrap: not from supervisor mode" else
  on <- intr_get ;;
  if on : bool then panic "kerneltrap: interrupts enabled" else
  which_dev <- devintr ;;
  if which_dev =? 0 then
    liftT (printf (str "scause %p" ++ nl) [PInt scause]) ;;
    sepc <- hget h_sepc ;;
    stval <- hget h_stval ;;
    liftT (printf (str "sepc=%p stval=%p" ++ nl) [PInt sepc; PInt stval]) ;;
    panic "kerneltrap"
  else
  me <- liftT myproc ;;
  (match me with
   | Some p' =>
       q <- liftT (get_proc p') ;;
       when ((which_dev =? 2) && bool_decide (p_state q = RUNNING))
         (p <- liftT (deref op) ;;
          liftT (upd_proc p (fun q => set_p_cputime (u32 (p_cputime q + 1)) q)) ;;
          liftE yield)
   | None => ret tt
   end) ;;
  hmod (set_h_sepc sepc) ;;
  hmod (set_h_sstatus sstatus).

(** A new process's first time on a processor. *)
Definition forkret : T (Z * Z * Z) :=
  p <- liftT curproc ;;
  liftT (release (LProc p)) ;;
  first <- liftT (gets k_first) ;;
  when (z2b first)
    (liftT (modify (set_k_first 0)) ;;
     liftE (fsinit ROOTDEV)) ;;
  usertrapret.
End Trap.
