(* ===== verification/Boot.v ===== *)
(** * Start-up: kernel/start.c and kernel/main.c

    Machine mode sets up the registers that [mret] and the timer use; then
    [main] initialises every component, in order. *)

From S2P Require Import Prelude Bytes Params CString Spinlock State Kalloc Vm Sched Console Bio Log Fs File Proc Exec Sysfile Syscall Virtio Trap.

(** ** Machine mode *)

Record mregs := mk_mregs {
  m_mstatus : Z; m_mepc : Z; m_satp : Z; m_medeleg : Z; m_mideleg : Z; m_sie : Z;
  m_pmpaddr0 : Z; m_pmpcfg0 : Z; m_mie : Z; m_mtvec : Z; m_mscratch : Z; m_tp : Z;
  m_mtimecmp : gmap Z Z;           (* CLINT_MTIMECMP, by address *)
  m_scratch : gmap Z (list Z);     (* timer_scratch, by hart *)
}.

Definition MSTATUS_MPP_MASK : Z := Z.shiftl 3 11.
Definition MSTATUS_MPP_S : Z := Z.shiftl 1 11.
Definition MSTATUS_MIE : Z := Z.shiftl 1 3.
Definition SIE_SEIE : Z := Z.shiftl 1 9.
Definition SIE_STIE : Z := Z.shiftl 1 5.
Definition SIE_SSIE : Z := Z.shiftl 1 1.
Definition MIE_MTIE : Z := Z.shiftl 1 7.
Definition CLINT_MTIMECMP (hartid : Z) : Z := 33554432 + 16384 + 8 * hartid.  (* 0x2000000, 0x4000 *)
Definition timer_interval : Z := 1000000.

(** [timervec] and [scratch] are addresses, [mtime] the cycles since boot. *)
Definition timerinit (id mtime timervec scratch : Z) (r : mregs) : mregs :=
  mk_mregs (Z.lor (m_mstatus r) MSTATUS_MIE) (m_mepc r) (m_satp r) (m_medeleg r) (m_mideleg r)
    (m_sie r) (m_pmpaddr0 r) (m_pmpcfg0 r) (Z.lor (m_mie r) MIE_MTIE) timervec scratch (m_tp r)
    (<[CLINT_MTIMECMP id := u64 (mtime + timer_interval)]> (m_mtimecmp r))
    (<[id := take 3 (default (replicate 5 0) (m_scratch r !! id)) ++
             [CLINT_MTIMECMP id; timer_interval]]> (m_scratch r)).

Definition start (main_addr id mtime timervec scratch : Z) (r : mregs) : mregs :=
  let x := Z.land (m_mstatus r) (u64 (Z.lnot MSTATUS_MPP_MASK)) in
  let x := Z.lor x MSTATUS_MPP_S in
  let r := mk_mregs x main_addr 0 65535 65535
             (Z.lor (Z.lor (Z.lor (m_sie r) SIE_SEIE) SIE_STIE) SIE_SSIE)
             18014398509481983 15 (m_mie r) (m_mtvec r) (m_mscratch r) (m_tp r)
             (m_mtimecmp r) (m_scratch r) in
  let r := timerinit id mtime timervec scratch r in
  mk_mregs (m_mstatus r) (m_mepc r) (m_satp r) (m_medeleg r) (m_mideleg r) (m_sie r)
    (m_pmpaddr0 r) (m_pmpcfg0 r) (m_mie r) (m_mtvec r) (m_mscratch r) id (m_mtimecmp r)
    (m_scratch r).

(** ** Supervisor mode *)

Definition uartinit : T unit :=
  for_all [(1, 0); (3, 128); (0, 3); (1, 0); (3, 3); (2, 7); (1, 3)]
    (fun '(reg, v) => hmod (mmio (UART0 + reg) v)).

Definition consoleinit : T unit := uartinit.

Section Boot.
Context `{Lk : Linker} {E : Env} {D : Disk}.

Definition kvminit : K Z := kvmmake.
Definition kvminithart (kernel_pagetable : Z) : T unit :=
  hmod (set_h_satp (MAKE_SATP kernel_pagetable)).

(** [main] up to its call of [scheduler]: on hart 0, and on the others once
    [started] is set, with the page table hart 0 made.  [rd] is what the
    disk's registers read as, [pages] the address of [disk.pages]. *)
Definition main0 (rd : Z -> Z) (pages : Z) : T Z :=
  consoleinit ;;
  liftT (printf nl []) ;;
  liftT (printf (str "xv6 kernel is booting" ++ nl) []) ;;
  liftT (printf nl []) ;;
  liftT kinit ;;
  kernel_pagetable <- liftT kvminit ;;
  kvminithart kernel_pagetable ;;
  liftT procinit ;;
  trapinithart ;;
  plicinit ;;
  plicinithart ;;
  liftT binit ;;
  liftT iinit ;;
  liftV (virtio_disk_init rd pages) ;;
  liftT userinit ;;
  ret kernel_pagetable.

Definition main_other (kernel_pagetable : Z) : T unit :=
  id <- cpuid ;;
  liftT (printf (str "hart %d starting" ++ nl) [PInt id]) ;;
  kvminithart kernel_pagetable ;;
  trapinithart ;;
  plicinithart.
End Boot.
