(* ===== verification/SchedProofs.v ===== *)
(** * Theorems on sleep, wakeup, kill and the scheduler *)

From S2P Require Import Prelude Bytes Params CString Spinlock State Kalloc Vm Sched.

(** ** The code as sequences of calls *)

Lemma sys_uptime_eq s :
  sys_uptime s = (acquire LTicks ;; xticks <- gets k_ticks ;; release LTicks ;; ret xticks) s.
Proof. done. Qed.

Lemma wakeup_one_eq chan p s :
  run_code (wakeup_one chan p) s =
  (me <- myproc ;;
   if bool_decide (me = Some p) then ret tt else
   acquire (LProc p) ;;
   q <- get_proc p ;;
   when (bool_decide (p_state q = SLEEPING) && bool_decide (p_chan q = chan))
     (upd_proc p (set_p_state RUNNABLE) ;;
      t <- sys_uptime ;;
      upd_proc p (set_p_readytime t)) ;;
   release (LProc p)) s.
Proof.
  unfold wakeup_one. rewrite run_atom_bind. apply bind_ext. intros me s1.
  destruct (bool_decide _); [done|]. rewrite run_atom_bind. apply bind_ext. intros [] s2.
  rewrite run_atom_bind. apply bind_ext. intros q s3. rewrite run_code_bind.
  rewrite (bind_ext_l _ (when (bool_decide (p_state q = SLEEPING) && bool_decide (p_chan q = chan))
    (upd_proc p (set_p_state RUNNABLE) ;; t <- sys_uptime ;; upd_proc p (set_p_readytime t)))).
  - apply bind_ext. intros [] s4. apply run_atom.
  - intros s4. destruct (_ && _); [|done]. unfold when. rewrite run_atom_bind. apply bind_ext. intros [] s5.
    rewrite run_code_bind. apply bind_ext. intros t s6. apply run_atom.
Qed.

Lemma wakeup_eq chan s :
  wakeup chan s = for_all (seq 0 NPROC) (fun p => run_code (wakeup_one chan p)) s.
Proof. apply run_code_all. Qed.

Lemma sleep_eq `{Env} c lk s :
  sleep c lk s =
  (p <- curproc ;;
   acquire (LProc p) ;;
   release lk ;;
   upd_proc p (set_p_chan (Some c)) ;;
   upd_proc p (set_p_state SLEEPING) ;;
   sched ;;
   upd_proc p (set_p_chan None) ;;
   release (LProc p) ;;
   acquire lk) s.
Proof.
  unfold sleep, sleep_code. rewrite run_atom_bind. apply bind_ext. intros p s1.
  do 4 (rewrite run_atom_bind; apply bind_ext; intros [] ?). rewrite run_code_bind. apply bind_ext. intros [] ?.
  do 2 (rewrite run_atom_bind; apply bind_ext; intros [] ?). apply run_atom.
Qed.

Lemma sched_eq `{Env} s : sched s = (p <- sched_check ;; swtch p) s.
Proof. unfold sched, sched_code. rewrite run_atom_bind. apply bind_ext. intros p ?. apply run_atom. Qed.

Lemma swtch_eq `{Env} p s :
  swtch p s =
  let s1 := set_k_held (LockSpec.remove1 (LProc p) (k_held s)) (set_k_cur None s) in
  match env (k_clock s) s1 with
  | None => Blocked s1
  | Some s2 =>
      if decide (p_state (k_procs s2 !!! p) = RUNNABLE)
      then Ok tt (set_k_clock (S (k_clock s)) (set_k_held [LProc p] (set_k_cur (Some p)
                    (set_k_procs (alter (set_p_state RUNNING) p (k_procs s2)) s2))))
      else Blocked (set_k_clock (S (k_clock s)) s2)
  end.
Proof.
  unfold swtch, swtch_out, others, swtch_in, bind, modify. simpl.
  destruct (env _ _) as [s2|]; [|done]. simpl. by destruct (decide _).
Qed.

(** ** Loops over the process table *)

Lemma imap_alter_seq {A} (f : nat -> A -> A) (l : list A) n :
  foldl (fun l i => alter (f i) i l) l (seq 0 n) =
  imap (fun i x => if decide (i < n)%nat then f i x else x) l.
Proof.
  induction n as [|n IH].
  - simpl. apply list_eq. intros i. rewrite list_lookup_imap. by destruct (l !! i).
  - rewrite seq_S, foldl_app, IH. simpl. apply list_eq. intros i.
    destruct (decide (i = n)) as [->|].
    + rewrite list_lookup_alter_eq, !list_lookup_imap. destruct (l !! n); simpl; [|done].
      rewrite decide_False, decide_True by lia. done.
    + rewrite list_lookup_alter_ne by done. rewrite !list_lookup_imap.
      destruct (l !! i); simpl; [|done]. f_equal.
      destruct (decide (i < n)%nat), (decide (i < S n)%nat); try done; lia.
Qed.

(** A loop whose step on [p] rewrites the entry of [p] only. *)
Lemma for_all_procs (body : nat -> K unit) (f : nat -> proc -> proc) s :
  length (k_procs s) = NPROC ->
  (forall p ps, (p < NPROC)%nat ->
     body p (set_k_procs ps s) = Ok tt (set_k_procs (alter (f p) p ps) s)) ->
  for_all (seq 0 NPROC) body s = Ok tt (set_k_procs (imap f (k_procs s)) s).
Proof.
  intros Hlen Hbody.
  assert (forall l ps, (forall p, p ∈ l -> p < NPROC)%nat ->
    for_all l body (set_k_procs ps s) =
    Ok tt (set_k_procs (foldl (fun ps p => alter (f p) p ps) ps l) s)) as H.
  { induction l as [|p l IH]; intros ps Hl; simpl; [done|].
    erewrite bind_ok by (apply Hbody, Hl; left). apply IH. intros q ?. apply Hl. by right. }
  replace s with (set_k_procs (k_procs s) s) at 1 by (by destruct s).
  rewrite H by (intros p Hp%elem_of_seq; lia). rewrite imap_alter_seq. do 2 f_equal.
  apply list_eq. intros i. rewrite !list_lookup_imap.
  destruct (k_procs s !! i) eqn:Hi; simpl; [|done].
  rewrite decide_True; [done|]. apply lookup_lt_Some in Hi. lia.
Qed.

(** ** wakeup *)

(** What [wakeup c] does to the process in slot [i], at time [t] and called
    by [me]. *)
Definition woken (c : option chan) (t : Z) (me : option nat) (i : nat) (q : proc) : proc :=
  if bool_decide (me = Some i) then q
  else if bool_decide (p_state q = SLEEPING) && bool_decide (p_chan q = c)
  then set_p_readytime t (set_p_state RUNNABLE q) else q.

Lemma list_lookup_total_alter_id {A} `{Inhabited A} (f : A -> A) (l : list A) i :
  (f (l !!! i) = l !!! i) -> alter f i l = l.
Proof.
  intros E. apply list_eq. intros j. destruct (decide (i = j)) as [->|].
  - rewrite list_lookup_alter_eq. destruct (l !! j) as [x|] eqn:Hj; simpl; [|done].
    apply list_lookup_total_correct in Hj. congruence.
  - by rewrite list_lookup_alter_ne.
Qed.

Lemma alter_twice {A} (f g : A -> A) (l : list A) i :
  alter g i (alter f i l) = alter (fun x => g (f x)) i l.
Proof.
  apply list_eq. intros j. destruct (decide (i = j)) as [->|].
  - rewrite !list_lookup_alter_eq. by destruct (l !! j).
  - by rewrite !list_lookup_alter_ne.
Qed.

Lemma alter_lookup_total {A} `{Inhabited A} (f : A -> A) (l : list A) i :
  alter f i l = alter (fun _ => f (l !!! i)) i l.
Proof.
  apply list_eq. intros j. destruct (decide (i = j)) as [->|].
  - rewrite !list_lookup_alter_eq. destruct (l !! j) as [x|] eqn:Hj; simpl; [|done].
    apply list_lookup_total_correct in Hj. congruence.
  - by rewrite !list_lookup_alter_ne.
Qed.

(** [acquire] and [release] around code that leaves the held locks alone. *)
Lemma bind_acquire {B} l (k : unit -> K B) s :
  l ∉ k_held s -> bind (acquire l) k s = k tt (set_k_held (l :: k_held s) s).
Proof. intros. by erewrite bind_ok by (by apply acquire_ok). Qed.

Lemma bind_release {B} l held (k : unit -> K B) s :
  k_held s = l :: held -> l ∉ held -> bind (release l) k s = k tt (set_k_held held s).
Proof.
  intros E Hl. erewrite bind_ok by (apply release_ok; rewrite E; left).
  by rewrite E, remove1_cons.
Qed.

Lemma release_top l held s :
  k_held s = l :: held -> l ∉ held -> release l s = Ok tt (set_k_held held s).
Proof. intros E Hl. rewrite release_ok by (rewrite E; left). by rewrite E, remove1_cons. Qed.

Lemma sys_uptime_ok s : LTicks ∉ k_held s -> sys_uptime s = Ok (k_ticks s) s.
Proof.
  intros. rewrite sys_uptime_eq, bind_acquire by done. run_steps.
  erewrite bind_release by done. by destruct s.
Qed.

Lemma sys_uptime_held s : LTicks ∈ k_held s -> sys_uptime s = Panic "acquire" s.
Proof. intros. rewrite sys_uptime_eq. by erewrite bind_panic by (by apply acquire_held). Qed.

Lemma wakeup_one_ok c p s :
  LProc p ∉ k_held s -> LTicks ∉ k_held s ->
  run_code (wakeup_one c p) s =
  Ok tt (set_k_procs (alter (woken c (k_ticks s) (k_cur s) p) p (k_procs s)) s).
Proof.
  intros Hp Ht. rewrite wakeup_one_eq. unfold myproc. run_steps.
  rewrite alter_lookup_total. unfold woken at 1.
  destruct (bool_decide (k_cur s = Some p)).
  { rewrite list_lookup_total_alter_id by done. by destruct s. }
  rewrite bind_acquire by done. unfold get_proc. run_steps.
  destruct (bool_decide _ && bool_decide _).
  - unfold when. unfold_acc. run_steps.
    erewrite bind_ok by (apply sys_uptime_ok; simpl; set_solver). run_steps.
    erewrite release_top by done. rewrite alter_twice, alter_lookup_total.
    by destruct s.
  - unfold when. run_steps. erewrite release_top by done.
    rewrite list_lookup_total_alter_id by done. by destruct s.
Qed.

Definition no_proc_locks (held : list lock) : Prop := forall i, LProc i ∉ held.

Lemma wakeup_ok c s :
  length (k_procs s) = NPROC -> no_proc_locks (k_held s) -> LTicks ∉ k_held s ->
  wakeup c s = Ok tt (set_k_procs (imap (woken c (k_ticks s) (k_cur s)) (k_procs s)) s).
Proof.
  intros Hlen Hp Ht. rewrite wakeup_eq. apply for_all_procs; [done|].
  intros p ps _. by rewrite wakeup_one_ok by (try apply Hp; done).
Qed.

(** The first sleeper on [c] makes [wakeup c] fail when [tickslock] is held. *)
Lemma wakeup_one_ticks_held c p s :
  LProc p ∉ k_held s -> LTicks ∈ k_held s -> k_cur s <> Some p ->
  p_state (k_procs s !!! p) = SLEEPING -> p_chan (k_procs s !!! p) = c ->
  exists s', run_code (wakeup_one c p) s = Panic "acquire" s'.
Proof.
  intros Hp Ht Hme Hst Hc. rewrite wakeup_one_eq. unfold myproc. run_steps.
  rewrite bool_decide_eq_false_2 by done. rewrite bind_acquire by done. unfold get_proc. run_steps.
  rewrite !bool_decide_eq_true_2 by done. unfold when. simpl. unfold_acc. run_steps.
  erewrite bind_panic by (apply sys_uptime_held; simpl; set_solver). by eexists.
Qed.

Lemma wakeup_one_idle c p s :
  LProc p ∉ k_held s ->
  k_cur s = Some p \/ p_state (k_procs s !!! p) <> SLEEPING \/ p_chan (k_procs s !!! p) <> c ->
  run_code (wakeup_one c p) s = Ok tt s.
Proof.
  intros Hp H. rewrite wakeup_one_eq. unfold myproc. run_steps.
  case_bool_decide as Hme; [done|]. rewrite bind_acquire by done. unfold get_proc. run_steps.
  replace (bool_decide _ && bool_decide _) with false.
  - unfold when. run_steps. erewrite release_top by done. by destruct s.
  - symmetry. apply andb_false_iff. rewrite !bool_decide_eq_false. naive_solver.
Qed.

Lemma wakeup_ticks_held c p s :
  no_proc_locks (k_held s) -> LTicks ∈ k_held s -> (p < NPROC)%nat -> k_cur s <> Some p ->
  p_state (k_procs s !!! p) = SLEEPING -> p_chan (k_procs s !!! p) = c ->
  exists s', wakeup c s = Panic "acquire" s'.
Proof.
  intros Hno Ht Hp Hme Hst Hc.
  enough (exists s', for_all (seq 0 NPROC) (fun p => run_code (wakeup_one c p)) s = Panic "acquire" s') as [s' E]
    by (exists s'; by rewrite wakeup_eq).
  assert (p ∈ seq 0 NPROC) as Hin by (apply elem_of_seq; lia).
  induction (seq 0 NPROC) as [|i l IH]; [by apply elem_of_nil in Hin|]. simpl.
  destruct (decide (k_cur s <> Some i /\ p_state (k_procs s !!! i) = SLEEPING /\
                    p_chan (k_procs s !!! i) = c)) as [(?&?&?)|Hi].
  - destruct (wakeup_one_ticks_held c i s) as [s' E]; try done.
    exists s'. by erewrite bind_panic by done.
  - erewrite bind_ok.
    2:{ apply wakeup_one_idle; [done|]. destruct (decide (k_cur s = Some i)); [by left|].
        destruct (decide (p_state (k_procs s !!! i) = SLEEPING)); [|by right; left].
        right; right. naive_solver. }
    apply IH. apply elem_of_cons in Hin as [->|]; [|done]. naive_solver.
Qed.

(** ** sched and sleep *)

Lemma holding_ok l s : holding l s = Ok (bool_decide (l ∈ k_held s)) s.
Proof. unfold holding, on_held, LockSpec.holding. by destruct s. Qed.

Section Sleep.
Context {E : Env}.

Lemma sched_run p s :
  k_cur s = Some p -> k_held s = [LProc p] -> p_state (k_procs s !!! p) <> RUNNING ->
  sched s = swtch p s.
Proof.
  intros Hc Hh Hst. rewrite sched_eq. unfold sched_check. rewrite bind_assoc. unfold curproc, myproc. run_steps. rewrite Hc. simpl deref. run_steps.
  erewrite bind_ok by apply holding_ok. rewrite bool_decide_eq_true_2 by (rewrite Hh; left). simpl.
  run_steps. rewrite Hh. simpl. unfold get_proc. run_steps. rewrite bool_decide_eq_false_2 by done.
  unfold interruptible. run_steps. by rewrite bool_decide_eq_false_2 by (by rewrite Hh).
Qed.

(** The state that [sleep c lk] leaves to the rest of the system. *)
Definition asleep (p : nat) (c : chan) (s : kernel) : kernel :=
  set_k_held [] (set_k_cur None (set_k_procs
    (alter (fun q => set_p_state SLEEPING (set_p_chan (Some c) q)) p (k_procs s)) s)).

(** The state in which it returns, from the state [s2] of the others. *)
Definition awake (p n : nat) (lk : lock) (s2 : kernel) : kernel :=
  set_k_held [lk] (set_k_clock (S n) (set_k_cur (Some p) (set_k_procs
    (alter (fun q => set_p_chan None (set_p_state RUNNING q)) p (k_procs s2)) s2))).

Lemma sleep_run p c lk s :
  k_cur s = Some p -> (p < length (k_procs s))%nat -> k_held s = [lk] -> lk <> LProc p ->
  sleep c lk s =
  match env (k_clock s) (asleep p c s) with
  | None => Blocked (asleep p c s)
  | Some s2 =>
      if decide (p_state (k_procs s2 !!! p) = RUNNABLE)
      then Ok tt (awake p (k_clock s) lk s2) else Blocked (set_k_clock (S (k_clock s)) s2)
  end.
Proof.
  intros Hc Hp Hh Hne. rewrite sleep_eq. unfold curproc, myproc. run_steps. rewrite Hc. simpl deref. run_steps.
  rewrite bind_acquire by (rewrite Hh; set_solver). rewrite Hh.
  erewrite bind_ok by (apply release_ok; simpl; set_solver). simpl.
  assert (LockSpec.remove1 lk [LProc p; lk] = [LProc p]) as ->.
  { unfold LockSpec.remove1.
    by rewrite filter_cons_True, filter_cons_False, filter_nil by (simpl; congruence). }
  unfold_acc. run_steps. rewrite alter_twice.
  assert (forall k : unit -> K unit, forall s' : kernel,
    k_cur s' = Some p -> k_held s' = [LProc p] -> p_state (k_procs s' !!! p) <> RUNNING ->
    bind sched k s' = bind (swtch p) k s') as Hs.
  { intros k s' ???. unfold bind. by rewrite (sched_run p). }
  rewrite Hs; [|done|done|].
  2:{ simpl. by rewrite list_lookup_total_alter_eq. }
  unfold bind at 1. rewrite swtch_eq. simpl.
  replace (LockSpec.remove1 (LProc p) [LProc p]) with (@nil lock)
    by (symmetry; by apply remove1_cons, not_elem_of_nil).
  fold (asleep p c s). replace (set_k_held [] _) with (asleep p c s) by by destruct s.
  destruct (env _ _) as [s2|]; [|done]. destruct (decide _); [|done].
  run_steps. erewrite bind_release by (done || apply not_elem_of_nil).
  rewrite acquire_ok by (apply not_elem_of_nil). rewrite alter_twice. unfold awake. by destruct s2.
Qed.
End Sleep.

(** ** Table searches *)

Lemma for_each_find {W A B} (body : A -> M W (option B)) (P : A -> bool) (v : A -> B)
    (g : A -> W) l w :
  (forall a, a ∈ l -> body a w = if P a then Ok (Some (v a)) (g a) else Ok None w) ->
  for_each l body w =
  match list_find (fun a => P a = true) l with
  | Some (_, a) => Ok (Some (v a)) (g a)
  | None => Ok None w
  end.
Proof.
  induction l as [|a l IH]; intros H; simpl; [done|].
  specialize (IH (fun b Hb => H b (list_elem_of_further _ _ _ Hb))).
  pose proof (H a (list_elem_of_here _ _)) as Ha. unfold bind. rewrite Ha.
  destruct (P a) eqn:E; [by rewrite decide_True by done|].
  rewrite decide_False by done. rewrite IH.
  destruct (list_find _ l) as [[]|]; done.
Qed.

Lemma list_find_seq (P : nat -> bool) n i :
  (i < n)%nat -> P i = true -> (forall j, (j < i)%nat -> P j = false) ->
  list_find (fun a => P a = true) (seq 0 n) = Some (i, i).
Proof.
  intros Hi HP Hj. apply list_find_Some. split_and!; [by apply lookup_seq_lt|done|].
  intros j y Hy Hlt. apply lookup_seq in Hy as [-> _]. simpl. rewrite Hj; done.
Qed.

(** ** kill *)

Definition kill_mark (q : proc) : proc :=
  if decide (p_state q = SLEEPING) then set_p_state RUNNABLE (set_p_killed 1 q) else set_p_killed 1 q.

Lemma kill_run pid s :
  no_proc_locks (k_held s) ->
  kill pid s =
  match list_find (fun i => (p_pid (k_procs s !!! i) =? pid) = true) (seq 0 NPROC) with
  | Some (_, i) => Ok 0 (set_k_procs (alter kill_mark i (k_procs s)) s)
  | None => Ok (-1) s
  end.
Proof.
  intros Hno. unfold kill, bind at 1.
  rewrite (for_each_find _ (fun i => p_pid (k_procs s !!! i) =? pid) (fun _ => 0)
             (fun i => set_k_procs (alter kill_mark i (k_procs s)) s)).
  { by destruct (list_find _ _) as [[]|]. }
  intros i _. rewrite bind_acquire by apply Hno. unfold get_proc. run_steps.
  destruct (_ =? pid).
  - unfold upd_proc. run_steps. rewrite (alter_lookup_total kill_mark). unfold kill_mark.
    case_bool_decide as Hs.
    + rewrite decide_True by done. unfold when. run_steps. erewrite bind_release by apply Hno || done.
      rewrite alter_twice, alter_lookup_total. by destruct s.
    + rewrite decide_False by done. unfold when. run_steps. erewrite bind_release by apply Hno || done.
      rewrite alter_lookup_total. by destruct s.
  - erewrite bind_release by apply Hno || done. by destruct s.
Qed.

(** ** Fairness of the scheduler's round *)

(** What a process does with the processor: [ran p] is a trace that its run
    leaves in the part of the state that is not the scheduler's. *)
Record well_run (run : nat -> K unit) (ran : nat -> kernel -> Prop) : Prop := {
  run_returns : forall p s, (p < NPROC)%nat -> k_held s = [LProc p] -> k_cur s = Some p ->
    p_state (k_procs s !!! p) = RUNNING ->
    wp (run p) (fun _ s' =>
      k_held s' = [LProc p] /\ ran p s' /\ (forall q, ran q s -> ran q s') /\
      length (k_procs s') = length (k_procs s) /\
      forall q, q <> p -> p_state (k_procs s !!! q) = RUNNABLE ->
        p_state (k_procs s' !!! q) = RUNNABLE) s;
  ran_held : forall p s h, ran p s -> ran p (set_k_held h s);
  ran_cur : forall p s c, ran p s -> ran p (set_k_cur c s);
  ran_procs : forall p s ps, ran p s -> ran p (set_k_procs ps s);
}.

Section Fair.
Context (run : nat -> K unit) (ran : nat -> kernel -> Prop) (Hrun : well_run run ran).

Lemma scheduler_visit_ok p s :
  (p < NPROC)%nat -> k_held s = [] -> length (k_procs s) = NPROC ->
  wp (scheduler_visit run p) (fun _ s' =>
    k_held s' = [] /\ length (k_procs s') = NPROC /\
    (p_state (k_procs s !!! p) = RUNNABLE -> ran p s') /\
    (forall q, ran q s -> ran q s') /\
    (forall q, q <> p -> p_state (k_procs s !!! q) = RUNNABLE ->
       p_state (k_procs s' !!! q) = RUNNABLE)) s.
Proof.
  intros Hp Hh Hlen. destruct Hrun as [R Rh Rc Rp]. unfold scheduler_visit. wp_step.
  apply wp_acquire; [rewrite Hh; apply not_elem_of_nil|]. rewrite Hh. kwp.
  unfold when. case_bool_decide as Hst; simpl in Hst.
  - kwp. eapply wp_mono; [apply R; try done|].
    { simpl. rewrite list_lookup_total_alter_eq by lia. done. }
    intros [] s1 (Hh1 & Hran & Hmono & Hl1 & Hkeep). simpl in *. kwp.
    eapply wp_release; [done|apply not_elem_of_nil|]. simpl. split_and!; [done| | | |].
    + by rewrite Hl1, length_alter.
    + auto.
    + auto 10.
    + intros q Hq Hr. apply Hkeep; [done|]. by rewrite list_lookup_total_alter_ne.
  - kwp. eapply wp_release; [done|apply not_elem_of_nil|]. simpl. split_and!; try done. auto.
Qed.
End Fair.

(** C28: one round of the scheduler gives the processor to every process that
    was runnable when the round began, whatever each of them does with it
    short of taking another's turn away; the scheduler holds no lock
    afterwards. *)
Theorem scheduler_round_fair run ran s :
  well_run run ran -> k_held s = [] -> length (k_procs s) = NPROC ->
  wp (scheduler_round run) (fun _ s' =>
    k_held s' = [] /\
    forall p, (p < NPROC)%nat -> p_state (k_procs s !!! p) = RUNNABLE -> ran p s') s.
Proof.
  intros Hrun Hh Hlen. unfold scheduler_round.
  apply (wp_for_all _ _ (fun done s' =>
    k_held s' = [] /\ length (k_procs s') = NPROC /\
    (forall p, p ∈ done -> p_state (k_procs s !!! p) = RUNNABLE -> ran p s') /\
    (forall p, p ∉ done -> p_state (k_procs s !!! p) = RUNNABLE ->
       p_state (k_procs s' !!! p) = RUNNABLE))).
  - intros done p todo w Hsplit (Hw & Hl & Hdone & Htodo).
    assert (p ∈ seq 0 NPROC /\ p ∉ done) as [Hp%elem_of_seq Hnd].
    { pose proof (NoDup_seq 0 NPROC) as N. rewrite Hsplit in *.
      apply NoDup_app in N as (_ & N & _). split; [set_solver|]. intros Hin. by apply (N p Hin); left. }
    eapply wp_mono; [eapply scheduler_visit_ok; try done; lia|].
    intros [] s' (H1 & H2 & H3 & H4 & H5). split_and!; [done..| |].
    + intros q [Hq|Hq]%elem_of_app Hr; [auto|].
      apply list_elem_of_singleton in Hq as ->. auto.
    + intros q Hq Hr. apply H5; [set_solver|]. apply Htodo; [set_solver|done].
  - intros w (? & ? & H & _). split; [done|]. intros p Hp. apply H, elem_of_seq. lia.
  - split_and!; try done. intros p Hp. by apply not_elem_of_nil in Hp.
Qed.

(** [wakeup c] makes runnable every process that sleeps on [c], other than
    the caller, and stamps it with the current time; every other process, and
    the rest of the kernel's state, is left as it was. *)
Lemma wakeup_spec c s :
  length (k_procs s) = NPROC -> no_proc_locks (k_held s) -> LTicks ∉ k_held s ->
  wp (wakeup c) (fun _ s' =>
    s' = set_k_procs (k_procs s') s /\ length (k_procs s') = NPROC /\
    forall i, (i < NPROC)%nat ->
      let q := k_procs s !!! i in
      let sleeper := k_cur s <> Some i /\ p_state q = SLEEPING /\ p_chan q = c in
      (sleeper -> k_procs s' !!! i = set_p_readytime (k_ticks s) (set_p_state RUNNABLE q)) /\
      (~ sleeper -> k_procs s' !!! i = q)) s.
Proof.
  intros Hlen Hno Ht. eapply wp_eq; [by apply wakeup_ok|]. simpl.
  split_and!; [done|by rewrite length_imap|]. intros i Hi.
  destruct (lookup_lt_is_Some_2 (k_procs s) i) as [q Hq]; [lia|].
  rewrite (list_lookup_total_correct _ _ _ Hq).
  erewrite (list_lookup_total_correct (imap _ _)) by (rewrite list_lookup_imap, Hq; done).
  unfold woken. repeat case_bool_decide; simpl; naive_solver.
Qed.

(** [kill pid] marks the first process with that id as killed, making it
    runnable if it sleeps, and returns 0; it returns -1 and changes nothing if
    no slot has the id. *)
Lemma kill_spec pid s :
  no_proc_locks (k_held s) ->
  (forall i, (i < NPROC)%nat -> p_pid (k_procs s !!! i) = pid ->
     (forall j, (j < i)%nat -> p_pid (k_procs s !!! j) <> pid) ->
     kill pid s = Ok 0 (set_k_procs (alter kill_mark i (k_procs s)) s)) /\
  ((forall i, (i < NPROC)%nat -> p_pid (k_procs s !!! i) <> pid) -> kill pid s = Ok (-1) s).
Proof.
  intros Hno. rewrite kill_run by done. split.
  - intros i Hi Hpid Hj.
    rewrite (list_find_seq (fun i => p_pid (k_procs s !!! i) =? pid) NPROC i); [done|done|lia|].
    intros j Hlt. specialize (Hj j Hlt). lia.
  - intros Hnone. destruct (list_find _ _) as [[n i]|] eqn:F; [|done].
    apply list_find_Some in F as (Hi & Hp & _). apply lookup_seq in Hi as [-> Hi].
    exfalso. apply (Hnone _ Hi). simpl in Hp. lia.
Qed.

(** C29: [wakeup c] makes runnable, with the current time, every process that sleeps
    on [c] other than the caller, and [kill pid] marks the first slot with that id
    as killed and makes it runnable if it sleeps, or returns -1 if there is none;
    nothing else changes.  [kill] does not ask whether the slot is in use. *)
Theorem wakeup_kill_correct s : no_proc_locks (k_held s) ->
  (forall c, length (k_procs s) = NPROC -> LTicks ∉ k_held s ->
   wp (wakeup c) (fun _ s' =>
     s' = set_k_procs (k_procs s') s /\ length (k_procs s') = NPROC /\
     forall i, (i < NPROC)%nat ->
       let q := k_procs s !!! i in
       let sleeper := k_cur s <> Some i /\ p_state q = SLEEPING /\ p_chan q = c in
       (sleeper -> k_procs s' !!! i = set_p_readytime (k_ticks s) (set_p_state RUNNABLE q)) /\
       (~ sleeper -> k_procs s' !!! i = q)) s) /\
  (forall pid,
   (forall i, (i < NPROC)%nat -> p_pid (k_procs s !!! i) = pid -> (forall j, (j < i)%nat -> p_pid (k_procs s !!! j) <> pid) ->
    kill pid s = Ok 0 (set_k_procs (alter kill_mark i (k_procs s)) s)) /\
   ((forall i, (i < NPROC)%nat -> p_pid (k_procs s !!! i) <> pid) -> kill pid s = Ok (-1) s)).
Proof. intros Hno. split; [intros; by apply wakeup_spec|intros pid; by apply kill_spec]. Qed.

Module SchedDemo.
(** Process 3 is about to sleep on the log, 5 sleeps there. *)
Definition s0 : kernel :=
  set_k_ticks 7 (set_k_cur (Some 3%nat) (set_k_held [LLog] (set_k_procs
    (<[3%nat := set_p_pid 4 (set_p_state RUNNING proc0)]>
      (<[5%nat := set_p_pid 9 (set_p_chan (Some CLog) (set_p_state SLEEPING proc0))]>
        (replicate NPROC proc0))) kernel0))).

Lemma llog_no_proc_locks : no_proc_locks [LLog].
Proof. intros i Hi. apply list_elem_of_singleton in Hi. done. Qed.

Lemma wakeup_kill_correct_witness :
  wp (wakeup (Some CLog)) (fun _ s' => p_state (k_procs s' !!! 5%nat) = RUNNABLE) s0 /\
  kill 9 s0 = Ok 0 (set_k_procs (alter kill_mark 5%nat (k_procs s0)) s0) /\ kill 77 s0 = Ok (-1) s0.
Proof.
  split_and!.
  - eapply wp_mono; [apply (proj1 (wakeup_kill_correct s0 llog_no_proc_locks) (Some CLog)); [vm_compute; reflexivity|intros Hi; apply list_elem_of_singleton in Hi; done]|].
    intros [] s' (_ & _ & H). rewrite (proj1 (H 5%nat ltac:(unfold NPROC; lia))); [done|]. split_and!; vm_compute; congruence.
  - apply (proj1 (proj2 (wakeup_kill_correct s0 llog_no_proc_locks) 9)); [unfold NPROC; lia|vm_compute; reflexivity|].
    intros j Hj. do 5 (destruct j as [|j]; [vm_compute; congruence|]). lia.
  - apply (proj2 (proj2 (wakeup_kill_correct s0 llog_no_proc_locks) 77)). intros i Hi. unfold NPROC in Hi. do 64 (destruct i as [|i]; [vm_compute; congruence|]). lia.
Defined.

(** Running marks a byte of memory. *)
Definition run1 (p : nat) : K unit :=
  upd_mem (<[Z.of_nat p := 1]>) ;; upd_proc p (set_p_state RUNNABLE).
Definition ran1 (p : nat) (s : kernel) : Prop := k_mem s !! Z.of_nat p = Some 1.

Lemma run1_ok : well_run run1 ran1.
Proof.
  split; try done. intros p s _ Hh _ _. unfold run1. kwp. simpl. split_and!; [done| | | |].
  - apply lookup_insert_eq.
  - intros q Hq. unfold ran1. simpl. destruct (decide (p = q)) as [->|].
    + apply lookup_insert_eq.
    + rewrite lookup_insert_ne by lia. done.
  - apply length_alter.
  - intros q Hq Hr. by rewrite list_lookup_total_alter_ne by congruence.
Qed.

Lemma scheduler_round_fair_witness :
  wp (scheduler_round run1) (fun _ s' => ran1 3 s')
    (set_k_held [] (set_k_procs (<[3%nat := set_p_state RUNNABLE proc0]> (k_procs s0)) s0)).
Proof.
  eapply wp_mono; [apply (scheduler_round_fair run1 ran1 _ run1_ok); vm_compute; reflexivity|].
  intros [] s' [_ H]. apply H; [unfold NPROC; lia|vm_compute; reflexivity].
Defined.
End SchedDemo.
