(* ===== verification/SleepWake.v ===== *)
(** * No lost wakeup: kernel/proc.c, sleep and wakeup interleaved

    One kernel thread calls [sleep c lk] and another takes [lk] and calls
    [wakeup c]; their actions interleave in any order that the locks allow,
    with the rest of the system running in between. *)

From S2P Require Import Prelude Bytes Params CString Spinlock State Kalloc Vm Sched SchedProofs.

(** ** Threads *)

(** A kernel thread: the locks it holds, [myproc()], and what it has left to do. *)
Record thread := mkThread {
  t_held : list lock;
  t_cur : option nat;
  t_code : code kernel unit;
}.

Record config := mkConfig { shared : kernel; sleeper : thread; waker : thread }.

Definition view (t : thread) (s : kernel) : kernel := set_k_held (t_held t) (set_k_cur (t_cur t) s).

(** Thread [t] does its next action; it cannot take a lock that [u] holds, and
    waits where the action is blocked. *)
Definition moves (s : kernel) (t u : thread) (s' : kernel) (t' : thread) : Prop :=
  exists c', t_code t <> Ret tt /\ advance (t_code t) (view t s) = Ok c' s' /\
    t' = mkThread (k_held s') (k_cur s') c' /\ k_held s' ## t_held u.

Inductive step : config -> config -> Prop :=
| step_sleeper s t u s' t' : moves s t u s' t' -> step (mkConfig s t u) (mkConfig s' t' u)
| step_waker s t u s' u' : moves s u t s' u' -> step (mkConfig s t u) (mkConfig s' t u').

(** The rest of the system leaves the state and the channel of process [p]
    alone. *)
Definition rest (p : nat) (a b : config) : Prop :=
  sleeper b = sleeper a /\ waker b = waker a /\
  length (k_procs (shared b)) = length (k_procs (shared a)) /\
  p_state (k_procs (shared b) !!! p) = p_state (k_procs (shared a) !!! p) /\
  p_chan (k_procs (shared b) !!! p) = p_chan (k_procs (shared a) !!! p).

(** [n] steps of the two threads. *)
Inductive runs (p : nat) : nat -> config -> config -> Prop :=
| runs_nil a : runs p O a a
| runs_step n a b c : runs p n a b -> step b c -> runs p (S n) a c
| runs_rest n a b c : runs p n a b -> rest p b c -> runs p n a c.

(** [swtch] to the scheduler, and the scheduler's [swtch] back. *)
Definition swtch_code (p : nat) : code kernel unit :=
  _ <~ atom (swtch_out p) ;;
  atom (swtch_in p).

Definition sleep_thread (p : nat) (c : chan) (lk : lock) : thread :=
  mkThread [lk] (Some p) (sleep_code swtch_code c lk).

(** The waker changes what the sleeper waits for under [lk]. *)
Definition wake_thread (me : option nat) (c : chan) (lk : lock) : thread :=
  mkThread [] me (_ <~ atom (acquire lk) ;; _ <~ wakeup_code (Some c) ;; atom (release lk)).

Definition finished (a : config) : Prop :=
  t_code (sleeper a) = Ret tt /\ t_code (waker a) = Ret tt.

(** ** The length of a run *)

Fixpoint within {W A} (c : code W A) (n : nat) : Prop :=
  match c, n with
  | Ret _, _ => True
  | Act m k, O => False
  | Act m k, S n' => forall x, within (k x) n'
  end.

Lemma within_mono {W A} (c : code W A) n m : (n <= m)%nat -> within c n -> within c m.
Proof.
  revert n m. induction c as [a|B a k IH]; intros n m Hle H; [done|].
  destruct n as [|n]; [done|]. destruct m as [|m]; [lia|]. intros x. apply (IH x n); [lia|]. apply H.
Qed.

Lemma within_bind {W A B} (c : code W A) (f : A -> code W B) n m :
  within c n -> (forall a, within (f a) m) -> within (code_bind c f) (n + m).
Proof.
  revert n. induction c as [a|X a k IH]; intros n H Hf; [apply (within_mono _ m); [lia|apply Hf]|].
  destruct n as [|n]; [done|]. intros x. by apply IH.
Qed.

Lemma within_atom {W A B} (m : M W A) (f : A -> code W B) n :
  (forall a, within (f a) n) -> within (code_bind (atom m) f) (S n).
Proof. done. Qed.

Lemma within_all {W A} (l : list A) (f : A -> code W unit) n :
  (forall a, within (f a) n) -> within (code_all l f) (length l * n).
Proof. intros H. induction l as [|x l IH]; [done|]. simpl. by apply within_bind. Qed.

Lemma within_advance {W A} (c c' : code W A) n w w' :
  (forall a, c <> Ret a) -> within c n -> advance c w = Ok c' w' ->
  exists n', n = S n' /\ within c' n'.
Proof.
  intros Hc H Ha. destruct c as [a|B m k]; [by destruct (Hc a)|]. destruct n as [|n]; [done|].
  exists n. split; [done|]. simpl in Ha. unfold bind, ret in Ha.
  destruct (m w) as [x w1| | |]; try done. injection Ha as <- _. apply H.
Qed.

Definition sleep_length : nat := 11.
Definition wake_length : nat := 2 + NPROC * 9.

Lemma sleep_within p c lk : within (t_code (sleep_thread p c lk)) sleep_length.
Proof. simpl. unfold sleep_length. done. Qed.

Lemma wakeup_one_within c i : within (wakeup_one (Some c) i) 9.
Proof.
  unfold wakeup_one. apply within_atom. intros me.
  destruct (bool_decide _); [done|]. apply within_atom. intros []. apply within_atom. intros q.
  by destruct (_ && _).
Qed.

Lemma wake_within me c lk : within (t_code (wake_thread me c lk)) wake_length.
Proof.
  apply (within_mono _ (S (length (seq 0 NPROC) * 9 + 1))); [rewrite length_seq; unfold wake_length; lia|].
  apply (within_atom (acquire lk) (fun _ => _ <~ wakeup_code (Some c) ;; atom (release lk))). intros _.
  apply (within_bind (wakeup_code (Some c)) (fun _ => atom (release lk)) (length (seq 0 NPROC) * 9) 1); [|done].
  apply within_all, wakeup_one_within.
Qed.

Lemma runs_length p n a b ms mw :
  runs p n a b -> within (t_code (sleeper a)) ms -> within (t_code (waker a)) mw ->
  exists ms' mw', within (t_code (sleeper b)) ms' /\ within (t_code (waker b)) mw' /\
    (n + ms' + mw' = ms + mw)%nat.
Proof.
  intros R Hs Hw. induction R as [a|n a b c R IH Hst|n a b c R IH (E1 & E2 & _)].
  - eauto with lia.
  - destruct (IH Hs Hw) as (x & y & Hx & Hy & E).
    destruct Hst as [s t u s' t' (c' & Hc & Ha & -> & _)|s t u s' u' (c' & Hc & Ha & -> & _)]; simpl in *.
    + destruct (within_advance (t_code t) c' x (view t s) s') as (x' & -> & Hx'); [by intros []|done..|].
      exists x', y. split_and!; [done..|lia].
    + destruct (within_advance (t_code u) c' y (view u s) s') as (y' & -> & Hy'); [by intros []|done..|].
      exists x, y'. split_and!; [done..|lia].
  - destruct (IH Hs Hw) as (x & y & Hx & Hy & E). rewrite E1, E2. eauto.
Qed.

(** ** Where the two threads are *)
Section Protocol.
Context (p : nat) (c : chan) (lk : lock) (me : option nat).
Context (Hp : (p < NPROC)%nat) (Hme : me <> Some p) (Hticks : lk <> LTicks) (Hproc : forall i, lk <> LProc i).

(** What [sleep] has left to do at each point. *)
Definition s10 : code kernel unit := atom (acquire lk).
Definition s9 : code kernel unit := _ <~ atom (release (LProc p)) ;; s10.
Definition s8 : code kernel unit := _ <~ atom (upd_proc p (set_p_chan None)) ;; s9.
Definition s7 : code kernel unit := _ <~ atom (swtch_in p) ;; s8.
Definition s6 : code kernel unit := _ <~ atom (swtch_out p) ;; s7.
Definition s5 : code kernel unit := _ <~ sched_code swtch_code ;; s8.
Definition s4 : code kernel unit := _ <~ atom (upd_proc p (set_p_state SLEEPING)) ;; s5.
Definition s3 : code kernel unit := _ <~ atom (upd_proc p (set_p_chan (Some c))) ;; s4.
Definition s2 : code kernel unit := _ <~ atom (release lk) ;; s3.
Definition s1 : code kernel unit := _ <~ atom (acquire (LProc p)) ;; s2.

(** The sleeper, when the process entry is [q], [started] says whether the waker
    has had [lk] and [woken] whether it has made the process runnable. *)
Inductive s_at (q : proc) (started woken : bool) : thread -> Prop :=
| at_s0 : started = false -> s_at q started woken (mkThread [lk] (Some p) (sleep_code swtch_code c lk))
| at_s1 : started = false -> s_at q started woken (mkThread [lk] (Some p) s1)
| at_s2 : started = false -> s_at q started woken (mkThread [LProc p; lk] (Some p) s2)
| at_s3 : woken = false -> s_at q started woken (mkThread [LProc p] (Some p) s3)
| at_s4 : woken = false -> p_chan q = Some c -> s_at q started woken (mkThread [LProc p] (Some p) s4)
| at_s5 : woken = false -> p_chan q = Some c -> p_state q = SLEEPING ->
    s_at q started woken (mkThread [LProc p] (Some p) s5)
| at_s6 : woken = false -> p_chan q = Some c -> p_state q = SLEEPING ->
    s_at q started woken (mkThread [LProc p] (Some p) s6)
| at_s7 : (if woken then p_state q = RUNNABLE else p_chan q = Some c /\ p_state q = SLEEPING) ->
    s_at q started woken (mkThread [] None s7)
| at_s8 : woken = true -> p_state q = RUNNING -> s_at q started woken (mkThread [LProc p] (Some p) s8)
| at_s9 : woken = true -> p_state q = RUNNING -> p_chan q = None ->
    s_at q started woken (mkThread [LProc p] (Some p) s9)
| at_s10 : woken = true -> p_state q = RUNNING -> p_chan q = None ->
    s_at q started woken (mkThread [] (Some p) s10)
| at_s11 : woken = true -> p_state q = RUNNING -> p_chan q = None ->
    s_at q started woken (mkThread [lk] (Some p) (Ret tt)).

(** What [wakeup] has left to do for process [i]. *)
Definition v8 (i : nat) : code kernel unit := atom (release (LProc i)).
Definition v7 (i : nat) (t : Z) : code kernel unit := _ <~ atom (upd_proc i (set_p_readytime t)) ;; v8 i.
Definition v6 (i : nat) (t : Z) : code kernel unit := _ <~ atom (release LTicks) ;; v7 i t.
Definition v5 (i : nat) : code kernel unit := t <~ atom (gets k_ticks) ;; v6 i t.
Definition v4 (i : nat) : code kernel unit := _ <~ atom (acquire LTicks) ;; v5 i.
Definition v3 (i : nat) : code kernel unit := _ <~ atom (upd_proc i (set_p_state RUNNABLE)) ;; v4 i.
Definition v2 (i : nat) : code kernel unit :=
  q <~ atom (get_proc i) ;;
  _ <~ (if bool_decide (p_state q = SLEEPING) && bool_decide (p_chan q = Some c) then
          _ <~ atom (upd_proc i (set_p_state RUNNABLE)) ;;
          t <~ uptime_code ;;
          atom (upd_proc i (set_p_readytime t))
        else Ret tt) ;;
  v8 i.
Definition v1 (i : nat) : code kernel unit := _ <~ atom (acquire (LProc i)) ;; v2 i.
Definition visits (v : code kernel unit) (i : nat) : code kernel unit :=
  _ <~ (_ <~ v ;; code_all (seq (S i) (NPROC - S i)) (wakeup_one (Some c))) ;; atom (release lk).
Definition visit_all (i : nat) : code kernel unit :=
  _ <~ code_all (seq i (NPROC - i)) (wakeup_one (Some c)) ;; atom (release lk).

(** The waker.  It has woken the sleeper once it is past its update of [p]. *)
Inductive w_at : bool -> bool -> thread -> Prop :=
| at_w0 : w_at false false (wake_thread me c lk)
| at_visits i : (i <= NPROC)%nat -> w_at true (bool_decide (p < i)%nat) (mkThread [lk] me (visit_all i))
| at_v1 i : (i < NPROC)%nat -> w_at true (bool_decide (p < i)%nat) (mkThread [lk] me (visits (v1 i) i))
| at_v2 i : (i < NPROC)%nat -> w_at true (bool_decide (p < i)%nat) (mkThread [LProc i; lk] me (visits (v2 i) i))
| at_v3 i : (i < NPROC)%nat -> w_at true (bool_decide (p < i)%nat) (mkThread [LProc i; lk] me (visits (v3 i) i))
| at_v4 i : (i < NPROC)%nat -> w_at true (bool_decide (p <= i)%nat) (mkThread [LProc i; lk] me (visits (v4 i) i))
| at_v5 i : (i < NPROC)%nat ->
    w_at true (bool_decide (p <= i)%nat) (mkThread [LTicks; LProc i; lk] me (visits (v5 i) i))
| at_v6 i t : (i < NPROC)%nat ->
    w_at true (bool_decide (p <= i)%nat) (mkThread [LTicks; LProc i; lk] me (visits (v6 i t) i))
| at_v7 i t : (i < NPROC)%nat ->
    w_at true (bool_decide (p <= i)%nat) (mkThread [LProc i; lk] me (visits (v7 i t) i))
| at_v8 i : (i < NPROC)%nat -> w_at true (bool_decide (p <= i)%nat) (mkThread [LProc i; lk] me (visits (v8 i) i))
| at_w_done : w_at true true (mkThread [] me (Ret tt)).

Record inv (a : config) : Prop := {
  inv_procs : length (k_procs (shared a)) = NPROC;
  inv_at : exists started woken, s_at (k_procs (shared a) !!! p) started woken (sleeper a) /\
    w_at started woken (waker a);
  inv_locks : t_held (sleeper a) ## t_held (waker a);
}.

Lemma s_at_ext q q' started woken t :
  p_state q' = p_state q -> p_chan q' = p_chan q -> s_at q started woken t -> s_at q' started woken t.
Proof. intros E1 E2 H. destruct H; constructor; rewrite ?E1, ?E2; done. Qed.

Lemma advance_atom {A} (m : K A) (f : A -> code kernel unit) s x s' :
  m s = Ok x s' -> advance (code_bind (atom m) f) s = Ok (f x) s'.
Proof. intros E. simpl. unfold bind. by rewrite E. Qed.

Lemma unstarted woken u : w_at false woken u -> woken = false /\ t_held u = [].
Proof. intros H. by inversion H. Qed.

(** The sleeper can do its next action, unless the waker holds the lock for it. *)
Definition sleeper_goes (s : kernel) (t u : thread) (started woken : bool) : Prop :=
  exists c' s', advance (t_code t) (view t s) = Ok c' s' /\ length (k_procs s') = NPROC /\
    s_at (k_procs s' !!! p) started woken (mkThread (k_held s') (k_cur s') c') /\
    (t_held t = [] \/ k_held s' ⊆ t_held t \/ t_held u = []).

Lemma sleeper_atom {A} (m : K A) (f : A -> code kernel unit) h cu s u started woken x s' :
  m (set_k_held h (set_k_cur cu s)) = Ok x s' -> length (k_procs s') = NPROC ->
  s_at (k_procs s' !!! p) started woken (mkThread (k_held s') (k_cur s') (f x)) ->
  (h = [] \/ k_held s' ⊆ h \/ t_held u = []) ->
  sleeper_goes s (mkThread h cu (code_bind (atom m) f)) u started woken.
Proof. intros E Hl Hs Hh. exists (f x), s'. split_and!; [by apply advance_atom|done..]. Qed.

Lemma sleeper_upd f k s u started woken :
  length (k_procs s) = NPROC -> s_at (f (k_procs s !!! p)) started woken (mkThread [LProc p] (Some p) k) ->
  sleeper_goes s (mkThread [LProc p] (Some p) (_ <~ atom (upd_proc p f) ;; k)) u started woken.
Proof.
  intros Hl Hs. eapply (sleeper_atom (upd_proc p f) (fun _ => k)); [reflexivity| | |by right; left]; simpl.
  - by rewrite length_alter.
  - by rewrite list_lookup_total_alter_eq by lia.
Qed.

Lemma sched_check_ok s :
  k_cur s = Some p -> k_held s = [LProc p] -> p_state (k_procs s !!! p) = SLEEPING -> sched_check s = Ok p s.
Proof.
  intros Hc Hh Hst. unfold sched_check, curproc, myproc. run_steps. rewrite Hc. simpl deref. run_steps.
  erewrite bind_ok by apply holding_ok. rewrite bool_decide_eq_true_2 by (rewrite Hh; left). simpl.
  run_steps. rewrite Hh. simpl. unfold get_proc. run_steps. rewrite Hst. simpl.
  unfold interruptible. run_steps. by rewrite Hh.
Qed.

Lemma remove_lk : LockSpec.remove1 lk [LProc p; lk] = [LProc p].
Proof.
  unfold LockSpec.remove1.
  by rewrite filter_cons_True, filter_cons_False, filter_nil by (simpl; naive_solver).
Qed.

Lemma remove_only (l : lock) : LockSpec.remove1 l [l] = [].
Proof. by apply remove1_cons, not_elem_of_nil. Qed.

(** The sleeper's next action: it can do it, or it holds no lock and waits for the
    waker. *)
Lemma sleeper_next s t u started woken :
  length (k_procs s) = NPROC -> s_at (k_procs s !!! p) started woken t -> w_at started woken u ->
  t = mkThread [lk] (Some p) (Ret tt) \/
  t_code t <> Ret tt /\
  ((t_held t = [] /\ woken = false /\ advance (t_code t) (view t s) = Blocked (view t s)) \/
   sleeper_goes s t u started woken).
Proof.
  intros Hl Hs Hu. destruct Hs as [E|E|E|E|E Hc|E Hc Hst|E Hc Hst|Hst|E Hst|E Hst Hc|E Hst Hc|E Hst Hc];
    [right..|by left]; (split; [done|]).
  - right. apply (sleeper_atom curproc _ _ _ _ _ _ _ p (set_k_held [lk] (set_k_cur (Some p) s)));
      [done|done|by apply at_s1|by right; left].
  - right. subst. eapply (sleeper_atom (acquire (LProc p)) (fun _ => s2)).
    { apply acquire_ok. simpl. intros Hi%list_elem_of_singleton. by destruct (Hproc p). }
    + done.
    + by apply at_s2.
    + right. right. by eapply unstarted.
  - right. subst. eapply (sleeper_atom (release lk) (fun _ => s3)); [apply release_ok; simpl; set_solver|done| |].
    + simpl. rewrite remove_lk. apply at_s3. by eapply unstarted.
    + right. left. simpl. rewrite remove_lk. set_solver.
  - right. apply sleeper_upd; [done|]. by apply at_s4.
  - right. apply sleeper_upd; [done|]. by apply at_s5.
  - right. eapply (sleeper_atom sched_check (fun p => _ <~ swtch_code p ;; s8)); [by apply sched_check_ok|done| |by right; left].
    by apply at_s6.
  - right. eapply (sleeper_atom (swtch_out p) (fun _ => s7)); [reflexivity|done| |]; simpl; rewrite remove_only.
    + apply at_s7. by subst.
    + right. left. set_solver.
  - destruct woken; [right|left].
    + eapply (sleeper_atom (swtch_in p) (fun _ => s8)); [unfold swtch_in; simpl; by rewrite decide_True| | |by left].
      * simpl. by rewrite length_alter.
      * simpl. rewrite list_lookup_total_alter_eq by lia. by apply at_s8.
    + destruct Hst as [_ Hst]. split_and!; [done..|]. simpl. unfold bind, swtch_in, view. simpl. by rewrite Hst.
  - right. apply sleeper_upd; [done|]. by apply at_s9.
  - right. eapply (sleeper_atom (release (LProc p)) (fun _ => s10)); [apply release_ok; simpl; set_solver|done| |].
    + simpl. rewrite remove_only. by apply at_s10.
    + right. left. simpl. rewrite remove_only. set_solver.
  - right. eapply (sleeper_atom (acquire lk) Ret); [apply acquire_ok, not_elem_of_nil|done|by apply at_s11|by left].
Qed.

(** The waker can do its next action, unless the sleeper holds the lock for it. *)
Definition waker_goes (s : kernel) (t u : thread) : Prop :=
  exists c' s', advance (t_code u) (view u s) = Ok c' s' /\ length (k_procs s') = NPROC /\
    (k_held s' ## t_held t -> exists started woken,
      s_at (k_procs s' !!! p) started woken t /\ w_at started woken (mkThread (k_held s') (k_cur s') c')).

Lemma waker_visit {A} (m : K A) (f : A -> code kernel unit) i h s t x s' :
  m (set_k_held h (set_k_cur me s)) = Ok x s' -> length (k_procs s') = NPROC ->
  (exists woken, s_at (k_procs s' !!! p) true woken t /\
     w_at true woken (mkThread (k_held s') (k_cur s') (visits (f x) i))) ->
  waker_goes s t (mkThread h me (visits (code_bind (atom m) f) i)).
Proof.
  intros E Hl (woken & Hs & Hw). exists (visits (f x) i), s'. split_and!; [|done|by exists true, woken].
  simpl. unfold bind, view. simpl. by rewrite E.
Qed.

(** Before it is woken, a sleeper without its locks is asleep. *)
Lemma must_sleep q t : s_at q true false t -> lk ∉ t_held t -> LProc p ∉ t_held t ->
  p_chan q = Some c /\ p_state q = SLEEPING /\ t = mkThread [] None s7.
Proof.
  intros H Hlk Hpr. destruct H; try done; simpl in *; try (by destruct Hpr; left). naive_solver.
Qed.

Lemma s_at_started q woken t : s_at q false woken t -> lk ∉ t_held t -> s_at q true woken t.
Proof.
  intros H Hlk. destruct H; try (by constructor); destruct Hlk; simpl; set_solver.
Qed.

Lemma past_ne i : i <> p -> bool_decide (p < i)%nat = bool_decide (p <= i)%nat.
Proof. intros Hi. apply bool_decide_ext. lia. Qed.

Lemma past_next i : bool_decide (p <= i)%nat = bool_decide (p < S i)%nat.
Proof. apply bool_decide_ext. lia. Qed.

Lemma waker_loop s t i :
  length (k_procs s) = NPROC -> (i <= NPROC)%nat -> s_at (k_procs s !!! p) true (bool_decide (p < i)%nat) t ->
  visit_all i <> Ret tt /\ waker_goes s t (mkThread [lk] me (visit_all i)).
Proof.
  intros Hl Hi Hs. destruct (decide (i = NPROC)) as [->|Hne].
  - unfold visit_all. rewrite Nat.sub_diag. split; [done|]. exists (Ret tt), (set_k_held [] (set_k_cur me s)).
    split_and!; [|done|].
    + simpl. unfold bind, view. simpl. rewrite release_ok by (simpl; set_solver). simpl. by rewrite remove_only.
    + intros _. exists true, true. rewrite bool_decide_eq_true_2 in Hs by done. split; [done|apply at_w_done].
  - unfold visit_all. replace (NPROC - i)%nat with (S (NPROC - S i)) by lia. cbn [seq code_all]. split; [done|].
    apply (waker_visit myproc _ i [lk] s t me (set_k_held [lk] (set_k_cur me s))); [done|done|].
    exists (bool_decide (p < i)%nat). split; [done|]. simpl k_cur.
    destruct (bool_decide (me = Some i)) eqn:Em.
    + apply bool_decide_eq_true in Em. rewrite past_ne, past_next by congruence. apply (at_visits (S i)). lia.
    + apply at_v1. lia.
Qed.

Lemma waker_checks s t i :
  length (k_procs s) = NPROC -> (i < NPROC)%nat -> s_at (k_procs s !!! p) true (bool_decide (p < i)%nat) t ->
  t_held t ## [LProc i; lk] -> waker_goes s t (mkThread [LProc i; lk] me (visits (v2 i) i)).
Proof.
  intros Hl Hi Hs Hd. eapply (waker_visit (get_proc i)); [reflexivity|done|]. simpl.
  exists (bool_decide (p < i)%nat). split; [done|].
  destruct (bool_decide _ && bool_decide _) eqn:Eb; [by apply at_v3|].
  rewrite past_ne; [by apply at_v8|]. intros ->. rewrite bool_decide_eq_false_2 in Hs by lia.
  destruct (must_sleep _ _ Hs) as (Hc & Hst & _); [set_solver..|]. by rewrite Hc, Hst, !bool_decide_eq_true_2 in Eb.
Qed.

Lemma waker_wakes s t i :
  length (k_procs s) = NPROC -> (i < NPROC)%nat -> s_at (k_procs s !!! p) true (bool_decide (p < i)%nat) t ->
  t_held t ## [LProc i; lk] -> waker_goes s t (mkThread [LProc i; lk] me (visits (v3 i) i)).
Proof.
  intros Hl Hi Hs Hd. eapply (waker_visit (upd_proc i (set_p_state RUNNABLE)) (fun _ => v4 i)); [reflexivity| |]; simpl.
  { by rewrite length_alter. }
  exists (bool_decide (p <= i)%nat). split; [|by apply at_v4].
  destruct (decide (i = p)) as [->|Hne].
  - rewrite bool_decide_eq_false_2 in Hs by lia. destruct (must_sleep _ _ Hs) as (_ & _ & ->); [set_solver..|].
    rewrite list_lookup_total_alter_eq by lia. apply at_s7. by rewrite bool_decide_eq_true_2.
  - rewrite list_lookup_total_alter_ne by congruence. by rewrite <- past_ne.
Qed.

Lemma waker_next s t u started woken :
  length (k_procs s) = NPROC -> s_at (k_procs s !!! p) started woken t -> w_at started woken u ->
  t_held t ## t_held u ->
  u = mkThread [] me (Ret tt) \/ t_code u <> Ret tt /\ waker_goes s t u.
Proof.
  intros Hl Hs Hu Hd.
  destruct Hu as [|i Hi|i Hi|i Hi|i Hi|i Hi|i Hi|i tm Hi|i tm Hi|i Hi|]; [right..|by left]; simpl in Hd.
  - split; [done|]. exists (visit_all 0), (set_k_held [lk] (set_k_cur me s)). split_and!; [|done|].
    + apply (advance_atom (acquire lk) (fun _ => visit_all 0) _ tt). by rewrite acquire_ok by apply not_elem_of_nil.
    + intros Hn. exists true, false. split; [apply s_at_started; [done|set_solver]|].
      apply (at_visits 0). lia.
  - by apply waker_loop.
  - split; [done|]. eapply (waker_visit (acquire (LProc i)) (fun _ => v2 i)).
    { apply acquire_ok. simpl. intros E%list_elem_of_singleton. by destruct (Hproc i). }
    { done. }
    exists (bool_decide (p < i)%nat). split; [done|by apply at_v2].
  - split; [done|]. by apply waker_checks.
  - split; [done|]. by apply waker_wakes.
  - split; [done|]. eapply (waker_visit (acquire LTicks) (fun _ => v5 i)).
    { apply acquire_ok. simpl. set_solver. }
    { done. }
    exists (bool_decide (p <= i)%nat). split; [done|by apply at_v5].
  - split; [done|]. eapply (waker_visit (gets k_ticks) (v6 i)); [reflexivity|done|].
    exists (bool_decide (p <= i)%nat). split; [done|by apply at_v6].
  - split; [done|]. eapply (waker_visit (release LTicks) (fun _ => v7 i tm)).
    { eapply release_top; [done|]. simpl. set_solver. }
    { done. }
    exists (bool_decide (p <= i)%nat). split; [done|by apply at_v7].
  - split; [done|]. eapply (waker_visit (upd_proc i (set_p_readytime tm)) (fun _ => v8 i)); [reflexivity| |]; simpl.
    { by rewrite length_alter. }
    exists (bool_decide (p <= i)%nat). split; [|by apply at_v8]. revert Hs. apply s_at_ext.
    + destruct (decide (i = p)) as [->|]; [by rewrite list_lookup_total_alter_eq by lia|by rewrite list_lookup_total_alter_ne].
    + destruct (decide (i = p)) as [->|]; [by rewrite list_lookup_total_alter_eq by lia|by rewrite list_lookup_total_alter_ne].
  - split; [done|]. eapply (waker_visit (release (LProc i)) Ret).
    { eapply release_top; [done|]. simpl. intros E%list_elem_of_singleton. by destruct (Hproc i). }
    { done. }
    exists (bool_decide (p <= i)%nat). split; [done|]. rewrite past_next. by apply (at_visits (S i)).
Qed.

(** ** The invariant *)

Lemma moves_eq s t u s' t' c1 s1 :
  moves s t u s' t' -> advance (t_code t) (view t s) = Ok c1 s1 ->
  s' = s1 /\ t' = mkThread (k_held s1) (k_cur s1) c1 /\ k_held s1 ## t_held u.
Proof.
  intros (c' & _ & E & -> & Hd) E1. rewrite E in E1. injection E1 as <- <-. done.
Qed.

Lemma inv_start s : length (k_procs s) = NPROC -> inv (mkConfig s (sleep_thread p c lk) (wake_thread me c lk)).
Proof.
  intros Hl. split; [done| |set_solver]. exists false, false. split; [by apply at_s0|apply at_w0].
Qed.

Lemma inv_step a b : inv a -> step a b -> inv b.
Proof.
  intros [Hl (started & woken & Hs & Hw) Hd] Hst.
  destruct Hst as [s t u s' t' Hm|s t u s' u' Hm]; simpl in *.
  - pose proof Hm as (c' & Hc & Ha & _).
    destruct (sleeper_next s t u started woken Hl Hs Hw) as [->|[_ [(_ & _ & E)|(c1 & s1 & E & Hl1 & Hs1 & _)]]].
    + done.
    + by rewrite E in Ha.
    + destruct (moves_eq _ _ _ _ _ _ _ Hm E) as (-> & -> & Hd1). split; [done|by exists started, woken|done].
  - pose proof Hm as (c' & Hc & Ha & _).
    destruct (waker_next s t u started woken Hl Hs Hw Hd) as [->|[_ (c1 & s1 & E & Hl1 & H)]]; [done|].
    destruct (moves_eq _ _ _ _ _ _ _ Hm E) as (-> & -> & Hd1). split; [done|by apply H|set_solver].
Qed.

Lemma inv_rest a b : inv a -> rest p a b -> inv b.
Proof.
  intros [Hl (started & woken & Hs & Hw) Hd] (E1 & E2 & E3 & E4 & E5). split; rewrite ?E1, ?E2; [congruence| |done].
  exists started, woken. split; [|done]. revert Hs. by apply s_at_ext.
Qed.

Lemma inv_runs n a b : runs p n a b -> inv a -> inv b.
Proof. induction 1; eauto using inv_step, inv_rest. Qed.

(** A sleeper that is done has been woken, and the waker has given up the lock. *)
Lemma waker_done woken started u : w_at started woken u -> woken = true -> lk ∉ t_held u ->
  t_code u = Ret tt /\ t_held u = [].
Proof. intros H -> Hlk. inversion H; subst; simpl in *; try done; set_solver. Qed.

Lemma inv_progress a : inv a -> finished a \/ exists b, step a b.
Proof.
  destruct a as [s t u]. intros [Hl (started & woken & Hs & Hw) Hd]. simpl in *.
  destruct (sleeper_next s t u started woken Hl Hs Hw) as [->|[Hc Hgo]].
  - left. split; [done|]. inversion Hs; subst. eapply waker_done; [done|done|]. simpl in Hd. set_solver.
  - right. destruct Hgo as [(Hh & -> & _)|(c1 & s1 & E & _ & _ & Hlk)].
    + destruct (waker_next s t u started false Hl Hs Hw Hd) as [->|[Hcu (c1 & s1 & E & _ & _)]]; [inversion Hw|].
      eexists. apply step_waker. exists c1. split_and!; [done..|]. rewrite Hh. set_solver.
    + assert (k_held s1 ## t_held u -> exists b, step (mkConfig s t u) b) as Hgo.
      { intros Hdis. eexists. apply step_sleeper. exists c1. by split_and!. }
      destruct Hlk as [Hh|[Hsub|Hu]]; [|apply Hgo; set_solver|apply Hgo; rewrite Hu; set_solver].
      destruct (waker_next s t u started woken Hl Hs Hw Hd) as [->|[Hcu (c2 & s2 & E2 & _ & _)]].
      { apply Hgo. set_solver. }
      eexists. apply step_waker. exists c2. split_and!; [done..|]. rewrite Hh. set_solver.
Qed.

Lemma inv_finished a : inv a -> finished a ->
  p_state (k_procs (shared a) !!! p) = RUNNING /\ p_chan (k_procs (shared a) !!! p) = None /\
  t_held (sleeper a) = [lk] /\ t_cur (sleeper a) = Some p /\ t_held (waker a) = [].
Proof.
  intros [Hl (started & woken & Hs & Hw) Hd] [E1 E2]. destruct a as [s t u]. simpl in *.
  destruct Hs; simpl in E1; try done. split_and!; try done.
  eapply waker_done; [done|done|]. simpl in Hd. set_solver.
Qed.
End Protocol.


