(* ===== verification/ProcProofs.v ===== *)
(** * Slots and memory of processes

    [allocproc] takes a slot of the process table with the pages of an empty
    address space, [freeproc] gives all of them back; neither loses a page. *)

From S2P Require Import Prelude Bytes Params CString Spinlock State Kalloc Vm PageTable VmProofs UserSpace UvmProofs FreeWalk VmTheorems Sched Fs File Proc SchedProofs.

Section Space.
Context `{Lk : Linker} {Lo : LinkerOk Lk}.

(** The address space of a process with [n] pages of user memory: above them
    only the trapframe [tf] and the trampoline. *)
Record proc_space (s : kernel) (root : Z) (G : tables) (AS : aspace) (fr : list Z) (n : nat) (tf : Z) : Prop := {
  sp_us : user_space s root G AS fr n;
  sp_tf : AS !! UTOP = Some (tf, Z.lor (Z.lor PTE_R PTE_W) PTE_V);
  sp_tramp : AS !! (UTOP + 1) = Some (trampoline, Z.lor (Z.lor PTE_R PTE_X) PTE_V);
  sp_top : forall x, UTOP + 1 < x -> AS !! x = None;
}.

(** Unmapping a page above user memory without freeing it. *)
Lemma us_unmap_top s root G AS fr n v pa fl : user_space s root G AS fr n -> UTOP <= v <= UTOP + 1 -> AS !! v = Some (pa, fl) -> fl <> PTE_V ->
  wp (uvmunmap root (PGSIZE * v) 1 false) (fun _ s' =>
    user_space s' root G (delete v AS) fr n /\ same_outside (pages G) (k_mem s) (k_mem s') /\ mem_only s s') s.
Proof.
  intros U Hv E Hfl. pose proof (us_top _ _ _ _ _ _ U) as Ht. change UTOP with (2 ^ 26 - 2) in *.
  eapply wp_mono; [apply (uvmunmap_spec root G AS fr v false s 1 (us_vm _ _ _ _ _ _ U))|].
  - split_and!; [|intros p Hp; by apply not_elem_of_nil in Hp|constructor]. intros i Hi. exists pa, fl. replace (v + Z.of_nat i) with v by lia. done.
  - lia.
  - change MAXVA with (2 ^ 38). unfold PGSIZE. lia.
  - intros [] s' (V & S & R). cbn [unmap_pages freed rev app] in V. rewrite Z.add_0_r in V. split_and!; [|done|done].
    assert (forall x, x < v -> delete v AS !! x = AS !! x) as Hd by (intros x Hx; by rewrite lookup_delete_ne by lia).
    destruct U as [_ Hm Hu Hf Hn _]. assert (frames (delete v AS) 0 n = frames AS 0 n) as Ef by (apply frames_ext; intros i Hi; apply Hd; lia).
    constructor; [done| | |by rewrite Ef|by rewrite Ef|done].
    + intros i Hi. rewrite Hd by lia. by apply Hm.
    + intros x Hx. change UTOP with (2 ^ 26 - 2) in Hx. rewrite Hd by lia. by apply Hu.
Qed.

Lemma proc_freepagetable_spec s root G AS fr sz tf : proc_space s root G AS fr (npg sz) tf -> 0 <= sz ->
  wp (proc_freepagetable root sz) (fun _ s' => returned s fr (frames AS 0 (npg sz) ++ pages G) s') s.
Proof.
  intros [U H1 H2 H3] Hsz. unfold proc_freepagetable. pose proof (us_top _ _ _ _ _ _ U) as Ht.
  apply wp_bind. eapply wp_mono; [apply (us_unmap_top s root G AS fr _ (UTOP + 1) _ _ U ltac:(lia) H2); by vm_compute|]. intros [] s1 (U1 & S1 & R1).
  apply wp_bind. eapply wp_mono; [apply (us_unmap_top s1 root G _ fr _ UTOP tf (Z.lor (Z.lor PTE_R PTE_W) PTE_V) U1 ltac:(lia)); [by rewrite lookup_delete_ne by lia|by vm_compute]|].
  intros [] s2 (U2 & S2 & R2). eapply wp_mono; [apply (uvmfree_spec s2 root G _ fr sz U2); [|done]|].
  - intros x Hx. rewrite !lookup_delete. repeat case_decide; try done. destruct (decide (x < UTOP)); [apply (us_unmapped _ _ _ _ _ _ U); lia|apply H3; lia].
  - intros [] s3 (fr' & K & P & S3 & R3).
    assert (frames (delete UTOP (delete (UTOP + 1) AS)) 0 (npg sz) = frames AS 0 (npg sz)) as Ef by (apply frames_ext; intros i Hi; by rewrite !lookup_delete_ne by lia).
    rewrite Ef in P, S3. exists fr'. split_and!; [done|done| |by do 2 (etrans; [eassumption|])].
    assert (forall p, p ∈ pages G -> p ∈ frames AS 0 (npg sz) ++ pages G) as Hin by (intros p Hp; apply elem_of_app; by right).
    eapply same_outside_trans; [eapply same_outside_mono; [exact Hin|exact S1]|]. eapply same_outside_trans; [eapply same_outside_mono; [exact Hin|exact S2]|exact S3].
Qed.

Lemma us_zero s root G AS fr : vm s root G AS fr -> (forall x, 0 <= x < UTOP -> AS !! x = None) -> user_space s root G AS fr 0.
Proof.
  intros V H. constructor; [done|lia|intros x Hx; apply H; lia| |constructor|by vm_compute]. intros p Hp. by apply not_elem_of_nil in Hp.
Qed.

Lemma mem_only_procs s s' : mem_only s s' -> k_procs s' = k_procs s.
Proof. intros [->]. done. Qed.

(** One page at the top of an address space.  It takes two pages for tables at
    most, and none when the table of the page is there. *)
Lemma map_top s root G AS fr v pa perm : vm s root G AS fr -> UTOP <= v <= UTOP + 1 -> pa mod PGSIZE = 0 -> 0 <= pa <= 2 ^ 55 -> 0 <= perm < 1024 -> AS !! v = None ->
  wp (mappages root (PGSIZE * v) PGSIZE pa perm) (fun r s' => exists G' fr', vstep s G fr s' G' fr' /\
    (r = 0 /\ vm s' root G' (<[v := (pa, Z.lor perm PTE_V)]> AS) fr' /\ G' !! (0%nat, v / 512) <> None \/
     r = -1 /\ vm s' root G' AS fr' /\ (length fr < 2)%nat /\ G !! (0%nat, v / 512) = None)) s.
Proof.
  intros V Hv Ha Hp Hperm E. change UTOP with (2 ^ 26 - 2) in Hv.
  assert (PGSIZE * v / PGSIZE = v) as E1 by (unfold PGSIZE; dlia). unfold mappages. change (PGSIZE =? 0) with false. cbv iota.
  rewrite (u64_small (PGSIZE * v + PGSIZE - 1)), !PGROUNDDOWN_div by (unfold PGSIZE; lia). cbv zeta.
  replace (PGSIZE * ((PGSIZE * v + PGSIZE - 1) / PGSIZE)) with (PGSIZE * v) by (unfold PGSIZE; dlia). rewrite E1.
  eapply (wp_loop _ (fun ap s1 => ap = (PGSIZE * v, pa) /\ s1 = s) (fun _ _ => 0)); [|done|lia]. intros [a pa'] s1 [[= -> ->] ->].
  assert (0 <= PGSIZE * v < MAXVA) as Hr by (change MAXVA with (2 ^ 38); unfold PGSIZE; lia).
  apply wp_bind. eapply wp_mono; [by apply walk_alloc|]. rewrite ?E1. intros pte s2 (G2 & fr2 & V2 & S2 & -> & Hz & Hs & Hc & Hex). rewrite ?E1 in *.
  destruct (Z.eqb_spec (slot G2 (PGSIZE * v)) 0) as [E0|E0].
  { apply wp_ret. exists G2, fr2. split; [done|]. right. destruct (Hz E0) as [_ Hlt]. split_and!; [done|done|done|].
    destruct (G !! _) eqn:Eg; [|done]. by destruct Hex. }
  kwp. pose proof (vm_leaf _ _ _ _ _ V2 v ltac:(lia)) as Hl. rewrite E in Hl.
  rewrite slot_load with (root := root), E1 by (try apply V2; done). rewrite (entry_none _ (eq_sym Hl)).
  destruct (vm_set_leaf s2 root G2 _ fr2 (PGSIZE * v) (Z.lor (Z.lor (PA2PTE pa) perm) PTE_V) V2 Hr E0) as [V3 S3].
  rewrite entry_mkpte, E1 in V3 by (unfold PGSIZE in *; dlia). kwp. rewrite Z.eqb_refl. apply wp_ret. exists G2, fr2. split; [by eapply vstep_trans|]. left. split_and!; [done|exact V3|auto].
Qed.

(** [uvmfree] when there is nothing to free but the tables. *)
Lemma uvmfree_tables s0 fr0 s root G AS fr : vm s root G AS fr -> (forall x, AS !! x = None) ->
  fr ++ pages G ≡ₚ fr0 -> same_outside fr0 (k_mem s0) (k_mem s) -> mem_only s0 s ->
  wp (uvmfree root 0) (fun _ s' => mem_only s0 s' /\ same_outside fr0 (k_mem s0) (k_mem s') /\ exists fr', kmem_inv s' fr' /\ fr' ≡ₚ fr0) s.
Proof.
  intros V HAS P S R. eapply wp_mono; [apply (uvmfree_spec s root G AS fr 0); [by apply us_zero|done|done]|]. intros [] s' (fr' & K & P' & S' & R').
  split; [by etrans|]. split; [|exists fr'; split; [done|by rewrite P']]. eapply same_outside_trans; [exact S|]. eapply same_outside_mono; [|exact S'].
  intros p Hp. rewrite <- P. by apply elem_of_app; right.
Qed.

(** [uvmcreate] *)
Lemma uvmcreate_spec s fr : kmem_inv s fr -> LKmem ∉ k_held s ->
  wp uvmcreate (fun r s' => mem_only s s' /\ same_outside fr (k_mem s) (k_mem s') /\
    (r = 0 /\ fr = [] /\ kmem_inv s' fr \/ r <> 0 /\ exists G fr', vm s' r G ∅ fr' /\ fr' ++ pages G ≡ₚ fr /\ length fr = S (length fr'))) s.
Proof.
  intros Hk Hh. unfold uvmcreate. apply wp_bind. destruct fr as [|p fr].
  { eapply wp_eq; [by apply kalloc_empty|]. apply wp_ret. split; [done|]. split; [apply same_outside_refl|]. by left. }
  destruct (kalloc_spec s (p :: fr) Hk Hh) as (s1 & E & K & Hp & ->). eapply wp_eq; [exact E|]. pose proof (page_ok_pos p Hp) as Hpos.
  rewrite (proj2 (Z.eqb_neq p 0)) by lia. kwp. pose proof Hk as [_ [Hn _]%NoDup_cons]. cbn [k_mem set_k_mem]. set (m1 := memset (k_mem s) p 5 PGSIZE) in *.
  split; [constructor; by destruct s|]. split.
  { eapply same_outside_mono with (ps := [p]); [intros q ->%list_elem_of_singleton; by left|]. eapply same_outside_trans; apply same_outside_memset. }
  right. split; [lia|]. exists {[(2%nat, 0) := p]}, fr. split.
  - apply us_vm with (n := O). apply empty_user_space; [|done|done|done|].
    + eapply (kmem_inv_mem _ fr [p]); [exact K|apply same_outside_memset|]. intros q ->%list_elem_of_singleton. split; [done|apply Hp].
    + intros a Ha. cbn [k_mem set_k_mem]. by rewrite ldb_memset, decide_True by (unfold PGSIZE in *; lia).
  - split; [|done]. unfold pages. rewrite map_to_list_singleton. cbn. by rewrite Permutation_app_comm.
Qed.

Lemma trampoline_ok : trampoline mod PGSIZE = 0 /\ 0 <= trampoline <= 2 ^ 55.
Proof.
  pose proof trampoline_aligned. pose proof trampoline_range. pose proof etext_range. pose proof end_hi. unfold KERNBASE in *. change PHYSTOP with 2281701376 in *. lia.
Qed.

Lemma proc_pagetable_spec p s fr : let tf := p_trapframe (k_procs s !!! p) in kmem_inv s fr -> LKmem ∉ k_held s -> page_ok tf ->
  wp (proc_pagetable p) (fun r s' => mem_only s s' /\ same_outside fr (k_mem s) (k_mem s') /\
    (r = 0 /\ (length fr < 3)%nat /\ (exists fr', kmem_inv s' fr' /\ fr' ≡ₚ fr) \/
     r <> 0 /\ exists G AS fr', proc_space s' r G AS fr' 0 tf /\ fr' ++ pages G ≡ₚ fr)) s.
Proof.
  intros tf Hk Hh Htf. unfold proc_pagetable. apply wp_bind. eapply wp_mono; [by apply uvmcreate_spec|].
  intros root s1 (R1 & S1 & [(-> & Hnil & K1)|(Hroot & G1 & f1 & V1 & P1 & Hlen)]).
  { apply wp_ret. split; [done|]. split; [done|]. left. subst fr. split_and!; [done|cbn; lia|eauto]. }
  rewrite (proj2 (Z.eqb_neq _ _) Hroot). assert (forall s' G' fr', vstep s1 G1 f1 s' G' fr' -> mem_only s s' /\ same_outside fr (k_mem s) (k_mem s') /\ fr' ++ pages G' ≡ₚ fr) as Hstep.
  { intros s' G' fr' [M P R]. split; [by etrans|]. split; [|by rewrite P]. eapply same_outside_trans; [exact S1|]. eapply same_outside_mono; [|exact M]. intros q Hq. by rewrite <- P1. }
  destruct trampoline_ok as [Ta Tr]. apply wp_bind. change TRAMPOLINE with (PGSIZE * (UTOP + 1)).
  eapply wp_mono; [apply (map_top s1 root G1 ∅ f1 (UTOP + 1) trampoline (Z.lor PTE_R PTE_X) V1); try done; lia|].
  intros r s2 (G2 & f2 & S2 & H2). destruct (Hstep _ _ _ S2) as (R2 & M2 & P2). destruct H2 as [(-> & V2 & Htab)|(-> & V2 & Hlt & _)]; cbn [Z.ltb Z.compare].
  2:{ apply wp_bind. eapply wp_mono; [by apply (uvmfree_tables s fr s2 root G2 ∅ f2)|]. intros [] s3 (R3 & S3 & H3). apply wp_ret.
      split; [done|]. split; [done|]. left. split_and!; [done|lia|done]. }
  kwp. rewrite (mem_only_procs _ _ R2). fold tf. change TRAPFRAME with (PGSIZE * UTOP). pose proof (page_ok_pos tf Htf).
  eapply wp_mono; [apply (map_top s2 root G2 _ f2 UTOP tf (Z.lor PTE_R PTE_W) V2); [lia|apply Htf| |done|by rewrite lookup_insert_ne by lia]|].
  { destruct Htf as [_ Htf]. change PHYSTOP with 2281701376 in *. lia. }
  intros r s3 (G3 & f3 & S3 & H3). destruct (Hstep _ _ _ (vstep_trans _ _ _ _ _ _ _ _ _ S2 S3)) as (R3 & M3 & P3).
  destruct H3 as [(-> & V3 & _)|(_ & _ & _ & Hno)]; [|by destruct Htab]. cbn [Z.ltb Z.compare].
  apply wp_ret. split; [done|]. split; [done|]. right. split; [done|]. eexists G3, _, f3. split; [|done]. constructor; [apply us_zero; [exact V3|]| | |].
  - intros x Hx. by rewrite !lookup_insert_ne by lia.
  - apply lookup_insert_eq.
  - rewrite lookup_insert_ne by lia. apply lookup_insert_eq.
  - intros x Hx. by rewrite !lookup_insert_ne by lia.
Qed.

(** ** The slot *)

(** What [freeproc] leaves in the slot. *)
Definition freed_slot (q : proc) : proc :=
  mk_proc UNUSED None 0 0 0 (p_cputime q) (p_priority q) (p_readytime q) None (p_kstack q) 0 0 0 (p_context q) (p_ofile q) (p_cwd q) (<[O := 0]> (p_name q)).

(** [s'] is [s] with other processes, memory and free pages. *)
Record procs_only (s s' : kernel) : Prop := {
  po_eq : s' = set_k_mem (k_mem s') (set_k_freelist (k_freelist s') (set_k_procs (k_procs s') s));
}.

Lemma procs_only_trans s1 s2 s3 : procs_only s1 s2 -> procs_only s2 s3 -> procs_only s1 s3.
Proof. intros [H1] [H2]. constructor. rewrite H2, H1. by destruct s1. Qed.

Lemma procs_only_mem s s' : mem_only s s' -> procs_only s s'.
Proof. intros [H]. constructor. rewrite H. by destruct s. Qed.

Lemma procs_only_set s ps : procs_only s (set_k_procs ps s).
Proof. constructor. by destruct s. Qed.

Lemma procs_only_held s s' : procs_only s s' -> k_held s' = k_held s.
Proof. intros [->]. done. Qed.

(** The invariants of memory do not depend on the process table. *)
Lemma kmem_inv_procs s fr ps : kmem_inv s fr -> kmem_inv (set_k_procs ps s) fr.
Proof. intros [H1 H2]. by constructor. Qed.

Lemma vm_procs s root G AS fr ps : vm s root G AS fr -> vm (set_k_procs ps s) root G AS fr.
Proof. intros [H1 H2 H3 H4 H5 H6]. constructor; try done. by apply kmem_inv_procs. Qed.

Lemma space_procs s root G AS fr n tf ps : proc_space s root G AS fr n tf -> proc_space (set_k_procs ps s) root G AS fr n tf.
Proof. intros [[V H1 H2 H3 H4 H5] T1 T2 T3]. constructor; try done. constructor; try done. by apply vm_procs. Qed.

(** The pages of a slot: its trapframe, its user memory and its tables. *)
Definition tf_page (q : proc) : list Z := if p_trapframe q =? 0 then [] else [p_trapframe q].

Definition slot_pages (s : kernel) (fr : list Z) (q : proc) (own : list Z) : Prop :=
  p_pagetable q = 0 /\ own = [] \/
  p_pagetable q <> 0 /\ 0 <= p_sz q /\ exists G AS tf, proc_space s (p_pagetable q) G AS fr (npg (p_sz q)) tf /\ own = frames AS 0 (npg (p_sz q)) ++ pages G.

Lemma free_tf s fr q own : kmem_inv s fr -> LKmem ∉ k_held s -> slot_pages s fr q own ->
  (forall p, p ∈ tf_page q -> page_ok p /\ (p ∉ fr ++ own)) ->
  wp (when (z2b (p_trapframe q)) (kfree (p_trapframe q))) (fun _ s' =>
    kmem_inv s' (tf_page q ++ fr) /\ slot_pages s' (tf_page q ++ fr) q own /\ same_outside (tf_page q) (k_mem s) (k_mem s') /\ mem_only s s') s.
Proof.
  intros Hk Hh Hsl Htf. unfold when, tf_page, z2b in *. destruct (Z.eqb_spec (p_trapframe q) 0) as [E|E]; cbn [negb].
  { apply wp_ret. split_and!; [done|done|apply same_outside_refl|done]. }
  destruct (Htf (p_trapframe q)) as [Hp Hn]; [by left|]. rewrite elem_of_app in Hn. destruct Hsl as [[Hpt ->]|(Hpt & Hsz & G & AS & tf & [U T1 T2 T3] & ->)].
  - destruct (kfree_spec s fr (p_trapframe q) Hk Hh Hp ltac:(auto)) as (s' & E' & K & ->). eapply wp_eq; [exact E'|].
    split_and!; [exact K|by left| |apply mem_only_freelist_mem]. intros x Hx. apply kfree_mem_outside, Hx. by left.
  - rewrite elem_of_app in Hn. destruct (us_kfree s _ G AS fr _ (p_trapframe q) U Hp) as (s' & E' & U' & S & R); [rewrite elem_of_app; tauto|tauto|].
    eapply wp_eq; [exact E'|]. split_and!; [apply (us_vm _ _ _ _ _ _ U')| |done|done]. right. split_and!; [done|done|]. exists G, AS, tf. split; [by constructor|done].
Qed.

Lemma slot_pages_procs s fr q own ps : slot_pages s fr q own -> slot_pages (set_k_procs ps s) fr q own.
Proof. intros [?|(? & ? & G & AS & tf & H & ?)]; [by left|]. right. split_and!; [done|done|]. exists G, AS, tf. split; [by apply space_procs|done]. Qed.

Lemma free_space s fr q own : kmem_inv s fr -> slot_pages s fr q own ->
  wp (when (z2b (p_pagetable q)) (proc_freepagetable (p_pagetable q) (p_sz q))) (fun _ s' => returned s fr own s') s.
Proof.
  intros Hk Sl. unfold when, z2b. destruct Sl as [[Hpt ->]|(Hpt & Hsz & G & AS & tf & Sp & ->)].
  - rewrite Hpt. apply wp_ret. exists fr. rewrite app_nil_r. split_and!; [done|done|apply same_outside_refl|done].
  - rewrite (proj2 (Z.eqb_neq _ _) Hpt). by apply (proc_freepagetable_spec s _ G AS _ _ tf).
Qed.

Lemma list_alter_alter {A} (f g : A -> A) i (l : list A) : alter f i (alter g i l) = alter (fun x => f (g x)) i l.
Proof. revert i. induction l as [|x l IH]; intros [|i]; [done..|]. cbn. by f_equal. Qed.

Lemma freeproc_spec p s fr own : let q := k_procs s !!! p in (p < length (k_procs s))%nat -> kmem_inv s fr -> LKmem ∉ k_held s ->
  slot_pages s fr q own -> (forall x, x ∈ tf_page q -> page_ok x /\ (x ∉ fr ++ own)) ->
  wp (freeproc p) (fun _ s' => procs_only s s' /\ k_procs s' = alter freed_slot p (k_procs s) /\
    same_outside (tf_page q ++ own) (k_mem s) (k_mem s') /\ exists fr', kmem_inv s' fr' /\ fr' ≡ₚ fr ++ tf_page q ++ own) s.
Proof.
  intros q Hp Hk Hh Hsl Htf. unfold freeproc. kwp. fold q. eapply wp_mono; [by apply (free_tf s fr q own)|]. intros [] s1 (K1 & Sl1 & S1 & R1).
  pose proof (mem_only_procs _ _ R1) as Ep. kwp. rewrite Ep. cbn [k_procs set_k_procs]. rewrite list_lookup_total_alter, decide_True by done. fold q. cbn [set_p_trapframe p_pagetable p_sz].
  set (s2 := set_k_procs _ s1). eapply wp_mono; [apply (free_space s2 (tf_page q ++ fr) q own); [by apply kmem_inv_procs|by apply slot_pages_procs]|].
  intros [] s3 (fr' & K3 & P3 & S3 & R3). kwp. cbn [k_procs set_k_procs]. rewrite (mem_only_procs _ _ R3). cbn [s2 k_procs set_k_procs]. split_and!.
  - eapply procs_only_trans; [by apply procs_only_mem|]. eapply procs_only_trans; [apply (procs_only_set s1)|]. eapply procs_only_trans; [apply procs_only_mem, R3|].
    constructor. by destruct s3.
  - rewrite !list_alter_alter. by apply list_alter_ext.
  - cbn [k_mem set_k_procs]. eapply same_outside_trans; [eapply same_outside_mono; [|exact S1]|eapply same_outside_mono; [|exact S3]]; intros x Hx; apply elem_of_app; auto.
  - exists fr'. split; [by destruct K3; constructor|]. by rewrite P3, app_assoc, (Permutation_app_comm (tf_page q) fr).
Qed.
End Space.
