(* ===== verification/ProcTable.v ===== *)
(** * The process table

    Every slot in use owns a trapframe, an address space and its tables; all of
    them and the free pages are disjoint.  [allocproc] and [freeproc] keep this
    and lose no page. *)

From S2P Require Import Prelude Bytes Params CString Spinlock State Kalloc Vm PageTable VmProofs UserSpace UvmProofs FreeWalk VmTheorems Sched Fs File Proc SchedProofs ProcProofs.

Section Table.
Context `{Lk : Linker} {Lo : LinkerOk Lk}.

(** The slot [q] owns the pages [own]. *)
Definition slot_ok (s : kernel) (fr : list Z) (q : proc) (own : list Z) : Prop :=
  if bool_decide (p_state q = UNUSED) then p_trapframe q = 0 /\ p_pagetable q = 0 /\ p_sz q = 0 /\ own = []
  else page_ok (p_trapframe q) /\ p_pagetable q <> 0 /\ 0 <= p_sz q /\
    exists G AS, proc_space s (p_pagetable q) G AS fr (npg (p_sz q)) (p_trapframe q) /\ own = p_trapframe q :: frames AS 0 (npg (p_sz q)) ++ pages G.

Record ptable (s : kernel) (fr : list Z) (owns : list (list Z)) : Prop := {
  pt_len : length (k_procs s) = NPROC;
  pt_slots : Forall2 (slot_ok s fr) (k_procs s) owns;
  pt_sep : NoDup (fr ++ concat owns);
  pt_kmem : kmem_inv s fr;
  pt_held : LKmem ∉ k_held s;
}.

(** ** What other slots do not notice *)

Lemma vm_frame s root G AS fr s' fr' qs : vm s root G AS fr -> kmem_inv s' fr' -> LKmem ∉ k_held s' ->
  same_outside qs (k_mem s) (k_mem s') -> (forall x, x ∈ qs -> (x ∉ pages G) /\ x mod PGSIZE = 0) -> (forall x, x ∈ pages G -> x ∉ fr') -> vm s' root G AS fr'.
Proof.
  intros [Hk Hh HT Hs Hl Hr] K H' Hm Hq Hf.
  assert (forall k t i, G !! k = Some t -> 0 <= i < 512 -> load64 (k_mem s') (pte_addr t i) = load64 (k_mem s) (pte_addr t i)) as He.
  { intros k t i Ht Hi. eapply entries_same; [exact Hm| |apply HT|exact Ht|done]. intros p Hp. by apply Hq. }
  constructor; try done; [by eapply tree_ext|]. intros vpn Hv. rewrite Hl by done. f_equal. symmetry. by apply leaf_ext.
Qed.

Lemma space_frame s root G AS fr n tf s' fr' qs : proc_space s root G AS fr n tf -> kmem_inv s' fr' -> LKmem ∉ k_held s' ->
  same_outside qs (k_mem s) (k_mem s') -> (forall x, x ∈ qs -> (x ∉ frames AS 0 n ++ pages G) /\ x mod PGSIZE = 0) -> (forall x, x ∈ frames AS 0 n ++ pages G -> x ∉ fr') ->
  proc_space s' root G AS fr' n tf.
Proof.
  intros [[V U1 U2 U3 U4 U5] T1 T2 T3] K Hh Hm Hq Hf. constructor; try done. constructor; try done.
  - eapply vm_frame; [exact V|done|done|exact Hm| |].
    + intros x Hx. destruct (Hq x Hx) as [Hn Ha]. split; [|done]. intros Hp. apply Hn, elem_of_app. by right.
    + intros x Hx. apply Hf, elem_of_app. by right.
  - intros p Hp. destruct (U3 p Hp) as (? & ? & ?). split_and!; [done| |done]. apply Hf, elem_of_app. by left.
Qed.

Lemma slot_frame s fr q own s' fr' qs : slot_ok s fr q own -> kmem_inv s' fr' -> LKmem ∉ k_held s' ->
  same_outside qs (k_mem s) (k_mem s') -> (forall x, x ∈ qs -> (x ∉ own) /\ x mod PGSIZE = 0) -> (forall x, x ∈ own -> x ∉ fr') -> slot_ok s' fr' q own.
Proof.
  unfold slot_ok. case_bool_decide; [done|]. intros (H1 & H2 & H3 & G & AS & Sp & ->) K Hh Hm Hq Hf.
  split_and!; [done|done|done|]. exists G, AS. split; [|done]. eapply space_frame; [exact Sp|done|done|exact Hm| |].
  - intros x Hx. destruct (Hq x Hx) as [Hn Ha]. split; [|done]. intros Hp. apply Hn. by right.
  - intros x Hx. apply Hf. by right.
Qed.

(** Fields that are not about memory may change. *)
Lemma slot_ext s fr q q' own : slot_ok s fr q own -> (p_state q' = UNUSED <-> p_state q = UNUSED) -> p_trapframe q' = p_trapframe q -> p_pagetable q' = p_pagetable q -> p_sz q' = p_sz q -> slot_ok s fr q' own.
Proof. unfold slot_ok. intros H E1 -> -> ->. by rewrite (bool_decide_ext _ _ E1). Qed.

Lemma slot_own_ok s fr q own p : slot_ok s fr q own -> p ∈ own -> page_ok p.
Proof.
  unfold slot_ok. case_bool_decide; [intros (_ & _ & _ & ->) H'; by apply not_elem_of_nil in H'|]. intros (H1 & _ & _ & G & AS & [U _ _ _] & ->) [->|[Hp|Hp]%elem_of_app]%elem_of_cons; [done| |].
  - by apply (us_frames _ _ _ _ _ _ U).
  - apply (vm_page_ok _ _ _ _ _ _ (us_vm _ _ _ _ _ _ U)), elem_of_app. by right.
Qed.

(** The slot [p] of a table, apart from the others. *)
Lemma own_split s fr owns p q own : ptable s fr owns -> k_procs s !! p = Some q -> owns !! p = Some own ->
  slot_ok s fr q own /\ (forall x, x ∈ own -> x ∉ fr) /\ concat owns ≡ₚ own ++ concat (<[p := []]> owns) /\ NoDup own /\
  (forall i q' own', i <> p -> k_procs s !! i = Some q' -> owns !! i = Some own' -> forall x, x ∈ own' -> (x ∉ own) /\ (x ∉ fr)).
Proof.
  intros [Hl Hs Hn Hk Hh] Hq Ho. apply NoDup_app in Hn as (_ & Hfr & Hno).
  assert (forall owns, owns !! p = Some own -> concat owns ≡ₚ own ++ concat (<[p := []]> owns)) as Hsplit.
  { clear. revert p. intros p l. revert p. induction l as [|o l IH]; intros [|p] H; [done|done| |]; cbn in *; [by injection H as ->|]. rewrite (IH p H). by rewrite Permutation_app_swap_app. }
  assert (forall i own', owns !! i = Some own' -> forall x, x ∈ own' -> x ∈ concat owns) as Hin.
  { intros i own' Hi x Hx. apply elem_of_concat. exists own'. split; [by eapply list_elem_of_lookup_2|done]. }
  pose proof Hno as Hno2. rewrite (Hsplit owns Ho) in Hno2. apply NoDup_app in Hno2 as (Hn1 & Hd & _).
  split_and!; [by apply (Forall2_lookup_lr _ _ _ _ _ _ Hs Hq Ho)|intros x Hx Hxf; by apply (Hfr x Hxf), (Hin p own)|by apply Hsplit|done|].
  intros i q' own' Hi Hq' Ho' x Hx. split; [|intros Hxf; by apply (Hfr x Hxf), (Hin i own')]. intros Hxo. apply (Hd x Hxo).
  apply elem_of_concat. exists own'. split; [|done]. apply list_elem_of_lookup_2 with i. by rewrite list_lookup_insert_ne.
Qed.

(** The fields of a slot that matter for memory. *)
Definition same_slot (q q' : proc) : Prop :=
  (p_state q' = UNUSED <-> p_state q = UNUSED) /\ p_trapframe q' = p_trapframe q /\ p_pagetable q' = p_pagetable q /\ p_sz q' = p_sz q.

Lemma free_page_ok s fr x : kmem_inv s fr -> x ∈ fr -> page_ok x.
Proof. intros [H _] Hx. by eapply freelist_page_ok. Qed.

(** One slot trades pages with the free list. *)
Lemma ptable_update s fr owns p q own s' fr' q' own' qs : ptable s fr owns -> k_procs s !! p = Some q -> owns !! p = Some own ->
  length (k_procs s') = NPROC -> (forall i qi, i <> p -> k_procs s !! i = Some qi -> exists qi', k_procs s' !! i = Some qi' /\ same_slot qi qi') ->
  k_procs s' !! p = Some q' -> slot_ok s' fr' q' own' -> kmem_inv s' fr' -> LKmem ∉ k_held s' -> fr' ++ own' ≡ₚ fr ++ own ->
  same_outside qs (k_mem s) (k_mem s') -> (forall x, x ∈ qs -> x ∈ fr ++ own) ->
  ptable s' fr' (<[p := own']> owns) /\ fr' ++ concat (<[p := own']> owns) ≡ₚ fr ++ concat owns.
Proof.
  intros T Hq Ho Hlen Hoth Hq' Hsl K Hh P Hm Hqs. destruct (own_split _ _ _ _ _ _ T Hq Ho) as (Hsl0 & Hof & Hcat & Hno & Hsep).
  pose proof T as [Hl Hs Hn Hk _]. pose proof (lookup_lt_Some _ _ _ Ho) as Hlt. pose proof (Forall2_length _ _ _ Hs) as Hlo.
  assert (concat (<[p := own']> owns) ≡ₚ own' ++ concat (<[p := []]> owns)) as Hcat'.
  { clear -Hlt. revert p Hlt. induction owns as [|o l IH]; intros [|p] H; cbn in *; [lia|lia|done|]. rewrite (IH p ltac:(lia)). by rewrite Permutation_app_swap_app. }
  assert (fr' ++ concat (<[p := own']> owns) ≡ₚ fr ++ concat owns) as Htot by (rewrite Hcat, Hcat', !app_assoc; by rewrite P).
  split; [|done]. constructor; [done| |by rewrite Htot|done|done].
  apply Forall2_lookup. intros i. destruct (decide (i = p)) as [->|Hi]; [rewrite Hq', list_lookup_insert_eq by done; by constructor|]. rewrite list_lookup_insert_ne by done.
  destruct (k_procs s !! i) as [qi|] eqn:Ei.
  2:{ apply lookup_ge_None in Ei. rewrite !lookup_ge_None_2 by lia. constructor. }
  destruct (Hoth i qi Hi Ei) as (qi' & -> & E1 & E2 & E3 & E4). destruct (lookup_lt_is_Some_2 owns i) as [oi Eo]; [apply lookup_lt_Some in Ei; lia|]. rewrite Eo. constructor.
  pose proof (Hsep i qi oi Hi Ei Eo) as Hd. apply (slot_ext s' fr' qi); try done.
  eapply (slot_frame s fr qi oi s' fr' qs); [by apply (Forall2_lookup_lr _ _ _ _ _ _ Hs Ei Eo)|done|done|done| |].
  - intros x Hx. pose proof (Hqs x Hx) as Hin. split; [|apply elem_of_app in Hin as [Hin|Hin]; [by apply (free_page_ok _ _ _ Hk Hin)|by apply (slot_own_ok _ _ _ _ _ Hsl0 Hin)]].
    intros Hxo. destruct (Hd x Hxo). apply elem_of_app in Hin. tauto.
  - intros x Hx Hxf. destruct (Hd x Hx) as [? ?]. assert (x ∈ fr ++ own) as Hin by (rewrite <- P; apply elem_of_app; by left). apply elem_of_app in Hin. tauto.
Qed.

(** ** allocproc *)

Definition start_context (kstack : Z) : context := set_ctx_sp (u64 (kstack + PGSIZE)) (set_ctx_ra forkret_addr context0).

Definition with_memory (tf pt : Z) (q : proc) : proc := set_p_context (start_context (p_kstack q)) (set_p_pagetable pt (set_p_trapframe tf q)).

Lemma procs_only_lock s s' held : procs_only s s' -> procs_only (set_k_held held s) (set_k_held held s').
Proof. intros [->]. by constructor. Qed.

(** Giving up a slot without an address space. *)
Lemma alloc_fail p s fr held : let q := k_procs s !!! p in (p < length (k_procs s))%nat -> kmem_inv s fr -> k_held s = LProc p :: held -> LProc p ∉ held -> LKmem ∉ held ->
  p_pagetable q = 0 -> (forall x, x ∈ tf_page q -> page_ok x /\ (x ∉ fr)) ->
  wp (freeproc p ;; release (LProc p) ;; ret (@None nat)) (fun r s' => r = None /\ procs_only (set_k_held held s) s' /\ k_procs s' = alter freed_slot p (k_procs s) /\
    same_outside (tf_page q) (k_mem s) (k_mem s') /\ exists fr', kmem_inv s' fr' /\ fr' ≡ₚ fr ++ tf_page q) s.
Proof.
  intros q Hp Hk Hheld Hlp Hkm Hpt Htf. apply wp_bind. eapply wp_mono; [apply (freeproc_spec p s fr []); try done|].
  - rewrite Hheld. intros [?|?]%elem_of_cons; done.
  - by left.
  - by rewrite app_nil_r.
  - intros [] s1 (R & E & M & fr' & K & P). fold q in M, P. rewrite app_nil_r in M, P. apply wp_bind. eapply wp_release; [by rewrite (procs_only_held _ _ R)|done|].
    apply wp_ret. split_and!; [done| |done|done|exists fr'; split; [by destruct K; constructor|done]]. destruct R as [->]. by constructor.
Qed.

Lemma alloc_memory p s fr held : let q := k_procs s !!! p in (p < length (k_procs s))%nat -> kmem_inv s fr -> k_held s = LProc p :: held -> LProc p ∉ held -> LKmem ∉ held ->
  p_pagetable q = 0 ->
  wp (tf <- kalloc ;;
      upd_proc p (set_p_trapframe tf) ;;
      if tf =? 0 then freeproc p ;; release (LProc p) ;; ret None else
      pt <- proc_pagetable p ;;
      upd_proc p (set_p_pagetable pt) ;;
      if pt =? 0 then freeproc p ;; release (LProc p) ;; ret None else
      upd_proc p (set_p_context context0) ;;
      upd_proc p (fun q => set_p_context (set_ctx_ra forkret_addr (p_context q)) q) ;;
      upd_proc p (fun q => set_p_context (set_ctx_sp (u64 (p_kstack q + PGSIZE)) (p_context q)) q) ;;
      ret (Some p))
    (fun r s' => same_outside fr (k_mem s) (k_mem s') /\
      match r with
      | None => procs_only (set_k_held held s) s' /\ k_procs s' = alter freed_slot p (k_procs s) /\ (length fr < 4)%nat /\ exists fr', kmem_inv s' fr' /\ fr' ≡ₚ fr
      | Some p' => p' = p /\ procs_only s s' /\ exists tf pt G AS fr', k_procs s' = alter (with_memory tf pt) p (k_procs s) /\ page_ok tf /\ pt <> 0 /\
          proc_space s' pt G AS fr' 0 tf /\ fr' ++ tf :: pages G ≡ₚ fr
      end) s.
Proof.
  intros q Hp Hk Hheld Hlp Hkm Hpt. assert (LKmem ∉ k_held s) as Hh by (rewrite Hheld; intros [?|?]%elem_of_cons; done).
  assert (forall f, k_procs (set_k_procs (alter f p (k_procs s)) s) !!! p = f q) as Eq by (intros f; cbn [k_procs set_k_procs]; rewrite list_lookup_total_alter, decide_True by done; done).
  apply wp_bind. destruct fr as [|tf fr].
  - eapply wp_eq; [by apply kalloc_empty|]. change (0 =? 0) with true. cbv iota. apply wp_bind, wp_modify.
    eapply wp_mono; [apply (alloc_fail p _ [] held); rewrite ?Eq; try done; [cbn [k_procs set_k_procs]; by rewrite length_alter|by apply kmem_inv_procs|intros x Hx; by apply not_elem_of_nil in Hx]|].
    rewrite Eq. intros r s' (-> & R & E & M & fr' & K & P). split; [done|]. cbn [k_procs set_k_procs] in E. rewrite list_alter_alter in E. split_and!.
    + destruct R as [->]. by constructor.
    + rewrite E. by apply list_alter_ext.
    + cbn. lia.
    + exists fr'. split; [done|]. by rewrite P.
  - destruct (kalloc_spec s (tf :: fr) Hk Hh) as (s1 & E1 & K1 & Htf & Es1). eapply wp_eq; [exact E1|]. pose proof (page_ok_pos tf Htf) as Hpos.
    rewrite (proj2 (Z.eqb_neq tf 0)) by lia. assert (mem_only s s1) as R1 by (rewrite Es1; apply mem_only_mem_freelist). assert (same_outside [tf] (k_mem s) (k_mem s1)) as M1 by (rewrite Es1; apply same_outside_memset).
    pose proof Hk as [_ [Hn _]%NoDup_cons]. kwp. rewrite (mem_only_procs _ _ R1). set (s2 := set_k_procs _ s1).
    assert (k_procs s2 !!! p = set_p_trapframe tf q) as Eq2 by apply Eq.
    eapply wp_mono; [apply (proc_pagetable_spec p s2 fr); rewrite ?Eq2; [by apply kmem_inv_procs|cbn [s2 k_held set_k_procs]; by rewrite (mem_only_held _ _ R1)|done]|].
    rewrite Eq2. intros pt s3 (R3 & M3 & H3). pose proof (mem_only_procs _ _ R3) as Ep3. cbn [s2 k_procs set_k_procs] in Ep3.
    assert (same_outside (tf :: fr) (k_mem s) (k_mem s3)) as M03.
    { eapply same_outside_trans; [eapply same_outside_mono; [|exact M1]; intros x ->%list_elem_of_singleton; by left|eapply same_outside_mono; [|exact M3]; intros x Hx; by right]. }
    assert (procs_only s s3) as R03 by (eapply procs_only_trans; [by apply procs_only_mem|]; eapply procs_only_trans; [apply (procs_only_set s1)|]; by apply procs_only_mem).
    kwp. rewrite Ep3, list_alter_alter. destruct H3 as [(-> & Hlt & fr3 & K3 & P3)|(Hpt3 & G & AS & fr3 & Sp & P3)].
    + change (0 =? 0) with true. cbv iota. set (s4 := set_k_procs _ s3).
      assert (k_procs s4 !!! p = set_p_pagetable 0 (set_p_trapframe tf q)) as Eq4 by apply (Eq (fun x => set_p_pagetable 0 (set_p_trapframe tf x))).
      assert (tf_page (k_procs s4 !!! p) = [tf]) as Etf by (rewrite Eq4; unfold tf_page; cbn; by rewrite (proj2 (Z.eqb_neq tf 0)) by lia).
      eapply wp_mono; [apply (alloc_fail p s4 fr3 held); try done|].
      * cbn [s4 k_procs set_k_procs]. by rewrite length_alter.
      * by apply kmem_inv_procs.
      * cbn [s4 k_held set_k_procs]. by rewrite (procs_only_held _ _ R03).
      * by rewrite Eq4.
      * rewrite Etf. intros x ->%list_elem_of_singleton. split; [done|]. by rewrite P3.
      * rewrite Etf. intros r s' (-> & R & E & M & fr' & K & P). cbn [s4 k_procs set_k_procs] in E. rewrite list_alter_alter in E. split; [eapply same_outside_trans; [exact M03|]; eapply same_outside_mono; [|exact M]; intros x ->%list_elem_of_singleton; by left|].
        split_and!; [|rewrite E; by apply list_alter_ext|cbn; lia|exists fr'; split; [done|by rewrite P, P3, Permutation_app_comm]].
        eapply procs_only_trans; [apply procs_only_lock, R03|]. eapply procs_only_trans; [apply (procs_only_lock s3 s4), procs_only_set|exact R].
    + rewrite (proj2 (Z.eqb_neq _ _) Hpt3). kwp. split; [done|]. cbn [k_procs set_k_procs]. split_and!; [done| |].
      * eapply procs_only_trans; [exact R03|]. constructor. by destruct s3.
      * exists tf, pt, G, AS, fr3. split_and!; [rewrite !list_alter_alter; by apply list_alter_ext|done|done| |by rewrite <- Permutation_middle, P3].
        change (proc_space (set_k_procs (alter (fun q => set_p_context (set_ctx_sp (u64 (p_kstack q + PGSIZE)) (p_context q)) q) p (alter (fun q => set_p_context (set_ctx_ra forkret_addr (p_context q)) q) p (alter (set_p_context context0) p (alter (fun x => set_p_pagetable pt (set_p_trapframe tf x)) p (k_procs s))))) s3) pt G AS fr3 0 tf).
        by apply space_procs.
Qed.

(** The accounts of the slots that [allocproc] passes over. *)
Definition scanned (n : nat) (ps : list proc) : list proc := imap (fun i q => if decide (i < n)%nat then set_p_cputime 0 q else q) ps.

Lemma scanned_S n ps : alter (set_p_cputime 0) n (scanned n ps) = scanned (S n) ps.
Proof.
  apply list_eq. intros i. unfold scanned. destruct (decide (i = n)) as [->|Hi].
  - rewrite list_lookup_alter_eq, !list_lookup_imap. destruct (ps !! n); cbn; [|done]. rewrite decide_False, decide_True by lia. done.
  - rewrite list_lookup_alter_ne, !list_lookup_imap by done. destruct (ps !! i); cbn; [|done]. repeat case_decide; done || lia.
Qed.

Lemma scanned_0 ps : scanned 0 ps = ps.
Proof. apply list_eq. intros i. unfold scanned. rewrite list_lookup_imap. destruct (ps !! i); cbn; [|done]. by rewrite decide_False by lia. Qed.

Lemma scanned_at n p ps : (p < length ps)%nat -> (n <= p)%nat -> scanned n ps !!! p = ps !!! p.
Proof.
  intros Hp Hn. destruct (lookup_lt_is_Some_2 ps p Hp) as [q Hq]. rewrite (list_lookup_total_correct _ _ _ Hq). apply list_lookup_total_correct.
  unfold scanned. rewrite list_lookup_imap, Hq. cbn. by rewrite decide_False by lia.
Qed.

Definition first_unused (ps : list proc) (p : nat) : Prop :=
  (p < length ps)%nat /\ p_state (ps !!! p) = UNUSED /\ forall i, (i < p)%nat -> p_state (ps !!! i) <> UNUSED.

Lemma allocproc_scan_spec s : length (k_procs s) = NPROC -> no_proc_locks (k_held s) ->
  wp allocproc_scan (fun r s' => match r with
    | Some p => first_unused (k_procs s) p /\ s' = set_k_held (LProc p :: k_held s) (set_k_procs (scanned p (k_procs s)) s)
    | None => (forall i, (i < NPROC)%nat -> p_state (k_procs s !!! i) <> UNUSED) /\ s' = set_k_procs (scanned NPROC (k_procs s)) s
    end) s.
Proof.
  intros Hl Hh. apply (wp_for_each _ _ (fun done s1 => (forall i, (i < length done)%nat -> p_state (k_procs s !!! i) <> UNUSED) /\ s1 = set_k_procs (scanned (length done) (k_procs s)) s)).
  - intros done x todo s1 E [Hd ->]. pose proof (f_equal length E) as El. rewrite length_seq, length_app in El. cbn [length] in El.
    assert (x = length done) as ->.
    { pose proof (f_equal (fun l => l !! length done) E) as Ex. cbn beta in Ex. rewrite list_lookup_middle, lookup_seq_lt in Ex by lia. by injection Ex. }
    set (p := length done) in *. apply wp_bind, wp_acquire; [apply Hh|]. kwp. cbn [k_procs set_k_held set_k_procs]. rewrite scanned_at by lia. case_bool_decide as Hu.
    + apply wp_ret. split; [|done]. split_and!; [lia|done|done].
    + apply wp_bind. eapply wp_release; [done|apply Hh|]. kwp. cbn [k_procs set_k_held set_k_procs]. rewrite length_app. cbn [length]. rewrite Nat.add_1_r, scanned_S. split; [|by destruct s].
      intros i Hi. destruct (decide (i = p)) as [->|]; [done|]. apply Hd. lia.
  - intros s1 [Hd ->]. rewrite length_seq in *. done.
  - cbn [length]. split; [lia|]. rewrite scanned_0. by destruct s.
Qed.

(** The slot before it gets its pages. *)
Definition claimed (pid : Z) (q : proc) : proc := set_p_state USED (set_p_pid pid q).

Lemma scanned_same n ps i q : ps !! i = Some q -> exists q', scanned n ps !! i = Some q' /\ same_slot q q'.
Proof. intros Hi. unfold scanned. rewrite list_lookup_imap, Hi. eexists. split; [done|]. by case_decide. Qed.

Lemma ptable_ext s s' fr owns : ptable s fr owns -> k_mem s' = k_mem s -> k_freelist s' = k_freelist s -> LKmem ∉ k_held s' ->
  length (k_procs s') = length (k_procs s) -> (forall i q, k_procs s !! i = Some q -> exists q', k_procs s' !! i = Some q' /\ same_slot q q') -> ptable s' fr owns.
Proof.
  intros [Hl Hs Hn Hk _] Em Ef Hh El Hps. assert (kmem_inv s' fr) as K by (destruct Hk as [H1 H2]; constructor; [by rewrite Em, Ef|done]).
  constructor; [by rewrite El| |done|done|done]. apply Forall2_same_length_lookup. split; [rewrite El; by eapply Forall2_length|].
  intros i q' own Hq' Ho. destruct (lookup_lt_is_Some_2 (k_procs s) i) as [q Hq]; [rewrite <- El; by eapply lookup_lt_Some|].
  destruct (Hps i q Hq) as (q'' & Hq'' & E1 & E2 & E3 & E4). rewrite Hq' in Hq''. injection Hq'' as <-. apply (slot_ext s' fr q); try done.
  pose proof (Forall2_lookup_lr _ _ _ _ _ _ Hs Hq Ho) as Hsl. apply (slot_frame s fr q own s' fr []); try done.
  - rewrite Em. apply same_outside_refl.
  - intros x Hx. by apply not_elem_of_nil in Hx.
  - intros x Hx Hf. apply NoDup_app in Hn as (_ & Hn & _). apply (Hn x Hf), elem_of_concat. exists own. split; [by eapply list_elem_of_lookup_2|done].
Qed.

Lemma allocpid_run s : LPid ∉ k_held s -> allocpid s = Ok (k_nextpid s) (set_k_nextpid (i32 (k_nextpid s + 1)) s).
Proof.
  intros Hh. unfold allocpid. rewrite (bind_ok _ _ _ _ _ (acquire_ok _ _ Hh)). run_steps. erewrite bind_ok by (apply release_ok; left). simpl. rewrite remove1_cons by done. by destruct s.
Qed.

(** [s'] is [s] with other processes, memory, locks and process ids. *)
Record table_only (s s' : kernel) : Prop := {
  to_eq : s' = set_k_held (k_held s') (set_k_nextpid (k_nextpid s') (set_k_mem (k_mem s') (set_k_freelist (k_freelist s') (set_k_procs (k_procs s') s))));
}.

Lemma table_only_procs s s1 s' : table_only s s1 -> procs_only s1 s' -> table_only s s'.
Proof. intros [H1] [->]. constructor. rewrite H1. by destruct s. Qed.

Lemma allocproc_spec s fr owns : ptable s fr owns -> no_proc_locks (k_held s) -> LPid ∉ k_held s ->
  wp allocproc (fun r s' => exists fr' owns', ptable s' fr' owns' /\ fr' ++ concat owns' ≡ₚ fr ++ concat owns /\ table_only s s' /\ same_outside fr (k_mem s) (k_mem s') /\
    match r with
    | Some p => first_unused (k_procs s) p /\ k_held s' = LProc p :: k_held s /\ k_nextpid s' = i32 (k_nextpid s + 1) /\
        (forall i, i <> p -> owns' !! i = owns !! i) /\
        exists tf pt, k_procs s' = alter (fun q => with_memory tf pt (claimed (k_nextpid s) q)) p (scanned p (k_procs s))
    | None => k_held s' = k_held s /\ owns' = owns /\
        (k_procs s' = scanned NPROC (k_procs s) /\ (forall i, (i < NPROC)%nat -> p_state (k_procs s !!! i) <> UNUSED) \/
         exists p, first_unused (k_procs s) p /\ (length fr < 4)%nat /\ k_procs s' = alter freed_slot p (scanned p (k_procs s)))
    end) s.
Proof.
  intros T Hh Hpid. pose proof T as [Hl Hs Hn Hk Hkm]. unfold allocproc. apply wp_bind. eapply wp_mono; [by apply allocproc_scan_spec|]. intros [p|] s1.
  2:{ intros [Hno ->]. apply wp_ret. exists fr, owns. cbn [k_held k_procs set_k_procs]. split_and!; [|done|by constructor; destruct s|apply same_outside_refl|done|done|by left].
      eapply ptable_ext; try done; [cbn; unfold scanned; by rewrite length_imap|]. intros i q Hi. by apply scanned_same. }
  intros [Hfirst ->]. pose proof Hfirst as (Hp & Hu & _). destruct (lookup_lt_is_Some_2 _ _ Hp) as [q Hq]. rewrite (list_lookup_total_correct _ _ _ Hq) in Hu.
  destruct (lookup_lt_is_Some_2 owns p) as [own Ho]; [by rewrite <- (Forall2_length _ _ _ Hs)|]. pose proof (Forall2_lookup_lr _ _ _ _ _ _ Hs Hq Ho) as Hsl.
  unfold slot_ok in Hsl. rewrite bool_decide_true in Hsl by done. destruct Hsl as (Htf0 & Hpt0 & Hsz0 & ->).
  apply wp_bind. eapply wp_eq; [apply allocpid_run; cbn; intros [?|?]%elem_of_cons; done|]. cbn [k_nextpid set_k_held set_k_procs]. apply wp_bind, wp_modify, wp_bind, wp_modify.
  cbn [k_procs set_k_held set_k_procs set_k_nextpid]. rewrite list_alter_alter. set (ps := alter _ p _). set (s2 := set_k_procs ps _).
  assert (length (scanned p (k_procs s)) = NPROC) as Hls by (unfold scanned; by rewrite length_imap).
  assert (k_procs s2 !!! p = claimed (k_nextpid s) q) as Eq.
  { cbn [s2 k_procs set_k_procs]. unfold ps. rewrite list_lookup_total_alter, decide_True, scanned_at by (lia || done). by rewrite (list_lookup_total_correct _ _ _ Hq). }
  eapply wp_mono; [apply (alloc_memory p s2 fr (k_held s)); rewrite ?Eq; solve [done|cbn; unfold ps; rewrite length_alter; lia|by destruct Hk; constructor|apply Hh]|].
  assert (forall f i qi, i <> p -> k_procs s !! i = Some qi -> exists qi', alter f p ps !! i = Some qi' /\ same_slot qi qi') as Hoth.
  { intros f i qi Hi Hqi. unfold ps. rewrite !list_lookup_alter_ne by done. by apply scanned_same. }
  assert (forall f, alter f p ps !! p = Some (f (claimed (k_nextpid s) q))) as Hat.
  { intros f. unfold ps. rewrite !list_lookup_alter_eq. unfold scanned. rewrite list_lookup_imap, Hq. cbn. by rewrite decide_False by lia. }
  intros [p'|] s' (M & H).
  - destruct H as (-> & R & tf & pt & G & AS & fr' & Eps & Htf & Hpt & Sp & P). cbn [s2 k_procs set_k_procs] in Eps.
    destruct (ptable_update s fr owns p q [] s' fr' (with_memory tf pt (claimed (k_nextpid s) q)) (tf :: pages G) fr) as [T' P']; try done.
    + rewrite Eps. unfold ps. by rewrite !length_alter.
    + rewrite Eps. apply Hoth.
    + by rewrite Eps.
    + unfold slot_ok. rewrite bool_decide_false by done. cbn [with_memory claimed p_trapframe p_pagetable p_sz set_p_context set_p_pagetable set_p_trapframe set_p_state set_p_pid].
      rewrite Hsz0. split_and!; [done|done|done|]. by exists G, AS.
    + apply (us_vm _ _ _ _ _ _ (sp_us _ _ _ _ _ _ _ Sp)).
    + apply (us_vm _ _ _ _ _ _ (sp_us _ _ _ _ _ _ _ Sp)).
    + by rewrite app_nil_r.
    + intros x Hx. by rewrite app_nil_r.
    + exists fr', (<[p := tf :: pages G]> owns). split_and!; [done|done|eapply table_only_procs; [|exact R]; constructor; by destruct s|done|done|by rewrite (procs_only_held _ _ R)|by destruct R as [->]|intros i Hi; by rewrite list_lookup_insert_ne|].
      exists tf, pt. rewrite Eps. unfold ps. by rewrite list_alter_alter.
  - destruct H as (R & Eps & Hlt & fr' & K & P). cbn [s2 k_procs set_k_procs] in Eps.
    destruct (ptable_update s fr owns p q [] s' fr' (freed_slot (claimed (k_nextpid s) q)) [] fr) as [T' P']; try done.
    + rewrite Eps. unfold ps. by rewrite !length_alter.
    + rewrite Eps. apply Hoth.
    + by rewrite Eps.
    + by rewrite (procs_only_held _ _ R).
    + by rewrite !app_nil_r.
    + intros x Hx. by rewrite app_nil_r.
    + rewrite list_insert_id in T', P' by done. exists fr', owns. split_and!; [done|done|eapply table_only_procs; [|exact R]; constructor; by destruct s|done|by rewrite (procs_only_held _ _ R)|done|]. right. exists p. split_and!; [done|done|].
      rewrite Eps. unfold ps. rewrite list_alter_alter. by apply list_alter_ext.
Qed.

Lemma freeproc_table s fr owns p q own : ptable s fr owns -> k_procs s !! p = Some q -> owns !! p = Some own -> p_state q <> UNUSED ->
  wp (freeproc p) (fun _ s' => exists fr', ptable s' fr' (<[p := []]> owns) /\ fr' ≡ₚ fr ++ own /\ procs_only s s' /\ same_outside own (k_mem s) (k_mem s') /\ k_procs s' = alter freed_slot p (k_procs s)) s.
Proof.
  intros T Hq Ho Hu. pose proof T as [Hl Hs Hn Hk Hkm]. pose proof (list_lookup_total_correct _ _ _ Hq) as Eq. pose proof (lookup_lt_Some _ _ _ Hq) as Hp.
  destruct (own_split _ _ _ _ _ _ T Hq Ho) as (Hsl & Hof & Hcat & Hno & _). pose proof (slot_own_ok s fr q own) as Hpg. specialize (fun p => Hpg p Hsl).
  unfold slot_ok in Hsl. rewrite bool_decide_false in Hsl by done. destruct Hsl as (Htf & Hpt & Hsz & G & AS & Sp & ->). set (m := frames AS 0 (npg (p_sz q)) ++ pages G) in *.
  pose proof (page_ok_pos _ Htf) as Hpos. assert (tf_page q = [p_trapframe q]) as Etf by (unfold tf_page; by rewrite (proj2 (Z.eqb_neq _ 0)) by lia).
  apply NoDup_cons in Hno as [Hnm _].
  eapply wp_mono; [apply (freeproc_spec p s fr m); rewrite ?Eq; try done|].
  - right. split_and!; [done|done|]. by exists G, AS, (p_trapframe q).
  - rewrite Etf. intros x ->%list_elem_of_singleton. split; [done|]. rewrite elem_of_app. intros [Hx|Hx]; [|done]. apply (Hof (p_trapframe q)); [by left|done].
  - rewrite Eq, Etf. cbn [app]. intros [] s' (R & Eps & M & fr' & K & P). exists fr'.
    destruct (ptable_update s fr owns p q (p_trapframe q :: m) s' fr' (freed_slot q) [] (p_trapframe q :: m)) as [T' P']; try done.
    + rewrite Eps. by rewrite length_alter.
    + intros i qi Hi Hqi. rewrite Eps, list_lookup_alter_ne by done. exists qi. by split.
    + by rewrite Eps, list_lookup_alter_eq, Hq.
    + by rewrite (procs_only_held _ _ R).
    + by rewrite app_nil_r.
    + intros x Hx. apply elem_of_app. by right.
Qed.

(** C7: the process table stays well formed.  In a well-formed table every slot in
    use has a trapframe and an address space of its own, with the trapframe and
    the trampoline on top, every unused slot has none, and no page has two
    owners.  [allocproc] takes the first unused slot with a new process id, a
    start context and an empty address space; it fails only if every slot is in
    use or fewer than four pages are free, and then gives everything back;
    it writes to free pages only.  [freeproc] returns every page of a process to
    the free list.  In passing, [allocproc] clears the accounts of the slots
    before the one it takes. *)
Theorem process_table_ok s fr owns : ptable s fr owns ->
  (no_proc_locks (k_held s) -> LPid ∉ k_held s ->
   wp allocproc (fun r s' => exists fr' owns', ptable s' fr' owns' /\ fr' ++ concat owns' ≡ₚ fr ++ concat owns /\ table_only s s' /\ same_outside fr (k_mem s) (k_mem s') /\
     match r with
     | Some p => first_unused (k_procs s) p /\ k_held s' = LProc p :: k_held s /\ k_nextpid s' = i32 (k_nextpid s + 1) /\
         (forall i, i <> p -> owns' !! i = owns !! i) /\
         exists tf pt, k_procs s' = alter (fun q => with_memory tf pt (claimed (k_nextpid s) q)) p (scanned p (k_procs s))
     | None => k_held s' = k_held s /\ owns' = owns /\
         (k_procs s' = scanned NPROC (k_procs s) /\ (forall i, (i < NPROC)%nat -> p_state (k_procs s !!! i) <> UNUSED) \/
          exists p, first_unused (k_procs s) p /\ (length fr < 4)%nat /\ k_procs s' = alter freed_slot p (scanned p (k_procs s)))
     end) s) /\
  (forall p q own, k_procs s !! p = Some q -> owns !! p = Some own -> p_state q <> UNUSED ->
   wp (freeproc p) (fun _ s' => exists fr', ptable s' fr' (<[p := []]> owns) /\ fr' ≡ₚ fr ++ own /\ procs_only s s' /\ same_outside own (k_mem s) (k_mem s') /\
     k_procs s' = alter freed_slot p (k_procs s)) s).
Proof. intros T. split; [intros; by apply allocproc_spec|intros; by eapply freeproc_table]. Qed.
End Table.

Module TableDemo.
Import VmTheorems.VmDemo.

Lemma demo_table : ptable (Lk := kernel_sym) st fr0 (replicate NPROC []).
Proof.
  constructor; [done| | |apply st_kmem|by apply not_elem_of_nil].
  - apply Forall2_replicate. unfold slot_ok. by rewrite bool_decide_true by done.
  - change (NoDup fr0). apply (bool_decide_unpack _). by vm_compute.
Qed.

(** With the five free pages of [st] the process 0 is created and destroyed. *)
Lemma process_table_ok_witness :
  wp (allocproc (Lk := kernel_sym)) (fun r s' => exists fr' owns', ptable (Lk := kernel_sym) s' fr' owns' /\ fr' ++ concat owns' ≡ₚ fr0 ++ concat (replicate NPROC []) /\
    r = Some O) st.
Proof.
  refine (wp_mono _ _ _ _ (proj1 (process_table_ok (Lo := kernel_sym_ok) st fr0 (replicate NPROC []) demo_table) (fun i => not_elem_of_nil _) (not_elem_of_nil _)) _).
  intros r s' (fr' & owns' & T & P & _ & _ & H). exists fr', owns'. split_and!; [done|done|]. destruct r as [p|].
  - destruct H as ((Hp & _ & Hmin) & _). destruct p as [|p]; [done|]. exfalso. by apply (Hmin O ltac:(lia)).
  - exfalso. destruct H as (_ & _ & [[_ H]|(p & _ & Hlt & _)]); [by apply (H O ltac:(unfold NPROC; lia))|cbn in Hlt; lia].
Defined.
End TableDemo.
