(* ===== verification/ForkProofs.v ===== *)
(** * fork

    The child is a slot of its own in the process table, with a copy of the
    parent's memory and registers, and a reference of its own to each open file
    and to the current directory. *)

From S2P Require Import Prelude Bytes Params CString Spinlock State Kalloc Vm PageTable VmProofs UserSpace UvmProofs FreeWalk VmTheorems Sched Fs File Proc SchedProofs ProcProofs ProcTable.

Section Fork.
Context `{Lk : Linker} {Lo : LinkerOk Lk}.

(** ** Memory *)

(** An address space depends on memory only. *)
Lemma space_ext s s' root G AS fr n tf : proc_space s root G AS fr n tf -> k_mem s' = k_mem s -> k_freelist s' = k_freelist s -> LKmem ∉ k_held s' -> proc_space s' root G AS fr n tf.
Proof.
  intros [[[Hk Hh HT Hs Hl Hr] H1 H2 H3 H4 H5] T1 T2 T3] Em Ef Hh'. constructor; try done. constructor; try done.
  constructor; try done; [|by rewrite Em|by rewrite Em]. destruct Hk as [K1 K2]. constructor; [by rewrite Em, Ef|done].
Qed.

(** Every page of [AS] has a copy in [AS']. *)
Definition copies (m m' : gmap Z Z) (AS AS' : aspace) (n : nat) : Prop :=
  forall v, 0 <= v < Z.of_nat n -> exists pa pa' fl, AS !! v = Some (pa, fl) /\ AS' !! v = Some (pa', fl) /\
    forall off, 0 <= off < PGSIZE -> ldb m' (pa' + off) = ldb m (pa + off).

Lemma slot_space s fr q own : slot_ok s fr q own -> p_state q <> UNUSED ->
  page_ok (p_trapframe q) /\ p_pagetable q <> 0 /\ 0 <= p_sz q /\
  exists G AS, proc_space s (p_pagetable q) G AS fr (npg (p_sz q)) (p_trapframe q) /\ own = p_trapframe q :: frames AS 0 (npg (p_sz q)) ++ pages G.
Proof. unfold slot_ok. intros H Hu. by rewrite bool_decide_false in H by done. Qed.

Lemma copy_space s fr owns p q op np nq on Go ASo : ptable s fr owns -> p <> np ->
  k_procs s !! p = Some q -> owns !! p = Some op -> 0 <= p_sz q ->
  proc_space s (p_pagetable q) Go ASo fr (npg (p_sz q)) (p_trapframe q) -> op = p_trapframe q :: frames ASo 0 (npg (p_sz q)) ++ pages Go ->
  k_procs s !! np = Some nq -> owns !! np = Some on -> p_state nq <> UNUSED -> p_sz nq = 0 ->
  wp (uvmcopy (p_pagetable q) (p_pagetable nq) (p_sz q)) (fun r s' => mem_only s s' /\ same_outside (fr ++ on) (k_mem s) (k_mem s') /\ exists G AS fr' n on',
    proc_space s' (p_pagetable nq) G AS fr' n (p_trapframe nq) /\ on' = p_trapframe nq :: frames AS 0 n ++ pages G /\ fr' ++ on' ≡ₚ fr ++ on /\
    (r = -1 /\ n = O \/ r = 0 /\ n = npg (p_sz q) /\ copies (k_mem s) (k_mem s') ASo AS n)) s.
Proof.
  intros T Hne Hq Ho Hszq [Uo To1 To2 To3] Eo Hnq Hno Hnu Hsz. destruct (own_split _ _ _ _ _ _ T Hnq Hno) as (Hsl & Hof & _ & _ & Hsep). specialize (Hsep p q op Hne Hq Ho).
  destruct (slot_space _ _ _ _ Hsl Hnu) as (_ & _ & _ & G & AS & [U T1 T2 T3] & E). rewrite Hsz in U, E. change (npg 0) with O in U, E. cbn [frames app] in E.
  eapply wp_mono; [apply (uvmcopy_spec _ _ s Go G ASo AS fr _ Uo U); [|done|done]|].
  - intros x Hx Hxg. destruct (Hsep x) as [Hx1 _]; [rewrite Eo; apply list_elem_of_further, elem_of_app; apply elem_of_app in Hx; tauto|]. apply Hx1. rewrite E. by right.
  - intros r s' (G' & AS' & fr' & k & [U' Hsame Hnew P M R] & H). cbn [Nat.add] in *. split; [done|]. split.
    { eapply same_outside_mono; [|exact M]. intros x [Hx|Hx]%elem_of_app; apply elem_of_app; [by left|right]. rewrite E. by right. }
    assert (Z.of_nat k <= UTOP) as Hk by apply U'. exists G', AS', fr', k, (p_trapframe nq :: frames AS' 0 k ++ pages G'). split_and!; [|done| |].
    + constructor; [done|by rewrite Hsame by lia|by rewrite Hsame by lia|]. intros x Hx. rewrite Hsame by lia. by apply T3.
    + rewrite E, <- !Permutation_middle. by rewrite (Permutation_app_comm (frames AS' 0 k)), P.
    + destruct H as [[-> ->]|(-> & -> & _)]; [right|by left]. split_and!; [done|done|].
      intros v Hv. destruct (Hnew (Z.to_nat v) ltac:(lia)) as (pa' & fl & E1 & pa & E2 & Hb). rewrite Z2Nat.id in E1, E2 by lia. by exists pa, pa', fl.
Qed.

(** ** Open files *)

(** The number of descriptors among [os] that refer to the file [f]. *)
Definition refs_to (f : nat) (os : list (option nat)) : Z := Z.of_nat (length (filter (fun o => o = Some f) os)).

(** The file table with one more reference for each of [os]. *)
Definition duped (os : list (option nat)) (ft : list file) : list file :=
  imap (fun f x => set_f_ref (f_ref x + refs_to f os) x) ft.

Definition open_files (ft : list file) (os : list (option nat)) : Prop :=
  length os = NOFILE /\ forall f, Some f ∈ os -> (f < length ft)%nat /\ 1 <= f_ref (ft !!! f).

Lemma refs_snoc f os o : refs_to f (os ++ [o]) = refs_to f os + (if decide (o = Some f) then 1 else 0).
Proof. unfold refs_to. rewrite filter_app, filter_cons, filter_nil, length_app. case_decide; cbn; lia. Qed.

Lemma duped_none os ft : duped (os ++ [None]) ft = duped os ft.
Proof. apply imap_ext. intros i x _. cbn. by rewrite refs_snoc, decide_False, Z.add_0_r by done. Qed.

Lemma duped_some os f ft : duped (os ++ [Some f]) ft = alter (fun x => set_f_ref (f_ref x + 1) x) f (duped os ft).
Proof.
  apply list_eq. intros i. unfold duped. destruct (decide (i = f)) as [->|Hi].
  - rewrite list_lookup_alter_eq, !list_lookup_imap. destruct (ft !! f) as [x|]; [|done]. cbn. f_equal. rewrite refs_snoc, decide_True by done. by rewrite Z.add_assoc.
  - rewrite list_lookup_alter_ne, !list_lookup_imap by done. destruct (ft !! i); [|done]. cbn. rewrite refs_snoc, decide_False by congruence. by rewrite Z.add_0_r.
Qed.

Lemma duped_nil ft : duped [] ft = ft.
Proof. apply list_eq. intros i. unfold duped. rewrite list_lookup_imap. destruct (ft !! i) as [[]|]; [|done]. cbn. by rewrite Z.add_0_r. Qed.

Lemma duped_ref os ft f : (f < length ft)%nat -> f_ref (duped os ft !!! f) = f_ref (ft !!! f) + refs_to f os.
Proof.
  intros Hf. destruct (lookup_lt_is_Some_2 ft f Hf) as [x Hx]. rewrite (list_lookup_total_correct _ _ _ Hx).
  rewrite (list_lookup_total_correct _ f (set_f_ref (f_ref x + refs_to f os) x)); [done|]. unfold duped. by rewrite list_lookup_imap, Hx.
Qed.

Lemma filedup_run f s : LFtable ∉ k_held s -> 1 <= f_ref (k_ftable s !!! f) ->
  filedup f s = Ok f (set_k_ftable (alter (fun x => set_f_ref (f_ref x + 1) x) f (k_ftable s)) s).
Proof.
  intros Hh Hr. unfold filedup, get_file, upd_file. rewrite (bind_ok _ _ _ _ _ (acquire_ok _ _ Hh)). run_steps. cbn [k_ftable set_k_held]. rewrite (proj2 (Z.ltb_ge _ 1)) by done.
  run_steps. erewrite bind_ok by (apply release_ok; left). cbn [set_k_held set_k_ftable k_held k_ftable]. rewrite remove1_cons by done. unfold ret. f_equal.
  rewrite (list_alter_ext _ (fun x => set_f_ref (f_ref x + 1) x) (k_ftable s) (k_ftable s) f); [by destruct s| |done]. intros x Hx. by rewrite (list_lookup_total_correct _ _ _ Hx).
Qed.

(** The descriptors of the child after [n] rounds. *)
Definition upto (n : nat) (os : list (option nat)) : list (option nat) := take n os ++ replicate (NOFILE - n) None.

Lemma upto_step n os o : length os = NOFILE -> os !! n = Some o -> upto (S n) os = <[n := o]> (upto n os).
Proof.
  intros Hl Hn. pose proof (lookup_lt_Some _ _ _ Hn) as Hlt. unfold upto. rewrite (take_S_r _ _ _ Hn). replace (NOFILE - n)%nat with (S (NOFILE - S n)) by lia.
  rewrite insert_app_r_alt by (rewrite length_take; lia). rewrite length_take, Nat.min_l, Nat.sub_diag by lia. cbn [replicate]. by rewrite <- app_assoc.
Qed.

Lemma upto_none n os : length os = NOFILE -> os !! n = Some None -> upto (S n) os = upto n os.
Proof.
  intros Hl Hn. rewrite (upto_step n os None) by done. pose proof (lookup_lt_Some _ _ _ Hn) as Hlt. apply list_insert_id. unfold upto.
  rewrite lookup_app_r, length_take, Nat.min_l, Nat.sub_diag by (rewrite ?length_take; lia). replace (NOFILE - n)%nat with (S (NOFILE - S n)) by lia. done.
Qed.

Lemma alter_id_at {A} (f : A -> A) i (l : list A) x : l !! i = Some x -> f x = x -> alter f i l = l.
Proof. intros Hi Hf. apply list_eq. intros j. destruct (decide (j = i)) as [->|]; [by rewrite list_lookup_alter_eq, Hi; cbn; rewrite Hf|by rewrite list_lookup_alter_ne]. Qed.

Definition with_files (os : list (option nat)) (np : nat) (s : kernel) : kernel :=
  set_k_ftable (duped os (k_ftable s)) (set_k_procs (alter (set_p_ofile os) np (k_procs s)) s).

Lemma dup_ofiles s p q np nq : k_procs s !! p = Some q -> k_procs s !! np = Some nq -> p <> np -> LFtable ∉ k_held s ->
  open_files (k_ftable s) (p_ofile q) -> p_ofile nq = replicate NOFILE None ->
  wp (for_all (seq 0 NOFILE) (fun i =>
        q <- get_proc p ;;
        match p_ofile q !!! i with
        | Some f =>
            f' <- filedup f ;;
            upd_proc np (fun q => set_p_ofile (<[i := Some f']> (p_ofile q)) q)
        | None => ret tt
        end)) (fun _ s' => s' = with_files (p_ofile q) np s) s.
Proof.
  intros Hq Hnq Hne Hh [Hl Hos] Hno. set (os := p_ofile q) in *.
  apply (wp_for_all _ _ (fun done s1 => s1 = set_k_ftable (duped (take (length done) os) (k_ftable s)) (set_k_procs (alter (set_p_ofile (upto (length done) os)) np (k_procs s)) s))).
  - intros done x todo s1 E ->. pose proof (f_equal length E) as El. rewrite length_seq, length_app in El. cbn [length] in El.
    assert (x = length done) as ->.
    { pose proof (f_equal (fun l => l !! length done) E) as Ex. cbn beta in Ex. rewrite list_lookup_middle, lookup_seq_lt in Ex by lia. by injection Ex. }
    set (n := length done) in *. rewrite length_app, Nat.add_1_r. fold n. destruct (lookup_lt_is_Some_2 os n) as [o Ho]; [lia|]. rewrite (take_S_r _ _ _ Ho).
    apply wp_bind, wp_gets. cbn [k_procs set_k_procs set_k_ftable]. rewrite list_lookup_total_alter, decide_False, (list_lookup_total_correct _ _ _ Hq) by naive_solver. fold os. rewrite (list_lookup_total_correct _ _ _ Ho).
    destruct o as [f|]; [|apply wp_ret; by rewrite duped_none, upto_none].
    destruct (Hos f) as [Hf Hr]; [by eapply list_elem_of_lookup_2|]. apply wp_bind. eapply wp_eq; [apply filedup_run; [done|cbn [k_ftable set_k_ftable]; rewrite duped_ref by done; unfold refs_to; lia]|].
    apply wp_modify. cbn [k_procs set_k_procs set_k_ftable k_ftable]. rewrite duped_some, list_alter_alter, (upto_step _ _ _ Hl Ho). done.
  - intros s1 ->. rewrite length_seq. unfold with_files, upto. rewrite !take_ge, Nat.sub_diag, app_nil_r by lia. done.
  - cbn [length]. rewrite take_0, duped_nil, (alter_id_at _ _ _ nq Hnq); [by destruct s|]. unfold upto. cbn [take app]. rewrite Nat.sub_0_r, <- Hno. by destruct nq.
Qed.

Lemma idup_run ip s : LItable ∉ k_held s -> idup ip s = Ok ip (set_k_itable (alter (fun x => set_i_ref (i_ref x + 1) x) ip (k_itable s)) s).
Proof.
  intros Hh. unfold idup, upd_inode. rewrite (bind_ok _ _ _ _ _ (acquire_ok _ _ Hh)). run_steps. erewrite bind_ok by (apply release_ok; left).
  cbn [set_k_held set_k_itable k_held k_itable]. rewrite remove1_cons by done. by destruct s.
Qed.

(** ** The registers and the slot of the child *)

(** The trapframe of the child: the parent's with 0 in a0. *)
Definition child_regs (m : gmap Z Z) (dst src : Z) : gmap Z Z := store64 (memmove m dst src sizeof_trapframe) (dst + TF_a 0) 0.

Definition regs_copied (m m' : gmap Z Z) (src dst : Z) : Prop :=
  forall off, 0 <= off < sizeof_trapframe -> ldb m' (dst + off) = if decide (TF_a 0 <= off < TF_a 1) then 0 else ldb m (src + off).

Lemma ldb_child_regs m dst src a : ldb (child_regs m dst src) a =
  if decide (dst + TF_a 0 <= a < dst + TF_a 1) then 0 else if decide (dst <= a < dst + sizeof_trapframe) then ldb m (src + (a - dst)) else ldb m a.
Proof.
  unfold child_regs. rewrite store64_store, ldb_store, length_le_bytes, ldb_memmove by (unfold sizeof_trapframe; lia). change (TF_a 1) with (TF_a 0 + 8). change (Z.of_nat 8) with 8. rewrite Z.add_assoc.
  case_decide; [|done]. change (le_bytes 8 0) with (replicate 8 0). destruct (replicate 8 0 !! _) as [x|] eqn:E; [|done]. by apply lookup_replicate in E as [-> _].
Qed.

Lemma child_regs_copied m dst src : regs_copied m (child_regs m dst src) src dst.
Proof.
  intros off Hoff. rewrite ldb_child_regs. destruct (decide (TF_a 0 <= off < TF_a 1)); [by rewrite decide_True by lia|]. rewrite decide_False, decide_True by lia. do 2 f_equal. lia.
Qed.

Lemma child_regs_outside m dst src : same_outside [dst] m (child_regs m dst src).
Proof.
  intros a Ha. specialize (Ha dst ltac:(by left)). rewrite ldb_child_regs. unfold TF_a, sizeof_trapframe, PGSIZE in *. by rewrite !decide_False by lia.
Qed.

Definition forked (p : nat) (q nq : proc) : proc :=
  set_p_state RUNNABLE (set_p_parent (Some p) (set_p_name (safestrcpy (p_name nq) (p_name q) 16)
    (set_p_cwd (p_cwd q) (set_p_ofile (p_ofile q) (set_p_sz (p_sz q) nq))))).

(** The state after the child is ready. *)
Definition fork_state (p np : nat) (q : proc) (tf : Z) (cwd : nat) (s : kernel) : kernel :=
  set_k_held [] (set_k_itable (alter (fun x => set_i_ref (i_ref x + 1) x) cwd (k_itable s)) (set_k_ftable (duped (p_ofile q) (k_ftable s))
    (set_k_mem (child_regs (k_mem s) tf (p_trapframe q)) (set_k_procs (alter (forked p q) np (k_procs s)) s)))).

Lemma wp_nonnull (a : Z) (Q : Z -> kernel -> Prop) s : a <> 0 -> Q a s -> wp (nonnull a) Q s.
Proof. intros Ha HQ. unfold nonnull. rewrite (proj2 (Z.eqb_neq a 0)) by done. by apply wp_ret. Qed.

Lemma fork_child_spec s p q np nq cwd : k_procs s !! p = Some q -> k_procs s !! np = Some nq -> p <> np -> k_held s = [LProc np] ->
  open_files (k_ftable s) (p_ofile q) -> p_ofile nq = replicate NOFILE None -> p_trapframe q <> 0 -> p_trapframe nq <> 0 -> p_cwd q = Some cwd ->
  wp (fork_child p np q nq) (fun r s' => r = p_pid nq /\ s' = fork_state p np q (p_trapframe nq) cwd s) s.
Proof.
  intros Hq Hnq Hne Hh Hos Hno Ht Hnt Hc. unfold fork_child. apply wp_bind, wp_modify, wp_bind, wp_nonnull; [done|]. apply wp_bind, wp_nonnull; [done|]. apply wp_bind, wp_modify.
  set (s1 := set_k_mem _ _). assert (k_procs s1 !! p = Some q) as Hq1 by (cbn; by rewrite list_lookup_alter_ne by done).
  assert (k_procs s1 !! np = Some (set_p_sz (p_sz q) nq)) as Hnq1 by (cbn; by rewrite list_lookup_alter_eq, Hnq).
  apply wp_bind. unfold tf_set. apply wp_bind, wp_gets. rewrite (list_lookup_total_correct _ _ _ Hnq1). apply wp_bind, wp_nonnull; [done|]. apply wp_modify.
  set (s2 := set_k_mem _ _). apply wp_bind. eapply wp_mono; [apply (dup_ofiles s2 p q np _ Hq1 Hnq1 Hne); [cbn; rewrite Hh; by intros ?%list_elem_of_singleton|done|done]|]. intros [] s3 ->.
  rewrite Hc. apply wp_bind, wp_ret, wp_bind. eapply wp_eq; [apply idup_run; cbn; rewrite Hh; by intros ?%list_elem_of_singleton|]. apply wp_bind, wp_modify, wp_bind, wp_modify, wp_bind, wp_gets.
  cbn [with_files k_procs set_k_procs set_k_ftable set_k_itable]. rewrite !list_alter_alter, list_lookup_total_alter, decide_True, (list_lookup_total_correct _ _ _ Hnq1) by (split; [done|exact (lookup_lt_Some _ _ _ Hnq1)]).
  cbv zeta. apply wp_bind. eapply wp_release; [exact Hh|by apply not_elem_of_nil|]. apply wp_bind, wp_acquire; [by apply not_elem_of_nil|]. apply wp_bind, wp_modify, wp_bind.
  eapply wp_release; [done|by apply not_elem_of_nil|]. apply wp_bind, wp_acquire; [by apply not_elem_of_nil|]. apply wp_bind, wp_modify, wp_bind. eapply wp_release; [done|by apply not_elem_of_nil|]. apply wp_ret.
  split; [done|]. cbn [with_files s1 s2 k_procs set_k_procs set_k_ftable set_k_itable set_k_held set_k_mem]. rewrite !list_alter_alter. unfold fork_state, forked. rewrite Hc. done.
Qed.

(** The child's trapframe is a page that nothing else of the child uses. *)
Lemma forked_space s p np q nq G AS fr n cwd : let tf := p_trapframe nq in let s' := fork_state p np q tf cwd s in
  proc_space s (p_pagetable nq) G AS fr n tf -> page_ok tf -> NoDup (fr ++ tf :: frames AS 0 n ++ pages G) -> proc_space s' (p_pagetable nq) G AS fr n tf.
Proof.
  intros tf s' Sp Htf Hn. apply NoDup_app in Hn as (_ & Hfr & [Hn _]%NoDup_cons). rewrite elem_of_app in Hn.
  apply (space_ext (set_k_mem (child_regs (k_mem s) tf (p_trapframe q)) s)); [|done|done|by apply not_elem_of_nil]. destruct Sp as [U T1 T2 T3]. constructor; try done.
  eapply us_mem; [exact U|apply child_regs_outside|]. intros x ->%list_elem_of_singleton. split; [|apply Htf]. rewrite elem_of_app. intros [Hx|Hx]; [|tauto].
  apply (Hfr tf Hx). by left.
Qed.

Lemma copies_regs m m' AS AS' n tf src : copies m m' AS AS' n -> page_ok tf -> tf ∉ frames AS' 0 n -> (forall x, x ∈ frames AS' 0 n -> page_ok x) ->
  copies m (child_regs m' tf src) AS AS' n.
Proof.
  intros H Htf Hn Hok v Hv. destruct (H v Hv) as (pa & pa' & fl & E & E' & Hb). exists pa, pa', fl. split_and!; [done|done|]. intros off Hoff. rewrite <- Hb by done.
  assert (pa' ∈ frames AS' 0 n) as Hin by (apply elem_frames_0; exists (Z.to_nat v), fl; rewrite Z2Nat.id by lia; split; [lia|done]).
  eapply (page_untouched [tf]); [apply child_regs_outside|intros x ->%list_elem_of_singleton; apply Htf|apply Hok, Hin| |lia]. intros ->%list_elem_of_singleton. done.
Qed.

Lemma copies_from m0 m m' AS AS' n qs : copies m m' AS AS' n -> same_outside qs m0 m -> (forall x, x ∈ qs -> x mod PGSIZE = 0) ->
  (forall x, x ∈ frames AS 0 n -> page_ok x /\ (x ∉ qs)) -> copies m0 m' AS AS' n.
Proof.
  intros H M Ha Hok v Hv. destruct (H v Hv) as (pa & pa' & fl & E & E' & Hb). exists pa, pa', fl. split_and!; [done|done|]. intros off Hoff. rewrite Hb by done.
  destruct (Hok pa) as [Hp Hn]; [apply elem_frames_0; exists (Z.to_nat v), fl; rewrite Z2Nat.id by lia; split; [lia|done]|].
  eapply page_untouched; [exact M|done|apply Hp|done|lia].
Qed.

Lemma regs_from m0 m m' src dst qs : same_outside qs m0 m -> (forall x, x ∈ qs -> x mod PGSIZE = 0) -> page_ok src -> src ∉ qs -> regs_copied m m' src dst -> regs_copied m0 m' src dst.
Proof.
  intros M Ha Hs Hn H off Hoff. rewrite H by done. case_decide; [done|]. eapply page_untouched; [exact M|done|apply Hs|done|unfold sizeof_trapframe, PGSIZE in *; lia].
Qed.

(** Giving the child up. *)
Lemma fork_undo s fr owns np nq on : ptable s fr owns -> k_held s = [LProc np] -> k_procs s !! np = Some nq -> owns !! np = Some on -> p_state nq <> UNUSED ->
  wp (freeproc np ;; release (LProc np) ;; ret (-1)) (fun r s' => r = -1 /\ procs_only (set_k_held [] s) s' /\ k_procs s' = alter freed_slot np (k_procs s) /\
    same_outside on (k_mem s) (k_mem s') /\ exists fr', ptable s' fr' (<[np := []]> owns) /\ fr' ≡ₚ fr ++ on) s.
Proof.
  intros T Hh Hnq Hon Hu. apply wp_bind. eapply wp_mono; [by eapply (freeproc_table s fr owns np nq on)|]. intros [] s' (fr' & T' & P & R & M & E).
  apply wp_bind. eapply wp_release; [by rewrite (procs_only_held _ _ R)|by apply not_elem_of_nil|]. apply wp_ret.
  split_and!; [done|by apply (procs_only_lock s)|done|done|]. exists fr'. split; [|done].
  eapply ptable_ext; [exact T'|done|done|by apply not_elem_of_nil|done|]. intros i qi Hi. by exists qi.
Qed.

(** The table with the child in it, once its space is complete. *)
Lemma fork_ready s fr owns p q np nq on s2 G AS fr' on' cwd : let s3 := fork_state p np q (p_trapframe nq) cwd s2 in
  ptable s fr owns -> k_procs s !! np = Some nq -> owns !! np = Some on -> p_state nq <> UNUSED -> 0 <= p_sz q -> mem_only s s2 -> same_outside (fr ++ on) (k_mem s) (k_mem s2) ->
  proc_space s2 (p_pagetable nq) G AS fr' (npg (p_sz q)) (p_trapframe nq) -> on' = p_trapframe nq :: frames AS 0 (npg (p_sz q)) ++ pages G -> fr' ++ on' ≡ₚ fr ++ on -> NoDup (fr' ++ on') ->
  ptable s3 fr' (<[np := on']> owns) /\ proc_space s3 (p_pagetable nq) G AS fr' (npg (p_sz q)) (p_trapframe nq) /\ same_outside (fr ++ on) (k_mem s) (k_mem s3).
Proof.
  intros s3 T Hnq Hno Hnu Hszq R M Sp Eon P Hnd. destruct (slot_space _ _ _ _ (proj1 (own_split _ _ _ _ _ _ T Hnq Hno)) Hnu) as (Htf & Hpt & _). pose proof (mem_only_procs _ _ R) as Ep.
  rewrite Eon in Hnd. pose proof (forked_space s2 p np q nq G AS fr' _ cwd Sp Htf Hnd) as Sp3. fold s3 in Sp3.
  assert (same_outside (fr ++ on) (k_mem s) (k_mem s3)) as M3.
  { eapply same_outside_trans; [exact M|]. eapply same_outside_mono; [|apply child_regs_outside]. intros x ->%list_elem_of_singleton. rewrite <- P, Eon. apply elem_of_app. right. by left. }
  split; [|done]. assert (k_procs s3 = alter (forked p q) np (k_procs s)) as E3 by (by rewrite <- Ep).
  eapply (ptable_update s fr owns np nq on s3 fr' (forked p q nq) on' (fr ++ on)); try done.
  - rewrite E3, length_alter. apply T.
  - intros i qi Hi Hqi. exists qi. split; [|done]. by rewrite E3, list_lookup_alter_ne.
  - by rewrite E3, list_lookup_alter_eq, Hnq.
  - unfold slot_ok. rewrite bool_decide_false by done. split_and!; [done|done|done|]. by exists G, AS.
  - apply (us_vm _ _ _ _ _ _ (sp_us _ _ _ _ _ _ _ Sp3)).
  - by apply not_elem_of_nil.
Qed.

Lemma fork_rest s fr owns p q op np nq on Go ASo cwd : ptable s fr owns -> p <> np -> k_held s = [LProc np] ->
  k_procs s !! p = Some q -> owns !! p = Some op -> 0 <= p_sz q -> page_ok (p_trapframe q) ->
  proc_space s (p_pagetable q) Go ASo fr (npg (p_sz q)) (p_trapframe q) -> op = p_trapframe q :: frames ASo 0 (npg (p_sz q)) ++ pages Go ->
  k_procs s !! np = Some nq -> owns !! np = Some on -> p_state nq <> UNUSED -> p_sz nq = 0 ->
  open_files (k_ftable s) (p_ofile q) -> p_ofile nq = replicate NOFILE None -> p_cwd q = Some cwd ->
  wp (r <- uvmcopy (p_pagetable q) (p_pagetable nq) (p_sz q) ;;
      if r <? 0 then
        freeproc np ;;
        release (LProc np) ;;
        ret (-1)
      else fork_child p np q nq) (fun r s' => same_outside (fr ++ on) (k_mem s) (k_mem s') /\ exists fr' on', ptable s' fr' (<[np := on']> owns) /\ fr' ++ on' ≡ₚ fr ++ on /\
    (r = -1 /\ on' = [] /\ procs_only (set_k_held [] s) s' /\ k_procs s' = alter freed_slot np (k_procs s) \/
     r = p_pid nq /\ (exists s2, mem_only s s2 /\ s' = fork_state p np q (p_trapframe nq) cwd s2) /\ regs_copied (k_mem s) (k_mem s') (p_trapframe q) (p_trapframe nq) /\
       exists G AS, proc_space s' (p_pagetable nq) G AS fr' (npg (p_sz q)) (p_trapframe nq) /\ copies (k_mem s) (k_mem s') ASo AS (npg (p_sz q)))) s.
Proof.
  intros T Hne Hheld Hq Ho Hszq Htfq Spo Eo Hnq Hno Hnu Hsz Hos Hnof Hc. destruct (own_split _ _ _ _ _ _ T Hnq Hno) as (Hsl & _ & Hcat & _ & Hsep).
  destruct (slot_space _ _ _ _ Hsl Hnu) as (Htf & Hpt & _). pose proof T as [Hl Hs Hn Hk Hkm]. apply wp_bind. eapply wp_mono; [by eapply (copy_space s fr owns p q op np nq on Go ASo)|].
  intros r s2 (R & M & G & AS & fr' & n & on' & Sp & Eon & P & H). pose proof (mem_only_procs _ _ R) as Ep. assert (k_held s2 = [LProc np]) as Hh2 by (by rewrite (mem_only_held _ _ R)).
  assert (NoDup (fr' ++ on')) as Hnd by (rewrite P; rewrite Hcat, app_assoc in Hn; by apply NoDup_app in Hn as [Hn _]).
  destruct H as [[-> ->]|(-> & -> & Hcop)]; cbn [Z.ltb Z.compare].
  - destruct (ptable_update s fr owns np nq on s2 fr' nq on' (fr ++ on)) as [T2 _]; try done; [by rewrite Ep|intros i qi _ Hi; exists qi; by rewrite Ep|by rewrite Ep| | | |].
    + unfold slot_ok. rewrite bool_decide_false, Hsz by done. split_and!; [done|done|done|]. by exists G, AS.
    + apply (us_vm _ _ _ _ _ _ (sp_us _ _ _ _ _ _ _ Sp)).
    + apply (us_vm _ _ _ _ _ _ (sp_us _ _ _ _ _ _ _ Sp)).
    + eapply wp_mono; [apply (fork_undo s2 fr' _ np nq on' T2 Hh2); [by rewrite Ep|apply list_lookup_insert_eq; by eapply lookup_lt_Some|done]|].
      intros r s3 (-> & R3 & Eps & M3 & fr3 & T3 & P3). rewrite list_insert_insert_eq in T3.
      split; [eapply same_outside_trans; [exact M|eapply same_outside_mono; [|exact M3]; intros x Hx; rewrite <- P; apply elem_of_app; by right]|].
      exists fr3, []. split_and!; [done|by rewrite app_nil_r, P3|left; split_and!; [done|done| |by rewrite <- Ep]].
      eapply procs_only_trans; [|exact R3]. apply procs_only_lock. by apply procs_only_mem.
  - pose proof (page_ok_pos _ Htf). pose proof (page_ok_pos _ Htfq). assert (k_ftable s2 = k_ftable s) as Ef by (by destruct R as [->]).
    eapply wp_mono; [apply (fork_child_spec s2 p q np nq cwd); rewrite ?Ep, ?Ef; done || lia|]. intros r s3 [-> ->].
    destruct (fork_ready s fr owns p q np nq on s2 G AS fr' on' cwd T Hnq Hno Hnu Hszq R M Sp Eon P Hnd) as (T3 & Sp3 & M3).
    split; [exact M3|]. exists fr', on'. split_and!; [done|done|right; split_and!; [done|by exists s2| |exists G, AS; split; [done|]]].
    + eapply (regs_from _ (k_mem s2)); [exact M| |done| |apply child_regs_copied].
      * intros x [Hx|Hx]%elem_of_app; [by apply (free_page_ok _ _ _ Hk Hx)|by apply (slot_own_ok _ _ _ _ _ Hsl Hx)].
      * intros [Hx|Hx]%elem_of_app; destruct (Hsep p q op Hne Hq Ho (p_trapframe q)) as [? ?]; try done; rewrite Eo; by left.
    + rewrite Eon in Hnd. apply NoDup_app in Hnd as (_ & _ & [Htfn _]%NoDup_cons). rewrite elem_of_app in Htfn.
      apply copies_regs; [done|done|tauto|]. intros x Hx. by apply (us_frames _ _ _ _ _ _ (sp_us _ _ _ _ _ _ _ Sp)).
Qed.

(** ** fork *)

Lemma scanned_lookup n ps i q : ps !! i = Some q -> scanned n ps !! i = Some (set_p_cputime (if decide (i < n)%nat then 0 else p_cputime q) q).
Proof. intros Hi. unfold scanned. rewrite list_lookup_imap, Hi. cbn. case_decide; [done|by destruct q]. Qed.

(** What the new slot owns came from the free list. *)
Lemma alloc_owns s fr owns s1 fr1 owns1 np q0 : ptable s fr owns -> ptable s1 fr1 owns1 -> fr1 ++ concat owns1 ≡ₚ fr ++ concat owns ->
  (forall i, i <> np -> owns1 !! i = owns !! i) -> k_procs s !! np = Some q0 -> p_state q0 = UNUSED ->
  exists on, owns1 !! np = Some on /\ <[np := []]> owns1 = owns /\ fr1 ++ on ≡ₚ fr.
Proof.
  intros T T1 P Hi Hq Hu. pose proof T as [Hl Hs _ _ _]. pose proof T1 as [Hl1 Hs1 _ _ _]. pose proof (lookup_lt_Some _ _ _ Hq) as Hlt.
  destruct (lookup_lt_is_Some_2 (k_procs s1) np) as [nq Hnq]; [lia|]. destruct (lookup_lt_is_Some_2 owns np) as [o Ho]; [by rewrite <- (Forall2_length _ _ _ Hs)|].
  destruct (lookup_lt_is_Some_2 owns1 np) as [on Hon]; [rewrite <- (Forall2_length _ _ _ Hs1); lia|]. exists on.
  pose proof (Forall2_lookup_lr _ _ _ _ _ _ Hs Hq Ho) as Hsl. unfold slot_ok in Hsl. rewrite bool_decide_true in Hsl by done. destruct Hsl as (_ & _ & _ & ->).
  assert (<[np := []]> owns1 = owns) as E.
  { apply list_eq. intros i. destruct (decide (i = np)) as [->|Hne]; [rewrite list_lookup_insert_eq, Ho; [done|by eapply lookup_lt_Some]|]. rewrite list_lookup_insert_ne by done. by apply Hi. }
  split_and!; [done|done|]. destruct (own_split _ _ _ _ _ _ T1 Hnq Hon) as (_ & _ & Hc & _). rewrite Hc, E, app_assoc in P. by apply Permutation_app_inv_r in P.
Qed.

Definition fork_post (p : nat) (q : proc) (cwd : nat) (s : kernel) (fr : list Z) (owns : list (list Z)) (r : Z) (s' : kernel) : Prop :=
  same_outside fr (k_mem s) (k_mem s') /\ k_held s' = [] /\ exists fr',
  (r = -1 /\ table_only s s' /\ ptable s' fr' owns /\ fr' ≡ₚ fr /\
     (forall i qi, k_procs s !! i = Some qi -> p_state qi <> UNUSED -> exists c, (c = p_cputime qi \/ c = 0) /\ k_procs s' !! i = Some (set_p_cputime c qi)) \/
   r = k_nextpid s /\ exists np tf pt own,
     first_unused (k_procs s) np /\ ptable s' fr' (<[np := own]> owns) /\ fr' ++ own ≡ₚ fr /\
     table_only (set_k_itable (alter (fun x => set_i_ref (i_ref x + 1) x) cwd (k_itable s)) (set_k_ftable (duped (p_ofile q) (k_ftable s)) s)) s' /\
     k_procs s' = alter (fun nq => forked p q (with_memory tf pt (claimed (k_nextpid s) nq))) np (scanned np (k_procs s)) /\
     regs_copied (k_mem s) (k_mem s') (p_trapframe q) tf /\
     exists Go ASo G AS, let n := npg (p_sz q) in
       proc_space s (p_pagetable q) Go ASo fr n (p_trapframe q) /\ proc_space s' (p_pagetable q) Go ASo fr' n (p_trapframe q) /\
       proc_space s' pt G AS fr' n tf /\ copies (k_mem s) (k_mem s') ASo AS n).

(** A process that may call [fork]. *)
Record may_fork (s : kernel) (p : nat) (q : proc) (cwd : nat) : Prop := {
  mf_held : k_held s = [];
  mf_cur : k_cur s = Some p;
  mf_slot : k_procs s !! p = Some q;
  mf_used : p_state q <> UNUSED;
  mf_files : open_files (k_ftable s) (p_ofile q);
  mf_cwd : p_cwd q = Some cwd;
  mf_closed : forall i nq, k_procs s !! i = Some nq -> p_state nq = UNUSED -> p_ofile nq = replicate NOFILE None;
}.

Lemma fork_failed p q cwd s fr owns s' fr' owns' : ptable s' fr' owns' -> fr' ++ concat owns' ≡ₚ fr ++ concat owns -> table_only s s' -> same_outside fr (k_mem s) (k_mem s') -> k_held s' = [] -> owns' = owns ->
  (exists n f, k_procs s' = scanned n (k_procs s) \/ first_unused (k_procs s) n /\ k_procs s' = alter f n (scanned n (k_procs s))) -> fork_post p q cwd s fr owns (-1) s'.
Proof.
  intros T P R M Hh -> (n & f & H). split_and!; [done|done|]. exists fr'. left. apply Permutation_app_inv_r in P. split_and!; [done|done|done|done|]. intros i qi Hi Hu.
  exists (if decide (i < n)%nat then 0 else p_cputime qi). split; [case_decide; auto|]. destruct H as [->|[(_ & Hn & _) ->]]; [by apply scanned_lookup|].
  destruct (decide (n = i)) as [->|]; [by rewrite (list_lookup_total_correct _ _ _ Hi) in Hn|]. rewrite list_lookup_alter_ne by done. by apply scanned_lookup.
Qed.

(** The space of a process while another slot trades pages with the free list. *)
Lemma parent_frame s fr owns p q op s' fr' G AS n : ptable s fr owns -> k_procs s !! p = Some q -> owns !! p = Some op -> op = p_trapframe q :: frames AS 0 n ++ pages G ->
  proc_space s (p_pagetable q) G AS fr n (p_trapframe q) -> kmem_inv s' fr' -> LKmem ∉ k_held s' -> same_outside fr (k_mem s) (k_mem s') -> (forall x, x ∈ fr' -> x ∈ fr) ->
  proc_space s' (p_pagetable q) G AS fr' n (p_trapframe q).
Proof.
  intros T Hq Ho -> Sp K Hh M Hf. destruct (own_split _ _ _ _ _ _ T Hq Ho) as (_ & Hof & _). eapply space_frame; [exact Sp|done|done|exact M| |].
  - intros x Hx. split; [|apply (free_page_ok _ _ _ (pt_kmem _ _ _ T) Hx)]. intros Hin. apply (Hof x); [by right|done].
  - intros x Hx Hin. apply (Hof x); [by right|by apply Hf].
Qed.

Lemma fork_alloced s fr owns p q cwd np s1 fr1 owns1 tf pt : ptable s fr owns -> may_fork s p q cwd ->
  ptable s1 fr1 owns1 -> fr1 ++ concat owns1 ≡ₚ fr ++ concat owns -> table_only s s1 -> same_outside fr (k_mem s) (k_mem s1) ->
  first_unused (k_procs s) np -> k_held s1 = [LProc np] -> (forall i, i <> np -> owns1 !! i = owns !! i) ->
  k_procs s1 = alter (fun q => with_memory tf pt (claimed (k_nextpid s) q)) np (scanned np (k_procs s)) ->
  wp (q <- get_proc p ;;
      nq <- get_proc np ;;
      r <- uvmcopy (p_pagetable q) (p_pagetable nq) (p_sz q) ;;
      if r <? 0 then
        freeproc np ;;
        release (LProc np) ;;
        ret (-1)
      else fork_child p np q nq) (fork_post p q cwd s fr owns) s1.
Proof.
  intros T [Hh Hcur Hq Hu Hos Hcwd Hcl] T1 P1 R1 M1 Hf Hh1 Hown E1. pose proof Hf as (Hnp & Hnu & _). destruct (lookup_lt_is_Some_2 _ _ Hnp) as [q0 Hq0]. rewrite (list_lookup_total_correct _ _ _ Hq0) in Hnu.
  destruct (alloc_owns _ _ _ _ _ _ _ _ T T1 P1 Hown Hq0 Hnu) as (on & Hon & Eown & Pon). assert (p <> np) as Hne by (intros ->; rewrite Hq in Hq0; by injection Hq0 as ->).
  destruct (lookup_lt_is_Some_2 owns np) as [o0 Ho0]; [by rewrite <- (Forall2_length _ _ _ (pt_slots _ _ _ T))|].
  pose proof (proj1 (own_split _ _ _ _ _ _ T Hq0 Ho0)) as Hsl0. unfold slot_ok in Hsl0. rewrite bool_decide_true in Hsl0 by done. destruct Hsl0 as (_ & _ & Hsz0 & _).
  destruct (lookup_lt_is_Some_2 owns p) as [op Ho]; [rewrite <- (Forall2_length _ _ _ (pt_slots _ _ _ T)); by eapply lookup_lt_Some|].
  destruct (slot_space _ _ _ _ (proj1 (own_split _ _ _ _ _ _ T Hq Ho)) Hu) as (Htf & _ & Hsz & Go & ASo & Spo & Eo).
  assert (forall s' fr', kmem_inv s' fr' -> LKmem ∉ k_held s' -> same_outside fr (k_mem s) (k_mem s') -> (forall x, x ∈ fr' -> x ∈ fr) -> proc_space s' (p_pagetable q) Go ASo fr' (npg (p_sz q)) (p_trapframe q)) as Hpar
    by (intros; by eapply (parent_frame s fr owns p q op)).
  set (q1 := set_p_cputime (if decide (p < np)%nat then 0 else p_cputime q) q). assert (k_procs s1 !! p = Some q1) as Hq1 by (rewrite E1, list_lookup_alter_ne by done; by apply scanned_lookup).
  set (nq := with_memory tf pt (claimed (k_nextpid s) q0)). assert (k_procs s1 !! np = Some nq) as Hnq.
  { rewrite E1, list_lookup_alter_eq, (scanned_lookup _ _ _ _ Hq0), decide_False by lia. by destruct q0. }
  apply wp_bind, wp_gets, wp_bind, wp_gets. rewrite (list_lookup_total_correct _ _ _ Hq1), (list_lookup_total_correct _ _ _ Hnq).
  eapply wp_mono; [apply (fork_rest s1 fr1 owns1 p q1 op np nq on Go ASo cwd T1 Hne Hh1 Hq1); try done|].
  - by rewrite Hown.
  - apply Hpar; [apply T1|apply T1|done|]. intros x Hx. rewrite <- Pon. apply elem_of_app. by left.
  - by destruct R1 as [->].
  - exact (Hcl np q0 Hq0 Hnu).
  - intros r s' (M' & fr' & on' & T' & P' & H). assert (same_outside fr (k_mem s) (k_mem s')) as M by (eapply same_outside_trans; [exact M1|eapply same_outside_mono; [|exact M']; intros x Hx; by rewrite <- Pon]).
    destruct (own_split _ _ _ _ _ _ T Hq Ho) as (_ & Hof & _). assert (forall x, x ∈ fr -> x mod PGSIZE = 0) as Hal by (intros x Hx; apply (free_page_ok _ _ _ (pt_kmem _ _ _ T) Hx)).
    rewrite Pon in P'. destruct H as [(-> & -> & R & E)|(-> & (s2 & R2 & Es) & Hr & G & AS & Sp & Hc)].
    + rewrite Eown, app_nil_r in *. eapply (fork_failed _ _ _ _ _ _ _ fr' owns); try done; [by rewrite P'|by eapply table_only_procs; [destruct R1 as [->]; constructor|exact R]|by rewrite (procs_only_held _ _ R)|].
      exists np. eexists. right. split; [done|]. rewrite E, E1, list_alter_alter. done.
    + split; [exact M|]. split; [by rewrite Es|]. exists fr'. right. split; [done|]. exists np, tf, pt, on'. split_and!; [done| |done| | | |].
      * by rewrite <- Eown, list_insert_insert_eq.
      * rewrite Es. destruct R2 as [->], R1 as [->]. by constructor.
      * rewrite Es. cbn [fork_state k_procs set_k_procs set_k_held set_k_itable set_k_ftable set_k_mem]. rewrite (mem_only_procs _ _ R2), E1, list_alter_alter. done.
      * eapply regs_from; [exact M1|exact Hal|done| |exact Hr]. apply Hof. rewrite Eo. by left.
      * exists Go, ASo, G, AS. split_and!; [done| |exact Sp|].
        -- apply Hpar; [apply T'|apply T'|done|]. intros x Hx. rewrite <- P'. apply elem_of_app. by left.
        -- eapply copies_from; [exact Hc|exact M1|exact Hal|]. intros x Hx. destruct (us_frames _ _ _ _ _ _ (sp_us _ _ _ _ _ _ _ Spo) x Hx) as (? & ? & _). done.
Qed.

(** C6: [fork] creates an exact copy of the calling process or changes nothing
    that matters.  On success the child takes the first unused slot and is
    runnable, with the next process id, which the parent gets; its pages came
    from the free list, the process table is well formed again, and each page of
    the parent's memory has a copy at the same address with the same rights and
    bytes.  The child's registers are the parent's except for 0 in a0, it has the
    parent's name, size, files and current directory, and each of these has one
    more reference.  On failure the result is -1, all pages are back on the free
    list, no reference was taken and every process is as before, up to the
    accounts that [allocproc] clears.  No other memory is written. *)
Theorem fork_correct s fr owns p q cwd : ptable s fr owns -> may_fork s p q cwd -> wp fork (fork_post p q cwd s fr owns) s.
Proof.
  intros T F. pose proof F as [Hh Hcur _ _ _ _ _]. unfold fork, curproc, myproc. apply wp_bind, wp_bind, wp_gets. rewrite Hcur. apply wp_ret, wp_bind.
  eapply wp_mono; [apply (allocproc_spec s fr owns T); rewrite Hh; [intros i; apply not_elem_of_nil|apply not_elem_of_nil]|]. rewrite Hh.
  intros [np|] s1 (fr1 & owns1 & T1 & P1 & R1 & M1 & H1).
  - destruct H1 as (Hf & Hh1 & _ & Hown & tf & pt & E1). by eapply fork_alloced.
  - apply wp_ret. destruct H1 as (Hh1 & Eo & H1). eapply fork_failed; try done. destruct H1 as [[E _]|(np & Hf & _ & E)]; [exists NPROC, id; by left|exists np, freed_slot; by right].
Qed.
End Fork.

Module ForkDemo.
Import VmTheorems.VmDemo.

(** Twelve free pages; the process in slot 0 has an open file. *)
Definition ids : list Z := [1; 2; 3; 4; 5; 6; 7; 8; 9; 10; 11; 12].
Definition boot_st : kernel :=
  set_k_freelist (pg 1) (set_k_mem (foldr (fun i m => store64 m (pg i) (pg (i + 1))) ∅ (take 11 ids))
    (set_k_ftable (replicate NFILE (set_f_ref 1 file0)) kernel0)).
Definition run (q : proc) : proc := set_p_state RUNNING (set_p_cwd (Some O) (set_p_ofile (<[O := Some O]> (replicate NOFILE None)) q)).
Definition started (s : kernel) : kernel := set_k_cur (Some O) (set_k_held [] (set_k_procs (alter run O (k_procs s)) s)).

Lemma boot_table : ptable (Lk := kernel_sym) boot_st (pg <$> ids) (replicate NPROC []).
Proof.
  constructor; [done| | | |by apply not_elem_of_nil].
  - apply Forall2_replicate. unfold slot_ok. by rewrite bool_decide_true by done.
  - change (NoDup (pg <$> ids)). apply (bool_decide_unpack _). by vm_compute.
  - constructor; [|apply (bool_decide_unpack _); by vm_compute]. repeat (split; [by vm_compute|]). by vm_compute.
Qed.

Lemma started_ok s fr owns tf pt : ptable (Lk := kernel_sym) s fr owns -> k_ftable s = k_ftable boot_st ->
  k_procs s = with_memory (Lk := kernel_sym) tf pt (claimed 1 proc0) :: replicate 63 proc0 ->
  exists q, ptable (Lk := kernel_sym) (started s) fr owns /\ may_fork (started s) O q O.
Proof.
  intros T Ef Eps. set (q := with_memory (Lk := kernel_sym) _ _ _) in Eps. exists (run q). unfold started. rewrite Eps. split.
  - apply (ptable_ext (Lk := kernel_sym) s); [exact T|done|done|by apply not_elem_of_nil|by rewrite Eps|]. rewrite Eps. intros [|i] qi Hi; [injection Hi as <-; by exists (run q)|by exists qi].
  - constructor; try done.
    + cbn [k_ftable set_k_cur set_k_held set_k_procs]. rewrite Ef. split; [done|]. intros f Hf. assert (f = O) as ->; [|by vm_compute; split; [lia|]].
      apply list_elem_of_lookup in Hf as [[|i] Hi]; [by injection Hi|]. cbn in Hi. by apply (lookup_replicate 15) in Hi as [? _].
    + intros [|i] nq Hi Hu; [by injection Hi as <-|]. cbn in Hi. by apply (lookup_replicate 63) in Hi as [-> _].
Qed.

(** The first process, as [allocproc] makes it. *)
Lemma demo_ok : exists s fr owns q, ptable (Lk := kernel_sym) s fr owns /\ may_fork s O q O.
Proof.
  destruct (proj1 (wp_Ok _ _ _) (allocproc_spec (Lo := kernel_sym_ok) boot_st (pg <$> ids) (replicate NPROC []) boot_table (fun i => not_elem_of_nil _) (not_elem_of_nil _)))
    as (r & s & _ & fr & owns & T & _ & R & _ & H). destruct r as [p|].
  2:{ exfalso. destruct H as (_ & _ & [[_ H]|(p & _ & Hlt & _)]); [by apply (H O ltac:(unfold NPROC; lia))|cbn in Hlt; lia]. }
  destruct H as ((Hp & _ & Hmin) & _ & _ & _ & tf & pt & E). destruct p as [|p]; [|exfalso; by apply (Hmin O ltac:(lia))]. rewrite scanned_0 in E.
  exists (started s), fr, owns. apply (started_ok s fr owns tf pt T); [by destruct R as [->]|by rewrite E].
Qed.

Lemma fork_correct_witness : exists s fr owns q, ptable (Lk := kernel_sym) s fr owns /\ may_fork s O q O /\
  wp (fork (Lk := kernel_sym)) (fork_post (Lk := kernel_sym) O q O s fr owns) s.
Proof.
  destruct demo_ok as (s & fr & owns & q & T & F). exists s, fr, owns, q. split; [exact T|]. split; [exact F|]. exact (fork_correct (Lo := kernel_sym_ok) s fr owns O q O T F).
Defined.
End ForkDemo.
