(* ===== verification/TrapProofs.v ===== *)
(** * Theorems on traps and interrupts *)

From S2P Require Import Prelude Bytes Params CString Spinlock State Kalloc Vm Sched SchedProofs Console Bio Log Fs File Proc Exec Sysfile Syscall Virtio Trap.

#[local] Opaque store64 load64.

(** ** The clock *)

(** Process [p] waits for a tick. *)
Definition awaits_tick (p : nat) (s : kernel) : Prop :=
  (p < NPROC)%nat /\ k_cur s <> Some p /\
  p_state (k_procs s !!! p) = SLEEPING /\ p_chan (k_procs s !!! p) = Some CTicks.

Lemma for_all_idle {W A} (body : A -> M W unit) l w :
  (forall x, x ∈ l -> body x w = Ok tt w) -> for_all l body w = Ok tt w.
Proof.
  induction l as [|x l IH]; intros H; [done|]. simpl.
  erewrite bind_ok by (apply H; left). apply IH. intros y ?. apply H. by right.
Qed.

Lemma wakeup_idle c s :
  no_proc_locks (k_held s) ->
  (forall p, (p < NPROC)%nat ->
     k_cur s = Some p \/ p_state (k_procs s !!! p) <> SLEEPING \/ p_chan (k_procs s !!! p) <> c) ->
  wakeup c s = Ok tt s.
Proof.
  intros Hno H. rewrite wakeup_eq. apply for_all_idle. intros p Hp. apply elem_of_seq in Hp.
  apply wakeup_one_idle; [apply Hno|]. apply H. lia.
Qed.

Lemma clockintr_run s :
  LTicks ∉ k_held s -> no_proc_locks (k_held s) -> (forall p, ~ awaits_tick p s) ->
  clockintr s = Ok tt (set_k_ticks (u32 (k_ticks s + 1)) s).
Proof.
  intros Ht Hno H. unfold clockintr. rewrite bind_acquire by done. run_steps.
  erewrite bind_ok.
  2:{ apply wakeup_idle; simpl.
      - intros i. apply not_elem_of_cons. split; [done|apply Hno].
      - intros p Hp. destruct (decide (k_cur s = Some p)); [by left|]. right.
        destruct (decide (p_state (k_procs s !!! p) = SLEEPING)); [right|by left].
        intros Hc. by destruct (H p). }
  erewrite release_top by done. by destruct s.
Qed.

Lemma clockintr_panics p s :
  LTicks ∉ k_held s -> no_proc_locks (k_held s) -> awaits_tick p s ->
  exists s', clockintr s = Panic "acquire" s'.
Proof.
  intros Ht Hno (Hp & Hc & Hst & Hch). unfold clockintr. rewrite bind_acquire by done. run_steps.
  edestruct (wakeup_ticks_held (Some CTicks) p) as [s' Hs']; cycle 6.
  - exists s'. erewrite bind_panic by exact Hs'. done.
  - intros i. simpl. apply not_elem_of_cons. split; [done|apply Hno].
  - simpl. left.
  - done.
  - done.
  - done.
  - done.
Qed.

(** C38: a tick of the clock counts modulo 2^32 when no process waits for it, and
    panics when one does.  [clockintr] calls [wakeup] with [tickslock] held,
    and [wakeup] reads the time of each process it wakes with [sys_uptime],
    which takes [tickslock] again; so the first tick after a process has
    called [sleep(&ticks, &tickslock)], as [sys_sleep] does, stops the
    kernel. *)
Theorem clockintr_correct s :
  LTicks ∉ k_held s -> no_proc_locks (k_held s) ->
  ((forall p, ~ awaits_tick p s) -> clockintr s = Ok tt (set_k_ticks (u32 (k_ticks s + 1)) s)) /\
  (forall p, awaits_tick p s -> exists s', clockintr s = Panic "acquire" s') /\
  (forall (E : Env) p s0 s1, (forall n s, env n s = None) ->
     k_cur s0 = Some p -> (p < NPROC)%nat -> length (k_procs s0) = NPROC -> k_held s0 = [LTicks] ->
     sleep CTicks LTicks s0 = Blocked s1 -> exists s2, clockintr s1 = Panic "acquire" s2).
Proof.
  intros Ht Hno. split_and!.
  - by apply clockintr_run.
  - intros p. by apply clockintr_panics.
  - intros E p s0 s1 HE Hc Hp Hl Hh. rewrite (sleep_run p) by (done || lia). rewrite HE.
    intros [= <-]. apply (clockintr_panics p).
    + apply not_elem_of_nil.
    + intros i. apply not_elem_of_nil.
    + split_and!; [done|done| |]; unfold asleep; simpl; rewrite list_lookup_total_alter_eq by lia; done.
Qed.

(** ** Running code on a hart *)

Section Run.
Context {B : Type}.

Lemma bind_liftT {A} (m : K A) (k : A -> T B) h v s a s' :
  m s = Ok a s' -> bind (liftT m) k (h, (v, s)) = k a (h, (v, s')).
Proof. intros Hm. unfold bind, liftT, liftV, liftK. by rewrite Hm. Qed.
Lemma bind_liftT_blocked {A} (m : K A) (k : A -> T B) h v s s' :
  m s = Blocked s' -> bind (liftT m) k (h, (v, s)) = Blocked (h, (v, s')).
Proof. intros Hm. unfold bind, liftT, liftV, liftK. by rewrite Hm. Qed.
Lemma bind_hget {A} (f : hart -> A) (k : A -> T B) h w : bind (hget f) k (h, w) = k (f h) (h, w).
Proof. done. Qed.
Lemma bind_hmod f (k : unit -> T B) h w : bind (hmod f) k (h, w) = k tt (f h, w).
Proof. done. Qed.
Lemma bind_get_proc p (k : proc -> T B) h v s :
  bind (liftT (get_proc p)) k (h, (v, s)) = k (k_procs s !!! p) (h, (v, s)).
Proof. done. Qed.
Lemma bind_upd_proc p f (k : unit -> T B) h v s :
  bind (liftT (upd_proc p f)) k (h, (v, s)) = k tt (h, (v, set_k_procs (alter f p (k_procs s)) s)).
Proof. done. Qed.
Lemma bind_curproc p (k : nat -> T B) h v s :
  k_cur s = Some p -> bind (liftT curproc) k (h, (v, s)) = k p (h, (v, s)).
Proof.
  intros Hc. apply bind_liftT. unfold curproc, myproc. rewrite bind_gets, Hc. done.
Qed.
Lemma bind_tf_set p off x (k : unit -> T B) h v s :
  p_trapframe (k_procs s !!! p) <> 0 ->
  bind (liftT (tf_set p off x)) k (h, (v, s)) =
  k tt (h, (v, set_k_mem (store64 (k_mem s) (p_trapframe (k_procs s !!! p) + off) x) s)).
Proof.
  intros Hn. apply bind_liftT. unfold tf_set, get_proc. rewrite bind_gets. unfold nonnull.
  destruct (Z.eqb_spec (p_trapframe (k_procs s !!! p)) 0); [done|]. by rewrite bind_ret.
Qed.
Lemma bind_tf_get p off (k : Z -> T B) h v s :
  p_trapframe (k_procs s !!! p) <> 0 ->
  bind (liftT (tf_get p off)) k (h, (v, s)) =
  k (load64 (k_mem s) (p_trapframe (k_procs s !!! p) + off)) (h, (v, s)).
Proof.
  intros Hn. apply bind_liftT. unfold tf_get, get_proc. rewrite bind_gets. unfold nonnull.
  destruct (Z.eqb_spec (p_trapframe (k_procs s !!! p)) 0); [done|]. by rewrite bind_ret.
Qed.
End Run.

(** ** Return to user space *)

Lemma ldb_store64 m a v b : ~ (a <= b < a + 8) -> ldb (store64 m a v) b = ldb m b.
Proof.
  intros Hb. rewrite store64_store, ldb_store, length_le_bytes. rewrite decide_False; [done|lia].
Qed.

Lemma testbit_clear n k : 0 <= n < 64 -> 0 <= k ->
  Z.testbit (u64 (Z.lnot (2 ^ k))) n = negb (n =? k).
Proof.
  intros Hn Hk. rewrite testbit_u64, Z.lnot_spec, Z.pow2_bits_eqb by lia.
  destruct (Z.ltb_spec n 64); [|lia]. by rewrite Z.eqb_sym.
Qed.

(** The status register on the way to user mode: previous mode user (bit 8),
    interrupts off now (bit 1) and on after the return (bit 5). *)
Definition user_sstatus (x : Z) : Z :=
  Z.lor (Z.land (Z.land x (u64 (Z.lnot SSTATUS_SIE))) (u64 (Z.lnot SSTATUS_SPP))) SSTATUS_SPIE.

Lemma user_sstatus_bits x n : 0 <= n < 64 ->
  Z.testbit (user_sstatus x) n =
    if (n =? 1) || (n =? 8) then false else if n =? 5 then true else Z.testbit x n.
Proof.
  intros Hn. unfold user_sstatus.
  change SSTATUS_SIE with (2 ^ 1). change SSTATUS_SPP with (2 ^ 8). change SSTATUS_SPIE with (2 ^ 5).
  rewrite Z.lor_spec, !Z.land_spec, !testbit_clear, Z.pow2_bits_eqb by lia.
  rewrite (Z.eqb_sym 5). destruct (Z.eqb_spec n 1), (Z.eqb_spec n 8), (Z.eqb_spec n 5); subst; try lia;
    rewrite ?andb_false_r, ?andb_true_r, ?orb_false_r, ?orb_true_r; done.
Qed.

Section User.
Context `{Lk : Linker} {E : Env} {D : Disk} {HE : HartEnv}.

(** The memory after the four stores into the trapframe at [tf]. *)
Definition tf_entry (tf satp sp hartid : Z) (m : gmap Z Z) : gmap Z Z :=
  store64 (store64 (store64 (store64 m (tf + TF_kernel_satp) satp) (tf + TF_kernel_sp) sp)
             (tf + TF_kernel_trap) usertrap_addr) (tf + TF_kernel_hartid) hartid.

Lemma usertrapret_run p h v s :
  k_cur s = Some p -> p_trapframe (k_procs s !!! p) <> 0 ->
  let q := k_procs s !!! p in
  let tf := p_trapframe q in
  usertrapret (h, (v, s)) =
  Ok (TRAMPOLINE + (userret - trampoline), TRAPFRAME, MAKE_SATP (p_pagetable q))
     (set_h_sepc (load64 (k_mem s) (tf + TF_epc))
        (set_h_sstatus (user_sstatus (h_sstatus h))
           (set_h_stvec (TRAMPOLINE + (uservec - trampoline)) h)),
      (v, set_k_mem (tf_entry tf (h_satp h) (u64 (p_kstack q + PGSIZE)) (h_tp h) (k_mem s)) s)).
Proof.
  intros Hc Hn q tf. unfold usertrapret. rewrite (bind_curproc p) by done. unfold intr_off.
  rewrite !bind_hmod, bind_hget, bind_tf_set, bind_get_proc, bind_tf_set, bind_tf_set by done.
  rewrite bind_hget, bind_tf_set, bind_hget, bind_hmod, bind_tf_get, bind_hmod, bind_get_proc by done.
  simpl. unfold ret. do 3 f_equal.
  rewrite !load64_store64_disjoint; [done|..]; unfold TF_epc, TF_kernel_satp, TF_kernel_sp,
    TF_kernel_trap, TF_kernel_hartid; lia.
Qed.

(** C37: [usertrapret] sets the hart up for user mode and the next trap.  The
    next trap goes to the trampoline, the saved status says user mode with
    interrupts off until the return and on after it, with every other bit as
    it was, the exception pc is the saved user pc, the trapframe has the
    kernel's page table, stack, handler and hart, the jump passes the process's
    own page table, and no other register, device register or byte of memory
    changes. *)
Theorem usertrapret_correct p h v s :
  k_cur s = Some p -> p_trapframe (k_procs s !!! p) <> 0 ->
  let q := k_procs s !!! p in
  let tf := p_trapframe q in
  wp usertrapret (fun r '(h', (v', s')) =>
    r = (TRAMPOLINE + (userret - trampoline), TRAPFRAME, MAKE_SATP (p_pagetable q)) /\
    h_stvec h' = TRAMPOLINE + (uservec - trampoline) /\
    h_sepc h' = load64 (k_mem s) (tf + TF_epc) /\
    (forall n, 0 <= n < 64 -> Z.testbit (h_sstatus h') n =
       if (n =? 1) || (n =? 8) then false else if n =? 5 then true else Z.testbit (h_sstatus h) n) /\
    h' = set_h_sepc (h_sepc h') (set_h_sstatus (h_sstatus h') (set_h_stvec (h_stvec h') h)) /\
    load64 (k_mem s') (tf + TF_kernel_satp) = u64 (h_satp h) /\
    load64 (k_mem s') (tf + TF_kernel_sp) = u64 (p_kstack q + PGSIZE) /\
    load64 (k_mem s') (tf + TF_kernel_trap) = u64 usertrap_addr /\
    load64 (k_mem s') (tf + TF_kernel_hartid) = u64 (h_tp h) /\
    (forall a, ~ (tf <= a < tf + 24 \/ tf + 32 <= a < tf + 40) -> ldb (k_mem s') a = ldb (k_mem s) a) /\
    v' = v /\ s' = set_k_mem (k_mem s') s) (h, (v, s)).
Proof.
  intros Hc Hn q tf. eapply wp_eq; [by apply usertrapret_run|]. fold q tf. simpl. unfold tf_entry.
  unfold TF_epc, TF_kernel_satp, TF_kernel_sp, TF_kernel_trap, TF_kernel_hartid. split_and!; try done.
  - apply user_sstatus_bits.
  - rewrite !load64_store64_disjoint, load64_store64_same by lia. done.
  - rewrite !load64_store64_disjoint, load64_store64_same by lia. apply Z.mod_mod. lia.
  - rewrite load64_store64_disjoint, load64_store64_same by lia. done.
  - by rewrite load64_store64_same.
  - intros a Ha. rewrite !ldb_store64 by lia. done.
Qed.
(** ** Interrupts in the kernel *)

(** The state that a preempted process [p] leaves to the others. *)
Definition preempted (p : nat) (s : kernel) : kernel :=
  set_k_held [] (set_k_cur None (set_k_procs (alter (set_p_state RUNNABLE) p (k_procs s)) s)).
(** The state in which it goes on, from the state [s2] of the others. *)
Definition resumed (p n : nat) (s2 : kernel) : kernel :=
  set_k_held [] (set_k_clock (S n) (set_k_cur (Some p)
    (set_k_procs (alter (set_p_state RUNNING) p (k_procs s2)) s2))).

Lemma yield_run p s :
  k_cur s = Some p -> (p < length (k_procs s))%nat -> k_held s = [] ->
  yield s =
  match env (k_clock s) (preempted p s) with
  | None => Blocked (preempted p s)
  | Some s2 =>
      if decide (p_state (k_procs s2 !!! p) = RUNNABLE) then Ok tt (resumed p (k_clock s) s2)
      else Blocked (set_k_clock (S (k_clock s)) s2)
  end.
Proof.
  intros Hc Hp Hh. unfold yield, curproc, myproc. rewrite bind_assoc, bind_gets, Hc. simpl deref.
  rewrite bind_ret, bind_acquire by (rewrite Hh; apply not_elem_of_nil). unfold upd_proc.
  rewrite bind_modify, Hh. unfold bind at 1. rewrite (sched_run p); [|done|done|].
  2:{ simpl. by rewrite list_lookup_total_alter_eq. }
  rewrite swtch_eq. simpl.
  replace (LockSpec.remove1 (LProc p) [LProc p]) with (@nil lock)
    by (symmetry; by apply remove1_cons, not_elem_of_nil).
  replace (set_k_held [] _) with (preempted p s) by (unfold preempted; by destruct s).
  destruct (env _ _) as [s2|]; [|done]. destruct (decide _); [|done].
  erewrite release_top by (done || apply not_elem_of_nil). unfold resumed. by destruct s2.
Qed.

(** The kernel after a tick: only hart 0 counts it. *)
Definition ticked (h : hart) (s : kernel) : kernel :=
  if i32 (h_tp h) =? 0 then set_k_ticks (u32 (k_ticks s + 1)) s else s.

Lemma devintr_timer h v s :
  h_scause h = 2 ^ 63 + 1 -> k_held s = [] -> (forall p, ~ awaits_tick p s) ->
  devintr (h, (v, s)) =
  Ok 2 (set_h_sip (Z.land (h_sip h) (u64 (Z.lnot 2))) h, (v, ticked h s)).
Proof.
  intros Hs Hh Hw. unfold devintr, cpuid. rewrite bind_hget, Hs. simpl.
  rewrite bind_hget. unfold ticked. destruct (i32 (h_tp h) =? 0); unfold when.
  - erewrite bind_liftT; [done|]. apply clockintr_run; [rewrite Hh; apply not_elem_of_nil| |done].
    intros i. rewrite Hh. apply not_elem_of_nil.
  - done.
Qed.

Lemma bind_liftE {A B} (m : K A) (k : A -> T B) h v s a s' :
  m s = Ok a s' -> bind (liftE m) k (h, (v, s)) = k a (hart_env (k_clock s) h, (v, s')).
Proof. intros Hm. unfold liftE. rewrite !bind_assoc, bind_gets, bind_assoc. by erewrite bind_liftT. Qed.

(** The hart after the interrupt is acknowledged. *)
Definition acked (h : hart) : hart := set_h_sip (Z.land (h_sip h) (u64 (Z.lnot 2))) h.

Lemma kerneltrap_timer h v s op :
  flag (h_sstatus h) SSTATUS_SPP = true -> flag (h_sstatus h) SSTATUS_SIE = false ->
  h_scause h = 2 ^ 63 + 1 -> k_held s = [] -> (forall p, ~ awaits_tick p s) -> k_cur s = op ->
  kerneltrap (h, (v, s)) =
  ((match op with
    | Some p =>
        q <- liftT (get_proc p) ;;
        when (bool_decide (p_state q = RUNNING))
          (p <- liftT (deref op) ;;
           liftT (upd_proc p (fun q => set_p_cputime (u32 (p_cputime q + 1)) q)) ;;
           liftE yield)
    | None => ret tt
    end) ;;
   hmod (set_h_sepc (h_sepc h)) ;;
   hmod (set_h_sstatus (h_sstatus h))) (acked h, (v, ticked h s)).
Proof.
  intros Hspp Hsie Hsc Hh Hw Hc. unfold kerneltrap.
  rewrite (bind_liftT _ _ _ _ _ op s) by (by subst). rewrite !bind_hget, Hspp. cbn [negb].
  unfold intr_get. rewrite bind_hget, Hsie.
  rewrite (bind_ok devintr _ _ _ _ (devintr_timer h v s Hsc Hh Hw)). cbn [Z.eqb].
  rewrite (bind_liftT _ _ _ _ _ op (ticked h s)).
  2:{ unfold myproc, gets, ticked. rewrite <- Hc. by destruct (_ =? 0). }
  done.
Qed.

(** C36: a timer interrupt in the kernel is invisible to the code it interrupts.
    Taken in supervisor mode with interrupts off, it is acknowledged, hart 0
    counts the tick, a running process is charged and gives up the processor;
    and whatever the traps taken meanwhile leave in the registers,
    [kerneltrap] returns with the exception pc and the status register that
    it was entered with. *)
Theorem kerneltrap_transparent h v s :
  flag (h_sstatus h) SSTATUS_SPP = true -> flag (h_sstatus h) SSTATUS_SIE = false ->
  h_scause h = 2 ^ 63 + 1 -> k_held s = [] -> (forall p, ~ awaits_tick p s) ->
  (k_cur s = None ->
   wp kerneltrap (fun _ '(h', (v', s')) => h_sepc h' = h_sepc h /\ h_sstatus h' = h_sstatus h /\
      Z.testbit (h_sip h') 1 = false /\ s' = ticked h s) (h, (v, s))) /\
  (forall p s2, k_cur s = Some p -> (p < length (k_procs s))%nat ->
   p_state (k_procs s !!! p) = RUNNING ->
   let charge q := set_p_cputime (u32 (p_cputime q + 1)) q in
   env (k_clock s) (preempted p (set_k_procs (alter charge p (k_procs s)) (ticked h s))) = Some s2 ->
   p_state (k_procs s2 !!! p) = RUNNABLE ->
   wp kerneltrap (fun _ '(h', (v', s')) => h_sepc h' = h_sepc h /\ h_sstatus h' = h_sstatus h /\
      s' = resumed p (k_clock s) s2) (h, (v, s))).
Proof.
  intros Hspp Hsie Hsc Hh Hw. split.
  - intros Hc. unfold wp. rewrite (kerneltrap_timer h v s None) by done. simpl. split_and!; [done|done| |done].
    rewrite Z.land_spec. change 2 with (2 ^ 1). rewrite testbit_clear by lia. apply andb_false_r.
  - intros p s2 Hc Hp Hst charge Henv Hst2. unfold wp. rewrite (kerneltrap_timer h v s (Some p)) by done.
    assert (k_procs (ticked h s) = k_procs s /\ k_clock (ticked h s) = k_clock s /\
            k_cur (ticked h s) = Some p /\ k_held (ticked h s) = []) as (Ep & Ek & Ec & Eh).
    { unfold ticked. by destruct (_ =? 0). }
    rewrite bind_assoc, bind_get_proc, Ep, bool_decide_eq_true_2 by done. unfold when.
    rewrite !bind_assoc. rewrite (bind_liftT _ _ _ _ _ p (ticked h s)) by done.
    rewrite bind_assoc, bind_upd_proc. erewrite bind_liftE; [by simpl|].
    rewrite (yield_run p); [|done|simpl; by rewrite length_alter, Ep|done].
    simpl k_clock. rewrite Ek, Ep. unfold charge in Henv. rewrite Henv. by rewrite decide_True.
Qed.

(** The hart and the kernel when [usertrap] has set the vector and saved the user
    pc. *)
Definition entered (h : hart) : hart := set_h_stvec kernelvec h.
Definition saved_epc (p : nat) (h : hart) (s : kernel) : kernel :=
  set_k_mem (store64 (k_mem s) (p_trapframe (k_procs s !!! p) + TF_epc) (h_sepc h)) s.
(** The return address of a system call is the instruction after it. *)
Definition skipped_ecall (p : nat) (s : kernel) : kernel :=
  let a := p_trapframe (k_procs s !!! p) + TF_epc in
  set_k_mem (store64 (k_mem s) a (u64 (load64 (k_mem s) a + 4))) s.

(** What handles the trap, with the device that [devintr] reports (0 for a system
    call): [syscall] with interrupts on, or a device's handler. *)
Definition handled (junk : list Z) (p : nat) (h : hart) (v : vdisk) (s : kernel)
    (dev : Z) (w : hart * (vdisk * kernel)) : Prop :=
  if decide (h_scause h = 8) then
    dev = 0 /\ p_killed (k_procs s !!! p) = 0 /\
    (intr_on ;; liftE (syscall junk)) (entered h, (v, skipped_ecall p (saved_epc p h s))) = Ok tt w
  else dev <> 0 /\ devintr (entered h, (v, saved_epc p h s)) = Ok dev w.

(** The process pays for a timer interrupt. *)
Definition charged (dev : Z) (p : nat) (s : kernel) : kernel :=
  if dev =? 2 then set_k_procs (alter (fun q => set_p_cputime (u32 (p_cputime q + 1)) q) p (k_procs s)) s else s.

Lemma exit_if_killed_no p (k : unit -> T (Z * Z * Z)) h v s :
  p_killed (k_procs s !!! p) = 0 -> bind (exit_if_killed p) k (h, (v, s)) = k tt (h, (v, s)).
Proof. intros Hk. unfold exit_if_killed. rewrite bind_assoc, bind_get_proc. by rewrite Hk. Qed.

Lemma usertrap_handled junk p h v s dev h1 v1 s1 :
  flag (h_sstatus h) SSTATUS_SPP = false -> k_cur s = Some p -> p_trapframe (k_procs s !!! p) <> 0 ->
  handled junk p h v s dev (h1, (v1, s1)) -> p_killed (k_procs s1 !!! p) = 0 ->
  usertrap junk (h, (v, s)) = (liftE yield ;; usertrapret) (h1, (v1, charged dev p s1)).
Proof.
  intros Hspp Hc Htf Hh Hk. unfold usertrap.
  rewrite bind_hget, Hspp, bind_hmod, (bind_curproc p), bind_hget, bind_tf_set, bind_hget by done.
  change (h_sepc (set_h_stvec kernelvec h)) with (h_sepc h). fold (saved_epc p h s). fold (entered h).
  cbn [h_scause set_h_stvec entered].
  assert (forall d, (exit_if_killed p ;;
    when (d =? 2) (liftT (upd_proc p (fun q => set_p_cputime (u32 (p_cputime q + 1)) q))) ;;
    liftE yield ;; usertrapret) (h1, (v1, s1)) = (liftE yield ;; usertrapret) (h1, (v1, charged d p s1))) as Hend.
  { intros d. rewrite exit_if_killed_no by done. unfold charged. by destruct (d =? 2). }
  unfold handled in Hh. case_decide as Hsc.
  - destruct Hh as (-> & Hk0 & Hrun). rewrite Hsc. change (8 =? 8) with true. cbv iota.
    rewrite bind_assoc, exit_if_killed_no by done. rewrite bind_assoc, bind_tf_get, bind_assoc, bind_tf_set by done.
    fold (skipped_ecall p (saved_epc p h s)).
    unfold intr_on in Hrun |- *. rewrite bind_hmod in Hrun. rewrite bind_assoc, bind_hmod, bind_assoc.
    rewrite (bind_ok _ _ _ _ _ Hrun), bind_ret. apply Hend.
  - destruct Hh as [Hd Hrun]. destruct (Z.eqb_spec (h_scause h) 8); [done|].
    rewrite bind_assoc, (bind_ok devintr _ _ _ _ Hrun). destruct (Z.eqb_spec dev 0); [done|].
    unfold when at 1. rewrite bind_assoc, !bind_ret. apply Hend.
Qed.

(** C39: [usertrap] gives up the processor after every trap that the process
    survives, not only after a timer interrupt as its comment says: the
    condition covers the accounting statement alone.  Whatever the trap was, a
    system call or an interrupt of any device, once it is handled and the
    process is not killed, it is charged if it was the timer, made runnable and
    switched away from; if it is not scheduled again [usertrap] waits there,
    and if it is, [usertrap] goes on to [usertrapret]. *)
Theorem usertrap_yields junk p h v s dev h1 v1 s1 :
  flag (h_sstatus h) SSTATUS_SPP = false -> k_cur s = Some p -> p_trapframe (k_procs s !!! p) <> 0 ->
  handled junk p h v s dev (h1, (v1, s1)) ->
  p_killed (k_procs s1 !!! p) = 0 -> k_cur s1 = Some p -> (p < length (k_procs s1))%nat -> k_held s1 = [] ->
  let s2 := preempted p (charged dev p s1) in
  p_state (k_procs s2 !!! p) = RUNNABLE /\ k_cur s2 = None /\
  (env (k_clock s1) s2 = None -> usertrap junk (h, (v, s)) = Blocked (h1, (v1, s2))) /\
  (forall s3, env (k_clock s1) s2 = Some s3 -> p_state (k_procs s3 !!! p) = RUNNABLE ->
     usertrap junk (h, (v, s)) = usertrapret (hart_env (k_clock s1) h1, (v1, resumed p (k_clock s1) s3))).
Proof.
  intros Hspp Hc Htf Hh Hk Hc1 Hp1 Hh1 s2.
  rewrite (usertrap_handled junk p h v s dev h1 v1 s1) by done.
  assert (k_cur (charged dev p s1) = Some p /\ (p < length (k_procs (charged dev p s1)))%nat /\
          k_held (charged dev p s1) = [] /\ k_clock (charged dev p s1) = k_clock s1) as (Ec & Ep & Eh & Ek).
  { unfold charged. destruct (dev =? 2); [|done]. simpl. by rewrite length_alter. }
  split_and!.
  - unfold s2, preempted. simpl. by rewrite list_lookup_total_alter_eq.
  - done.
  - intros He. unfold liftE. rewrite bind_assoc, bind_gets, bind_assoc.
    erewrite bind_liftT_blocked; [done|]. rewrite (yield_run p) by done. rewrite Ek. fold s2. by rewrite He.
  - intros s3 He Hst. erewrite bind_liftE; [by rewrite Ek|]. rewrite (yield_run p) by done.
    rewrite Ek. fold s2. rewrite He. by rewrite decide_True.
Qed.
End User.

Module TrapDemo.
(** Other traps scribble over the registers; other processes do nothing. *)
#[local] Instance scribble : HartEnv := fun _ h => set_h_sepc 0 (set_h_sstatus 0 h).
#[local] Instance nodisk : Disk := disk_transfer.

Definition proc1 : proc := set_p_trapframe 8192 (set_p_state RUNNING proc0).
Definition s1 : kernel := set_k_cur (Some 1%nat) (set_k_procs (<[1%nat := proc1]> (replicate NPROC proc0)) kernel0).
Definition vd : vdisk := vdisk0.
#[local] Instance sym : Linker := kernel_sym.
Definition hart1 (sstatus scause : Z) : hart := mk_hart sstatus 0 4096 scause 0 7 0 2 [] [].

Lemma s1_no_wait : forall p, ~ awaits_tick p s1.
Proof.
  intros p (Hp & _ & Hst & _). destruct (decide (p = 1%nat)) as [->|]; [vm_compute in Hst; discriminate Hst|].
  unfold s1 in Hst. cbn [k_procs set_k_cur set_k_procs] in Hst.
  rewrite list_lookup_total_insert_ne in Hst by done.
  rewrite lookup_total_replicate_2 in Hst by done. vm_compute in Hst. discriminate Hst.
Qed.
Lemma s1_locks : no_proc_locks (k_held s1).
Proof. intros i. apply not_elem_of_nil. Qed.

Definition s2 : kernel :=
  set_k_cur None (set_k_procs (<[1%nat := set_p_chan (Some CTicks) (set_p_state SLEEPING proc0)]>
                                 (replicate NPROC proc0)) kernel0).
Lemma clockintr_correct_witness :
  clockintr s1 = Ok tt (set_k_ticks 1 s1) /\ exists s', clockintr s2 = Panic "acquire" s'.
Proof.
  split.
  - apply (clockintr_correct s1); [apply not_elem_of_nil|exact s1_locks|exact s1_no_wait].
  - apply (clockintr_correct s2) with (p := 1%nat);
      [apply not_elem_of_nil|intros i; apply not_elem_of_nil|].
    split_and!; [unfold NPROC; lia|done|reflexivity|reflexivity].
Defined.

Lemma usertrapret_correct_witness :
  wp usertrapret (fun r '(h', (_, s')) => Z.testbit (h_sstatus h') 8 = false /\
    load64 (k_mem s') (8192 + TF_kernel_satp) = 7) (hart1 290 8, (vd, s1)).
Proof.
  eapply wp_mono.
  - apply (usertrapret_correct 1 (hart1 290 8) vd s1); [reflexivity|vm_compute; discriminate].
  - intros r [h' [v' s']] (_ & _ & _ & Hb & _ & Hl & _). split; [by rewrite Hb by lia|exact Hl].
Defined.

Lemma kerneltrap_transparent_witness :
  let E : Env := fun _ s => Some s in
  wp kerneltrap (fun _ '(h', _) => h_sepc h' = 4096 /\ h_sstatus h' = 288) (hart1 288 (2 ^ 63 + 1), (vd, s1)).
Proof.
  intros E. eapply wp_mono.
  - refine (proj2 (kerneltrap_transparent (hart1 288 (2 ^ 63 + 1)) vd s1 _ _ _ _ s1_no_wait) 1%nat _ _ _ _ _ _);
      try reflexivity. vm_compute. lia.
  - intros [] [h' [v' s']] (H1 & H2 & _). split; [exact H1|exact H2].
Defined.

(** A disk interrupt with nothing to report, and [getpid]. *)
Definition proc2 : proc := set_p_pid 7 proc1.
Definition s3 : kernel :=
  set_k_cur (Some 1%nat) (set_k_mem (store64 ∅ (8192 + TF_a 7) 11)
    (set_k_procs (<[1%nat := proc2]> (replicate NPROC proc0)) kernel0)).

Lemma usertrap_yields_witness :
  let E : Env := fun _ _ => None in
  (exists h' s', usertrap [] (hart1 0 (2 ^ 63 + 9), (vd, s1)) = Blocked (h', (vd, s')) /\
    p_state (k_procs s' !!! 1%nat) = RUNNABLE) /\
  (exists h' s', usertrap [] (hart1 0 8, (vd, s3)) = Blocked (h', (vd, s')) /\
    p_state (k_procs s' !!! 1%nat) = RUNNABLE).
Proof.
  intros E. split.
  - edestruct (usertrap_yields [] 1 (hart1 0 (2 ^ 63 + 9)) vd s1 1) as (H1 & _ & H2 & _).
    + reflexivity.
    + reflexivity.
    + vm_compute. discriminate.
    + split; [discriminate|reflexivity].
    + reflexivity.
    + reflexivity.
    + vm_compute. lia.
    + reflexivity.
    + eexists _, _. split; [apply H2; reflexivity|exact H1].
  - edestruct (usertrap_yields [] 1 (hart1 0 8) vd s3 0) as (H1 & _ & H2 & _).
    + reflexivity.
    + reflexivity.
    + vm_compute. discriminate.
    + split; [reflexivity|]. split; [reflexivity|]. reflexivity.
    + reflexivity.
    + reflexivity.
    + vm_compute. lia.
    + reflexivity.
    + eexists _, _. split; [apply H2; reflexivity|exact H1].
Defined.
End TrapDemo.
