(* ===== verification/Lru.v ===== *)
(** * The doubly linked list of buffers of kernel/bio.c

    [lru s l]: from the list head, the [next] pointers visit the buffers in
    the order [l] and the [prev] pointers in the reverse order, and [l] holds
    every buffer once.  [binit] builds such a list, the searches of [bget]
    follow it, and moving a buffer to the front permutes it. *)

From stdpp Require Import functions.
From S2P Require Import Prelude Bytes Params CString Spinlock State Kalloc Vm Sched SchedProofs Bio.

(** ** Chains of pointers *)

Fixpoint chain (f : nat -> nat) (x : nat) (l : list nat) (y : nat) : Prop :=
  match l with
  | [] => f x = y
  | a :: l' => f x = a /\ chain f a l' y
  end.

Lemma chain_app f x l1 a l2 y : chain f x (l1 ++ a :: l2) y <-> chain f x l1 a /\ chain f a l2 y.
Proof.
  revert x. induction l1 as [|b l1 IH]; intros x; simpl; [done|]. rewrite IH. naive_solver.
Qed.

Lemma chain_frame f u v x l y : u ∉ x :: l -> chain f x l y -> chain (<[u := v]> f) x l y.
Proof.
  revert x. induction l as [|b l IH]; intros x Hu; simpl.
  - intros. rewrite fn_lookup_insert_ne by set_solver. done.
  - intros [<- ?]. rewrite fn_lookup_insert_ne by set_solver. split; [done|].
    apply IH; [set_solver|done].
Qed.

Lemma last_cons b (l : list nat) x : List.last (b :: l) x = List.last l b.
Proof.
  revert b x. induction l as [|c l IH]; intros b x; [done|].
  change (List.last (b :: c :: l) x) with (List.last (c :: l) x). by rewrite !IH.
Qed.

Lemma chain_last f x l y : chain f x l y -> f (List.last l x) = y.
Proof.
  revert x. induction l as [|b l IH]; intros x; [done|]. intros [_ H].
  rewrite last_cons. by apply IH.
Qed.

Lemma chain_hd f x l y : chain f x l y -> f x = hd y l.
Proof. destruct l; simpl; naive_solver. Qed.

Lemma last_in (l : list nat) x : List.last l x ∈ x :: l.
Proof.
  revert x. induction l as [|b l IH]; intros x; [left|]. rewrite last_cons. right. apply IH.
Qed.

Lemma chain_redirect f x l y z :
  NoDup (x :: l) -> chain f x l y -> chain (<[List.last l x := z]> f) x l z.
Proof.
  revert x. induction l as [|b l IH]; intros x Hnd.
  - intros _. simpl. by rewrite fn_lookup_insert.
  - intros [E H]. apply NoDup_cons in Hnd as [Hx Hnd].
    rewrite last_cons.
    simpl. split; [|by apply IH].
    rewrite fn_lookup_insert_ne; [done|]. intros E1. apply Hx. rewrite <- E1. apply last_in.
Qed.

Lemma last_rev (l : list nat) x : List.last (rev l) x = hd x l.
Proof. destruct l; simpl; [done|]. by rewrite last_last. Qed.
Lemma hd_rev (l : list nat) x : hd x (rev l) = List.last l x.
Proof. rewrite <- (rev_involutive l) at 2. by rewrite last_rev. Qed.

(** Unlinking [b], and linking it behind the head [h], on one direction of
    pointers.  On the way out [p] is the predecessor of [b] and [q] its
    successor. *)
Lemma chain_unlink f h l1 b l2 :
  NoDup (h :: l1 ++ b :: l2) -> chain f h (l1 ++ b :: l2) h ->
  chain (<[List.last l1 h := hd h l2]> f) h (l1 ++ l2) h.
Proof.
  intros Hnd [H1 H2]%chain_app.
  assert (NoDup (h :: l1)) as Hnd1.
  { rewrite app_comm_cons in Hnd. by apply NoDup_app in Hnd as (? & _). }
  destruct l2 as [|c l2].
  { rewrite app_nil_r. by eapply chain_redirect. }
  apply chain_app. split; [by eapply chain_redirect|].
  destruct H2 as [_ H2]. apply chain_frame; [|done].
  pose proof (last_in l1 h). intros Hin.
  rewrite app_comm_cons in Hnd. apply NoDup_app in Hnd as (_ & Hd & _).
  eapply Hd; [done|]. by right.
Qed.

Lemma chain_push f h b m :
  h ∉ m -> b ∉ m -> b <> h -> chain f h m h ->
  chain (<[h := b]> (<[b := hd h m]> f)) h (b :: m) h.
Proof.
  intros Hh Hb Hne H. simpl. rewrite fn_lookup_insert. split; [done|].
  destruct m as [|c m]; simpl.
  - rewrite fn_lookup_insert_ne, fn_lookup_insert by done. done.
  - rewrite fn_lookup_insert_ne, fn_lookup_insert by done. split; [done|].
    destruct H as [_ H]. apply chain_frame; [set_solver|]. apply chain_frame; [set_solver|]. done.
Qed.

Lemma chain_append f h b m :
  h ∉ m -> b ∉ m -> b <> h -> NoDup m -> chain f h m h ->
  chain (<[List.last m h := b]> (<[b := h]> f)) h (m ++ [b]) h.
Proof.
  intros Hh Hb Hne Hnd H. apply chain_app. split.
  - eapply chain_redirect; [by apply NoDup_cons|]. apply chain_frame; [set_solver|done].
  - simpl. rewrite fn_lookup_insert_ne, fn_lookup_insert; [done|].
    intros E. pose proof (last_in m h) as Hi. rewrite E in Hi. set_solver.
Qed.

(** ** The buffers as a list *)

Definition nx (bs : list buf) (i : nat) : nat := b_next (bs !!! i).
Definition pv (bs : list buf) (i : nat) : nat := b_prev (bs !!! i).

Record lru (bs : list buf) (l : list nat) : Prop := {
  lru_len : length bs = S NBUF;
  lru_next : chain (nx bs) bhead l bhead;
  lru_prev : chain (pv bs) bhead (rev l) bhead;
  lru_perm : l ≡ₚ seq 0 NBUF;
}.

Lemma chain_ext f g x l y : (forall u, f u = g u) -> chain f x l y -> chain g x l y.
Proof.
  intros E. revert x. induction l as [|b l IH]; intros x; simpl; rewrite E; naive_solver.
Qed.

Lemma nx_next bs u v i : (u < length bs)%nat -> nx (alter (set_b_next v) u bs) i = <[u := v]> (nx bs) i.
Proof.
  intros. unfold nx. destruct (decide (u = i)) as [->|].
  - by rewrite list_lookup_total_alter_eq, fn_lookup_insert.
  - by rewrite list_lookup_total_alter_ne, fn_lookup_insert_ne.
Qed.
Lemma pv_prev bs u v i : (u < length bs)%nat -> pv (alter (set_b_prev v) u bs) i = <[u := v]> (pv bs) i.
Proof.
  intros. unfold pv. destruct (decide (u = i)) as [->|].
  - by rewrite list_lookup_total_alter_eq, fn_lookup_insert.
  - by rewrite list_lookup_total_alter_ne, fn_lookup_insert_ne.
Qed.

(** A field of every entry is unchanged by an update that keeps it. *)
Lemma alter_field {A B} `{Inhabited A} (g : A -> B) (f : A -> A) (l : list A) u i :
  (forall x, g (f x) = g x) -> g (alter f u l !!! i) = g (l !!! i).
Proof.
  intros E. destruct (decide (u = i)) as [->|].
  - rewrite !list_lookup_total_alt. rewrite list_lookup_alter_eq. destruct (l !! i); simpl; [apply E|done].
  - by rewrite list_lookup_total_alter_ne.
Qed.
Lemma nx_prev bs u v i : nx (alter (set_b_prev v) u bs) i = nx bs i.
Proof. by apply (alter_field b_next). Qed.
Lemma pv_next bs u v i : pv (alter (set_b_next v) u bs) i = pv bs i.
Proof. by apply (alter_field b_prev). Qed.

Lemma lru_in bs l i : lru bs l -> i ∈ l <-> (i < NBUF)%nat.
Proof. intros [_ _ _ ->]. rewrite elem_of_seq. lia. Qed.

Lemma lru_nodup bs l : lru bs l -> NoDup (bhead :: l).
Proof.
  intros H. apply NoDup_cons. split; [rewrite (lru_in _ _ _ H); unfold bhead; lia|].
  rewrite (lru_perm _ _ H). apply NoDup_seq.
Qed.

Lemma rev_split (l1 l2 : list nat) b : rev (l1 ++ b :: l2) = rev l2 ++ b :: rev l1.
Proof. rewrite rev_app_distr. simpl. by rewrite <- app_assoc. Qed.

(** ** Linking a buffer in at the front, moving one there *)

Definition push (b : nat) (bs : list buf) : list buf :=
  let bs := alter (set_b_next (nx bs bhead)) b bs in
  let bs := alter (set_b_prev bhead) b bs in
  let bs := alter (set_b_prev b) (nx bs bhead) bs in
  alter (set_b_next b) bhead bs.

Definition mtf (b : nat) (bs : list buf) : list buf :=
  let bs := alter (set_b_prev (pv bs b)) (nx bs b) bs in
  let bs := alter (set_b_next (nx bs b)) (pv bs b) bs in
  push b bs.

Lemma fn_insert_ext (f g : nat -> nat) u v i :
  (forall i, f i = g i) -> <[u := v]> f i = <[u := v]> g i.
Proof.
  intros E. destruct (decide (i = u)) as [->|].
  - by rewrite !fn_lookup_insert.
  - by rewrite !fn_lookup_insert_ne.
Qed.

Lemma push_links b c bs :
  nx bs bhead = c -> b <> bhead -> (b < length bs)%nat -> (c < length bs)%nat ->
  (bhead < length bs)%nat ->
  (forall i, nx (push b bs) i = <[bhead := b]> (<[b := c]> (nx bs)) i) /\
  (forall i, pv (push b bs) i = <[c := b]> (<[b := bhead]> (pv bs)) i).
Proof.
  intros Ec Hbh Hb Hc Hh. unfold push. cbv zeta. rewrite Ec.
  set (bs1 := alter (set_b_next c) b bs).
  assert (length bs1 = length bs) as L1 by apply length_alter.
  assert (forall i, nx bs1 i = <[b := c]> (nx bs) i) as N1 by (intros; by apply nx_next).
  assert (forall i, pv bs1 i = pv bs i) as P1 by (intros; apply pv_next).
  rewrite nx_prev, N1, fn_lookup_insert_ne, Ec by done. split; intros i.
  - rewrite nx_next by (rewrite !length_alter; lia). apply fn_insert_ext. intros j.
    by rewrite !nx_prev.
  - rewrite pv_next, pv_prev by (rewrite length_alter; lia). apply fn_insert_ext. intros j.
    rewrite pv_prev by lia. by apply fn_insert_ext.
Qed.

Lemma move_to_front_run b s :
  move_to_front b s = Ok tt (set_k_bufs (mtf b (k_bufs s)) s).
Proof. unfold move_to_front, get_buf, upd_buf. run_steps. by destruct s. Qed.

Section Mtf.
Context (bs : list buf) (l1 l2 : list nat) (b : nat).
Context (H : lru bs (l1 ++ b :: l2)).
Let p := List.last l1 bhead.
Let q := hd bhead l2.

Lemma mtf_facts :
  nx bs b = q /\ pv bs b = p /\ b <> q /\ b <> p /\ b <> bhead /\
  (b < length bs)%nat /\ (p < length bs)%nat /\ (q < length bs)%nat /\
  NoDup (bhead :: l1 ++ l2) /\ b ∉ l1 ++ l2.
Proof.
  pose proof (lru_nodup _ _ H) as Hnd. pose proof (lru_len _ _ H) as Hlen.
  assert (forall i, i ∈ bhead :: l1 ++ b :: l2 -> i < length bs)%nat as Hlt.
  { intros i [->|Hi]%elem_of_cons; [unfold bhead; lia|].
    apply (lru_in _ _ _ H) in Hi. lia. }
  assert (p ∈ bhead :: l1) as Hp by apply last_in.
  assert (q = bhead \/ q ∈ l2) as Hq by (destruct l2; [by left|right; left]).
  assert (NoDup (b :: bhead :: l1 ++ l2)) as Hnd'.
  { rewrite <- Permutation_swap, Permutation_middle in *. rewrite Permutation_middle. done. }
  apply NoDup_cons in Hnd' as [Hb Hnd'].
  split_and!; try done; try (apply Hlt; set_solver); try set_solver.
  - destruct H as [_ Hn _ _]. apply chain_app in Hn as [_ Hn]. by apply chain_hd in Hn.
  - destruct H as [_ _ Hp' _]. rewrite rev_split in Hp'. apply chain_app in Hp' as [_ Hp'].
    apply chain_hd in Hp'. by rewrite hd_rev in Hp'.
Qed.

(** The links after the six stores. *)
Lemma mtf_links :
  (forall i, nx (mtf b bs) i =
     <[bhead := b]> (<[b := hd bhead (l1 ++ l2)]> (<[p := q]> (nx bs))) i) /\
  (forall i, pv (mtf b bs) i =
     <[hd bhead (l1 ++ l2) := b]> (<[b := bhead]> (<[q := p]> (pv bs))) i).
Proof.
  destruct mtf_facts as (En & Ep & Hbq & Hbp & Hbh & Hb & Hp & Hq & Hnd & Hbm).
  assert (hd bhead (l1 ++ l2) < length bs)%nat as Hm.
  { pose proof (lru_len _ _ H). destruct (l1 ++ l2) as [|c m] eqn:Em; simpl; [unfold bhead; lia|].
    enough (c < NBUF)%nat by lia. rewrite <- (lru_in _ _ _ H).
    rewrite <- Permutation_middle, Em. set_solver. }
  assert (chain (<[p := q]> (nx bs)) bhead (l1 ++ l2) bhead) as Hc.
  { apply (chain_unlink _ _ _ b); [apply (lru_nodup _ _ H)|apply (lru_next _ _ H)]. }
  apply chain_hd in Hc. pose proof (lru_len _ _ H) as Hlen.
  assert (bhead < length bs)%nat as Hh by (unfold bhead; lia).
  unfold mtf. cbv zeta. rewrite En, Ep.
  set (bs1 := alter (set_b_prev p) q bs).
  assert (forall i, nx bs1 i = nx bs i) as N1 by (intros; apply nx_prev).
  assert (forall i, pv bs1 i = <[q := p]> (pv bs) i) as P1 by (intros; by apply pv_prev).
  rewrite N1, P1, fn_lookup_insert_ne, Ep, En by done.
  set (bs2 := alter (set_b_next q) p bs1).
  assert (length bs2 = length bs) as L2 by (unfold bs2, bs1; by rewrite !length_alter).
  assert (forall i, nx bs2 i = <[p := q]> (nx bs) i) as N2.
  { intros i. unfold bs2. rewrite nx_next by (unfold bs1; by rewrite length_alter).
    by apply fn_insert_ext. }
  assert (forall i, pv bs2 i = <[q := p]> (pv bs) i) as P2 by (intros i; unfold bs2; by rewrite pv_next).
  destruct (push_links b (hd bhead (l1 ++ l2)) bs2) as [HN HP]; try lia; [by rewrite N2|].
  split; intros i; rewrite ?HN, ?HP; apply fn_insert_ext; intros j; by apply fn_insert_ext.
Qed.

Lemma mtf_lru : lru (mtf b bs) (b :: l1 ++ l2).
Proof.
  destruct mtf_facts as (En & Ep & Hbq & Hbp & Hbh & Hb & Hp & Hq & [Hh Hnd]%NoDup_cons & Hbm).
  destruct mtf_links as [HN HP]. destruct H as [Hlen Hn Hpv Hperm]. constructor.
  - unfold mtf, push. by rewrite !length_alter.
  - eapply chain_ext; [intros; symmetry; apply HN|]. apply chain_push; try done.
    apply (chain_unlink _ _ _ b); [apply (lru_nodup _ _ H)|done].
  - eapply chain_ext; [intros; symmetry; apply HP|]. simpl. rewrite <- last_rev.
    apply chain_append; try done.
    + by rewrite <- Permutation_rev.
    + by rewrite <- Permutation_rev.
    + by rewrite <- Permutation_rev.
    + rewrite rev_app_distr. unfold q, p. rewrite <- (last_rev l2), <- (hd_rev l1).
      apply (chain_unlink _ _ _ b); rewrite <- rev_split; [|done].
      pose proof (lru_nodup _ _ H) as [? ?]%NoDup_cons. apply NoDup_cons.
      by rewrite <- !Permutation_rev.
  - rewrite <- Hperm. by rewrite Permutation_middle.
Qed.
End Mtf.

(** ** binit *)

(** The part of the list that [binit] has built. *)
Record partial (bs : list buf) (m : list nat) : Prop := {
  partial_len : length bs = S NBUF;
  partial_next : chain (nx bs) bhead m bhead;
  partial_prev : chain (pv bs) bhead (rev m) bhead;
}.

Lemma initsleeplock_links b s :
  wp (initsleeplock (SBuf b)) (fun _ s' =>
    length (k_bufs s') = length (k_bufs s) /\
    (forall i, nx (k_bufs s') i = nx (k_bufs s) i) /\
    (forall i, pv (k_bufs s') i = pv (k_bufs s) i)) s.
Proof.
  unfold initsleeplock, upd_sleeplock. kwp. simpl. rewrite !length_alter.
  split_and!; [done| |]; intros i; unfold nx, pv.
  - by rewrite !(alter_field b_next).
  - by rewrite !(alter_field b_prev).
Qed.

Lemma binit_links b c bs1 bs :
  (b < length bs1)%nat -> (c < length bs1)%nat -> (bhead < length bs1)%nat -> b <> bhead ->
  nx bs bhead = c ->
  (forall i, nx bs1 i = <[b := c]> (nx bs) i) -> (forall i, pv bs1 i = <[b := bhead]> (pv bs) i) ->
  let bs2 := alter (set_b_next b) bhead (alter (set_b_prev b) (nx bs1 bhead) bs1) in
  (forall i, nx bs2 i = <[bhead := b]> (<[b := c]> (nx bs)) i) /\
  (forall i, pv bs2 i = <[c := b]> (<[b := bhead]> (pv bs)) i).
Proof.
  intros Hb Hc Hh Hbh Ec N1 P1. cbv zeta. rewrite N1, fn_lookup_insert_ne, Ec by done.
  split; intros i.
  - rewrite nx_next by (rewrite length_alter; lia). apply fn_insert_ext. intros j. by rewrite nx_prev.
  - rewrite pv_next, pv_prev by lia. by apply fn_insert_ext.
Qed.

Lemma partial_push b m bs bs2 :
  partial bs m -> length bs2 = S NBUF -> b ∉ m -> bhead ∉ m -> NoDup m -> b <> bhead ->
  (forall i, nx bs2 i = <[bhead := b]> (<[b := hd bhead m]> (nx bs)) i) ->
  (forall i, pv bs2 i = <[hd bhead m := b]> (<[b := bhead]> (pv bs)) i) ->
  partial bs2 (b :: m).
Proof.
  intros [_ Hn Hp] Hl Hb Hh Hnd Hbh HN HP. constructor; [done| |].
  - eapply chain_ext; [intros; symmetry; apply HN|]. by apply chain_push.
  - eapply chain_ext; [intros; symmetry; apply HP|]. simpl. rewrite <- last_rev.
    apply chain_append; rewrite <- ?Permutation_rev; done.
Qed.

Lemma binit_step b m s :
  partial (k_bufs s) m -> (b < NBUF)%nat -> b ∉ m -> bhead ∉ m -> NoDup m ->
  (forall i, i ∈ m -> i < NBUF)%nat ->
  wp (h <- get_buf bhead ;;
      upd_buf b (set_b_next (b_next h)) ;;
      upd_buf b (set_b_prev bhead) ;;
      initsleeplock (SBuf b) ;;
      h <- get_buf bhead ;;
      upd_buf (b_next h) (set_b_prev b) ;;
      upd_buf bhead (set_b_next b)) (fun _ s' => partial (k_bufs s') (b :: m)) s.
Proof.
  intros HP Hb Hm Hh Hnd Hlt. pose proof (partial_len _ _ HP) as Hlen.
  assert (b <> bhead) as Hbh by (unfold bhead; lia).
  pose proof (chain_hd _ _ _ _ (partial_next _ _ HP)) as Ehd. kwp.
  eapply wp_mono; [apply initsleeplock_links|]. intros [] s1 (L1 & N1 & P1).
  simpl in L1, N1, P1. rewrite !length_alter in L1.
  assert (hd bhead m < S NBUF)%nat as Hc.
  { destruct m as [|c m']; simpl; [unfold bhead; lia|]. specialize (Hlt c ltac:(left)). lia. }
  kwp. simpl.
  destruct (binit_links b (hd bhead m) (k_bufs s1) (k_bufs s)) as [HN2 HP2]; try lia; try done.
  - unfold bhead. lia.
  - intros i. rewrite N1, nx_prev. fold (nx (k_bufs s) bhead). rewrite Ehd. apply nx_next. lia.
  - intros i. rewrite P1, pv_prev by (rewrite length_alter; lia). apply fn_insert_ext.
    intros j. by rewrite pv_next.
  - eapply partial_push; try done. rewrite !length_alter. lia.
Qed.

(** [binit] threads every buffer into one doubly linked list: the [next]
    pointers from the list head visit each of the [NBUF] buffers once and
    return to the head, and the [prev] pointers visit them in the opposite
    order. *)
Theorem binit_builds_list s :
  length (k_bufs s) = S NBUF ->
  wp binit (fun _ s' => lru (k_bufs s') (rev (seq 0 NBUF))) s.
Proof.
  intros Hlen. unfold binit. kwp.
  apply (wp_for_all _ _ (fun done s' => partial (k_bufs s') (rev done))).
  - intros done b todo w Hsplit HP. rewrite rev_app_distr. simpl.
    assert (forall i, i ∈ done \/ i = b -> i < NBUF)%nat as Hlt.
    { intros i Hi. assert (i ∈ seq 0 NBUF) as [_ ?]%elem_of_seq; [|lia].
      rewrite Hsplit. set_solver. }
    pose proof (NoDup_seq 0 NBUF) as Hnd. rewrite Hsplit in Hnd.
    apply NoDup_app in Hnd as (Hnd & Hd & _).
    apply binit_step; rewrite <- ?Permutation_rev; try done.
    + apply Hlt. by right.
    + intros Hi. by apply (Hd b Hi); left.
    + intros Hi. specialize (Hlt bhead (or_introl Hi)). unfold bhead in Hlt. lia.
    + intros i. rewrite <- Permutation_rev. auto.
  - intros w [H1 H2 H3]. constructor; try done. by rewrite <- Permutation_rev.
  - simpl. constructor; simpl; [by rewrite !length_alter| |].
    + rewrite nx_next by (rewrite length_alter; unfold bhead; lia). apply fn_lookup_insert.
    + rewrite pv_next, pv_prev by (unfold bhead; lia). apply fn_lookup_insert.
Qed.
