(* ===== verification/BioProofs.v ===== *)
(** * Sleep locks and the block cache

    What [acquiresleep], [releasesleep], [bget], [bread], [bwrite] and
    [brelse] do when no one else holds the lock or the block: the buffers they
    return and change, on top of the list of [Lru]. *)

From S2P Require Import Prelude Bytes Params CString Spinlock State Kalloc Vm Sched SchedProofs Bio Lru.

(** ** Running loops *)

Lemma wp_run {W A} (m : M W A) w a w' : wp m (fun x y => x = a /\ y = w') w -> m w = Ok a w'.
Proof. intros (x & y & E & -> & ->)%wp_Ok. done. Qed.

Lemma loop_first {W S B} (body : S -> M W (S + B)) s w b w' :
  body s w = Ok (inr b) w' -> loop body s w = Ok b w'.
Proof.
  intros E. apply wp_run.
  apply (wp_loop _ (fun x y => x = s /\ y = w) (fun _ _ => 0)); [|done|lia].
  intros x y [-> ->]. eapply wp_eq; [done|]. done.
Qed.

(** ** Sleep locks *)

Definition sl_of (lk : slock) (s : kernel) : sleeplock :=
  match lk with
  | SBuf i => b_lock (k_bufs s !!! i)
  | SInode i => i_lock (k_itable s !!! i)
  end.
Definition upd_sl (lk : slock) (f : sleeplock -> sleeplock) (s : kernel) : kernel :=
  match lk with
  | SBuf i => set_k_bufs (alter (fun b => set_b_lock (f (b_lock b)) b) i (k_bufs s)) s
  | SInode i => set_k_itable (alter (fun ip => set_i_lock (f (i_lock ip)) ip) i (k_itable s)) s
  end.

Lemma get_sleeplock_run lk s : get_sleeplock lk s = Ok (sl_of lk s) s.
Proof. by destruct lk. Qed.
Lemma upd_sleeplock_run lk f s : upd_sleeplock lk f s = Ok tt (upd_sl lk f s).
Proof. by destruct lk. Qed.

Lemma upd_sl_twice lk f g s : upd_sl lk g (upd_sl lk f s) = upd_sl lk (fun l => g (f l)) s.
Proof. destruct lk; simpl; rewrite alter_twice; by destruct s. Qed.

Lemma upd_sl_held lk f s h : set_k_held h (upd_sl lk f s) = upd_sl lk f (set_k_held h s).
Proof. by destruct lk. Qed.
Lemma sl_of_held lk s h : sl_of lk (set_k_held h s) = sl_of lk s.
Proof. by destruct lk. Qed.
Lemma k_held_upd_sl lk f s : k_held (upd_sl lk f s) = k_held s.
Proof. by destruct lk. Qed.
Lemma k_cur_upd_sl lk f s : k_cur (upd_sl lk f s) = k_cur s.
Proof. by destruct lk. Qed.
Lemma k_procs_upd_sl lk f s : k_procs (upd_sl lk f s) = k_procs s.
Proof. by destruct lk. Qed.
Lemma k_ticks_upd_sl lk f s : k_ticks (upd_sl lk f s) = k_ticks s.
Proof. by destruct lk. Qed.

Lemma upd_sl_ext lk f g s : (forall l, f l = g l) -> upd_sl lk f s = upd_sl lk g s.
Proof.
  intros E. destruct lk; simpl; f_equal; apply list_eq; intros j;
    rewrite !list_lookup_alter; case_decide; try done.
  all: match goal with |- context [?l !! ?j] => destruct (l !! j) end; simpl; by rewrite ?E.
Qed.

Definition pid_of (s : kernel) (p : nat) : Z := p_pid (k_procs s !!! p).

Lemma acquiresleep_free {E : Env} lk p s :
  LSleep lk ∉ k_held s -> k_cur s = Some p -> sl_locked (sl_of lk s) = 0 ->
  acquiresleep lk s = Ok tt (upd_sl lk (fun _ => mk_sleeplock 1 (pid_of s p)) s).
Proof.
  intros Hh Hc Hl. unfold acquiresleep. rewrite bind_acquire by done.
  erewrite bind_ok.
  2:{ apply loop_first. erewrite bind_ok by apply get_sleeplock_run. rewrite sl_of_held, Hl. done. }
  erewrite bind_ok by apply upd_sleeplock_run. unfold curproc, myproc, get_proc. run_steps.
  rewrite k_cur_upd_sl. simpl k_cur. rewrite Hc. simpl deref. run_steps.
  erewrite bind_ok by apply upd_sleeplock_run. rewrite upd_sl_twice, k_procs_upd_sl. simpl k_procs.
  erewrite release_top; [|by rewrite k_held_upd_sl|done].
  rewrite upd_sl_held. done.
Qed.

(** Everyone who sleeps on the lock is woken. *)
Definition wake (c : chan) (s : kernel) : kernel :=
  set_k_procs (imap (woken (Some c) (k_ticks s) (k_cur s)) (k_procs s)) s.

Definition quiet (s : kernel) : Prop :=
  length (k_procs s) = NPROC /\ no_proc_locks (k_held s) /\ LTicks ∉ k_held s.

Lemma releasesleep_run lk s :
  quiet s -> LSleep lk ∉ k_held s ->
  releasesleep lk s = Ok tt (wake (CSleepLock lk) (upd_sl lk (fun _ => mk_sleeplock 0 0) s)).
Proof.
  intros (Hl & Hp & Ht) Hh. unfold releasesleep. rewrite bind_acquire by done.
  erewrite bind_ok by apply upd_sleeplock_run. erewrite bind_ok by apply upd_sleeplock_run.
  rewrite upd_sl_twice.
  erewrite bind_ok.
  2:{ apply wakeup_ok; rewrite ?k_procs_upd_sl, ?k_held_upd_sl; [done| |]; simpl.
      - intros i. rewrite not_elem_of_cons. split; [done|apply Hp].
      - rewrite not_elem_of_cons. done. }
  erewrite release_top; [|simpl; by rewrite k_held_upd_sl|done].
  unfold wake. rewrite k_ticks_upd_sl, k_cur_upd_sl, k_procs_upd_sl. simpl. f_equal.
  rewrite k_ticks_upd_sl, k_cur_upd_sl, k_procs_upd_sl.
  erewrite (upd_sl_ext lk _ (fun _ => mk_sleeplock 0 0)) by done. by destruct lk, s.
Qed.

Lemma holdingsleep_run lk p s :
  LSleep lk ∉ k_held s -> k_cur s = Some p ->
  holdingsleep lk s =
  Ok (b2z (z2b (sl_locked (sl_of lk s)) && (sl_pid (sl_of lk s) =? pid_of s p))) s.
Proof.
  intros Hh Hc. unfold holdingsleep. rewrite bind_acquire by done.
  erewrite bind_ok by apply get_sleeplock_run. rewrite sl_of_held.
  destruct (z2b _); simpl.
  - unfold curproc, myproc, get_proc. run_steps. rewrite Hc. simpl deref. run_steps.
    erewrite bind_release by done. by destruct s.
  - run_steps. erewrite bind_release by done. by destruct s.
Qed.

(** ** The searches of bget *)

Definition caches (dev bno : Z) (x : buf) : bool := (b_dev x =? dev) && (b_blockno x =? bno).

Lemma find_none_app {A} (P : A -> bool) (l1 l2 : list A) :
  (forall a, a ∈ l1 -> P a = false) ->
  snd <$> list_find (fun a => P a = true) (l1 ++ l2) = snd <$> list_find (fun a => P a = true) l2.
Proof.
  induction l1 as [|a l1 IH]; intros Hn; simpl; [done|].
  rewrite decide_False by (rewrite Hn by left; done).
  rewrite <- IH by (intros; apply Hn; by right).
  destruct (list_find _ (l1 ++ l2)) as [[]|]; done.
Qed.

(** A loop that follows the pointers [f] from the first element of the
    chain [l] and stops at the first element that satisfies [P]. *)
Lemma walk_chain (f : nat -> nat) (P : nat -> bool) (body : nat -> K (nat + option nat)) l s :
  chain f bhead l bhead -> bhead ∉ l -> Z.of_nat (length l) < 2 ^ 64 ->
  (forall i, body i s = if (i =? bhead)%nat then Ok (inr None) s
                        else if P i then Ok (inr (Some i)) s else Ok (inl (f i)) s) ->
  loop body (f bhead) s = Ok (snd <$> list_find (fun i => P i = true) l) s.
Proof.
  intros Hc Hh Hlt Hbody. apply wp_run.
  apply (wp_loop_idx _ (fun n i w => w = s /\ exists l1 l2, l = l1 ++ l2 /\ i = hd bhead l2 /\
           (forall a, a ∈ l1 -> P a = false) /\ n = Z.of_nat (length l2)) _ (Z.of_nat (length l))).
  - intros n i w (-> & l1 & l2 & -> & -> & Hn & ->). unfold wp. rewrite Hbody.
    destruct l2 as [|a l2]; simpl.
    { split; [|done]. by rewrite find_none_app. }
    destruct (Nat.eqb_spec a bhead) as [->|Ha]; [set_solver|].
    destruct (P a) eqn:HP.
    + split; [|done]. rewrite find_none_app by done. simpl. by rewrite decide_True.
    + exists (Z.of_nat (length l2)). split; [lia|]. split; [done|].
      apply chain_app in Hc as [_ Hc]. apply chain_hd in Hc.
      exists (l1 ++ [a]), l2. split_and!; [by rewrite <- app_assoc|done| |done].
      intros b [Hb|Hb]%elem_of_app; [auto|]. by apply list_elem_of_singleton in Hb as ->.
  - split; [done|]. exists [], l. split_and!; [done|by apply chain_hd in Hc| |done].
    intros a Ha. by apply not_elem_of_nil in Ha.
  - done.
Qed.

Lemma bget_cached_run dev bno l s :
  lru (k_bufs s) l ->
  bget_cached dev bno s =
  Ok (snd <$> list_find (fun i => caches dev bno (k_bufs s !!! i) = true) l) s.
Proof.
  intros H. pose proof (lru_nodup _ _ H) as [Hh _]%NoDup_cons.
  unfold bget_cached, get_buf. run_steps.
  apply (walk_chain (nx (k_bufs s)) (fun i => caches dev bno (k_bufs s !!! i))); [apply H|done| |].
  - rewrite (Permutation_length (lru_perm _ _ H)), length_seq. unfold NBUF. lia.
  - intros i. destruct (i =? bhead)%nat; [done|]. run_steps. unfold caches. by destruct (_ && _).
Qed.

Lemma bget_unused_run l s :
  lru (k_bufs s) l ->
  bget_unused s = Ok (snd <$> list_find (fun i => (b_refcnt (k_bufs s !!! i) =? 0) = true) (rev l)) s.
Proof.
  intros H. pose proof (lru_nodup _ _ H) as [Hh _]%NoDup_cons.
  unfold bget_unused, get_buf. run_steps.
  apply (walk_chain (pv (k_bufs s)) (fun i => b_refcnt (k_bufs s !!! i) =? 0)); [apply H| | |].
  - by rewrite <- Permutation_rev.
  - rewrite length_rev, (Permutation_length (lru_perm _ _ H)), length_seq. unfold NBUF. lia.
  - intros i. destruct (i =? bhead)%nat; [done|]. run_steps. by destruct (_ =? 0).
Qed.

(** ** bget, bread, bwrite, brelse *)

(** The buffer that [bget] chooses: the one that caches the block, or else
    the least recently used one that no one refers to. *)
Definition pick (dev bno : Z) (bs : list buf) (l : list nat) : option nat :=
  match snd <$> list_find (fun i => caches dev bno (bs !!! i) = true) l with
  | Some i => Some i
  | None => snd <$> list_find (fun i => (b_refcnt (bs !!! i) =? 0) = true) (rev l)
  end.

(** What [bget] makes of it, for a process with id [pid]. *)
Definition gotten (dev bno pid : Z) (b : buf) : buf :=
  set_b_lock (mk_sleeplock 1 pid)
    (if caches dev bno b then set_b_refcnt (u32 (b_refcnt b + 1)) b
     else set_b_refcnt 1 (set_b_valid 0 (set_b_blockno bno (set_b_dev dev b)))).

(** And what [bread] makes of it, from the disk [d]. *)
Definition loaded (dev bno pid : Z) (d : gmap Z (list Z)) (b : buf) : buf :=
  let b := gotten dev bno pid b in
  if z2b (b_valid b) then b else set_b_valid 1 (set_b_data (disk_block d bno) b).

Lemma alter_ext {A} (f g : A -> A) (l : list A) i :
  (forall x, l !! i = Some x -> f x = g x) -> alter f i l = alter g i l.
Proof.
  intros Hfg. apply list_eq. intros j. destruct (decide (i = j)) as [->|].
  - rewrite !list_lookup_alter_eq. destruct (l !! j) eqn:Hj; simpl; [|done]. by rewrite Hfg.
  - by rewrite !list_lookup_alter_ne.
Qed.

Lemma upd_sl_buf i f s :
  upd_sl (SBuf i) f s = set_k_bufs (alter (fun b => set_b_lock (f (b_lock b)) b) i (k_bufs s)) s.
Proof. done. Qed.

Lemma find_in {A} (P : A -> bool) l (a : A) :
  snd <$> list_find (fun x => P x = true) l = Some a -> a ∈ l /\ P a = true.
Proof.
  destruct (list_find _ l) as [[n x]|] eqn:F; simpl; [|done]. intros [= <-].
  apply list_find_Some in F as (Hn & HP & _). split; [|done]. by eapply list_elem_of_lookup_2.
Qed.

Lemma find_none {A} (P : A -> bool) l :
  snd <$> list_find (fun x => P x = true) l = None -> forall a, a ∈ l -> P a = false.
Proof.
  destruct (list_find _ l) as [[n x]|] eqn:F; simpl; [done|]. intros _ a Ha.
  apply list_find_None in F. rewrite Forall_forall in F. specialize (F a Ha). by destruct (P a).
Qed.

Lemma pick_lt dev bno bs l i : lru bs l -> pick dev bno bs l = Some i -> (i < NBUF)%nat.
Proof.
  intros H Hp. rewrite <- (lru_in _ _ _ H). unfold pick in Hp.
  destruct (_ <$> list_find _ l) eqn:F.
  - apply find_in in F as [? _]. by simplify_eq.
  - apply find_in in Hp as [? _]. by rewrite Permutation_rev.
Qed.

Lemma bget_run {E : Env} dev bno l p i s :
  lru (k_bufs s) l -> k_held s = [] -> k_cur s = Some p ->
  pick dev bno (k_bufs s) l = Some i -> sl_locked (b_lock (k_bufs s !!! i)) = 0 ->
  bget dev bno s = Ok i (set_k_bufs (alter (gotten dev bno (pid_of s p)) i (k_bufs s)) s).
Proof.
  intros H Hh Hc Hp Hl. pose proof (pick_lt _ _ _ _ _ H Hp) as Hi.
  pose proof (lru_len _ _ H) as Hlen. unfold bget.
  rewrite bind_acquire by (rewrite Hh; apply not_elem_of_nil).
  erewrite bind_ok by (by apply bget_cached_run). simpl. unfold pick in Hp. rewrite Hh.
  destruct (_ <$> list_find _ l) as [j|] eqn:F.
  - injection Hp as ->. apply find_in in F as [_ Hcache].
    unfold upd_buf. run_steps. erewrite bind_release by (done || apply not_elem_of_nil).
    erewrite bind_ok.
    2:{ apply acquiresleep_free; simpl; [apply not_elem_of_nil|done|].
        rewrite list_lookup_total_alter_eq by lia. done. }
    unfold ret. rewrite upd_sl_buf. simpl. rewrite alter_twice.
    rewrite (alter_ext _ (gotten dev bno (pid_of s p))).
    + destruct s; simpl in *. by subst.
    + intros x Hx. apply list_lookup_total_correct in Hx. subst x. unfold gotten. by rewrite Hcache.
  - pose proof (find_none (fun i => caches dev bno (k_bufs s !!! i)) _ F i) as Hnc.
    rewrite (lru_in _ _ _ H) in Hnc. specialize (Hnc Hi).
    erewrite bind_ok by (by apply bget_unused_run). simpl. rewrite Hp. unfold upd_buf. run_steps.
    erewrite bind_release by (done || apply not_elem_of_nil). rewrite !alter_twice.
    erewrite bind_ok.
    2:{ apply acquiresleep_free; simpl; [apply not_elem_of_nil|done|].
        rewrite list_lookup_total_alter_eq by lia. done. }
    unfold ret. rewrite upd_sl_buf. simpl. rewrite alter_twice.
    rewrite (alter_ext _ (gotten dev bno (pid_of s p))).
    + destruct s; simpl in *. by subst.
    + intros x Hx. apply list_lookup_total_correct in Hx. subst x. unfold gotten. by rewrite Hnc.
Qed.

Lemma bget_no_buffers {E : Env} dev bno l s :
  lru (k_bufs s) l -> k_held s = [] -> pick dev bno (k_bufs s) l = None ->
  exists s', bget dev bno s = Panic "bget: no buffers" s'.
Proof.
  intros H Hh Hp. unfold bget. rewrite bind_acquire by (rewrite Hh; apply not_elem_of_nil).
  erewrite bind_ok by (by apply bget_cached_run). simpl. unfold pick in Hp.
  destruct (_ <$> list_find _ l); [done|].
  erewrite bind_ok by (by apply bget_unused_run). simpl. rewrite Hp. by eexists.
Qed.

(** A driver whose reads fetch the block: all that reading through the cache
    needs of it. *)
Class ReadsBlocks (D : Disk) : Prop :=
  reads_block : forall b, virtio_disk_rw b false = disk_transfer b false.

Section Cache.
Context {E : Env} {D : Disk} {RD : ReadsBlocks D}.

Lemma gotten_blockno dev bno pid b : b_blockno (gotten dev bno pid b) = bno.
Proof.
  unfold gotten, caches. destruct (_ =? dev); simpl; [|done].
  destruct (b_blockno b =? bno) eqn:F; simpl; lia.
Qed.

Lemma bread_run dev bno l p i s :
  lru (k_bufs s) l -> k_held s = [] -> k_cur s = Some p ->
  pick dev bno (k_bufs s) l = Some i -> sl_locked (b_lock (k_bufs s !!! i)) = 0 ->
  bread dev bno s =
  Ok i (set_k_bufs (alter (loaded dev bno (pid_of s p) (k_disk s)) i (k_bufs s)) s).
Proof.
  intros H Hh Hc Hp Hl. pose proof (pick_lt _ _ _ _ _ H Hp) as Hi.
  pose proof (lru_len _ _ H) as Hlen. unfold bread.
  erewrite bind_ok by (by eapply bget_run). unfold get_buf. run_steps.
  rewrite list_lookup_total_alter_eq by lia.
  destruct (z2b _) eqn:V; unfold when; simpl.
  - run_steps. unfold ret. rewrite (alter_ext _ (loaded dev bno (pid_of s p) (k_disk s))); [done|].
    intros x Hx. apply list_lookup_total_correct in Hx. subst x. unfold loaded. by rewrite V.
  - rewrite reads_block. unfold disk_transfer, get_buf, upd_buf. run_steps.
    rewrite list_lookup_total_alter_eq, gotten_blockno by lia. rewrite !alter_twice. unfold ret.
    rewrite (alter_ext _ (loaded dev bno (pid_of s p) (k_disk s))); [by destruct s|].
    intros x Hx. apply list_lookup_total_correct in Hx. subst x. unfold loaded. by rewrite V.
Qed.

(** Locked by process [p]. *)
Definition owned (s : kernel) (p i : nat) : Prop :=
  b_lock (k_bufs s !!! i) = mk_sleeplock 1 (pid_of s p).

Lemma bwrite_run p i s :
  k_held s = [] -> k_cur s = Some p -> owned s p i ->
  bwrite i s = virtio_disk_rw i true s.
Proof.
  intros Hh Hc Ho. unfold bwrite.
  erewrite bind_ok by (apply holdingsleep_run; [rewrite Hh; apply not_elem_of_nil|done]).
  change (sl_of (SBuf i) s) with (b_lock (k_bufs s !!! i)). rewrite Ho. simpl. by rewrite Z.eqb_refl.
Qed.

(** The buffers after [brelse i]. *)
Definition unref (b : buf) : buf :=
  set_b_refcnt (u32 (b_refcnt b - 1)) (set_b_lock (mk_sleeplock 0 0) b).
Definition released (i : nat) (bs : list buf) : list buf :=
  let bs := alter unref i bs in
  if b_refcnt (bs !!! i) =? 0 then mtf i bs else bs.

Lemma brelse_run p i s :
  quiet s -> k_held s = [] -> k_cur s = Some p -> owned s p i -> 
  brelse i s = Ok tt (set_k_bufs (released i (k_bufs s)) (wake (CSleepLock (SBuf i)) s)).
Proof.
  intros Hq Hh Hc Ho. unfold brelse.
  erewrite bind_ok by (apply holdingsleep_run; [rewrite Hh; apply not_elem_of_nil|done]).
  change (sl_of (SBuf i) s) with (b_lock (k_bufs s !!! i)). rewrite Ho. simpl. rewrite Z.eqb_refl. simpl.
  erewrite bind_ok by (apply releasesleep_run; [done|rewrite Hh; apply not_elem_of_nil]).
  rewrite bind_acquire by (simpl; rewrite Hh; apply not_elem_of_nil).
  unfold wake. simpl. unfold upd_buf, get_buf. run_steps. rewrite alter_twice. simpl.
  unfold released. fold unref.
  change (alter (fun x => set_b_refcnt (u32 (b_refcnt (set_b_lock (mk_sleeplock 0 0) x) - 1))
            (set_b_lock (mk_sleeplock 0 0) x)) i (k_bufs s)) with (alter unref i (k_bufs s)).
  destruct (_ =? 0); unfold when.
  - erewrite bind_ok by apply move_to_front_run.
    erewrite release_top by (done || (simpl; rewrite Hh; apply not_elem_of_nil)).
    simpl. by destruct s.
  - run_steps. erewrite release_top by (done || (simpl; rewrite Hh; apply not_elem_of_nil)).
    simpl. by destruct s.
Qed.
End Cache.

(** ** The list and the contents afterwards *)

(** A buffer without its list pointers. *)
Definition bcore (b : buf) : buf := set_b_prev O (set_b_next O b).

Lemma bcore_field {A} (g : buf -> A) b b' :
  (forall b n p, g (set_b_prev p (set_b_next n b)) = g b) -> bcore b = bcore b' -> g b = g b'.
Proof. intros Hg Hb. rewrite <- (Hg b O O), <- (Hg b' O O). unfold bcore in Hb. by rewrite Hb. Qed.

Lemma mtf_core i bs j : bcore (mtf i bs !!! j) = bcore (bs !!! j).
Proof. unfold mtf, push. rewrite !(alter_field bcore) by done. done. Qed.

Lemma released_core i bs j :
  (i < length bs)%nat ->
  bcore (released i bs !!! j) = bcore (if decide (j = i) then unref (bs !!! i) else bs !!! j).
Proof.
  intros Hi. unfold released.
  assert (alter unref i bs !!! j = if decide (j = i) then unref (bs !!! i) else bs !!! j) as Ha.
  { case_decide as Hj; [subst; by apply list_lookup_total_alter_eq|].
    by rewrite list_lookup_total_alter_ne. }
  destruct (_ =? 0); [rewrite mtf_core|]; by rewrite Ha.
Qed.

Lemma lru_same_links bs bs' l :
  length bs' = length bs -> (forall i, nx bs' i = nx bs i) -> (forall i, pv bs' i = pv bs i) ->
  lru bs l -> lru bs' l.
Proof.
  intros Hl Hn Hp [H1 H2 H3 H4]. constructor; [congruence| | |done].
  - eapply chain_ext; [|done]. done.
  - eapply chain_ext; [|done]. done.
Qed.

Lemma lru_alter f i bs l :
  (forall b, b_next (f b) = b_next b) -> (forall b, b_prev (f b) = b_prev b) ->
  lru bs l -> lru (alter f i bs) l.
Proof.
  intros Hn Hp. apply lru_same_links; [apply length_alter| |]; intros j.
  - by apply (alter_field b_next).
  - by apply (alter_field b_prev).
Qed.

(** The order of the list once [brelse] is done with buffer [i]. *)
Definition released_order (i : nat) (bs : list buf) (l : list nat) : list nat :=
  if u32 (b_refcnt (bs !!! i) - 1) =? 0 then i :: filter (fun j => j <> i) l else l.

Lemma released_lru i bs l :
  lru bs l -> (i < NBUF)%nat -> lru (released i bs) (released_order i bs l).
Proof.
  intros H Hi. pose proof (lru_len _ _ H) as Hlen. unfold released, released_order.
  assert (lru (alter unref i bs) l) as H' by (by apply lru_alter).
  rewrite list_lookup_total_alter_eq by lia. simpl.
  destruct (_ =? 0); [|done].
  assert (i ∈ l) as (l1 & l2 & ->)%list_elem_of_split by (by rewrite (lru_in _ _ _ H)).
  replace (filter _ _) with (l1 ++ l2); [by apply mtf_lru|].
  pose proof (lru_nodup _ _ H) as [_ Hnd]%NoDup_cons. apply NoDup_app in Hnd as (_ & H1 & [H2 _]%NoDup_cons).
  rewrite filter_app, filter_cons_False by naive_solver.
  assert (forall m : list nat, i ∉ m -> filter (fun j => j <> i) m = m) as Hf
    by (intros m Hm; exact (remove1_absent i m Hm)).
  rewrite !Hf; [done|done|]. intros Hin. by apply (H1 i Hin); left.
Qed.
