(* ===== verification/VirtioProofs.v ===== *)
(** * The disk driver moves blocks

    [virtio_disk_rw] posts a request as a chain of three descriptors and
    sleeps; the device serves the chain and interrupts; the interrupt handler
    wakes the process, which takes its descriptors back.  The device is a
    parameter, with the part of the virtio specification that the driver
    relies on.  Its two halves together move the block. *)

From S2P Require Import Prelude Bytes Params CString Spinlock State Kalloc Vm Sched SchedProofs Console Bio BioProofs Virtio.

(** ** Running driver code *)

Section Run.
Context {B : Type}.

Lemma bind_liftK {A} (m : K A) (k : A -> V B) v s a s' :
  m s = Ok a s' -> bind (liftK m) k (v, s) = k a (v, s').
Proof. intros Hm. unfold bind, liftK. by rewrite Hm. Qed.
Lemma bind_vgets {A} (f : vdisk -> A) (k : A -> V B) v s : bind (vgets f) k (v, s) = k (f v) (v, s).
Proof. done. Qed.
Lemma bind_vmod f (k : unit -> V B) v s : bind (vmod f) k (v, s) = k tt (f v, s).
Proof. done. Qed.
End Run.

Lemma liftK_run {A} (m : K A) v s a s' : m s = Ok a s' -> liftK m (v, s) = Ok a (v, s').
Proof. intros Hm. unfold liftK. by rewrite Hm. Qed.

(** ** Descriptors *)

(** The descriptor that [alloc_desc] takes. *)
Definition first_free (f : list Z) : option nat := fst <$> list_find (fun x => z2b x = true) f.

Lemma first_free_lt f i : first_free f = Some i -> (i < length f)%nat /\ z2b (f !!! i) = true /\
  forall j, (j < i)%nat -> z2b (f !!! j) = false.
Proof.
  unfold first_free. destruct (list_find _ f) as [[j x]|] eqn:Hf; simpl; [|done]. intros [= ->].
  apply list_find_Some in Hf as (Hi & Hx & Hlt). split_and!.
  - by eapply lookup_lt_Some.
  - by rewrite (list_lookup_total_correct _ _ _ Hi).
  - intros j Hj. destruct (lookup_lt_is_Some_2 f j) as [y Hy].
    { apply lookup_lt_Some in Hi. lia. }
    rewrite (list_lookup_total_correct _ _ _ Hy). apply not_true_is_false. by eapply Hlt.
Qed.

Lemma alloc_desc_run i v s :
  length (vd_free v) = NUM -> first_free (vd_free v) = Some i ->
  alloc_desc (v, s) = Ok (Some i) (set_vd_free i 0 v, s).
Proof.
  intros Hl Hf. apply first_free_lt in Hf as (Hi & Hx & Hlt). unfold alloc_desc.
  rewrite (for_each_find _ (fun i => z2b (vd_free v !!! i)) id (fun i => (set_vd_free i 0 v, s))).
  - rewrite (list_find_seq _ _ i); [done|lia|exact Hx|exact Hlt].
  - intros a _. rewrite bind_vgets. cbv beta. by destruct (z2b (vd_free v !!! a)).
Qed.

(** Descriptors [i0], [i1] and [i2] are the next three to be taken. *)
Record three_free (v : vdisk) (i0 i1 i2 : nat) : Prop := {
  tf_len : length (vd_free v) = NUM;
  tf_0 : first_free (vd_free v) = Some i0;
  tf_1 : first_free (<[i0 := 0]> (vd_free v)) = Some i1;
  tf_2 : first_free (<[i1 := 0]> (<[i0 := 0]> (vd_free v))) = Some i2;
}.

Definition taken (i0 i1 i2 : nat) (v : vdisk) : vdisk :=
  set_vd_free i2 0 (set_vd_free i1 0 (set_vd_free i0 0 v)).

Lemma alloc3_desc_run i0 i1 i2 v s :
  three_free v i0 i1 i2 -> alloc3_desc (v, s) = Ok (Some (i0, i1, i2)) (taken i0 i1 i2 v, s).
Proof.
  intros [Hl H0 H1 H2]. unfold alloc3_desc.
  erewrite bind_ok by (by apply alloc_desc_run). cbv iota.
  erewrite bind_ok by (apply alloc_desc_run; [simpl; by rewrite length_insert|done]). cbv iota.
  by erewrite bind_ok by (apply alloc_desc_run; [simpl; by rewrite !length_insert|done]).
Qed.

Lemma insert_zero_busy (f : list Z) i j :
  (i < length f)%nat -> z2b (<[i := 0]> f !!! j) = true -> j <> i /\ z2b (f !!! j) = true.
Proof.
  intros Hi Hj. destruct (decide (j = i)) as [->|].
  - by rewrite list_lookup_total_insert_eq in Hj.
  - by rewrite list_lookup_total_insert_ne in Hj.
Qed.

Lemma three_free_facts v i0 i1 i2 : three_free v i0 i1 i2 ->
  (i0 < NUM)%nat /\ (i1 < NUM)%nat /\ (i2 < NUM)%nat /\ i1 <> i0 /\ i2 <> i0 /\ i2 <> i1 /\
  z2b (vd_free v !!! i0) = true /\ z2b (vd_free v !!! i1) = true /\ z2b (vd_free v !!! i2) = true.
Proof.
  intros [Hl H0 H1 H2]. apply first_free_lt in H0 as (L0 & F0 & _), H1 as (L1 & F1 & _), H2 as (L2 & F2 & _).
  rewrite !length_insert in *.
  apply insert_zero_busy in F1 as [? F1]; [|lia].
  apply insert_zero_busy in F2 as [? F2]; [|rewrite length_insert; lia].
  apply insert_zero_busy in F2 as [? F2]; [|lia]. split_and!; try done; lia.
Qed.

(** Freeing a descriptor that is in use. *)
Lemma free_desc_run i v s :
  quiet s -> (i < NUM)%nat -> z2b (vd_free v !!! i) = false ->
  free_desc i (v, s) = Ok tt (set_vd_free i 1 (set_vd_desc i desc0 v), wake CDiskFree s).
Proof.
  intros (Hl & Hp & Ht) Hi Hf. unfold free_desc. destruct (Nat.leb_spec NUM i); [lia|].
  rewrite bind_vgets, Hf, !bind_vmod. apply liftK_run. by apply wakeup_ok.
Qed.

(** ** The device *)

Definition has_next (d : virtq_desc) : bool := negb (Z.land (vq_flags d) VRING_DESC_F_NEXT =? 0).
Definition device_writes (d : virtq_desc) : bool := negb (Z.land (vq_flags d) VRING_DESC_F_WRITE =? 0).

(** What a block device reads in the chain that starts at [i0]: the request,
    the data buffer, whether it may write it, and the place of the status. *)
Definition decode (v : vdisk) (i0 : nat) : option (virtio_blk_req * nat * bool * nat) :=
  let d0 := vd_desc v !!! i0 in
  let d1 := vd_desc v !!! Z.to_nat (vq_next d0) in
  let d2 := vd_desc v !!! Z.to_nat (vq_next d1) in
  match vq_addr d0, vq_addr d1, vq_addr d2 with
  | DOps j, DData b, DStatus k =>
      if (vq_len d0 =? sizeof_blk_req) && has_next d0 && negb (device_writes d0) &&
         (vq_len d1 =? BSIZE) && has_next d1 &&
         (vq_len d2 =? 1) && device_writes d2 && negb (has_next d2)
      then Some (vd_ops v !!! j, b, device_writes d1, k) else None
  | _, _, _ => None
  end.

(** The request is done: status 0, an entry in the used ring, and the bit of the
    interrupt status for a used buffer. *)
Definition completed (i0 k : nat) (v : vdisk) : vdisk :=
  mk_vdisk (vd_desc v) (vd_avail_idx v) (vd_avail_ring v) (u16 (vd_dev_idx v + 1))
    (<[Z.to_nat (vd_dev_idx v mod Z.of_nat NUM) := Z.of_nat i0]> (vd_used_ring v))
    (vd_free v) (vd_used_idx v) (vd_info_b v) (<[k := 0]> (vd_info_status v)) (vd_ops v)
    (Z.lor (vd_isr v) 1) (vd_mmio v).

(** What the request asks for; a block is two sectors. *)
Definition perform (rq : virtio_blk_req) (b : nat) (writable : bool) (s : kernel) : option kernel :=
  let bno := rq_sector rq / 2 in
  if negb (rq_sector rq mod 2 =? 0) then None else
  if (rq_type rq =? VIRTIO_BLK_T_OUT) && negb writable
  then Some (set_k_disk (<[bno := b_data (k_bufs s !!! b)]> (k_disk s)) s)
  else if (rq_type rq =? VIRTIO_BLK_T_IN) && writable
  then Some (set_k_bufs (alter (set_b_data (disk_block (k_disk s) bno)) b (k_bufs s)) s)
  else None.

Class Device := serve : vdisk * kernel -> vdisk * kernel.

(** A device that is notified of one new chain serves it. *)
Class DeviceOk (Dv : Device) : Prop :=
  device_serves : forall v s i0 rq b writable k s',
    vd_avail_idx v = u16 (vd_dev_idx v + 1) ->
    vd_avail_ring v !!! Z.to_nat (vd_dev_idx v mod Z.of_nat NUM) = Z.of_nat i0 ->
    decode v i0 = Some (rq, b, writable, k) -> perform rq b writable s = Some s' ->
    serve (v, s) = (completed i0 k v, s').

(** ** A request *)

(** No request is on its way. *)
Record idle_disk (v : vdisk) : Prop := {
  id_desc : length (vd_desc v) = NUM;
  id_avail : length (vd_avail_ring v) = NUM;
  id_used : length (vd_used_ring v) = NUM;
  id_info : length (vd_info_b v) = NUM;
  id_status : length (vd_info_status v) = NUM;
  id_ops : length (vd_ops v) = NUM;
  id_idx : 0 <= vd_dev_idx v < 2 ^ 16;
  id_avail_idx : vd_avail_idx v = vd_dev_idx v;
  id_used_idx : vd_used_idx v = vd_dev_idx v;
}.

Definition formatted (i0 i1 i2 b : nat) (write : bool) (sector : Z) (v : vdisk) : vdisk :=
  set_vd_desc i2 (mk_desc (DStatus i0) 1 VRING_DESC_F_WRITE 0)
    (set_vd_status i0 255
      (set_vd_desc i1 (mk_desc (DData b) BSIZE
         (Z.lor (if write then 0 else VRING_DESC_F_WRITE) VRING_DESC_F_NEXT) (Z.of_nat i2))
        (set_vd_desc i0 (mk_desc (DOps i0) sizeof_blk_req VRING_DESC_F_NEXT (Z.of_nat i1))
          (set_vd_op i0 (mk_req (if write then VIRTIO_BLK_T_OUT else VIRTIO_BLK_T_IN) 0 sector) v)))).

Definition posted (i0 i1 i2 b : nat) (write : bool) (sector : Z) (v : vdisk) : vdisk :=
  wr_reg MMIO_QUEUE_NOTIFY 0 (incr_avail (push_avail (Z.of_nat i0) (set_vd_info_b i0 (Some b)
    (formatted i0 i1 i2 b write sector (taken i0 i1 i2 v))))).

Section Chain.
Context {v : vdisk} {i0 i1 i2 : nat} (Hi : idle_disk v) (H3 : three_free v i0 i1 i2).

Lemma three_desc (d0 d1 d2 : virtq_desc) :
  let ds := <[i2 := d2]> (<[i1 := d1]> (<[i0 := d0]> (vd_desc v))) in
  ds !!! i0 = d0 /\ ds !!! i1 = d1 /\ ds !!! i2 = d2.
Proof.
  destruct (three_free_facts _ _ _ _ H3) as (L0 & L1 & L2 & N1 & N2 & N3 & _).
  pose proof (id_desc _ Hi) as Ld. intros ds. unfold ds. split_and!.
  - rewrite !list_lookup_total_insert_ne by done. apply list_lookup_total_insert_eq. lia.
  - rewrite list_lookup_total_insert_ne by done. apply list_lookup_total_insert_eq.
    rewrite length_insert. lia.
  - apply list_lookup_total_insert_eq. rewrite !length_insert. lia.
Qed.

Lemma three_taken :
  let f := <[i2 := 0]> (<[i1 := 0]> (<[i0 := 0]> (vd_free v))) in
  f !!! i0 = 0 /\ f !!! i1 = 0 /\ f !!! i2 = 0.
Proof.
  destruct (three_free_facts _ _ _ _ H3) as (L0 & L1 & L2 & N1 & N2 & N3 & _).
  pose proof (tf_len _ _ _ _ H3) as Ld. intros f. unfold f. split_and!.
  - rewrite !list_lookup_total_insert_ne by done. apply list_lookup_total_insert_eq. lia.
  - rewrite list_lookup_total_insert_ne by done. apply list_lookup_total_insert_eq.
    rewrite length_insert. lia.
  - apply list_lookup_total_insert_eq. rewrite !length_insert. lia.
Qed.

(** The device reads the chain as the driver means it. *)
Lemma decode_posted b write sector :
  decode (posted i0 i1 i2 b write sector v) i0 =
  Some (mk_req (if write then VIRTIO_BLK_T_OUT else VIRTIO_BLK_T_IN) 0 sector, b, negb write, i0).
Proof.
  destruct (three_free_facts _ _ _ _ H3) as (L0 & _). pose proof (id_ops _ Hi) as Lo.
  unfold decode. cbn [posted formatted taken vd_desc wr_reg incr_avail push_avail set_vd_info_b
    set_vd_desc set_vd_status set_vd_op set_vd_free vd_ops].
  edestruct three_desc as (-> & E1 & E2). cbn [vq_next vq_addr vq_len vq_flags]. rewrite Nat2Z.id, E1.
  cbn [vq_next vq_addr vq_len vq_flags]. rewrite Nat2Z.id, E2. cbn [vq_next vq_addr vq_len vq_flags].
  rewrite list_lookup_total_insert_eq by lia. by destruct write.
Qed.
End Chain.

Lemma quiet_hold s held : quiet s -> held = [] \/ held = [LVdisk] -> quiet (set_k_held held s).
Proof.
  intros (Hl & _ & _) [-> | ->]; split_and!; try done; simpl.
  - intros i. apply not_elem_of_nil.
  - apply not_elem_of_nil.
  - intros i. apply not_elem_of_cons. split; [done|apply not_elem_of_nil].
  - apply not_elem_of_cons. split; [done|apply not_elem_of_nil].
Qed.

Lemma wakeup_quiet c s : quiet s -> wakeup (Some c) s = Ok tt (wake c s).
Proof. intros (? & ? & ?). by apply wakeup_ok. Qed.

(** The interrupt is acknowledged. *)
Definition vacked (v : vdisk) : vdisk := wr_reg MMIO_INTERRUPT_ACK (Z.land (vd_isr v) 3) v.

(** The interrupt handler on one completion. *)
Lemma virtio_disk_intr_run v s i0 b :
  quiet s -> k_held s = [] ->
  0 <= vd_used_idx v < 2 ^ 16 -> vd_dev_idx v = u16 (vd_used_idx v + 1) ->
  vd_used_ring v !!! Z.to_nat (vd_used_idx v mod Z.of_nat NUM) = Z.of_nat i0 -> (i0 < NUM)%nat ->
  vd_info_status v !!! i0 = 0 -> vd_info_b v !!! i0 = Some b ->
  virtio_disk_intr (v, s) =
  Ok tt (incr_used (vacked v), wake (CBuf b) (set_k_bufs (alter (set_b_disk 0) b (k_bufs s)) s)).
Proof.
  intros Hq Hh Hidx Hdev Hring Hi Hst Hb. unfold virtio_disk_intr.
  erewrite bind_liftK by (apply acquire_ok; rewrite Hh; apply not_elem_of_nil). rewrite Hh.
  rewrite bind_vgets, bind_vmod. fold (vacked v).
  assert ((vd_used_idx v =? vd_dev_idx v) = false) as Hne.
  { rewrite Hdev. unfold u16. destruct (decide (vd_used_idx v = 2 ^ 16 - 1)) as [->|]; [done|].
    rewrite Z.mod_small by lia. apply Z.eqb_neq. lia. }
  erewrite bind_ok.
  2:{ apply (loop_unroll 2); [lia|]. cbn [unroll]. rewrite !bind_assoc, bind_vgets.
      cbv beta delta [id]. cbn [vd_used_idx vd_dev_idx vd_used_ring vd_info_status vd_info_b vacked wr_reg].
      rewrite Hne, Hring, Nat2Z.id. destruct (Nat.leb_spec NUM i0); [lia|].
      rewrite Hst. cbn [Z.eqb negb]. rewrite bind_assoc, Hb.
      erewrite bind_liftK by done. rewrite bind_assoc.
      erewrite bind_liftK by done. rewrite bind_assoc.
      erewrite bind_liftK by (apply wakeup_quiet, (quiet_hold s [LVdisk]); [done|by right]).
      rewrite bind_assoc, bind_vmod, bind_ret, bind_assoc, bind_vgets. cbv beta.
      cbn [vd_used_idx vd_dev_idx incr_used vacked wr_reg]. rewrite Hdev, Z.eqb_refl. rewrite !bind_ret. done. }
  apply liftK_run. erewrite release_top by (done || apply not_elem_of_nil).
  unfold wake. destruct s. simpl in *. by subst.
Qed.

Section Rw.
Context {E : Env} {DE : DiskEnv} {Dv : Device} {DvOk : DeviceOk Dv}.

(** The descriptors go back. *)
Lemma free_chain_run v s i0 i1 i2 d0 d1 d2 :
  quiet s -> vd_desc v !!! i0 = d0 -> vd_desc v !!! i1 = d1 -> vd_desc v !!! i2 = d2 ->
  has_next d0 = true -> vq_next d0 = Z.of_nat i1 -> has_next d1 = true -> vq_next d1 = Z.of_nat i2 ->
  has_next d2 = false -> (i0 < NUM)%nat -> (i1 < NUM)%nat -> (i2 < NUM)%nat ->
  i1 <> i0 -> i2 <> i0 -> i2 <> i1 ->
  z2b (vd_free v !!! i0) = false -> z2b (vd_free v !!! i1) = false -> z2b (vd_free v !!! i2) = false ->
  let back i v := set_vd_free i 1 (set_vd_desc i desc0 v) in
  free_chain i0 (v, s) =
  Ok tt (back i2 (back i1 (back i0 v)), wake CDiskFree (wake CDiskFree (wake CDiskFree s))).
Proof.
  intros Hq D0 D1 D2 N0 E0 N1 E1 N2 L0 L1 L2 H10 H20 H21 F0 F1 F2 back.
  assert (quiet (wake CDiskFree s)) as Hq1.
  { destruct Hq as (? & ? & ?). split_and!; try done. simpl. by rewrite length_imap. }
  assert (quiet (wake CDiskFree (wake CDiskFree s))) as Hq2.
  { destruct Hq1 as (? & ? & ?). split_and!; try done. simpl. by rewrite length_imap. }
  unfold has_next in *. unfold free_chain. apply (loop_unroll 3); [lia|]. cbn [unroll].
  rewrite bind_assoc, bind_vgets, bind_assoc. cbv zeta.
  erewrite bind_ok by (by apply free_desc_run). rewrite D0, N0, bind_ret, E0, Nat2Z.id.
  cbv beta iota. rewrite bind_assoc, bind_vgets, bind_assoc. cbv zeta.
  erewrite bind_ok.
  2:{ apply free_desc_run; [done|done|]. simpl. by rewrite list_lookup_total_insert_ne. }
  cbn [vd_desc set_vd_free set_vd_desc]. rewrite list_lookup_total_insert_ne, D1, N1, bind_ret, E1, Nat2Z.id by done.
  cbv beta iota. rewrite bind_assoc, bind_vgets, bind_assoc. cbv zeta.
  erewrite bind_ok.
  2:{ apply free_desc_run; [done|done|]. simpl. by rewrite !list_lookup_total_insert_ne. }
  cbn [vd_desc set_vd_free set_vd_desc]. by rewrite !list_lookup_total_insert_ne, D2, N2 by done.
Qed.
(** ** The request as a whole *)

Definition bits (f : list Z) : Prop := Forall (fun x => x = 0 \/ x = 1) f.

Lemma given_back (f : list Z) i0 i1 i2 :
  bits f -> z2b (f !!! i0) = true -> z2b (f !!! i1) = true -> z2b (f !!! i2) = true ->
  (i0 < length f)%nat -> (i1 < length f)%nat -> (i2 < length f)%nat ->
  <[i2 := 1]> (<[i1 := 1]> (<[i0 := 1]> (<[i2 := 0]> (<[i1 := 0]> (<[i0 := 0]> f))))) = f.
Proof.
  intros Hb F0 F1 F2 L0 L1 L2.
  assert (forall i, (i < length f)%nat -> z2b (f !!! i) = true -> f !! i = Some 1) as H1.
  { intros i Hi Hz. destruct (lookup_lt_is_Some_2 f i Hi) as [x Hx].
    rewrite (list_lookup_total_correct _ _ _ Hx) in Hz. unfold bits in Hb. rewrite Forall_lookup in Hb.
    destruct (Hb _ _ Hx) as [-> | ->]; [done|done]. }
  apply list_eq. intros j.
  destruct (decide (j = i2)) as [->|]; [rewrite list_lookup_insert_eq by (rewrite !length_insert; lia); by rewrite H1|].
  rewrite list_lookup_insert_ne by done.
  destruct (decide (j = i1)) as [->|]; [rewrite list_lookup_insert_eq by (rewrite !length_insert; lia); by rewrite H1|].
  rewrite list_lookup_insert_ne by done.
  destruct (decide (j = i0)) as [->|]; [rewrite list_lookup_insert_eq by (rewrite !length_insert; lia); by rewrite H1|].
  by rewrite !list_lookup_insert_ne.
Qed.

(** The state in which the process waits for the device. *)
Definition waiting (p b : nat) (s : kernel) : kernel :=
  asleep p (CBuf b) (set_k_bufs (alter (set_b_disk 1) b (k_bufs s)) s).
(** The block of buffer [b] moved between it and the disk. *)
Definition moved (b : nat) (write : bool) (s : kernel) : kernel :=
  let bno := b_blockno (k_bufs s !!! b) in
  if write then set_k_disk (<[bno := b_data (k_bufs s !!! b)]> (k_disk s)) s
  else set_k_bufs (alter (set_b_data (disk_block (k_disk s) bno)) b (k_bufs s)) s.

Lemma moved_transfer b write s : disk_transfer b write s = Ok tt (moved b write s).
Proof. unfold disk_transfer, moved, get_buf. rewrite bind_gets. by destruct write. Qed.

Section Request.
Context {v : vdisk} {s : kernel} {i0 i1 i2 p b : nat} {write : bool}.
Context (Hi : idle_disk v) (H3 : three_free v i0 i1 i2) (Hbits : bits (vd_free v)).
Context (Hc : k_cur s = Some p) (Hh : k_held s = []) (Hl : length (k_procs s) = NPROC) (Hp : (p < NPROC)%nat).
Context (Hb : (b < length (k_bufs s))%nat).
Context (Hbno : 0 <= b_blockno (k_bufs s !!! b) < 2 ^ 31).

Let sector := u32 (b_blockno (k_bufs s !!! b) * (BSIZE / 512)).
Let v1 := posted i0 i1 i2 b write sector v.
Let s1 := waiting p b s.

(** The device serves the request that the driver posted. *)
Lemma posted_served : serve (v1, s1) = (completed i0 i0 v1, moved b write s1).
Proof.
  assert (sector = b_blockno (k_bufs s !!! b) * 2) as Hs.
  { unfold sector. change (BSIZE / 512) with 2. apply u32_small. lia. }
  assert (k_bufs s1 !!! b = set_b_disk 1 (k_bufs s !!! b)) as Hbuf.
  { unfold s1, waiting, asleep. simpl. by rewrite list_lookup_total_alter_eq. }
  apply (device_serves _ _ i0 (mk_req (if write then VIRTIO_BLK_T_OUT else VIRTIO_BLK_T_IN) 0 sector)
           b (negb write) i0).
  - unfold v1. simpl. by rewrite (id_avail_idx _ Hi).
  - unfold v1. simpl. rewrite (id_avail_idx _ Hi). apply list_lookup_total_insert_eq.
    rewrite (id_avail _ Hi). pose proof (Z.mod_pos_bound (vd_dev_idx v) (Z.of_nat NUM)). unfold NUM in *. lia.
  - by apply decode_posted.
  - unfold perform, moved. cbn [rq_sector rq_type]. rewrite Hs, Z_mod_mult, Z.div_mul by lia.
    rewrite Hbuf. by destruct write.
Qed.

Lemma served_interrupt :
  virtio_disk_intr (completed i0 i0 v1, moved b write s1) =
  Ok tt (incr_used (vacked (completed i0 i0 v1)),
         wake (CBuf b) (set_k_bufs (alter (set_b_disk 0) b (k_bufs (moved b write s1))) (moved b write s1))).
Proof.
  destruct (three_free_facts _ _ _ _ H3) as (L0 & _).
  assert (k_held (moved b write s1) = [] /\ length (k_procs (moved b write s1)) = NPROC) as [Hh1 Hl1].
  { unfold moved. destruct write; simpl; by rewrite length_alter. }
  pose proof (Z.mod_pos_bound (vd_dev_idx v) (Z.of_nat NUM)) as Hm. unfold NUM in Hm.
  apply virtio_disk_intr_run with (i0 := i0); try done.
  - split_and!; [done| |]; rewrite Hh1; [intros i|]; apply not_elem_of_nil.
  - unfold v1. simpl. rewrite (id_used_idx _ Hi). apply Hi.
  - unfold v1. simpl. by rewrite (id_used_idx _ Hi).
  - unfold v1. simpl. rewrite (id_used_idx _ Hi). apply list_lookup_total_insert_eq.
    rewrite (id_used _ Hi). unfold NUM. lia.
  - unfold v1. simpl. apply list_lookup_total_insert_eq. rewrite length_insert, (id_status _ Hi). lia.
  - unfold v1. simpl. apply list_lookup_total_insert_eq. rewrite (id_info _ Hi). lia.
Qed.
Let v2 := incr_used (vacked (completed i0 i0 v1)).
Let s2 := wake (CBuf b) (set_k_bufs (alter (set_b_disk 0) b (k_bufs (moved b write s1))) (moved b write s1)).

Lemma woken_up : p_state (k_procs s2 !!! p) = RUNNABLE /\ (p < length (k_procs s2))%nat.
Proof.
  assert (k_procs (moved b write s1) = k_procs s1 /\ k_cur (moved b write s1) = None) as [Ep Ec]
    by (unfold moved; destruct write; done).
  unfold s2, wake. simpl. rewrite length_imap, Ep, Ec. unfold s1, waiting, asleep. simpl.
  rewrite length_alter. split; [|lia]. rewrite list_lookup_total_alt, list_lookup_imap.
  rewrite list_lookup_alter_eq. destruct (lookup_lt_is_Some_2 (k_procs s) p) as [q Hq]; [lia|].
  rewrite Hq. simpl. unfold woken. by rewrite bool_decide_eq_false_2, !bool_decide_eq_true_2.
Qed.

(** While the process sleeps the device serves the request and the handler
    runs. *)
Context (Henv : env (k_clock s) s1 = Some s2) (Hdenv : disk_env (k_clock s) v1 = v2).

Lemma request_posted (k : nat -> V unit) :
  bind (liftK (acquire LVdisk)) (fun _ =>
    let* (i0, i1, i2) := loop (fun _ : unit =>
      r <- alloc3_desc ;;
      match r with
      | Some idx => ret (inr idx)
      | None => vsleep CDiskFree LVdisk ;; ret (inl tt)
      end) tt in
    format_request i0 i1 i2 b write sector ;; submit_request i0 b ;; k i0) (v, s) =
  k i0 (v1, set_k_bufs (alter (set_b_disk 1) b (k_bufs s)) (set_k_held [LVdisk] s)).
Proof.
  erewrite bind_liftK by (apply acquire_ok; rewrite Hh; apply not_elem_of_nil). rewrite Hh.
  erewrite bind_ok.
  2:{ apply loop_first. erewrite bind_ok by (by apply alloc3_desc_run). done. }
  unfold format_request, submit_request. rewrite !bind_assoc. done.
Qed.

Lemma request_waited (k : unit -> V unit) :
  bind (loop (fun _ : unit =>
    x <- liftK (get_buf b) ;;
    if negb (b_disk x =? 1) then ret (inr tt) else
    vsleep (CBuf b) LVdisk ;;
    ret (inl tt)) tt) k
    (v1, set_k_bufs (alter (set_b_disk 1) b (k_bufs s)) (set_k_held [LVdisk] s)) =
  k tt (v2, awake p (k_clock s) LVdisk s2).
Proof.
  erewrite bind_ok; [done|]. apply (loop_unroll 2); [lia|]. cbn [unroll].
  rewrite bind_assoc. erewrite bind_liftK by reflexivity. cbn [k_bufs set_k_bufs].
  rewrite list_lookup_total_alter_eq by done. cbn [b_disk set_b_disk].
  change (negb (1 =? 1)) with false. cbv iota. unfold vsleep. rewrite !bind_assoc, bind_gets, !bind_assoc. cbv beta. cbn [snd].
  erewrite bind_liftK.
  2:{ rewrite (sleep_run p) by (try done; simpl; lia).
      change (asleep p (CBuf b) _) with s1. cbn [k_clock set_k_bufs set_k_held].
      rewrite Henv, decide_True by apply woken_up. reflexivity. }
  rewrite bind_vmod. cbn [k_clock set_k_bufs set_k_held]. rewrite Hdenv, bind_ret.
  rewrite bind_assoc. erewrite bind_liftK by reflexivity. cbv beta.
  change (k_bufs (awake p (k_clock s) LVdisk s2)) with
    (alter (set_b_disk 0) b (k_bufs (moved b write s1))).
  rewrite list_lookup_total_alter_eq; [done|].
  unfold moved. destruct write; simpl; rewrite !length_alter; done.
Qed.

Lemma request_finished :
  (vmod (set_vd_info_b i0 None) ;; free_chain i0 ;; liftK (release LVdisk))
    (v2, awake p (k_clock s) LVdisk s2) =
  Ok tt (set_vd_free i2 1 (set_vd_desc i2 desc0 (set_vd_free i1 1 (set_vd_desc i1 desc0
           (set_vd_free i0 1 (set_vd_desc i0 desc0 (set_vd_info_b i0 None v2)))))),
         set_k_held [] (wake CDiskFree (wake CDiskFree (wake CDiskFree (awake p (k_clock s) LVdisk s2))))).
Proof.
  destruct (three_free_facts _ _ _ _ H3) as (L0 & L1 & L2 & N1 & N2 & N3 & _).
  destruct (three_taken H3) as (F0 & F1 & F2). edestruct (three_desc Hi H3) as (D0 & D1 & D2).
  rewrite bind_vmod. erewrite bind_ok.
  2:{ eapply free_chain_run with (i1 := i1) (i2 := i2); [|exact D0|exact D1|exact D2|..]; try done.
      - split_and!; simpl.
        + pose proof woken_up as [_ Hlen]. rewrite length_alter. unfold s2, wake. simpl.
          rewrite length_imap. unfold moved. destruct write; simpl; by rewrite length_alter.
        + intros i. apply not_elem_of_cons. split; [done|apply not_elem_of_nil].
        + apply not_elem_of_cons. split; [done|apply not_elem_of_nil].
      - simpl. by destruct write.
      - exact (f_equal z2b F0).
      - exact (f_equal z2b F1).
      - exact (f_equal z2b F2). }
  apply liftK_run. erewrite release_top by (done || apply not_elem_of_nil). done.
Qed.
Lemma virtio_rw_run :
  virtio_rw b write (v, s) =
  Ok tt (set_vd_free i2 1 (set_vd_desc i2 desc0 (set_vd_free i1 1 (set_vd_desc i1 desc0
           (set_vd_free i0 1 (set_vd_desc i0 desc0 (set_vd_info_b i0 None v2)))))),
         set_k_held [] (wake CDiskFree (wake CDiskFree (wake CDiskFree (awake p (k_clock s) LVdisk s2))))).
Proof.
  unfold virtio_rw. erewrite bind_liftK by reflexivity. cbv zeta.
  etrans; [apply (request_posted (fun i => loop _ _ ;; vmod (set_vd_info_b i None) ;; free_chain i ;; liftK (release LVdisk)))|]. cbv beta.
  etrans; [apply (request_waited (fun _ => vmod (set_vd_info_b i0 None) ;; free_chain i0 ;; liftK (release LVdisk)))|]. apply request_finished.
Qed.
End Request.

(** C14: the driver moves a block.  From a driver with no request on its way and
    three free descriptors, [virtio_disk_rw] posts a chain that a virtio block
    device reads as the transfer of the whole buffer to or from its block;
    when the device serves it and interrupts while the process sleeps, the
    handler wakes the process and [virtio_disk_rw] returns with the disk and
    the buffers of [disk_transfer], every descriptor free again, no lock held
    and no request on its way. *)
Theorem virtio_rw_moves_block v s i0 i1 i2 p b write v2 s2 :
  idle_disk v -> three_free v i0 i1 i2 -> bits (vd_free v) ->
  k_cur s = Some p -> k_held s = [] -> length (k_procs s) = NPROC -> (p < NPROC)%nat ->
  (b < length (k_bufs s))%nat -> 0 <= b_blockno (k_bufs s !!! b) < 2 ^ 31 ->
  let v1 := posted i0 i1 i2 b write (2 * b_blockno (k_bufs s !!! b)) v in
  virtio_disk_intr (serve (v1, waiting p b s)) = Ok tt (v2, s2) ->
  env (k_clock s) (waiting p b s) = Some s2 -> disk_env (k_clock s) v1 = v2 ->
  wp (virtio_rw b write) (fun _ '(v', s') =>
    (exists s1, disk_transfer b write s = Ok tt s1 /\ k_disk s' = k_disk s1 /\
       k_bufs s' = alter (set_b_disk 0) b (k_bufs s1)) /\
    k_cur s' = Some p /\ k_held s' = [] /\ idle_disk v' /\ vd_free v' = vd_free v) (v, s).
Proof.
  intros Hi H3 Hbits Hc Hh Hl Hp Hb Hbno v1 Hintr Henv Hdenv.
  assert (2 * b_blockno (k_bufs s !!! b) = u32 (b_blockno (k_bufs s !!! b) * (BSIZE / 512))) as Hs.
  { change (BSIZE / 512) with 2. rewrite u32_small; lia. }
  unfold v1 in *. rewrite Hs in *.
  rewrite posted_served, served_interrupt in Hintr by done.
  injection Hintr as <- <-.
  eapply wp_eq; [by eapply virtio_rw_run|].
  destruct (three_free_facts _ _ _ _ H3) as (L0 & L1 & L2 & _ & _ & _ & F0 & F1 & F2).
  pose proof (tf_len _ _ _ _ H3) as Lf. split_and!.
  - exists (moved b write s). split; [apply moved_transfer|]. unfold moved, waiting, asleep. simpl.
    rewrite list_lookup_total_alter_eq by done.
    destruct write; simpl; rewrite ?list_alter_alter_eq; split; try done;
      rewrite !alter_twice; try done.
  - unfold moved. by destruct write.
  - done.
  - destruct Hi. constructor; simpl; rewrite ?length_insert; try done; try congruence.
    unfold u16. apply Z.mod_pos_bound. lia.
  - simpl. apply given_back; try done; lia.
Qed.
End Rw.

Module VirtioDemo.
(** A device that serves the next chain of the available ring. *)
#[local] Instance device : Device := fun '(v, s) =>
  let i0 := Z.to_nat (vd_avail_ring v !!! Z.to_nat (vd_dev_idx v mod Z.of_nat NUM)) in
  match decode v i0 with
  | Some (rq, b, writable, k) =>
      match perform rq b writable s with Some s' => (completed i0 k v, s') | None => (v, s) end
  | None => (v, s)
  end.
#[local] Instance device_ok : DeviceOk device.
Proof.
  intros v s i0 rq b w k s' _ Hr Hd Hp. unfold serve, device. by rewrite Hr, Nat2Z.id, Hd, Hp.
Qed.

Definition v0 : vdisk :=
  mk_vdisk (replicate NUM desc0) 0 (replicate NUM 0) 0 (replicate NUM 0) (replicate NUM 1) 0
    (replicate NUM None) (replicate NUM 0) (replicate NUM req0) 0 [].
Definition s0 : kernel :=
  set_k_cur (Some O) (set_k_bufs (<[3%nat := set_b_blockno 50 (set_b_data [7; 7] buf0)]>
    (replicate (S NBUF) buf0)) kernel0).
Definition v1 : vdisk := posted 0 1 2 3 true 100 v0.
Definition w2 : vdisk * kernel :=
  match virtio_disk_intr (serve (v1, waiting 0 3 s0)) with Ok _ w => w | _ => (v0, s0) end.
#[local] Instance woken_env : Env := fun _ _ => Some (snd w2).
#[local] Instance woken_disk : DiskEnv := fun _ _ => fst w2.

Lemma served0 : virtio_disk_intr (serve (v1, waiting 0 3 s0)) = Ok tt (fst w2, snd w2).
Proof. vm_compute. reflexivity. Qed.

Lemma virtio_rw_moves_block_witness :
  wp (virtio_rw 3 true) (fun _ '(v', s') => k_disk s' !! 50 = Some [7; 7] /\ vd_free v' = replicate NUM 1) (v0, s0).
Proof.
  eapply wp_mono.
  - apply (virtio_rw_moves_block v0 s0 0 1 2 0 3 true (fst w2) (snd w2));
      [|constructor; reflexivity|repeat constructor; right; reflexivity|reflexivity|reflexivity
       |reflexivity|unfold NPROC; lia|vm_compute; lia| |exact served0|reflexivity|reflexivity].
    + constructor; try reflexivity. split; [vm_compute; discriminate|vm_compute; reflexivity].
    + split; [vm_compute; discriminate|vm_compute; reflexivity].
  - intros [] [v' s'] ((s1 & Ht & Hd & _) & _ & _ & _ & Hf). split; [|exact Hf].
    rewrite Hd. rewrite moved_transfer in Ht. injection Ht as <-. vm_compute. reflexivity.
Defined.
End VirtioDemo.
