(* ===== verification/PipeProofs.v ===== *)
(** * Pipes are queues

    The ring of [struct pipe], with its free-running 32-bit counters, holds a
    queue of at most [PIPESIZE] bytes: [pipewrite] appends the bytes of the
    writer's memory and [piperead] takes bytes off the front into the
    reader's. *)

From S2P Require Import Prelude Bytes Params CString Spinlock State Kalloc Vm PageTable UserCopy VmTheorems Sched SchedProofs Console Bio BioProofs Log Fs File.

Definition pipe_len (x : pipe) : Z := u32 (pi_nwrite x - pi_nread x).
Definition ring_at (x : pipe) (k : Z) : Z := pi_data x !!! Z.to_nat ((pi_nread x + k) mod PIPESIZE).
Definition pipe_queue (x : pipe) : list Z :=
  (fun k => ring_at x (Z.of_nat k)) <$> seq 0 (Z.to_nat (pipe_len x)).

Record pipe_ok (x : pipe) : Prop := {
  po_data : length (pi_data x) = Z.to_nat PIPESIZE;
  po_nread : 0 <= pi_nread x < 2 ^ 32;
  po_nwrite : 0 <= pi_nwrite x < 2 ^ 32;
  po_len : pipe_len x <= PIPESIZE;
}.

Lemma length_queue x : Z.of_nat (length (pipe_queue x)) = pipe_len x.
Proof.
  unfold pipe_queue. rewrite length_fmap, length_seq. unfold pipe_len.
  pose proof (u32_range (pi_nwrite x - pi_nread x)). lia.
Qed.

(** [PIPESIZE] divides 2^32, so the position in the ring does not notice that
    the counters wrap. *)
Lemma mod_u32 z : u32 z mod PIPESIZE = z mod PIPESIZE.
Proof.
  unfold u32, PIPESIZE. rewrite (Z.mod_mod_divide z); [done|]. exists (2 ^ 23). reflexivity.
Qed.

Lemma u32_sub_l a b : u32 (u32 a - b) = u32 (a - b).
Proof. unfold u32. apply Zminus_mod_idemp_l. Qed.
Lemma u32_sub_r a b : u32 (a - u32 b) = u32 (a - b).
Proof. unfold u32. apply Zminus_mod_idemp_r. Qed.

(** The code's two tests. *)
Lemma pipe_empty x : pipe_ok x -> (pi_nread x =? pi_nwrite x) = (pipe_len x =? 0).
Proof.
  intros [_ Hr Hw _]. unfold pipe_len, u32.
  destruct (Z.eqb_spec (pi_nread x) (pi_nwrite x)) as [->|Hne]; [by rewrite Z.sub_diag|].
  symmetry. apply Z.eqb_neq. intros H0. apply Hne.
  apply Z.mod_divide in H0 as [k Hk]; [|lia]. assert (k = 0) as -> by lia. lia.
Qed.

Lemma pipe_full x : pipe_ok x -> (pi_nwrite x =? u32 (pi_nread x + PIPESIZE)) = (pipe_len x =? PIPESIZE).
Proof.
  intros [_ Hr Hw _]. unfold pipe_len.
  destruct (Z.eqb_spec (pi_nwrite x) (u32 (pi_nread x + PIPESIZE))) as [->|Hne].
  - rewrite u32_sub_l. replace (pi_nread x + PIPESIZE - pi_nread x) with PIPESIZE by lia. done.
  - symmetry. apply Z.eqb_neq. intros Hf. apply Hne. rewrite <- Hf.
    replace (u32 (pi_nread x + _)) with (u32 (u32 (pi_nwrite x - pi_nread x) + pi_nread x)) by (f_equal; lia).
    unfold u32. rewrite Zplus_mod_idemp_l. replace (_ - _ + _) with (pi_nwrite x) by lia.
    by rewrite Z.mod_small.
Qed.

Definition pushed (c : Z) (x : pipe) : pipe :=
  set_pi_nwrite (u32 (pi_nwrite x + 1))
    (set_pi_data (<[Z.to_nat (pi_nwrite x mod PIPESIZE) := c]> (pi_data x)) x).
Definition popped (x : pipe) : pipe := set_pi_nread (u32 (pi_nread x + 1)) x.

Lemma pushed_len c x : pipe_ok x -> pipe_len x < PIPESIZE -> pipe_len (pushed c x) = pipe_len x + 1.
Proof.
  intros Hok Hlt. unfold pipe_len in *. simpl. rewrite u32_sub_l.
  replace (pi_nwrite x + 1 - pi_nread x) with (pi_nwrite x - pi_nread x + 1) by lia.
  unfold u32 in *. rewrite Zplus_mod. rewrite (Z.mod_small 1) by lia.
  pose proof (Z.mod_pos_bound (pi_nwrite x - pi_nread x) (2 ^ 32)). unfold PIPESIZE in *.
  apply Z.mod_small. lia.
Qed.

Lemma pushed_ok c x : pipe_ok x -> pipe_len x < PIPESIZE -> pipe_ok (pushed c x).
Proof.
  intros Hok Hlt. pose proof (pushed_len c x Hok Hlt). destruct Hok. constructor; simpl.
  - by rewrite length_insert.
  - done.
  - apply u32_range.
  - lia.
Qed.

Lemma ring_slot x k : pipe_ok x -> 0 <= k < pipe_len x -> pipe_len x < PIPESIZE ->
  (pi_nread x + k) mod PIPESIZE <> pi_nwrite x mod PIPESIZE.
Proof.
  intros [_ Hr Hw _] Hk Hlt E. unfold pipe_len, u32, PIPESIZE in *.
  assert (pi_nwrite x - pi_nread x = (pi_nwrite x - pi_nread x) mod 2 ^ 32 \/
          pi_nwrite x - pi_nread x = (pi_nwrite x - pi_nread x) mod 2 ^ 32 - 2 ^ 32) as Hd.
  { pose proof (Z.div_mod (pi_nwrite x - pi_nread x) (2 ^ 32)).
    pose proof (Z.mod_pos_bound (pi_nwrite x - pi_nread x) (2 ^ 32)). lia. }
  set (l := (pi_nwrite x - pi_nread x) mod 2 ^ 32) in *.
  pose proof (Z.div_mod (pi_nread x + k) 512). pose proof (Z.div_mod (pi_nwrite x) 512). lia.
Qed.

Lemma pushed_queue c x : pipe_ok x -> pipe_len x < PIPESIZE ->
  pipe_queue (pushed c x) = pipe_queue x ++ [c].
Proof.
  intros Hok Hlt. pose proof (pushed_len c x Hok Hlt) as Hl. pose proof Hok as [Hd Hr Hw _].
  assert (0 <= pipe_len x) as H0 by apply u32_range.
  unfold pipe_queue. rewrite Hl. replace (Z.to_nat (pipe_len x + 1)) with (S (Z.to_nat (pipe_len x))) by lia.
  rewrite seq_S, fmap_app. f_equal.
  - apply list_fmap_ext. intros i k Hk%lookup_seq. unfold ring_at. simpl.
    rewrite list_lookup_total_insert_ne; [done|]. intros E.
    apply (ring_slot x (Z.of_nat k) Hok); [lia|done|].
    pose proof (Z.mod_pos_bound (pi_nread x + Z.of_nat k) PIPESIZE).
    pose proof (Z.mod_pos_bound (pi_nwrite x) PIPESIZE). unfold PIPESIZE in *. lia.
  - simpl. f_equal. unfold ring_at. simpl. rewrite Z2Nat.id by done.
    replace ((pi_nread x + pipe_len x) mod PIPESIZE) with (pi_nwrite x mod PIPESIZE).
    + apply list_lookup_total_insert_eq. rewrite Hd.
      pose proof (Z.mod_pos_bound (pi_nwrite x) PIPESIZE). unfold PIPESIZE in *. lia.
    + unfold pipe_len. rewrite Zplus_mod, mod_u32, <- Zplus_mod. f_equal. lia.
Qed.

Lemma popped_len x : pipe_ok x -> 0 < pipe_len x -> pipe_len (popped x) = pipe_len x - 1.
Proof.
  intros Hok Hlt. unfold pipe_len in *. simpl. rewrite u32_sub_r.
  replace (pi_nwrite x - (pi_nread x + 1)) with (pi_nwrite x - pi_nread x - 1) by lia.
  unfold u32 in *. rewrite Zminus_mod. rewrite (Z.mod_small 1) by lia.
  pose proof (Z.mod_pos_bound (pi_nwrite x - pi_nread x) (2 ^ 32)). apply Z.mod_small. lia.
Qed.

Lemma popped_ok x : pipe_ok x -> 0 < pipe_len x -> pipe_ok (popped x).
Proof.
  intros Hok Hlt. pose proof (popped_len x Hok Hlt). destruct Hok.
  constructor; simpl; [done|apply u32_range|done|lia].
Qed.

Lemma popped_queue x : pipe_ok x -> 0 < pipe_len x -> pipe_queue x = ring_at x 0 :: pipe_queue (popped x).
Proof.
  intros Hok Hlt. pose proof (popped_len x Hok Hlt) as Hl. unfold pipe_queue. rewrite Hl.
  replace (Z.to_nat (pipe_len x)) with (S (Z.to_nat (pipe_len x - 1))) by lia.
  cbn [seq fmap list_fmap]. f_equal. rewrite <- (fmap_S_seq 0), <- list_fmap_compose.
  apply list_fmap_ext. intros i k _. unfold ring_at. simpl. do 2 f_equal.
  rewrite Zplus_mod, (Zplus_mod (u32 _)), mod_u32, <- !Zplus_mod. f_equal. lia.
Qed.

(** ** The two sides of a pipe *)

Section Pipe.
Context `{Lk : Linker} {LkOk : LinkerOk Lk} {E : Env}.

Lemma not_single (l l' : lock) : l <> l' -> l ∉ [l'].
Proof. intros. apply not_elem_of_cons. split; [done|apply not_elem_of_nil]. Qed.

Lemma uread_1 AS m va : uread AS m va 1 = match uaddr AS va with Some a => ([ldb m a], true) | None => ([], false) end.
Proof. simpl. by destruct (uaddr AS va). Qed.

(** The pipe at [pi], and the state with pipe [x] there. *)
Definition pipe_at (pi : Z) (s : kernel) : pipe := default pipe0 (k_pipes s !! pi).
Definition with_pipe (pi : Z) (x : pipe) (s : kernel) : kernel := set_k_pipes (<[pi := x]> (k_pipes s)) s.

Lemma pipe_at_with pi x s : pipe_at pi (with_pipe pi x s) = x.
Proof. unfold pipe_at. simpl. by rewrite lookup_insert_eq. Qed.

(** Process [pr], with page table [root] and user memory [AS], and the pipe. *)
Record pipe_side (pi : Z) (pr : nat) (root : Z) (AS : aspace) (s : kernel) : Prop := {
  ps_pipe : is_Some (k_pipes s !! pi);
  ps_ok : pipe_ok (pipe_at pi s);
  ps_procs : length (k_procs s) = NPROC;
  ps_root : p_pagetable (k_procs s !!! pr) = root;
  ps_uvm : exists G fr, uvm (set_k_held [] s) root G AS fr;
}.

(** The user memory holds the same bytes. *)
Definition same_user (AS : aspace) (m m' : gmap Z Z) : Prop :=
  forall va a, uaddr AS va = Some a -> ldb m' a = ldb m a.

Lemma same_uread AS m m' va n : same_user AS m m' -> uread AS m' va n = uread AS m va n.
Proof.
  intros H. revert va. induction n as [|n IH]; intros va; [done|]. simpl.
  destruct (uaddr AS va) as [a|] eqn:Ea; [|done]. by rewrite IH, (H va a Ea).
Qed.

(** Process [pr] sleeps on [c], and no other process does. *)
Definition waits_on (pr : nat) (c : chan) (s : kernel) : Prop :=
  k_cur s = None /\ k_held s = [] /\
  p_state (k_procs s !!! pr) = SLEEPING /\ p_chan (k_procs s !!! pr) = Some c.
Definition nobody_waits (c : chan) (pr : nat) (s : kernel) : Prop :=
  forall i, (i < NPROC)%nat -> i <> pr ->
    ~ (p_state (k_procs s !!! i) = SLEEPING /\ p_chan (k_procs s !!! i) = Some c).

(** *** What the other side does

    While [pr] sleeps because the pipe is full and no reader sleeps, at context
    switch [n] the other side takes [took n] bytes from the front and wakes
    [pr]; it takes some, or closes its end, or someone kills [pr].  The
    user memory of [pr] stays as it is. *)
Definition drains (pi : Z) (pr : nat) (root : Z) (AS : aspace) (took : nat -> nat) : Prop :=
  forall s, pipe_side pi pr root AS s -> waits_on pr (CPipeW pi) s -> nobody_waits (CPipeR pi) pr s ->
    pipe_len (pipe_at pi s) = PIPESIZE ->
    exists s', env (k_clock s) s = Some s' /\ p_state (k_procs s' !!! pr) = RUNNABLE /\
      pipe_side pi pr root AS s' /\ same_user AS (k_mem s) (k_mem s') /\
      (took (k_clock s) <= length (pipe_queue (pipe_at pi s)))%nat /\
      pipe_queue (pipe_at pi s') = drop (took (k_clock s)) (pipe_queue (pipe_at pi s)) /\
      (took (k_clock s) <> O \/ pi_readopen (pipe_at pi s') = 0 \/ p_killed (k_procs s' !!! pr) <> 0).

(** While [pr] sleeps because the pipe is empty, the other side writes [came n], or
    closes its end, or someone kills [pr]. *)
Definition fills (pi : Z) (pr : nat) (root : Z) (AS : aspace) (came : nat -> list Z) : Prop :=
  forall s, pipe_side pi pr root AS s -> waits_on pr (CPipeR pi) s -> pipe_len (pipe_at pi s) = 0 ->
    exists s', env (k_clock s) s = Some s' /\ p_state (k_procs s' !!! pr) = RUNNABLE /\
      pipe_side pi pr root AS s' /\ same_user AS (k_mem s) (k_mem s') /\
      pipe_queue (pipe_at pi s') = came (k_clock s) /\
      (came (k_clock s) <> [] \/ pi_writeopen (pipe_at pi s') = 0 \/ p_killed (k_procs s' !!! pr) <> 0).

(** The bytes taken at the context switches from [a] to [b]. *)
Definition total (took : nat -> nat) (a b : nat) : nat := sum_list_with took (seq a (b - a)).

Lemma total_none took a : total took a a = O.
Proof. unfold total. by rewrite Nat.sub_diag. Qed.

Lemma total_next took a b : (a <= b)%nat -> total took a (S b) = (total took a b + took b)%nat.
Proof.
  intros Hab. unfold total. rewrite Nat.sub_succ_l, seq_S, sum_list_with_app by done. simpl.
  replace (a + (b - a))%nat with b by lia. lia.
Qed.

(** *** Frames *)

Lemma side_frame pi pr root AS s s' :
  pipe_side pi pr root AS s -> k_pipes s' = k_pipes s -> k_mem s' = k_mem s -> k_freelist s' = k_freelist s ->
  length (k_procs s') = length (k_procs s) ->
  p_pagetable (k_procs s' !!! pr) = p_pagetable (k_procs s !!! pr) -> pipe_side pi pr root AS s'.
Proof.
  intros [Hp Hok Hl Hr (G & fr & Hu)] Ep Em Ef El Er.
  constructor; unfold pipe_at in *; rewrite ?Ep, ?El, ?Er; try done.
  exists G, fr. eapply uvm_frame; [exact Hu|done|done|apply not_elem_of_nil].
Qed.

Lemma side_pipe pi pr root AS s x :
  pipe_side pi pr root AS s -> pipe_ok x -> pipe_side pi pr root AS (with_pipe pi x s).
Proof.
  intros [Hp Hok Hl Hr (G & fr & Hu)] Hx. constructor; rewrite ?pipe_at_with; try done.
  - exists x. apply lookup_insert_eq.
  - exists G, fr. eapply uvm_frame; [exact Hu|done|done|apply not_elem_of_nil].
Qed.

Lemma side_uvm pi pr root AS s : pipe_side pi pr root AS s -> LKmem ∉ k_held s ->
  exists G fr, uvm s root G AS fr.
Proof.
  intros [_ _ _ _ (G & fr & Hu)] Hh. exists G, fr. by eapply uvm_frame; [exact Hu|..].
Qed.

Lemma woken_pagetable c t me i q : p_pagetable (woken c t me i q) = p_pagetable q.
Proof. unfold woken. destruct (bool_decide _); [done|]. by destruct (_ && _). Qed.
Lemma woken_killed c t me i q : p_killed (woken c t me i q) = p_killed q.
Proof. unfold woken. destruct (bool_decide _); [done|]. by destruct (_ && _). Qed.

Lemma lookup_total_imap {A} `{Inhabited A} (f : nat -> A -> A) (l : list A) i :
  (i < length l)%nat -> imap f l !!! i = f i (l !!! i).
Proof.
  intros Hi. destruct (lookup_lt_is_Some_2 l i Hi) as [x Hx].
  rewrite (list_lookup_total_correct l i x Hx). apply list_lookup_total_correct.
  by rewrite list_lookup_imap, Hx.
Qed.

(** Everyone who waits on [c] is woken. *)
Definition roused (c : chan) (s : kernel) : kernel :=
  set_k_procs (imap (woken (Some c) (k_ticks s) (k_cur s)) (k_procs s)) s.

Lemma roused_side pi pr root AS c s :
  (pr < NPROC)%nat -> pipe_side pi pr root AS s -> pipe_side pi pr root AS (roused c s).
Proof.
  intros Hpr H. eapply side_frame; [exact H|done|done|done|simpl; apply length_imap|]. simpl.
  rewrite lookup_total_imap by (rewrite (ps_procs _ _ _ _ _ H); lia). apply woken_pagetable.
Qed.

Lemma roused_nobody c pr s : k_cur s = Some pr -> length (k_procs s) = NPROC -> nobody_waits c pr (roused c s).
Proof.
  intros Hc Hl i Hi Hne. simpl. rewrite lookup_total_imap by lia. unfold woken.
  rewrite Hc, bool_decide_eq_false_2 by congruence. intros [H1 H2].
  destruct (bool_decide _ && bool_decide _) eqn:Eb; simpl in *; [done|].
  by rewrite H1, H2, !bool_decide_eq_true_2 in Eb.
Qed.

Lemma rouse_run pi c s : length (k_procs s) = NPROC -> k_held s = [LPipe pi] -> wakeup (Some c) s = Ok tt (roused c s).
Proof.
  intros Hl Hh. apply wakeup_ok; [done| |]; rewrite Hh; [intros i|]; by apply not_single.
Qed.

Lemma rouse_release pi c s :
  length (k_procs s) = NPROC -> k_held s = [LPipe pi] ->
  (wakeup (Some c) ;; release (LPipe pi)) s = Ok tt (set_k_held [] (roused c s)).
Proof.
  intros Hl Hh. erewrite bind_ok by (by apply (rouse_run pi)). apply release_top; [done|apply not_elem_of_nil].
Qed.

(** [pr] sleeps on [c] under the lock of the pipe, and comes back. *)
Lemma asleep_side pi pr root AS c s :
  (pr < NPROC)%nat -> pipe_side pi pr root AS s ->
  pipe_side pi pr root AS (asleep pr c s) /\ waits_on pr c (asleep pr c s).
Proof.
  intros Hpr H. pose proof (ps_procs _ _ _ _ _ H) as Hl. split.
  - eapply side_frame; [exact H|done|done|done|simpl; apply length_alter|]. simpl.
    by rewrite list_lookup_total_alter_eq by lia.
  - unfold waits_on. simpl. by rewrite list_lookup_total_alter_eq by lia.
Qed.

Lemma awake_side pi pr root AS n lk s :
  (pr < NPROC)%nat -> pipe_side pi pr root AS s ->
  pipe_side pi pr root AS (awake pr n lk s) /\
  p_killed (k_procs (awake pr n lk s) !!! pr) = p_killed (k_procs s !!! pr).
Proof.
  intros Hpr H. pose proof (ps_procs _ _ _ _ _ H) as Hl. split.
  - eapply side_frame; [exact H|done|done|done|simpl; apply length_alter|]. simpl.
    by rewrite list_lookup_total_alter_eq by lia.
  - simpl. by rewrite list_lookup_total_alter_eq by lia.
Qed.

Lemma sleep_awake pi pr c s s2 :
  (pr < NPROC)%nat -> length (k_procs s) = NPROC -> k_cur s = Some pr -> k_held s = [LPipe pi] ->
  env (k_clock s) (asleep pr c s) = Some s2 -> p_state (k_procs s2 !!! pr) = RUNNABLE ->
  sleep c (LPipe pi) s = Ok tt (awake pr (k_clock s) (LPipe pi) s2).
Proof.
  intros Hpr Hl Hc Hh He Hst. rewrite (sleep_run pr) by (done || lia). by rewrite He, decide_True.
Qed.

Lemma bind_curproc_run {B} p (k : nat -> K B) s : k_cur s = Some p -> bind curproc k s = k p s.
Proof. intros Hc. unfold curproc, myproc. by rewrite bind_assoc, bind_gets, Hc. Qed.

(** ** Writing *)

(** At the head of the loop of [pipewrite], [i] bytes written and [k] a bound on
    the iterations left. *)
Record writing (pi : Z) (pr : nat) (root : Z) (AS : aspace) (took : nat -> nat) (addr n : Z) (s : kernel)
    (i : Z) (s1 : kernel) : Prop := {
  wr_i : 0 <= i <= n;
  wr_side : pipe_side pi pr root AS s1;
  wr_cur : k_cur s1 = Some pr;
  wr_held : k_held s1 = [LPipe pi];
  wr_user : same_user AS (k_mem s) (k_mem s1);
  wr_clock : (k_clock s <= k_clock s1)%nat;
  wr_bytes : exists sofar, Z.of_nat (length sofar) = i /\
    fst (uread AS (k_mem s) addr (Z.to_nat n)) = sofar ++ fst (uread AS (k_mem s) (addr + i) (Z.to_nat (n - i))) /\
    (total took (k_clock s) (k_clock s1) <= length (pipe_queue (pipe_at pi s) ++ sofar))%nat /\
    pipe_queue (pipe_at pi s1) =
      drop (total took (k_clock s) (k_clock s1)) (pipe_queue (pipe_at pi s) ++ sofar);
}.

(** The pipe is full and the writer has to wait. *)
Definition stuck (pi : Z) (pr : nat) (s : kernel) : bool :=
  (pipe_len (pipe_at pi s) =? PIPESIZE) && negb (pi_readopen (pipe_at pi s) =? 0) &&
  (p_killed (k_procs s !!! pr) =? 0).

Section Write.
Context (pi : Z) (pr : nat) (root : Z) (AS : aspace) (took : nat -> nat) (addr n : Z) (s : kernel).
Context (Hpr : (pr < NPROC)%nat) (Haddr : 0 <= addr) (Hn : 0 <= n < 2 ^ 31) (Han : addr + n <= 2 ^ 64).
Context (Hdrain : drains pi pr root AS took).

(** It wakes the readers, sleeps, and finds room or a reason to stop. *)
Lemma write_waits i s1 :
  writing pi pr root AS took addr n s i s1 -> stuck pi pr s1 = true ->
  wp (wakeup (Some (CPipeR pi)) ;; sleep (CPipeW pi) (LPipe pi))
    (fun _ s2 => writing pi pr root AS took addr n s i s2 /\ stuck pi pr s2 = false) s1.
Proof.
  intros [Hi Hs Hc Hh Hu Hk (sofar & Hlen & Hby & Hle & Hq)] Hst.
  apply andb_true_iff in Hst as [[Hfull%Z.eqb_eq _]%andb_true_iff _].
  pose proof (ps_procs _ _ _ _ _ Hs) as Hl.
  unfold wp. erewrite bind_ok by (by apply (rouse_run pi)).
  assert (pipe_side pi pr root AS (roused (CPipeR pi) s1)) as Hs2 by by apply roused_side.
  destruct (asleep_side pi pr root AS (CPipeW pi) _ Hpr Hs2) as [Hs3 Hw].
  destruct (Hdrain _ Hs3 Hw) as (s4 & He & Hrun & Hs4 & Hu4 & Hle4 & Hq4 & Hgo).
  { intros j Hj Hne. simpl. rewrite list_lookup_total_alter_ne by congruence.
    by apply (roused_nobody (CPipeR pi) pr s1 Hc Hl). }
  { done. }
  rewrite (sleep_awake pi pr _ _ s4); [|done|by apply Hs2|done|done|done|done].
  destruct (awake_side pi pr root AS (k_clock s1) (LPipe pi) s4 Hpr Hs4) as [Hs5 Hk5].
  change (k_clock (asleep _ _ _)) with (k_clock s1) in *. change (k_clock (roused _ _)) with (k_clock s1).
  change (pipe_at pi (asleep _ _ _)) with (pipe_at pi s1) in *.
  change (k_mem (asleep _ _ _)) with (k_mem s1) in *. split.
  - constructor; try done.
    + intros va a Ha. change (k_mem (awake _ _ _ _)) with (k_mem s4). rewrite (Hu4 va a Ha). by apply Hu with va.
    + simpl. lia.
    + exists sofar. change (k_clock (awake _ _ _ _)) with (S (k_clock s1)).
      change (pipe_at pi (awake _ _ _ _)) with (pipe_at pi s4). rewrite total_next by done.
      rewrite Hq in Hle4, Hq4. rewrite length_drop in Hle4. split_and!; [done|done|lia|]. by rewrite Hq4, drop_drop.
  - unfold stuck. rewrite Hk5. change (pipe_at pi (awake _ _ _ _)) with (pipe_at pi s4).
    destruct Hgo as [Ht|[Ho|Hkill]].
    + rewrite (proj2 (Z.eqb_neq (pipe_len (pipe_at pi s4)) PIPESIZE)); [done|].
      pose proof (length_queue (pipe_at pi s4)) as L4. pose proof (length_queue (pipe_at pi s1)) as L1.
      rewrite Hq4, length_drop in L4. lia.
    + rewrite Ho. cbn [Z.eqb negb]. by rewrite andb_false_r.
    + rewrite (proj2 (Z.eqb_neq (p_killed _) 0) Hkill). apply andb_false_r.
Qed.

(** It writes one byte. *)
Lemma write_byte i s1 x q :
  writing pi pr root AS took addr n s i s1 -> i < n -> x = pipe_at pi s1 -> q = k_procs s1 !!! pr ->
  pipe_len x < PIPESIZE ->
  wp (let* (r, ch) := copyin (p_pagetable q) (u64 (addr + i)) 1 in
      if r =? -1 then ret (inr (Some i)) else
      upd_pipe pi (fun x =>
        set_pi_data (<[Z.to_nat (pi_nwrite x mod PIPESIZE) := hd 0 ch]> (pi_data x)) x) ;;
      upd_pipe pi (fun x => set_pi_nwrite (u32 (pi_nwrite x + 1)) x) ;;
      ret (inl (i + 1)))
    (fun r s2 => match r with
       | inl i' => i' = i + 1 /\ writing pi pr root AS took addr n s (i + 1) s2
       | inr r' => r' = Some i /\ s2 = s1 /\ uaddr AS (addr + i) = None
       end) s1.
Proof.
  intros [Hi Hs Hc Hh Hu Hk (sofar & Hlen & Hby & Hle & Hq)] Hlt -> -> Hfit.
  destruct (side_uvm _ _ _ _ _ Hs) as (G & fr & Hv); [rewrite Hh; by apply not_single|].
  apply wp_bind. rewrite (ps_root _ _ _ _ _ Hs), u64_small by lia.
  eapply wp_eq; [eapply (copyin_bytes _ _ G AS fr); [done|lia|lia]|].
  change (Z.to_nat 1) with 1%nat. rewrite uread_1.
  replace (Z.to_nat (n - i)) with (S (Z.to_nat (n - (i + 1)))) in Hby by lia. cbn [uread] in Hby.
  destruct (uaddr AS (addr + i)) as [a|] eqn:Ea; cbn [Z.eqb hd]; [|kwp; done].
  rewrite (Hu _ _ Ea). unfold upd_pipe. kwp. split; [done|].
  set (c := ldb (k_mem s) a) in *. destruct (ps_pipe _ _ _ _ _ Hs) as [y Hy].
  match goal with |- writing _ _ _ _ _ _ _ _ _ ?t => replace t with (with_pipe pi (pushed c (pipe_at pi s1)) s1) end.
  2:{ unfold with_pipe, pipe_at, pushed. simpl. rewrite Hy, lookup_insert_eq. simpl. by rewrite insert_insert_eq. }
  pose proof (ps_ok _ _ _ _ _ Hs) as Hok.
  constructor; try done; [lia|by apply side_pipe, pushed_ok|].
  exists (sofar ++ [c]). rewrite pipe_at_with, pushed_queue by done. change (k_clock (with_pipe _ _ _)) with (k_clock s1).
  split_and!.
  - rewrite length_app. simpl. lia.
  - rewrite Hby. replace (addr + (i + 1)) with (addr + i + 1) by lia.
    destruct (uread AS (k_mem s) (addr + i + 1) _) as [l ok]. simpl. by rewrite <- app_assoc.
  - rewrite !length_app in *. lia.
  - rewrite Hq, (app_assoc (pipe_queue _)), (drop_app_le _ [c]) by done. done.
Qed.

(** How the loop ends. *)
Definition written (r : option Z) (s1 : kernel) : Prop :=
  let bytes := fst (uread AS (k_mem s) addr (Z.to_nat n)) in
  pipe_side pi pr root AS s1 /\ same_user AS (k_mem s) (k_mem s1) /\ (k_clock s <= k_clock s1)%nat /\
  exists j, let q := pipe_queue (pipe_at pi s) ++ take j bytes in
    (j <= length bytes)%nat /\ (total took (k_clock s) (k_clock s1) <= length q)%nat /\
    pipe_queue (pipe_at pi s1) = drop (total took (k_clock s) (k_clock s1)) q /\
    match r with
    | Some i => k_cur s1 = Some pr /\ k_held s1 = [LPipe pi] /\ j = length bytes /\ i = Z.of_nat j
    | None => k_held s1 = [] /\ (pi_readopen (pipe_at pi s1) = 0 \/ p_killed (k_procs s1 !!! pr) <> 0)
    end.

Lemma writing_written i s1 s2 r :
  writing pi pr root AS took addr n s i s1 -> s2 = s1 \/ s2 = set_k_held [] s1 ->
  match r with
  | Some i' => i' = i /\ s2 = s1 /\ (i = n \/ uaddr AS (addr + i) = None)
  | None => k_held s2 = [] /\ (pi_readopen (pipe_at pi s1) = 0 \/ p_killed (k_procs s1 !!! pr) <> 0)
  end -> written r s2.
Proof.
  intros [Hi Hs Hc Hh Hu Hk (sofar & Hlen & Hby & Hle & Hq)] Hs2 Hr. unfold written.
  assert (pipe_side pi pr root AS s2 /\ k_mem s2 = k_mem s1 /\ k_clock s2 = k_clock s1 /\
          pipe_at pi s2 = pipe_at pi s1 /\ k_procs s2 = k_procs s1) as (Hs' & -> & -> & -> & ->).
  { destruct Hs2 as [->| ->]; [done|]. split_and!; try done. by eapply side_frame. }
  split_and!; try done. exists (length sofar). rewrite Hby, take_app_length. split_and!; try done.
  { rewrite length_app. lia. }
  destruct r as [i'|]; [|done]. destruct Hr as (-> & -> & Hend). split_and!; try done.
  assert (fst (uread AS (k_mem s) (addr + i) (Z.to_nat (n - i))) = []) as ->; [|by rewrite app_nil_r].
  destruct Hend as [-> | Hua]; [by replace (n - n) with 0 by lia|].
  destruct (Z.to_nat (n - i)); [done|]. simpl. by rewrite Hua.
Qed.

Lemma write_loop :
  pipe_side pi pr root AS s -> k_cur s = Some pr ->
  wp (loop (fun i =>
    if negb (i <? n) then ret (inr (Some i)) else
    x <- get_pipe pi ;;
    q <- get_proc pr ;;
    if (pi_readopen x =? 0) || z2b (p_killed q) then release (LPipe pi) ;; ret (inr None) else
    if pi_nwrite x =? u32 (pi_nread x + PIPESIZE) then
      wakeup (Some (CPipeR pi)) ;;
      sleep (CPipeW pi) (LPipe pi) ;;
      ret (inl i)
    else
      let* (r, ch) := copyin (p_pagetable q) (u64 (addr + i)) 1 in
      if r =? -1 then ret (inr (Some i)) else
      upd_pipe pi (fun x =>
        set_pi_data (<[Z.to_nat (pi_nwrite x mod PIPESIZE) := hd 0 ch]> (pi_data x)) x) ;;
      upd_pipe pi (fun x => set_pi_nwrite (u32 (pi_nwrite x + 1)) x) ;;
      ret (inl (i + 1))) 0) written (set_k_held [LPipe pi] s).
Proof.
  intros Hs Hc.
  apply (wp_loop_idx _ (fun k i s1 => k = 2 * (n - i) + b2z (stuck pi pr s1) /\
    writing pi pr root AS took addr n s i s1) _ (2 * n + b2z (stuck pi pr s))).
  - intros k i s1 [-> Hw]. pose proof (wr_i _ _ _ _ _ _ _ _ _ _ Hw) as Hi.
    destruct (Z.ltb_spec i n) as [Hlt|Hge]; cbn [negb].
    2:{ wp_step. eapply writing_written; [exact Hw|by left|]. split_and!; [done|done|left; lia]. }
    pose proof (wr_side _ _ _ _ _ _ _ _ _ _ Hw) as Hs1. pose proof (ps_ok _ _ _ _ _ Hs1) as Hok.
    unfold get_pipe, get_proc. wp_step. wp_step. wp_step. wp_step. fold (pipe_at pi s1).
    destruct ((pi_readopen (pipe_at pi s1) =? 0) || z2b (p_killed (k_procs s1 !!! pr))) eqn:Est.
    { wp_step. eapply wp_release; [apply Hw|apply not_elem_of_nil|]. wp_step.
      eapply writing_written; [exact Hw|by right|]. split; [done|].
      apply orb_true_iff in Est as [?%Z.eqb_eq|Hz]; [by left|right].
      unfold z2b in Hz. by apply negb_true_iff, Z.eqb_neq in Hz. }
    apply orb_false_iff in Est as [Ho Hz]. rewrite (pipe_full _ Hok).
    destruct (pipe_len (pipe_at pi s1) =? PIPESIZE) eqn:Ef.
    + assert (stuck pi pr s1 = true) as Hst.
      { unfold stuck. rewrite Ef, Ho. simpl. by apply negb_false_iff in Hz. }
      unfold wp. rewrite <- (bind_assoc (wakeup _)). apply (wp_bind (_ ;; _)).
      eapply wp_mono; [by apply write_waits|]. intros [] s2 [Hw2 Hst2]. wp_step.
      exists (2 * (n - i) + b2z (stuck pi pr s2)). rewrite Hst, Hst2. simpl. split; [lia|done].
    + assert (stuck pi pr s1 = false) as Hst by (unfold stuck; by rewrite Ef).
      eapply wp_mono; [eapply write_byte; try done|].
      { apply Z.eqb_neq in Ef. pose proof (po_len _ Hok). lia. }
      intros [i'|r] s2.
      * intros [-> Hw2]. exists (2 * (n - (i + 1)) + b2z (stuck pi pr s2)).
        split; [|done]. rewrite Hst. destruct (stuck pi pr s2); simpl; lia.
      * intros (-> & -> & Hua). eapply writing_written; [exact Hw|by left|]. by split_and!; [..|right].
  - split; [rewrite Z.sub_0_r; done|]. constructor; try done; [lia|by eapply side_frame|].
    exists []. rewrite Z.sub_0_r, Z.add_0_r, app_nil_r. change (k_clock (set_k_held _ _)) with (k_clock s).
    rewrite total_none. split_and!; [done|done|lia|done].
  - destruct (stuck pi pr s); simpl; lia.
Qed.

Lemma pipewrite_spec :
  pipe_side pi pr root AS s -> k_cur s = Some pr -> k_held s = [] ->
  let bytes := fst (uread AS (k_mem s) addr (Z.to_nat n)) in
  wp (pipewrite pi addr n) (fun r s' =>
    pipe_side pi pr root AS s' /\ same_user AS (k_mem s) (k_mem s') /\ k_held s' = [] /\
    exists j, let q := pipe_queue (pipe_at pi s) ++ take j bytes in
      (j <= length bytes)%nat /\ (total took (k_clock s) (k_clock s') <= length q)%nat /\
      pipe_queue (pipe_at pi s') = drop (total took (k_clock s) (k_clock s')) q /\
      (r = Z.of_nat (length bytes) /\ j = length bytes /\ nobody_waits (CPipeR pi) pr s' \/
       r = -1 /\ (pi_readopen (pipe_at pi s') = 0 \/ p_killed (k_procs s' !!! pr) <> 0))) s.
Proof.
  intros Hs Hc Hh bytes. unfold wp, pipewrite. rewrite (bind_curproc_run pr), bind_acquire by (try done; rewrite Hh; apply not_elem_of_nil).
  rewrite Hh. apply (wp_bind (loop _ _)). eapply wp_mono; [by apply write_loop|].
  intros [i|] s1 (Hs1 & Hu & Hk & j & Hj & Hle & Hq & Hr); fold bytes in Hj, Hle, Hq, Hr.
  - destruct Hr as (Hc1 & Hh1 & -> & ->). pose proof (ps_procs _ _ _ _ _ Hs1) as Hl1.
    unfold wp. rewrite <- (bind_assoc (wakeup _)). erewrite bind_ok by (by apply rouse_release).
    split_and!; [|done|done|].
    + eapply side_frame; [by apply (roused_side pi pr root AS (CPipeR pi))|done..].
    + exists (length bytes). split_and!; try done. left. split_and!; try done.
      by apply (roused_nobody (CPipeR pi) pr s1).
  - destruct Hr as [Hh1 Hr]. wp_step. split_and!; try done. exists j. split_and!; try done. by right.
Qed.
End Write.

(** ** Reading *)

Lemma drop_next {A} (l t : list A) i a : drop i l = a :: t -> drop (S i) l = t.
Proof. intros H. rewrite <- (Nat.add_1_r i), <- drop_drop, H. done. Qed.

Lemma drop_take_next {A} (l t : list A) i n a :
  (i < n)%nat -> drop i l = a :: t -> drop i (take n l) = a :: drop (S i) (take n l).
Proof.
  intros Hi H. rewrite !skipn_firstn_comm, H, (drop_next _ _ _ _ H).
  replace (n - i)%nat with (S (n - S i)) by lia. done.
Qed.

Lemma uwrite_1 AS m va b : uwrite AS m va [b] =
  match uaddr AS va with Some a => (<[a := b]> m, true) | None => (m, false) end.
Proof. simpl. by destruct (uaddr AS va). Qed.

(** What [piperead] leaves: [out] are the bytes it tries to deliver. *)
Definition delivered (pi addr : Z) (AS : aspace) (out : list Z) (s : kernel) (r : Z) (s' : kernel) : Prop :=
  let q := pipe_queue (pipe_at pi s) in
  exists m' x' ok, uwrite AS (k_mem s) addr out = (m', ok) /\
    s' = set_k_mem m' (with_pipe pi x' (set_k_held [LPipe pi] s)) /\ pipe_ok x' /\
    pi_readopen x' = pi_readopen (pipe_at pi s) /\ pi_writeopen x' = pi_writeopen (pipe_at pi s) /\
    (if ok : bool then r = Z.of_nat (length out) /\ pipe_queue x' = drop (length out) q
     else 0 <= r < Z.of_nat (length out) /\ uaddr AS (addr + r) = None /\
          pipe_queue x' = drop (S (Z.to_nat r)) q).

Lemma piperead_loop pi pr addr n s root AS :
  pipe_side pi pr root AS s -> 0 <= addr -> 0 <= n < 2 ^ 31 -> addr + n <= 2 ^ 64 ->
  wp (loop (fun i =>
    if negb (i <? n) then ret (inr i) else
    x <- get_pipe pi ;;
    if pi_nread x =? pi_nwrite x then ret (inr i) else
    let ch := pi_data x !!! Z.to_nat (pi_nread x mod PIPESIZE) in
    upd_pipe pi (fun x => set_pi_nread (u32 (pi_nread x + 1)) x) ;;
    q <- get_proc pr ;;
    r <- copyout (p_pagetable q) (u64 (addr + i)) [ch] 1 ;;
    if r =? -1 then ret (inr i) else ret (inl (i + 1))) 0)
  (delivered pi addr AS (take (Z.to_nat n) (pipe_queue (pipe_at pi s))) s) (set_k_held [LPipe pi] s).
Proof.
  intros [Hp Hok Hl Hr (G & fr & Hu)] Ha Hn Han. set (x0 := pipe_at pi s) in *. set (q0 := pipe_queue x0).
  set (out := take (Z.to_nat n) q0). set (m := k_mem s) in *.
  apply (wp_loop_idx _ (fun k i s' => k = n - i /\ 0 <= i <= n /\ i <= Z.of_nat (length q0) /\ exists x m1,
    s' = set_k_mem m1 (with_pipe pi x (set_k_held [LPipe pi] s)) /\ pipe_ok x /\
    pi_readopen x = pi_readopen x0 /\ pi_writeopen x = pi_writeopen x0 /\
    pipe_queue x = drop (Z.to_nat i) q0 /\ uvm s' root G AS fr /\
    uwrite AS m addr out = uwrite AS m1 (addr + i) (drop (Z.to_nat i) out)) _ n).
  - intros k i s1 (-> & Hi & Hiq & x & m1 & -> & Hokx & Hro & Hwo & Hq & Hu1 & Hw).
    assert (Z.of_nat (length (drop (Z.to_nat i) q0)) = pipe_len x) as Hlen by (rewrite <- Hq; apply length_queue).
    rewrite length_drop in Hlen.
    destruct (Z.ltb_spec i n) as [Hlt|Hge]; cbn [negb].
    + unfold get_pipe. wp_step. wp_step.
      change (default pipe0 (k_pipes _ !! pi)) with (pipe_at pi (with_pipe pi x (set_k_held [LPipe pi] s))).
      rewrite pipe_at_with, (pipe_empty x Hokx). destruct (Z.eqb_spec (pipe_len x) 0) as [H0|H0].
      * wp_step. assert (length out = Z.to_nat i) as Hlo by (unfold out; rewrite length_take; lia).
        exists m1, x, true. fold m. rewrite Hw, drop_ge by lia. simpl. split_and!; try done; [lia|].
        by rewrite Hlo.
      * assert (0 < pipe_len x) as Hpos by (pose proof (u32_range (pi_nwrite x - pi_nread x)); unfold pipe_len in *; lia).
        pose proof (popped_queue x Hokx Hpos) as Hpop. rewrite Hq in Hpop.
        assert (drop (Z.to_nat i) out = ring_at x 0 :: drop (S (Z.to_nat i)) out) as Hout
          by (eapply drop_take_next; [lia|done]).
        apply drop_next in Hpop. rewrite Hout in Hw. unfold ring_at in Hw. rewrite Z.add_0_r in Hw.
        unfold upd_pipe, get_proc. wp_step. wp_step. wp_step. wp_step. apply wp_bind.
        cbn [k_procs with_pipe set_k_pipes set_k_held set_k_mem]. rewrite Hr, u64_small by lia.
        unfold wp. erewrite (copyout_bytes _ root G AS fr);
          [|eapply uvm_frame; [exact Hu1|reflexivity|reflexivity|by apply not_single]|lia|simpl; lia|lia].
        change (take (Z.to_nat 1) [?c]) with [c]. cbn [uwrite] in Hw. rewrite uwrite_1.
        fold (pipe_at pi (set_k_mem m1 (with_pipe pi x (set_k_held [LPipe pi] s)))).
        change (pipe_at pi (set_k_mem m1 ?t)) with (pipe_at pi t). rewrite pipe_at_with.
        cbn [k_mem set_k_mem set_k_pipes].
        destruct (uaddr AS (addr + i)) as [a|] eqn:Hua; cbn [Z.eqb].
        -- exists (n - (i + 1)). split; [lia|]. split_and!; try lia.
           exists (popped x), (<[a := pi_data x !!! Z.to_nat (pi_nread x mod PIPESIZE)]> m1).
           replace (Z.to_nat (i + 1)) with (S (Z.to_nat i)) by lia.
           replace (addr + (i + 1)) with (addr + i + 1) by lia. split_and!; try done.
           ++ cbn [k_pipes with_pipe set_k_pipes set_k_held set_k_mem]. by rewrite insert_insert_eq.
           ++ by apply popped_ok.
           ++ eapply (uvm_uwrite _ _ _ _ _ (addr + i) [pi_data x !!! Z.to_nat (pi_nread x mod PIPESIZE)]).
              ** eapply uvm_frame; [exact Hu1|reflexivity|reflexivity|by apply not_single].
              ** rewrite uwrite_1, Hua. reflexivity.
        -- exists m1, (popped x), false. fold m. rewrite Hw. split_and!; try done.
           ++ cbn [k_pipes with_pipe set_k_pipes set_k_held set_k_mem]. by rewrite insert_insert_eq.
           ++ by apply popped_ok.
           ++ lia.
           ++ pose proof (f_equal length Hout) as Hl'. rewrite length_drop in Hl'. simpl in Hl'. lia.
    + wp_step. assert (i = n) as -> by lia.
      assert (length out = Z.to_nat n) as Hlo by (unfold out; rewrite length_take; lia).
      exists m1, x, true. fold m. rewrite Hw, drop_ge by lia. simpl. split_and!; try done; [lia|].
      by rewrite Hlo.
  - split; [lia|]. split; [lia|]. split; [lia|]. exists x0, m. rewrite Z.add_0_r. split_and!; try done.
    + unfold with_pipe, x0, pipe_at. simpl. destruct Hp as [y Hy]. rewrite Hy. simpl.
      rewrite insert_id by done. by destruct s.
    + eapply uvm_frame; [exact Hu|reflexivity|reflexivity|by apply not_single].
  - lia.
Qed.

(** What there is to read, after waiting if the pipe is empty and has a writer. *)
Definition arrived (pi : Z) (came : nat -> list Z) (s : kernel) : list Z :=
  if (pipe_len (pipe_at pi s) =? 0) && z2b (pi_writeopen (pipe_at pi s)) then came (k_clock s)
  else pipe_queue (pipe_at pi s).

Lemma queue_nil x : pipe_len x = 0 -> pipe_queue x = [].
Proof. intros H. unfold pipe_queue. by rewrite H. Qed.

Lemma queue_nonempty x : pipe_queue x <> [] -> pipe_len x <> 0.
Proof. intros H E0. by apply H, queue_nil. Qed.

Section Read.
Context (pi : Z) (pr : nat) (root : Z) (AS : aspace) (came : nat -> list Z) (addr n : Z) (s : kernel).
Context (Hpr : (pr < NPROC)%nat) (Haddr : 0 <= addr) (Hn : 0 <= n < 2 ^ 31) (Han : addr + n <= 2 ^ 64).
Context (Hfill : fills pi pr root AS came).

(** How the wait ends. *)
Definition waited (ok : bool) (s1 : kernel) : Prop :=
  pipe_side pi pr root AS s1 /\ same_user AS (k_mem s) (k_mem s1) /\
  if ok then k_cur s1 = Some pr /\ k_held s1 = [LPipe pi] /\ pipe_queue (pipe_at pi s1) = arrived pi came s
  else k_held s1 = [] /\ p_killed (k_procs s1 !!! pr) <> 0 /\ pipe_queue (pipe_at pi s1) = [].

(** The reader sleeps, and finds bytes or a reason to stop. *)
Lemma read_waits s1 :
  pipe_side pi pr root AS s1 -> k_cur s1 = Some pr -> k_held s1 = [LPipe pi] -> pipe_len (pipe_at pi s1) = 0 ->
  wp (sleep (CPipeR pi) (LPipe pi)) (fun _ s2 => pipe_side pi pr root AS s2 /\ k_cur s2 = Some pr /\
    k_held s2 = [LPipe pi] /\ same_user AS (k_mem s1) (k_mem s2) /\
    pipe_queue (pipe_at pi s2) = came (k_clock s1) /\
    (came (k_clock s1) <> [] \/ pi_writeopen (pipe_at pi s2) = 0 \/ p_killed (k_procs s2 !!! pr) <> 0)) s1.
Proof.
  intros Hs Hc Hh H0. destruct (asleep_side pi pr root AS (CPipeR pi) s1 Hpr Hs) as [Hs2 Hw].
  destruct (Hfill _ Hs2 Hw H0) as (s3 & He & Hrun & Hs3 & Hu & Hq & Hgo).
  unfold wp. rewrite (sleep_awake pi pr _ _ s3); [|done|apply Hs|done|done|done|done].
  destruct (awake_side pi pr root AS (k_clock s1) (LPipe pi) s3 Hpr Hs3) as [Hs4 Hk]. rewrite Hk. done.
Qed.

Lemma pipe_wait_spec :
  pipe_side pi pr root AS s -> k_cur s = Some pr -> k_held s = [LPipe pi] ->
  wp (pipe_wait pi pr) waited s.
Proof.
  intros Hs Hc Hh. unfold pipe_wait.
  apply (wp_loop_idx _ (fun k _ s1 => pipe_side pi pr root AS s1 /\ k_cur s1 = Some pr /\
    k_held s1 = [LPipe pi] /\ same_user AS (k_mem s) (k_mem s1) /\
    (k = 1 /\ s1 = s \/
     k = 0 /\ pipe_queue (pipe_at pi s1) = arrived pi came s /\
     (pipe_queue (pipe_at pi s1) <> [] \/ pi_writeopen (pipe_at pi s1) = 0 \/ p_killed (k_procs s1 !!! pr) <> 0))) _ 1).
  - intros k [] s1 (Hs1 & Hc1 & Hh1 & Hu1 & Hcase). pose proof (ps_ok _ _ _ _ _ Hs1) as Hok.
    unfold get_pipe, get_proc. wp_step. wp_step. fold (pipe_at pi s1). rewrite (pipe_empty _ Hok).
    destruct ((pipe_len (pipe_at pi s1) =? 0) && z2b (pi_writeopen (pipe_at pi s1))) eqn:Em; cbn [negb].
    2:{ wp_step. unfold waited. split_and!; [done..|].
        destruct Hcase as [[_ ->]|(_ & Hq & _)]; [|done]. unfold arrived. by rewrite Em. }
    pose proof Em as [H0%Z.eqb_eq Hwo]%andb_true_iff. wp_step. wp_step.
    destruct (z2b (p_killed (k_procs s1 !!! pr))) eqn:Ek.
    { wp_step. eapply wp_release; [done|apply not_elem_of_nil|]. wp_step. split; [by eapply side_frame|].
      split; [done|]. split_and!; [done| |by apply queue_nil].
      unfold z2b in Ek. by apply negb_true_iff, Z.eqb_neq in Ek. }
    destruct Hcase as [[-> ->]|(_ & _ & [Hne|[Hcl|Hkill]])].
    + apply wp_bind. eapply wp_mono; [by apply read_waits|]. intros [] s2 (Hs2 & Hc2 & Hh2 & Hu2 & Hq2 & Hgo).
      wp_step. exists 0. split; [lia|]. split_and!; [done..|]. right. unfold arrived. rewrite Em. by rewrite Hq2.
    + by apply queue_nonempty in Hne.
    + by rewrite Hcl in Hwo.
    + apply negb_false_iff, Z.eqb_eq in Ek. done.
  - split_and!; try done. by left.
  - lia.
Qed.

End Read.

Lemma piperead_spec pi pr root AS came addr n s :
  (pr < NPROC)%nat -> 0 <= addr -> 0 <= n < 2 ^ 31 -> addr + n <= 2 ^ 64 -> fills pi pr root AS came ->
  pipe_side pi pr root AS s -> k_cur s = Some pr -> k_held s = [] ->
  let out := take (Z.to_nat n) (arrived pi came s) in
  wp (piperead pi addr n) (fun r s' => pipe_side pi pr root AS s' /\ k_held s' = [] /\
    (r = -1 /\ p_killed (k_procs s' !!! pr) <> 0 /\ pipe_queue (pipe_at pi s') = [] /\
       same_user AS (k_mem s) (k_mem s') \/
     nobody_waits (CPipeW pi) pr s' /\
     exists m ok, same_user AS (k_mem s) m /\ uwrite AS m addr out = (k_mem s', ok) /\
       if ok : bool then r = Z.of_nat (length out) /\ pipe_queue (pipe_at pi s') = drop (length out) (arrived pi came s)
       else 0 <= r < Z.of_nat (length out) /\ uaddr AS (addr + r) = None /\
            pipe_queue (pipe_at pi s') = drop (S (Z.to_nat r)) (arrived pi came s))) s.
Proof.
  intros Hpr Haddr Hn Han Hfill Hs Hc Hh out. unfold wp, piperead.
  rewrite (bind_curproc_run pr), bind_acquire by (try done; rewrite Hh; apply not_elem_of_nil).
  rewrite Hh. apply (wp_bind (pipe_wait _ _)). set (s0 := set_k_held [LPipe pi] s).
  assert (pipe_side pi pr root AS s0) as Hs0 by by eapply side_frame.
  eapply wp_mono; [by apply (pipe_wait_spec pi pr root AS came s0)|]. intros ok s1 (Hs1 & Hu & Hok). destruct ok; cbn [negb].
  2:{ destruct Hok as (Hh1 & Hk & Hq). apply wp_ret. split_and!; [done..|]. by left. }
  destruct Hok as (Hc1 & Hh1 & Hq). apply wp_bind.
  replace s1 with (set_k_held [LPipe pi] s1) at 1 by (rewrite <- Hh1; by destruct s1).
  eapply wp_mono; [by eapply piperead_loop|].
  intros r s2 (m' & x' & ok & Hw & -> & Hok' & _ & _ & Hres). rewrite Hq in Hw, Hres.
  set (s2 := set_k_mem m' _). unfold wp. rewrite <- (bind_assoc (wakeup _)).
  erewrite bind_ok by (apply (rouse_release pi); [apply Hs1|done]).
  assert (pipe_side pi pr root AS s2) as Hs2.
  { destruct (side_pipe pi pr root AS s1 x' Hs1 Hok') as [A B C D (G & fr & F)]. constructor; try done.
    exists G, fr. by eapply (uvm_uwrite (set_k_held [] (with_pipe pi x' s1))). }
  split_and!; [|done|right].
  - eapply side_frame; [by apply (roused_side pi pr root AS (CPipeW pi) s2)|done..].
  - split; [apply (roused_nobody (CPipeW pi) pr s2); [done|apply Hs2]|].
    exists (k_mem s1), ok. split; [done|]. split; [done|].
    change (pipe_at pi (set_k_held [] (roused (CPipeW pi) s2))) with (pipe_at pi (with_pipe pi x' s1)).
    rewrite pipe_at_with. done.
Qed.

End Pipe.

Module PipeDemo.
#[local] Instance sym : Linker := kernel_sym.

(** The other side writes a byte to an empty pipe and takes one from any other,
    and wakes process 0. *)
#[local] Instance peer : Env := fun _ s =>
  let x := pipe_at 8192 s in
  Some (set_k_procs (alter (set_p_state RUNNABLE) O (k_procs s))
    (with_pipe 8192 (if pipe_len x =? 0 then pushed 33 x else popped x) s)).

Lemma peer_side root AS s x : pipe_ok x -> pipe_side 8192 O root AS s ->
  pipe_side 8192 O root AS (set_k_procs (alter (set_p_state RUNNABLE) O (k_procs s)) (with_pipe 8192 x s)).
Proof.
  intros Hx Hs. pose proof (ps_procs _ _ _ _ _ Hs) as Hl.
  eapply side_frame; [by apply (side_pipe 8192 O root AS s x)|done..| |]; simpl; [apply length_alter|].
  rewrite list_lookup_total_alter_eq; [done|]. rewrite Hl. unfold NPROC. lia.
Qed.

Lemma peer_drains root AS : drains 8192 O root AS (fun _ => 1%nat).
Proof.
  intros s Hs Hw _ Hfull. eexists. split; [reflexivity|]. rewrite Hfull. cbn [Z.eqb PIPESIZE].
  pose proof (ps_ok _ _ _ _ _ Hs) as Hok. pose proof (ps_procs _ _ _ _ _ Hs) as Hl.
  assert (0 < pipe_len (pipe_at 8192 s)) as Hpos by (rewrite Hfull; done).
  pose proof (popped_queue _ Hok Hpos) as Hq. split_and!.
  - simpl. rewrite list_lookup_total_alter_eq; [done|]. rewrite Hl. unfold NPROC. lia.
  - by apply peer_side; [apply popped_ok|].
  - by intros va a _.
  - rewrite Hq. simpl. lia.
  - change (pipe_at 8192 (set_k_procs ?a ?b)) with (pipe_at 8192 b). by rewrite pipe_at_with, Hq.
  - left. lia.
Qed.

Lemma peer_fills root AS : fills 8192 O root AS (fun _ => [33]).
Proof.
  intros s Hs Hw H0. eexists. split; [reflexivity|]. rewrite H0. cbn [Z.eqb].
  pose proof (ps_ok _ _ _ _ _ Hs) as Hok. pose proof (ps_procs _ _ _ _ _ Hs) as Hl.
  assert (pipe_len (pipe_at 8192 s) < PIPESIZE) as Hlt by (rewrite H0; done). split_and!.
  - simpl. rewrite list_lookup_total_alter_eq; [done|]. rewrite Hl. unfold NPROC. lia.
  - by apply peer_side; [apply pushed_ok|].
  - by intros va a _.
  - change (pipe_at 8192 (set_k_procs ?a ?b)) with (pipe_at 8192 b).
    by rewrite pipe_at_with, pushed_queue, queue_nil.
  - left. discriminate.
Qed.

(** A full pipe and an empty one, at the wrap of the counters. *)
Definition full : pipe := mk_pipe (replicate 512 7) (2 ^ 32 - 1) 511 1 1.
Definition empty : pipe := mk_pipe (replicate 512 7) (2 ^ 32 - 1) (2 ^ 32 - 1) 1 1.
Definition user (x : pipe) (s : kernel) : kernel :=
  set_k_cur (Some O) (set_k_held [] (set_k_pipes {[8192 := x]}
    (set_k_procs (<[O := set_p_pagetable (VmDemo.pg 0) proc0]> (replicate NPROC proc0)) s))).

Lemma user_side x s G AS fr : pipe_ok x -> uvm s (VmDemo.pg 0) G AS fr ->
  pipe_side 8192 O (VmDemo.pg 0) AS (user x s).
Proof.
  intros Hx U. constructor; [by eexists|exact Hx|reflexivity|reflexivity|].
  exists G, fr. eapply uvm_frame; [exact U|done|done|apply not_elem_of_nil].
Qed.

Lemma full_ok : pipe_ok full.
Proof. constructor; [reflexivity|vm_compute; split; discriminate || reflexivity..|vm_compute; discriminate]. Qed.
Lemma empty_ok : pipe_ok empty.
Proof. constructor; [reflexivity|vm_compute; split; discriminate || reflexivity..|vm_compute; discriminate]. Qed.

End PipeDemo.
