(* ===== verification/FsPure.v ===== *)
(** * On-disk inodes and path names

    The parts of kernel/fs.c that compute: the layout of an inode in its
    block, and the cutting of a path into elements. *)

From S2P Require Import Prelude Bytes Params CString Spinlock State Kalloc Vm Sched Bio Log Fs.

#[local] Opaque put_le get_le.

(** Lengths of blocks after some stores. *)
Ltac len_put := first [ lia | rewrite length_put_le by len_put; len_put ].

(** ** Inodes on disk *)

Definition fits16 (z : Z) : Prop := - 2 ^ 15 <= z < 2 ^ 15.

(** The values a [struct dinode] can hold. *)
Record dinode_ok (di : dinode) : Prop := {
  dk_type : fits16 (d_type di);
  dk_major : fits16 (d_major di);
  dk_minor : fits16 (d_minor di);
  dk_nlink : fits16 (d_nlink di);
  dk_size : 0 <= d_size di < 2 ^ 32;
  dk_len : length (d_addrs di) = 13%nat;
  dk_addrs : Forall (fun a => 0 <= a < 2 ^ 32) (d_addrs di);
}.

Lemma i16_mod z : fits16 z -> i16 (z mod 2 ^ (8 * Z.of_nat 2)) = z.
Proof.
  intros H. unfold i16, fits16 in *. change (2 ^ (8 * Z.of_nat 2)) with (2 ^ 16).
  rewrite Zplus_mod_idemp_l, Z.mod_small; lia.
Qed.

Lemma length_concat_le (l : list Z) : length (concat (le_bytes 4 <$> l)) = (4 * length l)%nat.
Proof. induction l as [|x l IH]; [done|]. cbn [fmap list_fmap concat]. rewrite length_app, IH, length_le_bytes. simpl. lia. Qed.

Lemma slice_concat_le (l : list Z) k x :
  l !! k = Some x -> slice (concat (le_bytes 4 <$> l)) (4 * k) 4 = le_bytes 4 x.
Proof.
  revert k. induction l as [|y l IH]; intros k Hk; [done|]. cbn [fmap list_fmap concat].
  destruct k as [|k].
  - injection Hk as ->. unfold slice. rewrite drop_0, take_app_le by (rewrite length_le_bytes; lia).
    by rewrite firstn_all2 by (rewrite length_le_bytes; lia).
  - unfold slice. rewrite drop_app_ge by (rewrite length_le_bytes; lia). rewrite length_le_bytes.
    replace (4 * S k - 4)%nat with (4 * k)%nat by lia. by apply IH.
Qed.

Lemma slice_slice {A} (l : list A) off n off' n' :
  (off' + n' <= n)%nat -> slice (slice l off n) off' n' = slice l (off + off') n'.
Proof.
  intros H. unfold slice. rewrite skipn_firstn_comm, drop_drop, take_take.
  f_equal. lia.
Qed.

Section Layout.
Context (d : list Z) (off : nat) (di : dinode).
Context (Hd : (off + 64 <= length d)%nat) (Hok : dinode_ok di).

(** The block before the addresses are stored. *)
Let d1 := put_le 4 (put_le 2 (put_le 2 (put_le 2 (put_le 2 d
      off (d_type di)) (off + 2) (d_major di)) (off + 4) (d_minor di)) (off + 6) (d_nlink di))
      (off + 8) (d_size di).

Lemma d1_length : length d1 = length d.
Proof. unfold d1. len_put. Qed.

Lemma enc_dinode_length : length (enc_dinode d off di) = length d.
Proof.
  unfold enc_dinode, enc_addrs. fold d1. rewrite length_splice; [apply d1_length|].
  rewrite length_concat_le, (dk_len _ Hok), d1_length. lia.
Qed.

Lemma enc_dinode_field n o : (o + n <= 12)%nat ->
  get_le n (enc_dinode d off di) (off + o) = get_le n d1 (off + o).
Proof.
  intros Ho. unfold enc_dinode, enc_addrs. fold d1. Transparent get_le. unfold get_le. Opaque get_le.
  rewrite slice_splice_disjoint; [done| | |];
    rewrite ?length_concat_le, ?(dk_len _ Hok), ?d1_length; lia.
Qed.

Lemma enc_dinode_addr k a : d_addrs di !! k = Some a ->
  get_le 4 (enc_dinode d off di) (off + 12 + 4 * k) = a mod 2 ^ 32.
Proof.
  intros Ha. pose proof (lookup_lt_Some _ _ _ Ha) as Hk. rewrite (dk_len _ Hok) in Hk.
  unfold enc_dinode, enc_addrs. fold d1. Transparent get_le. unfold get_le. Opaque get_le.
  set (bs := concat _). assert (length bs = 52%nat) as Hl by (unfold bs; by rewrite length_concat_le, (dk_len _ Hok)).
  replace (slice (splice d1 (off + 12) bs) (off + 12 + 4 * k) 4)
    with (slice (slice (splice d1 (off + 12) bs) (off + 12) 52) (4 * k) 4) by (apply slice_slice; lia).
  rewrite <- Hl, slice_splice_same by (rewrite d1_length; lia).
  unfold bs. rewrite (slice_concat_le _ _ a Ha). apply le_val_le_bytes.
Qed.

Lemma enc_dinode_other n o : (o + n <= off \/ off + 64 <= o)%nat -> (o + n <= length d)%nat ->
  get_le n (enc_dinode d off di) o = get_le n d o.
Proof.
  intros Ho Hn. transitivity (get_le n d1 o).
  - unfold enc_dinode, enc_addrs. fold d1. Transparent get_le. unfold get_le. Opaque get_le.
    rewrite slice_splice_disjoint; [done| | |];
      rewrite ?length_concat_le, ?(dk_len _ Hok), ?d1_length; lia.
  - unfold d1. by rewrite !get_put_le_disjoint by len_put.
Qed.

Lemma dec_enc : dec_dinode (enc_dinode d off di) off = di.
Proof.
  pose proof Hok as [H1 H2 H3 H4 H5 H6 H7]. unfold dec_dinode.
  rewrite <- (Nat.add_0_r off) at 2. rewrite !enc_dinode_field by lia. rewrite Nat.add_0_r.
  unfold d1.
  rewrite (get_put_le_same 4), !(get_put_le_disjoint 4 2) by len_put.
  rewrite (get_put_le_same 2 _ (off + 6)), !(get_put_le_disjoint 2 2 _ (off + 6)) by len_put.
  rewrite (get_put_le_same 2 _ (off + 4)), !(get_put_le_disjoint 2 2 _ (off + 4)) by len_put.
  rewrite (get_put_le_same 2 _ (off + 2)), !(get_put_le_disjoint 2 2 _ (off + 2)) by len_put.
  rewrite get_put_le_same by lia. rewrite !i16_mod by done.
  change (2 ^ (8 * Z.of_nat 4)) with (2 ^ 32). rewrite (Z.mod_small (d_size di)) by done.
  assert ((fun k => get_le 4 (enc_dinode d off di) (off + 12 + 4 * k)) <$> seq 0 13 = d_addrs di) as ->.
  { apply list_eq. intros k. rewrite list_lookup_fmap. destruct (decide (k < 13)%nat) as [Hk|Hk].
    - rewrite lookup_seq_lt by done. cbn [fmap option_fmap option_map Nat.add].
      destruct (lookup_lt_is_Some_2 (d_addrs di) k) as [a Ha]; [lia|].
      rewrite (enc_dinode_addr k a Ha), Ha. f_equal. apply Z.mod_small. rewrite Forall_lookup in H7. eauto.
    - rewrite lookup_seq_ge by lia. symmetry. apply lookup_ge_None. lia. }
  by destruct di.
Qed.
End Layout.

(** The other inodes of the block. *)
Lemma dec_enc_other d off off' di : (off + 64 <= length d)%nat -> (off' + 64 <= length d)%nat -> (off' + 64 <= off \/ off + 64 <= off')%nat -> dinode_ok di ->
  dec_dinode (enc_dinode d off di) off' = dec_dinode d off'.
Proof.
  intros Hl Hl' Hoff Hok.
  assert (forall n o, (o + n <= 64)%nat -> get_le n (enc_dinode d off di) (off' + o) = get_le n d (off' + o)) as Hf.
  { intros n o Ho. rewrite enc_dinode_other by (done || lia). done. }
  unfold dec_dinode. rewrite <- (Nat.add_0_r off') at 1 6. rewrite !Hf by lia.
  f_equal. apply list_fmap_ext. intros x k [-> Hk]%lookup_seq. rewrite <- !Nat.add_assoc. apply Hf. lia.
Qed.

(** ** Paths *)

(** The elements between the slashes of a path, empty ones included, and the
    elements that count. *)
Fixpoint splits (path : list Z) : list (list Z) :=
  match path with
  | [] => [[]]
  | c :: path' =>
      if c =? 47 then [] :: splits path'
      else match splits path' with e :: es => (c :: e) :: es | [] => [[c]] end
  end.
Definition components (path : list Z) : list (list Z) := filter (fun e => e <> []) (splits path).

Lemma splits_nonempty path : splits path <> [].
Proof. destruct path as [|c path]; simpl; [done|]. destruct (c =? 47); [done|]. by destruct (splits path). Qed.

Lemma components_slash path : components (47 :: path) = components path.
Proof. unfold components. simpl. by rewrite filter_cons_False by auto. Qed.

Lemma components_skip path : components (skip_slashes path) = components path.
Proof.
  induction path as [|c path IH]; [done|]. simpl. destruct (Z.eqb_spec c 47) as [->|]; [|done].
  by rewrite components_slash.
Qed.

Lemma skip_slashes_length path : (length (skip_slashes path) <= length path)%nat.
Proof. induction path as [|c path IH]; simpl; [lia|]. destruct (c =? 47); simpl; lia. Qed.

Lemma skip_slashes_forall (P : Z -> Prop) path : Forall P path -> Forall P (skip_slashes path).
Proof. induction 1 as [|c path Hc Hp IH]; simpl; [done|]. destruct (c =? 47); [done|by constructor]. Qed.

Lemma skip_slashes_hd path : hd0 (skip_slashes path) <> 47.
Proof. induction path as [|c path IH]; simpl; [done|]. destruct (Z.eqb_spec c 47); [done|]. done. Qed.

(** The element that [split_elem] cuts off a path without terminators. *)
Lemma split_elem_splits path e rest :
  Forall (fun c => c <> 0) path -> split_elem path = (e, rest) ->
  path = e ++ rest /\ Forall (fun c => c <> 0) rest /\
  splits path = e :: match rest with [] => [] | _ :: r => splits r end /\
  (rest = [] \/ exists r, rest = 47 :: r).
Proof.
  intros Hp. revert e rest. induction Hp as [|c path Hc Hp IH]; intros e rest; simpl.
  { intros [= <- <-]. split_and!; [done|constructor|done|by left]. }
  destruct (Z.eqb_spec c 47) as [->|]; simpl.
  { intros [= <- <-]. split_and!; [done|by constructor|done|]. right. by eexists. }
  destruct (Z.eqb_spec c 0); [done|]. destruct (split_elem path) as [e' rest'].
  intros [= <- <-]. destruct (IH e' rest' eq_refl) as (-> & H1 & H2 & H3).
  split_and!; [done|done| |done]. by rewrite H2.
Qed.

Lemma cstr_nonzero l : Forall (fun c => c <> 0) l -> cstr l = l.
Proof. induction 1 as [|c l Hc Hl IH]; simpl; [done|]. destruct (Z.eqb_spec c 0); [done|]. by rewrite IH. Qed.
Lemma cstr_app0 l t : Forall (fun c => c <> 0) l -> cstr (l ++ 0 :: t) = l.
Proof. induction 1 as [|c l Hc Hl IH]; simpl; [done|]. destruct (Z.eqb_spec c 0); [done|]. by rewrite IH. Qed.

(** The buffer [name] after an element is stored holds its first [DIRSIZ]
    bytes. *)
Lemma name_stored name e :
  length name = DIRSIZ -> Forall (fun c => c <> 0) e ->
  let name' := if (DIRSIZ <=? length e)%nat then splice name 0 (take DIRSIZ e) else splice name 0 (e ++ [0]) in
  length name' = DIRSIZ /\ cstr name' = take DIRSIZ e.
Proof.
  intros Hn He. cbv zeta. destruct (Nat.leb_spec DIRSIZ (length e)) as [Hl|Hl].
  - assert (length (take DIRSIZ e) = DIRSIZ) as Ht by (rewrite length_take; lia).
    rewrite length_splice by lia. split; [done|]. unfold splice.
    rewrite Ht, drop_ge, app_nil_r by lia. simpl. apply cstr_nonzero. by apply Forall_take.
  - rewrite length_splice by (rewrite length_app; simpl; lia). split; [done|].
    unfold splice. simpl. rewrite <- app_assoc. simpl. rewrite cstr_app0 by done.
    by rewrite firstn_all2 by lia.
Qed.

(** C35: [skipelem] cuts a path into its elements.  On a path with no element
    left it answers none; otherwise it stores the first [DIRSIZ] bytes of the
    next element in [name] and returns a strictly shorter path that holds the
    remaining elements, so that repeated calls end and visit exactly the
    non-empty elements between the slashes, in order. *)
Theorem skipelem_components path name :
  Forall (fun c => c <> 0) path -> length name = DIRSIZ ->
  match components path with
  | [] => skipelem path name = None
  | e :: es => exists rest name', skipelem path name = Some (rest, name') /\
      components rest = es /\ (length rest < length path)%nat /\ Forall (fun c => c <> 0) rest /\
      length name' = DIRSIZ /\ cstr name' = take DIRSIZ e
  end.
Proof.
  intros Hp Hn. unfold skipelem. rewrite <- components_skip.
  pose proof (skip_slashes_forall _ _ Hp) as Hp'. pose proof (skip_slashes_length path) as Hlen.
  pose proof (skip_slashes_hd path) as Hhd. destruct (skip_slashes path) as [|c p] eqn:Es; [done|].
  apply Forall_cons in Hp' as [Hc Hp']. simpl in Hhd. cbn [hd0].
  destruct (Z.eqb_spec c 0); [done|]. destruct (split_elem (c :: p)) as [e rest] eqn:He.
  destruct (split_elem_splits (c :: p) e rest) as (Epath & Hrest & Hsp & Hend); [by constructor|done|].
  assert (e <> []) as Hne.
  { intros ->. simpl in Epath. subst rest. destruct Hend as [|[r [=]]]; [done|congruence]. }
  assert (Forall (fun c => c <> 0) e) as Hez.
  { assert (Forall (fun c => c <> 0) (e ++ rest)) as Ha by (rewrite <- Epath; by constructor).
    by apply Forall_app in Ha as [? _]. }
  unfold components. rewrite Hsp, filter_cons_True by done.
  destruct (name_stored name e Hn Hez) as [Hl' Hc'].
  eexists _, _. split; [reflexivity|]. split_and!; [| | |exact Hl'|exact Hc'].
  - fold (components (skip_slashes rest)). rewrite components_skip.
    destruct Hend as [-> |[r ->]]; [done|]. by rewrite components_slash.
  - pose proof (skip_slashes_length rest). apply (f_equal length) in Epath.
    rewrite length_app in Epath. simpl in Epath. destruct e; [done|]. simpl in Epath, Hlen. lia.
  - by apply skip_slashes_forall.
Qed.

Module PureDemo.
(** "//usr/bin" *)
Definition p1 : list Z := [47; 47; 117; 115; 114; 47; 98; 105; 110].
Lemma skipelem_components_witness : exists rest name',
  skipelem p1 (replicate 14 0) = Some (rest, name') /\ components rest = [[98; 105; 110]] /\
  cstr name' = [117; 115; 114].
Proof.
  destruct (skipelem_components p1 (replicate 14 0)) as (rest & name' & H & Hr & _ & _ & _ & Hc).
  - repeat constructor; discriminate.
  - reflexivity.
  - exists rest, name'. split; [exact H|]. split; [exact Hr|exact Hc].
Defined.
End PureDemo.
