(* ===== verification/BlockCache.v ===== *)
(** * The block cache as an abstract store

    To its clients the cache of kernel/bio.c is a store of blocks: each block
    has a content, which may be newer than the disk's, a number of pins, and
    may be held (locked) by the running process.  [cache_rel] relates the
    buffers to such a store; the operations of the cache implement those of
    the store as long as there is a buffer for every block in use. *)

From stdpp Require Import functions.
From S2P Require Import Prelude Bytes Params CString Spinlock State Kalloc Vm Sched SchedProofs Bio Lru BioProofs.

Record bstore := mk_bstore {
  st_disk : Z -> list Z;       (* on the disk *)
  st_cont : Z -> list Z;       (* as the kernel sees it *)
  st_pins : gmap Z nat;        (* pins, at least one each *)
  st_held : gmap Z nat;        (* blocks held, with their buffers *)
}.

Definition busy (σ : bstore) : gset Z := dom (st_pins σ) ∪ dom (st_held σ).
Definition refs (σ : bstore) (b : Z) : Z :=
  Z.of_nat (default O (st_pins σ !! b)) + (if decide (is_Some (st_held σ !! b)) then 1 else 0).

Definition st_hold (b : Z) (i : nat) (σ : bstore) : bstore :=
  mk_bstore (st_disk σ) (st_cont σ) (st_pins σ) (<[b := i]> (st_held σ)).
Definition st_release (b : Z) (σ : bstore) : bstore :=
  mk_bstore (st_disk σ) (st_cont σ) (st_pins σ) (delete b (st_held σ)).
Definition st_set (b : Z) (d : list Z) (σ : bstore) : bstore :=
  mk_bstore (st_disk σ) (<[b := d]> (st_cont σ)) (st_pins σ) (st_held σ).
Definition st_write (b : Z) (σ : bstore) : bstore :=
  mk_bstore (<[b := st_cont σ b]> (st_disk σ)) (st_cont σ) (st_pins σ) (st_held σ).
Definition st_pin (b : Z) (σ : bstore) : bstore :=
  mk_bstore (st_disk σ) (st_cont σ) (<[b := S (default O (st_pins σ !! b))]> (st_pins σ)) (st_held σ).
Definition st_unpin (b : Z) (σ : bstore) : bstore :=
  mk_bstore (st_disk σ) (st_cont σ)
    (match st_pins σ !! b with
     | Some (S (S n)) => <[b := S n]> (st_pins σ)
     | _ => delete b (st_pins σ)
     end) (st_held σ).

(** The buffers [bs] and the disk [d] hold the store [σ] for device [dev],
    seen by a process with id [pid]. *)
Record bufs_rel (dev pid : Z) (d : gmap Z (list Z)) (bs : list buf) (σ : bstore) : Prop := {
  cr_lru : exists l, lru bs l;
  cr_uniq : forall i j, (i < NBUF)%nat -> (j < NBUF)%nat ->
    b_dev (bs !!! i) = dev -> b_dev (bs !!! j) = dev ->
    b_blockno (bs !!! i) = b_blockno (bs !!! j) -> i = j;
  cr_refs : forall i, (i < NBUF)%nat ->
    b_refcnt (bs !!! i) = if decide (b_dev (bs !!! i) = dev) then refs σ (b_blockno (bs !!! i)) else 0;
  cr_cached : forall b, b ∈ busy σ -> exists i, (i < NBUF)%nat /\
    b_dev (bs !!! i) = dev /\ b_blockno (bs !!! i) = b /\ z2b (b_valid (bs !!! i)) = true;
  cr_held : forall b i, st_held σ !! b = Some i -> (i < NBUF)%nat /\
    b_dev (bs !!! i) = dev /\ b_blockno (bs !!! i) = b /\ z2b (b_valid (bs !!! i)) = true /\
    b_lock (bs !!! i) = mk_sleeplock 1 pid;
  cr_unlocked : forall i, (i < NBUF)%nat ->
    (b_dev (bs !!! i) = dev -> st_held σ !! b_blockno (bs !!! i) = None) ->
    sl_locked (b_lock (bs !!! i)) = 0;
  cr_cont : forall i, (i < NBUF)%nat -> b_dev (bs !!! i) = dev ->
    if z2b (b_valid (bs !!! i))
    then b_data (bs !!! i) = st_cont σ (b_blockno (bs !!! i))
    else st_cont σ (b_blockno (bs !!! i)) = st_disk σ (b_blockno (bs !!! i));
  cr_disk : forall b, disk_block d b = st_disk σ b;
  cr_clean : forall b, b ∉ busy σ -> st_cont σ b = st_disk σ b;
  cr_pins : forall b n, st_pins σ !! b = Some n -> (0 < n)%nat /\ Z.of_nat n < 2 ^ 31;
}.

Record cache_rel (dev : Z) (p : nat) (s : kernel) (σ : bstore) : Prop := {
  ca_cur : k_cur s = Some p;
  ca_locks : k_held s = [];
  ca_procs : length (k_procs s) = NPROC;
  ca_bufs : bufs_rel dev (pid_of s p) (k_disk s) (k_bufs s) σ;
}.

Lemma ca_quiet dev p s σ : cache_rel dev p s σ -> quiet s.
Proof.
  intros [_ H ? _]. split_and!; [done| |]; rewrite H; [intros i|]; apply not_elem_of_nil.
Qed.

Lemma refs_busy σ b :
  (forall n, st_pins σ !! b = Some n -> (0 < n)%nat) -> b ∈ busy σ <-> 0 < refs σ b.
Proof.
  intros Hpos. unfold busy, refs. rewrite elem_of_union, !elem_of_dom.
  destruct (st_pins σ !! b) as [n|] eqn:Hp; simpl.
  - specialize (Hpos n eq_refl). split; [intros _; case_decide; lia|]. intros _. left. by exists n.
  - case_decide as Hh; split; intros H; try lia; [by right|]. destruct H as [[? ?]|?]; done.
Qed.

(** Stores are compared block by block. *)
#[export] Instance bstore_equiv : Equiv bstore := fun σ σ' =>
  (forall b, st_disk σ b = st_disk σ' b) /\ (forall b, st_cont σ b = st_cont σ' b) /\
  st_pins σ = st_pins σ' /\ st_held σ = st_held σ'.

#[export] Instance bstore_equivalence : Equivalence (≡@{bstore}).
Proof.
  split.
  - done.
  - intros σ σ' (H1 & H2 & H3 & H4). by split_and!.
  - intros σ1 σ2 σ3 (H1 & H2 & H3 & H4) (K1 & K2 & K3 & K4).
    split_and!; [intros b|intros b| |]; congruence.
Qed.

#[export] Instance bufs_rel_proper dev pid d bs : Proper ((≡@{bstore}) ==> iff) (bufs_rel dev pid d bs).
Proof.
  assert (forall σ σ' : bstore, σ ≡ σ' -> bufs_rel dev pid d bs σ -> bufs_rel dev pid d bs σ') as H.
  { intros [d1 c1 pi1 h1] [d2 c2 pi2 h2] (Hd & Hc & Hp & Hh) R. simpl in *. subst.
    destruct R as [R1 R2 R3 R4 R5 R6 R7 R8 R9 R10].
    constructor; try done; simpl in *.
    - intros i Hi Hdev. specialize (R7 i Hi Hdev). by rewrite <- Hc, <- Hd.
    - intros b. by rewrite <- Hd.
    - intros b Hb. rewrite <- Hc, <- Hd. by apply R9. }
  intros σ σ' E. split; by apply H.
Qed.

#[export] Instance cache_rel_proper dev p s : Proper ((≡@{bstore}) ==> iff) (cache_rel dev p s).
Proof. intros σ σ' E. split; intros [? ? ? R]; constructor; try done; [by rewrite <- E|by rewrite E]. Qed.

Lemma st_set_set b x y σ : st_set b x (st_set b y σ) ≡ st_set b x σ.
Proof.
  split_and!; try done. intros b'. simpl. destruct (decide (b' = b)) as [->|].
  - by rewrite !fn_lookup_insert.
  - by rewrite !fn_lookup_insert_ne.
Qed.

Section Rel.
Context {dev pid : Z} {d : gmap Z (list Z)} {bs : list buf} {σ : bstore}.
Context (R : bufs_rel dev pid d bs σ).

Lemma rel_busy b : b ∈ busy σ <-> 0 < refs σ b.
Proof. apply refs_busy. intros n Hn. apply (cr_pins _ _ _ _ _ R b n Hn). Qed.

Lemma rel_refs_small b : 0 <= refs σ b <= 2 ^ 31.
Proof.
  unfold refs. destruct (st_pins σ !! b) as [n|] eqn:Hp; simpl.
  - apply (cr_pins _ _ _ _ _ R) in Hp. case_decide; lia.
  - case_decide; lia.
Qed.

Lemma rel_unused_or_busy i :
  (i < NBUF)%nat -> b_refcnt (bs !!! i) <> 0 ->
  b_dev (bs !!! i) = dev /\ b_blockno (bs !!! i) ∈ busy σ.
Proof.
  intros Hi Hr. pose proof (cr_refs _ _ _ _ _ R i Hi) as E. case_decide as Hd; [|lia].
  split; [done|]. apply rel_busy. pose proof (rel_refs_small (b_blockno (bs !!! i))). lia.
Qed.

(** Fewer blocks in use than buffers leave a buffer unused. *)
Lemma rel_room : (size (busy σ) < NBUF)%nat -> exists i, (i < NBUF)%nat /\ b_refcnt (bs !!! i) = 0.
Proof.
  intros Hsz.
  destruct (decide (Forall (fun i => b_refcnt (bs !!! i) <> 0) (seq 0 NBUF))) as [Hall|Hex].
  - exfalso. rewrite Forall_forall in Hall.
    assert (forall i, (i < NBUF)%nat -> b_dev (bs !!! i) = dev /\ b_blockno (bs !!! i) ∈ busy σ) as Hb.
    { intros i Hi. apply rel_unused_or_busy; [done|]. apply Hall, elem_of_seq. lia. }
    assert (length ((fun i => b_blockno (bs !!! i)) <$> seq 0 NBUF) <= size (busy σ))%nat as Hle.
    { change (size (busy σ)) with (length (elements (busy σ))).
      apply submseteq_length, NoDup_submseteq.
      - apply NoDup_fmap_2_strong; [|apply NoDup_seq].
        intros i j Hi%elem_of_seq Hj%elem_of_seq Hij.
        apply (cr_uniq _ _ _ _ _ R); try lia; try done; by apply Hb; lia.
      - intros b (i & -> & Hi%elem_of_seq)%list_elem_of_fmap. apply elem_of_elements, Hb. lia. }
    rewrite length_fmap, length_seq in Hle. lia.
  - apply not_Forall_Exists in Hex; [|apply _]. apply Exists_exists in Hex as (i & Hi%elem_of_seq & Hr).
    exists i. split; [lia|]. destruct (decide (b_refcnt (bs !!! i) = 0)); [done|]. by destruct Hr.
Qed.

(** A block's own buffer. *)
Lemma rel_not_cached i b :
  (i < NBUF)%nat -> caches dev b (bs !!! i) = false -> b_dev (bs !!! i) = dev -> b_blockno (bs !!! i) <> b.
Proof. unfold caches. intros _ Hc <- <-. by rewrite !Z.eqb_refl in Hc. Qed.

Lemma rel_pick b l :
  lru bs l -> b ∈ busy σ \/ (size (busy σ) < NBUF)%nat ->
  exists i, pick dev b bs l = Some i /\ (i < NBUF)%nat /\
    (caches dev b (bs !!! i) = true \/
     (b_refcnt (bs !!! i) = 0) /\ (b ∉ busy σ) /\
     (forall j, (j < NBUF)%nat -> caches dev b (bs !!! j) = false)).
Proof.
  intros H Hroom. unfold pick.
  destruct (snd <$> list_find _ l) as [i|] eqn:F.
  { apply find_in in F as [Hi Hc]. exists i. rewrite (lru_in _ _ _ H) in Hi. auto. }
  pose proof (find_none (fun i => caches dev b (bs !!! i)) _ F) as Hnone.
  assert (b ∉ busy σ) as Hnb.
  { intros (i & Hi & Hd & Hb & _)%(cr_cached _ _ _ _ _ R).
    rewrite <- (lru_in _ _ _ H) in Hi. apply Hnone in Hi. unfold caches in Hi.
    by rewrite Hd, Hb, !Z.eqb_refl in Hi. }
  destruct Hroom as [|Hroom]; [done|]. destruct (rel_room Hroom) as (j & Hj & Hr).
  destruct (snd <$> list_find _ (rev l)) as [i|] eqn:F2.
  - apply find_in in F2 as [Hi Hc]. rewrite <- Permutation_rev, (lru_in _ _ _ H) in Hi.
    exists i. split_and!; [done|done|]. right. split_and!; [lia|done|].
    intros k Hk. apply Hnone. by rewrite (lru_in _ _ _ H).
  - pose proof (find_none (fun i => b_refcnt (bs !!! i) =? 0) _ F2 j) as Hn.
    rewrite <- Permutation_rev, (lru_in _ _ _ H) in Hn. specialize (Hn Hj). simpl in Hn. lia.
Qed.
End Rel.

(** ** Changing one buffer *)

Lemma core_fields b b' : bcore b = bcore b' ->
  b_dev b = b_dev b' /\ b_blockno b = b_blockno b' /\ b_valid b = b_valid b' /\
  b_lock b = b_lock b' /\ b_refcnt b = b_refcnt b' /\ b_data b = b_data b'.
Proof. intros H. split_and!; by eapply bcore_field. Qed.

(** What a buffer [x] in slot [i], and the store around it, must satisfy to
    stand for block [b]. *)
Record stands_for (dev pid : Z) (σ : bstore) (b : Z) (i : nat) (x : buf) : Prop := {
  sf_dev : b_dev x = dev;
  sf_blockno : b_blockno x = b;
  sf_refs : b_refcnt x = refs σ b;
  sf_busy : b ∈ busy σ -> z2b (b_valid x) = true;
  sf_cont : if z2b (b_valid x) then b_data x = st_cont σ b else st_cont σ b = st_disk σ b;
  sf_lock : match st_held σ !! b with
            | Some j => j = i /\ b_lock x = mk_sleeplock 1 pid
            | None => sl_locked (b_lock x) = 0
            end;
  sf_clean : b ∉ busy σ -> st_cont σ b = st_disk σ b;
  sf_pins : forall n, st_pins σ !! b = Some n -> (0 < n)%nat /\ Z.of_nat n < 2 ^ 31;
}.

(** Two stores that differ in block [b] only. *)
Definition agree_off (b : Z) (σ σ' : bstore) : Prop :=
  forall b', b' <> b ->
    st_disk σ' b' = st_disk σ b' /\ st_cont σ' b' = st_cont σ b' /\
    st_pins σ' !! b' = st_pins σ !! b' /\ st_held σ' !! b' = st_held σ !! b'.

Lemma agree_refs b σ σ' b' : agree_off b σ σ' -> b' <> b -> refs σ' b' = refs σ b'.
Proof. intros H (_ & _ & E1 & E2)%H. unfold refs. by rewrite E1, E2. Qed.
Lemma agree_busy b σ σ' b' : agree_off b σ σ' -> b' <> b -> b' ∈ busy σ' <-> b' ∈ busy σ.
Proof.
  intros H (_ & _ & E1 & E2)%H. unfold busy. by rewrite !elem_of_union, !elem_of_dom, E1, E2.
Qed.

Section Update.
Context {dev pid : Z} {d : gmap Z (list Z)} {bs : list buf} {σ : bstore}.
Context (R : bufs_rel dev pid d bs σ).
Context {d' : gmap Z (list Z)} {bs' : list buf} {σ' : bstore} {b : Z} {i : nat} {x : buf}.
Context (Hi : (i < NBUF)%nat).
Context (Hwas : caches dev b (bs !!! i) = true \/
  (b_refcnt (bs !!! i) = 0) /\ (b ∉ busy σ) /\
  (forall j, (j < NBUF)%nat -> caches dev b (bs !!! j) = false)).
Context (Hcore : forall j, bcore (bs' !!! j) = bcore (if decide (j = i) then x else bs !!! j)).
Context (Hag : agree_off b σ σ').
Context (Hx : stands_for dev pid σ' b i x).

Lemma upd_off j : (j < NBUF)%nat -> j <> i -> b_dev (bs !!! j) = dev -> b_blockno (bs !!! j) <> b.
Proof.
  intros Hj Hne Hd Hb. destruct Hwas as [Hc|(_ & _ & Hn)].
  - apply andb_true_iff in Hc as [Hc1 Hc2]. apply Hne, (cr_uniq _ _ _ _ _ R); try done; lia.
  - specialize (Hn j Hj). unfold caches in Hn. rewrite Hd, Hb, !Z.eqb_refl in Hn. done.
Qed.

Lemma upd_other j : j <> i ->
  b_dev (bs' !!! j) = b_dev (bs !!! j) /\ b_blockno (bs' !!! j) = b_blockno (bs !!! j) /\
  b_valid (bs' !!! j) = b_valid (bs !!! j) /\ b_lock (bs' !!! j) = b_lock (bs !!! j) /\
  b_refcnt (bs' !!! j) = b_refcnt (bs !!! j) /\ b_data (bs' !!! j) = b_data (bs !!! j).
Proof. intros Hne. apply core_fields. rewrite Hcore. by rewrite decide_False. Qed.

Lemma upd_this :
  b_dev (bs' !!! i) = dev /\ b_blockno (bs' !!! i) = b /\
  b_valid (bs' !!! i) = b_valid x /\ b_lock (bs' !!! i) = b_lock x /\
  b_refcnt (bs' !!! i) = refs σ' b /\ b_data (bs' !!! i) = b_data x.
Proof.
  assert (bcore (bs' !!! i) = bcore x) as (-> & -> & -> & -> & -> & ->)%core_fields.
  { rewrite Hcore. by rewrite decide_True. }
  destruct Hx. done.
Qed.

(** A buffer in use for another block is another buffer. *)
Lemma upd_busy_other b' j :
  b' <> b -> b' ∈ busy σ -> b_dev (bs !!! j) = dev -> b_blockno (bs !!! j) = b' -> j <> i.
Proof.
  intros Hne Hb' Hd Hb ->. destruct Hwas as [Hc|(Hr & _ & _)].
  - apply andb_true_iff in Hc as [_ Hc]. lia.
  - pose proof (cr_refs _ _ _ _ _ R i Hi) as Er. rewrite decide_True, Hb in Er by done.
    apply (rel_busy R) in Hb'. lia.
Qed.

Lemma upd_uniq j k :
  (j < NBUF)%nat -> (k < NBUF)%nat -> b_dev (bs' !!! j) = dev -> b_dev (bs' !!! k) = dev ->
  b_blockno (bs' !!! j) = b_blockno (bs' !!! k) -> j = k.
Proof.
  intros Hj Hk. destruct upd_this as (I1 & I2 & _).
  destruct (decide (j = i)) as [->|Hji], (decide (k = i)) as [->|Hki]; [done| | |].
  - destruct (upd_other k Hki) as (-> & -> & _). rewrite I2. intros _ Hd E.
    by destruct (upd_off k Hk Hki Hd).
  - destruct (upd_other j Hji) as (-> & -> & _). rewrite I2. intros Hd _ E.
    by destruct (upd_off j Hj Hji Hd).
  - destruct (upd_other j Hji) as (-> & -> & _), (upd_other k Hki) as (-> & -> & _).
    by apply (cr_uniq _ _ _ _ _ R).
Qed.

Lemma upd_refs j : (j < NBUF)%nat ->
  b_refcnt (bs' !!! j) =
  if decide (b_dev (bs' !!! j) = dev) then refs σ' (b_blockno (bs' !!! j)) else 0.
Proof.
  intros Hj. destruct (decide (j = i)) as [->|Hji].
  - destruct upd_this as (-> & -> & _ & _ & -> & _). by rewrite decide_True.
  - destruct (upd_other j Hji) as (-> & -> & _ & _ & -> & _). rewrite (cr_refs _ _ _ _ _ R) by done.
    case_decide as Hd; [|done]. symmetry. eapply agree_refs; [done|]. by apply upd_off.
Qed.

Lemma upd_cached b' : b' ∈ busy σ' -> exists j, (j < NBUF)%nat /\
  b_dev (bs' !!! j) = dev /\ b_blockno (bs' !!! j) = b' /\ z2b (b_valid (bs' !!! j)) = true.
Proof.
  intros Hb'. destruct (decide (b' = b)) as [->|Hne].
  - exists i. destruct upd_this as (-> & -> & -> & _). split_and!; try done. by apply Hx.
  - rewrite (agree_busy b σ) in Hb' by done.
    pose proof Hb' as (j & Hj & Hd & Hbj & Hv)%(cr_cached _ _ _ _ _ R).
    exists j. destruct (upd_other j) as (-> & -> & -> & _); [by eapply upd_busy_other|]. done.
Qed.

Lemma held_busy (τ : bstore) b' j : st_held τ !! b' = Some j -> b' ∈ busy τ.
Proof. intros H. apply elem_of_union_r, elem_of_dom. by exists j. Qed.

Lemma upd_held b' j : st_held σ' !! b' = Some j -> (j < NBUF)%nat /\
  b_dev (bs' !!! j) = dev /\ b_blockno (bs' !!! j) = b' /\ z2b (b_valid (bs' !!! j)) = true /\
  b_lock (bs' !!! j) = mk_sleeplock 1 pid.
Proof.
  intros Hh. pose proof (held_busy _ _ _ Hh) as Hb. destruct (decide (b' = b)) as [->|Hne].
  - pose proof (sf_lock _ _ _ _ _ _ Hx) as Hl. rewrite Hh in Hl. destruct Hl as [-> Hl].
    destruct upd_this as (-> & -> & -> & -> & _). split_and!; try done. by apply Hx.
  - rewrite (agree_busy b σ) in Hb by done. destruct (Hag b' Hne) as (_ & _ & _ & E). rewrite E in Hh.
    pose proof (cr_held _ _ _ _ _ R _ _ Hh) as (Hj & Hd & Hbj & Hv & Hl).
    destruct (upd_other j) as (-> & -> & -> & -> & _); [by eapply upd_busy_other|]. done.
Qed.

Lemma upd_unlocked j : (j < NBUF)%nat ->
  (b_dev (bs' !!! j) = dev -> st_held σ' !! b_blockno (bs' !!! j) = None) ->
  sl_locked (b_lock (bs' !!! j)) = 0.
Proof.
  intros Hj. destruct (decide (j = i)) as [->|Hji].
  - destruct upd_this as (-> & -> & _ & -> & _). intros Hh. specialize (Hh eq_refl).
    pose proof (sf_lock _ _ _ _ _ _ Hx) as Hl. by rewrite Hh in Hl.
  - destruct (upd_other j Hji) as (-> & -> & _ & -> & _). intros Hh.
    apply (cr_unlocked _ _ _ _ _ R); [done|]. intros Hd.
    destruct (Hag (b_blockno (bs !!! j))) as (_ & _ & _ & E); [by apply upd_off|].
    rewrite <- E. auto.
Qed.

Lemma upd_cont j : (j < NBUF)%nat -> b_dev (bs' !!! j) = dev ->
  if z2b (b_valid (bs' !!! j)) then b_data (bs' !!! j) = st_cont σ' (b_blockno (bs' !!! j))
  else st_cont σ' (b_blockno (bs' !!! j)) = st_disk σ' (b_blockno (bs' !!! j)).
Proof.
  intros Hj. destruct (decide (j = i)) as [->|Hji].
  - destruct upd_this as (_ & -> & -> & _ & _ & ->). intros _. apply Hx.
  - destruct (upd_other j Hji) as (-> & -> & -> & _ & _ & ->). intros Hd.
    destruct (Hag (b_blockno (bs !!! j))) as (-> & -> & _); [by apply upd_off|].
    by apply (cr_cont _ _ _ _ _ R).
Qed.

Lemma rel_update :
  (exists l, lru bs' l) -> (forall b', disk_block d' b' = st_disk σ' b') ->
  bufs_rel dev pid d' bs' σ'.
Proof.
  intros Hlru Hdisk. constructor; try done.
  - apply upd_uniq.
  - apply upd_refs.
  - apply upd_cached.
  - apply upd_held.
  - apply upd_unlocked.
  - apply upd_cont.
  - intros b' Hb'. destruct (decide (b' = b)) as [->|Hne]; [by apply Hx|].
    rewrite (agree_busy b σ) in Hb' by done. destruct (Hag b' Hne) as (-> & -> & _).
    by apply (cr_clean _ _ _ _ _ R).
  - intros b' n. destruct (decide (b' = b)) as [->|Hne]; [apply Hx|].
    destruct (Hag b' Hne) as (_ & _ & -> & _). apply (cr_pins _ _ _ _ _ R).
Qed.
End Update.

(** Only buffers, the disk and the states of processes differ; the processes
    keep their page tables. *)
Record io_only (s s' : kernel) : Prop := {
  io_only_eq : s' = set_k_bufs (k_bufs s') (set_k_disk (k_disk s') (set_k_procs (k_procs s') s));
  io_only_roots : p_pagetable <$> k_procs s' = p_pagetable <$> k_procs s;
}.

#[export] Instance io_only_preorder : PreOrder io_only.
Proof.
  split.
  - intros s. constructor; [by destruct s|done].
  - intros s1 s2 s3 [H1 P1] [H2 P2]. constructor; [rewrite H2, H1; by destruct s1|congruence].
Qed.

Lemma io_only_log s s' : io_only s s' -> k_log s' = k_log s.
Proof. intros [-> _]. done. Qed.

Lemma io_only_bufs s bs : io_only s (set_k_bufs bs s).
Proof. constructor; [by destruct s|done]. Qed.
Lemma io_only_disk s d : io_only s (set_k_disk d s).
Proof. constructor; [by destruct s|done]. Qed.
Lemma wake_roots c s : p_pagetable <$> k_procs (wake c s) = p_pagetable <$> k_procs s.
Proof.
  unfold wake. simpl. rewrite fmap_imap. apply list_eq. intros i. rewrite list_lookup_imap, list_lookup_fmap.
  destruct (k_procs s !! i) as [q|]; simpl; [|done]. f_equal. unfold woken.
  repeat case_bool_decide; done.
Qed.
Lemma io_only_wake s c bs : io_only s (set_k_bufs bs (wake c s)).
Proof. constructor; [by destruct s|]. apply wake_roots. Qed.
#[export] Hint Resolve io_only_bufs io_only_disk io_only_wake : core.

(** ** The operations *)

Lemma agree_hold b i σ : agree_off b σ (st_hold b i σ).
Proof. intros b' Hne. simpl. by rewrite lookup_insert_ne. Qed.
Lemma agree_release b σ : agree_off b σ (st_release b σ).
Proof. intros b' Hne. simpl. by rewrite lookup_delete_ne. Qed.
Lemma agree_set b dt σ : agree_off b σ (st_set b dt σ).
Proof. intros b' Hne. simpl. by rewrite fn_lookup_insert_ne. Qed.
Lemma agree_write b σ : agree_off b σ (st_write b σ).
Proof. intros b' Hne. simpl. by rewrite fn_lookup_insert_ne. Qed.
Lemma agree_pin b σ : agree_off b σ (st_pin b σ).
Proof. intros b' Hne. simpl. by rewrite lookup_insert_ne. Qed.
Lemma agree_unpin b σ : agree_off b σ (st_unpin b σ).
Proof.
  intros b' Hne. simpl.
  destruct (st_pins σ !! b) as [[|[|n]]|]; by rewrite ?lookup_insert_ne, ?lookup_delete_ne.
Qed.

Lemma refs_hold b i σ : st_held σ !! b = None -> refs (st_hold b i σ) b = refs σ b + 1.
Proof.
  intros H. unfold refs. simpl. rewrite lookup_insert_eq, H.
  rewrite decide_True by (by exists i). rewrite decide_False by (by intros [? ?]). lia.
Qed.

Section Ops.
Context {E : Env} {D : Disk} {RD : ReadsBlocks D}.

Lemma loaded_stands dev pid d bs σ b i :
  bufs_rel dev pid d bs σ -> (i < NBUF)%nat -> st_held σ !! b = None ->
  (caches dev b (bs !!! i) = true \/
   (b_refcnt (bs !!! i) = 0) /\ (b ∉ busy σ) /\
   (forall j, (j < NBUF)%nat -> caches dev b (bs !!! j) = false)) ->
  stands_for dev pid (st_hold b i σ) b i (loaded dev b pid d (bs !!! i)).
Proof.
  intros R Hi Hnh Hwas. pose proof (rel_refs_small R b) as Hsmall.
  assert (b ∈ busy (st_hold b i σ)) as Hbusy.
  { eapply held_busy. simpl. apply lookup_insert_eq. }
  assert (forall n, st_pins (st_hold b i σ) !! b = Some n -> (0 < n)%nat /\ Z.of_nat n < 2 ^ 31)
    as Hpins by apply (cr_pins _ _ _ _ _ R).
  pose proof (refs_hold b i σ Hnh) as Hrefs.
  unfold loaded, gotten. destruct Hwas as [Hc|(Hr & Hnb & Hn)].
  - rewrite Hc. pose proof Hc as Hc'. apply andb_true_iff in Hc' as [Hd%Z.eqb_eq Hb%Z.eqb_eq].
    pose proof (cr_refs _ _ _ _ _ R i Hi) as Er. rewrite decide_True, Hb in Er by done.
    pose proof (cr_cont _ _ _ _ _ R i Hi Hd) as Ec. rewrite Hb in Ec. simpl.
    destruct (z2b (b_valid (bs !!! i))) eqn:V; constructor; simpl; try done;
      rewrite ?V, ?lookup_insert_eq, ?Hrefs, ?Er; try done; try (apply u32_small; lia).
    by rewrite (cr_disk _ _ _ _ _ R).
  - rewrite (Hn i Hi). simpl.
    pose proof (cr_clean _ _ _ _ _ R b Hnb) as Ec.
    assert (refs σ b = 0) as E0 by (rewrite (rel_busy R) in Hnb; lia).
    constructor; simpl; try done; rewrite ?lookup_insert_eq, ?Hrefs, ?E0; try done.
    by rewrite Ec, (cr_disk _ _ _ _ _ R).
Qed.

(** The block [b] in its buffer [i]. *)
Definition has_block (dev : Z) (s : kernel) (i : nat) (b : Z) : Prop :=
  b_dev (k_bufs s !!! i) = dev /\ b_blockno (k_bufs s !!! i) = b.

Lemma bread_rel dev p s σ b :
  cache_rel dev p s σ -> st_held σ !! b = None ->
  b ∈ busy σ \/ (size (busy σ) < NBUF)%nat ->
  wp (bread dev b) (fun i s' => cache_rel dev p s' (st_hold b i σ) /\ io_only s s') s.
Proof.
  intros [Hc Hh Hp R] Hnh Hroom. destruct (cr_lru _ _ _ _ _ R) as [l Hl].
  destruct (rel_pick R b l Hl Hroom) as (i & Hpick & Hi & Hwas).
  assert (sl_locked (b_lock (k_bufs s !!! i)) = 0) as Hlk.
  { apply (cr_unlocked _ _ _ _ _ R); [done|]. intros Hd.
    destruct (st_held σ !! b_blockno (k_bufs s !!! i)) as [j|] eqn:Hj; [|done]. exfalso.
    pose proof (held_busy _ _ _ Hj) as Hbz. destruct Hwas as [Hca|(Hr & _)].
    - apply andb_true_iff in Hca as [_ Hb%Z.eqb_eq]. congruence.
    - pose proof (cr_refs _ _ _ _ _ R i Hi) as Er. rewrite decide_True in Er by done.
      apply (rel_busy R) in Hbz. lia. }
  eapply wp_eq; [by eapply bread_run|]. split; [|auto].
  constructor; try done. simpl.
  pose proof (lru_len _ _ Hl) as Hlen.
  eapply (rel_update R Hi Hwas); [|apply agree_hold|by apply loaded_stands| |].
  - intros j. f_equal. case_decide as Hj; [subst|by rewrite list_lookup_total_alter_ne].
    rewrite list_lookup_total_alter_eq by lia. done.
  - exists l. apply lru_alter; [| |done]; intros x; unfold loaded, gotten;
      destruct (caches _ _ _); simpl; repeat case_match; done.
  - intros b'. simpl. apply (cr_disk _ _ _ _ _ R).
Qed.

(** A held block in its buffer. *)
Lemma held_buf dev p s σ b i :
  cache_rel dev p s σ -> st_held σ !! b = Some i ->
  (i < NBUF)%nat /\ caches dev b (k_bufs s !!! i) = true /\ owned s p i /\
  b_data (k_bufs s !!! i) = st_cont σ b /\ b_blockno (k_bufs s !!! i) = b /\
  b_refcnt (k_bufs s !!! i) = refs σ b /\ z2b (b_valid (k_bufs s !!! i)) = true.
Proof.
  intros [_ _ _ R] Hh. pose proof (cr_held _ _ _ _ _ R _ _ Hh) as (Hi & Hd & Hb & Hv & Hl).
  pose proof (cr_cont _ _ _ _ _ R i Hi Hd) as Hc. rewrite Hv, Hb in Hc.
  pose proof (cr_refs _ _ _ _ _ R i Hi) as Hr. rewrite decide_True, Hb in Hr by done.
  split_and!; try done. unfold caches. by rewrite Hd, Hb, !Z.eqb_refl.
Qed.

(** Changing the buffer of a held block. *)
Lemma held_update dev p s σ b i d' bs' σ' x :
  cache_rel dev p s σ -> st_held σ !! b = Some i -> agree_off b σ σ' ->
  stands_for dev (pid_of s p) σ' b i x ->
  (forall j, bcore (bs' !!! j) = bcore (if decide (j = i) then x else k_bufs s !!! j)) ->
  (exists l, lru bs' l) -> (forall b', disk_block d' b' = st_disk σ' b') ->
  bufs_rel dev (pid_of s p) d' bs' σ'.
Proof.
  intros H Hh Hag Hx Hcore Hl Hd. destruct (held_buf _ _ _ _ _ _ H Hh) as (Hi & Hc & _).
  eapply (rel_update (ca_bufs _ _ _ _ H) Hi (or_introl Hc)); done.
Qed.

Lemma alter_core f i (bs : list buf) j :
  (i < length bs)%nat ->
  bcore (alter f i bs !!! j) = bcore (if decide (j = i) then f (bs !!! i) else bs !!! j).
Proof.
  intros Hi. f_equal. case_decide as Hj; [subst|by rewrite list_lookup_total_alter_ne].
  by apply list_lookup_total_alter_eq.
Qed.

Lemma rel_len dev p s σ : cache_rel dev p s σ -> length (k_bufs s) = S NBUF.
Proof. intros H. destruct (cr_lru _ _ _ _ _ (ca_bufs _ _ _ _ H)) as [l Hl]. apply Hl. Qed.

(** Storing [f] of the data into the buffer of a held block. *)
Lemma set_data_rel dev p s σ b i f :
  cache_rel dev p s σ -> st_held σ !! b = Some i ->
  wp (upd_buf i (fun x => set_b_data (f (b_data x)) x))
     (fun _ s' => cache_rel dev p s' (st_set b (f (st_cont σ b)) σ) /\ io_only s s') s.
Proof.
  intros H Hh. pose proof (held_buf _ _ _ _ _ _ H Hh) as (Hi & Hc & Ho & Hd & Hb & Hr & Hv).
  pose proof (rel_len _ _ _ _ H) as Hlen. unfold upd_buf. kwp. split; [|auto].
  pose proof H as [? ? ? R]. constructor; try done. simpl.
  destruct (cr_lru _ _ _ _ _ R) as [l Hl].
  eapply (held_update _ _ _ _ _ _ _ _ _ (set_b_data (f (b_data (k_bufs s !!! i))) (k_bufs s !!! i)) H Hh).
  - apply agree_set.
  - pose proof (cr_held _ _ _ _ _ R _ _ Hh) as (_ & Hdev & _ & _ & Hlock).
    constructor; simpl; try done.
    + by rewrite Hv, fn_lookup_insert, Hd.
    + by rewrite Hh.
    + intros []. by eapply held_busy.
    + apply (cr_pins _ _ _ _ _ R).
  - intros j. apply (alter_core (fun x => set_b_data (f (b_data x)) x)). lia.
  - exists l. by apply lru_alter.
  - apply (cr_disk _ _ _ _ _ R).
Qed.

(** The driver moves the block to the disk. *)
Lemma write_rel dev p s σ b i :
  cache_rel dev p s σ -> st_held σ !! b = Some i ->
  wp (disk_transfer i true)
     (fun _ s' => cache_rel dev p s' (st_write b σ) /\ io_only s s') s.
Proof.
  intros H Hh. pose proof (held_buf _ _ _ _ _ _ H Hh) as (Hi & Hc & Ho & Hd & Hb & Hr & Hv).
  unfold disk_transfer. kwp. split; [|auto].
  pose proof H as [? ? ? R]. constructor; try done. simpl.
  eapply (held_update _ _ _ _ _ _ _ _ _ (k_bufs s !!! i) H Hh).
  - apply agree_write.
  - pose proof (cr_held _ _ _ _ _ R _ _ Hh) as (_ & Hdev & _ & _ & Hlock).
    constructor; simpl; try done.
    + by rewrite Hv.
    + by rewrite Hh.
    + intros []. by eapply held_busy.
    + apply (cr_pins _ _ _ _ _ R).
  - intros j. by case_decide; subst.
  - apply (cr_lru _ _ _ _ _ R).
  - intros b'. rewrite Hb, Hd. unfold disk_block. simpl.
    destruct (decide (b' = b)) as [->|].
    + by rewrite lookup_insert_eq, fn_lookup_insert.
    + rewrite lookup_insert_ne, fn_lookup_insert_ne by done. apply (cr_disk _ _ _ _ _ R).
Qed.

Lemma refs_release b i σ : st_held σ !! b = Some i -> refs (st_release b σ) b = refs σ b - 1.
Proof.
  intros H. unfold refs. simpl. rewrite lookup_delete_eq, H.
  rewrite decide_False by (by intros [? ?]). rewrite decide_True by (by exists i). lia.
Qed.

Lemma woken_pid c t me i q : p_pid (woken c t me i q) = p_pid q.
Proof. unfold woken. by repeat case_bool_decide. Qed.

Lemma wake_pid c s p : pid_of (wake c s) p = pid_of s p.
Proof.
  unfold pid_of, wake. simpl. rewrite !list_lookup_total_alt, list_lookup_imap.
  destruct (k_procs s !! p); simpl; [apply woken_pid|done].
Qed.

Lemma brelse_rel dev p s σ b i :
  cache_rel dev p s σ -> st_held σ !! b = Some i ->
  (st_pins σ !! b = None -> st_cont σ b = st_disk σ b) ->
  wp (brelse i) (fun _ s' => cache_rel dev p s' (st_release b σ) /\ io_only s s') s.
Proof.
  intros H Hh Hcl. pose proof (held_buf _ _ _ _ _ _ H Hh) as (Hi & Hc & Ho & Hd & Hb & Hr & Hv).
  pose proof (rel_len _ _ _ _ H) as Hlen.
  eapply wp_eq; [eapply brelse_run; [by eapply ca_quiet|apply H|apply H|done]|].
  split; [|auto]. pose proof H as [? ? ? R]. pose proof (rel_refs_small R b) as Hsmall.
  pose proof (refs_release b i σ Hh) as Hrr.
  assert (0 < refs σ b) as Hpos by (apply (rel_busy R); by eapply held_busy).
  constructor; try done; [simpl; by rewrite length_imap|].
  destruct (cr_lru _ _ _ _ _ R) as [l Hl]. simpl k_disk. simpl k_bufs.
  replace (pid_of _ p) with (pid_of s p) by (symmetry; apply wake_pid).
  eapply (held_update _ _ _ _ _ _ _ _ _ (unref (k_bufs s !!! i)) H Hh).
  - apply agree_release.
  - pose proof (cr_held _ _ _ _ _ R _ _ Hh) as (_ & Hdev & _ & _ & Hlock).
    constructor; simpl; try done.
    + rewrite Hr, Hrr. apply u32_small. lia.
    + by rewrite Hv.
    + by rewrite lookup_delete_eq.
    + intros Hnb. apply Hcl. unfold busy in Hnb. simpl in Hnb.
      apply not_elem_of_union in Hnb as [Hnb _]. by apply not_elem_of_dom in Hnb.
    + apply (cr_pins _ _ _ _ _ R).
  - intros j. apply released_core. lia.
  - eexists. by apply released_lru.
  - apply (cr_disk _ _ _ _ _ R).
Qed.

Lemma pin_run g i s :
  LBcache ∉ k_held s ->
  (acquire LBcache ;; upd_buf i g ;; release LBcache) s =
  Ok tt (set_k_bufs (alter g i (k_bufs s)) s).
Proof.
  intros Hh. rewrite bind_acquire by done. unfold upd_buf. run_steps.
  erewrite release_top by done. by destruct s.
Qed.

Lemma count_rel dev p s σ σ' b i g :
  cache_rel dev p s σ -> st_held σ !! b = Some i -> agree_off b σ σ' ->
  stands_for dev (pid_of s p) σ' b i (g (k_bufs s !!! i)) ->
  (forall x, b_next (g x) = b_next x) -> (forall x, b_prev (g x) = b_prev x) ->
  st_disk σ' = st_disk σ ->
  wp (acquire LBcache ;; upd_buf i g ;; release LBcache)
     (fun _ s' => cache_rel dev p s' σ' /\ io_only s s') s.
Proof.
  intros H Hh Hag Hx Hn Hp Hdk. pose proof (rel_len _ _ _ _ H) as Hlen.
  pose proof H as [? Hl ? R]. eapply wp_eq; [apply pin_run; rewrite Hl; apply not_elem_of_nil|].
  split; [|auto]. constructor; try done. simpl. destruct (cr_lru _ _ _ _ _ R) as [l Hlru].
  destruct (held_buf _ _ _ _ _ _ H Hh) as (Hi & _).
  eapply (held_update _ _ _ _ _ _ _ _ _ (g (k_bufs s !!! i)) H Hh); try done.
  - intros j. apply alter_core. lia.
  - exists l. by apply lru_alter.
  - rewrite Hdk. apply (cr_disk _ _ _ _ _ R).
Qed.

Lemma bpin_rel dev p s σ b i :
  cache_rel dev p s σ -> st_held σ !! b = Some i ->
  Z.of_nat (default O (st_pins σ !! b)) + 1 < 2 ^ 31 ->
  wp (bpin i) (fun _ s' => cache_rel dev p s' (st_pin b σ) /\ io_only s s') s.
Proof.
  intros H Hh Hlt. pose proof (held_buf _ _ _ _ _ _ H Hh) as (Hi & Hc & Ho & Hd & Hb & Hr & Hv).
  pose proof H as [? ? ? R]. pose proof (rel_refs_small R b) as Hsmall.
  pose proof (cr_held _ _ _ _ _ R _ _ Hh) as (_ & Hdev & _ & _ & Hlock).
  assert (refs (st_pin b σ) b = refs σ b + 1) as Hrr.
  { unfold refs. simpl. rewrite lookup_insert_eq. simpl. lia. }
  unfold bpin. eapply count_rel; try done; [apply agree_pin|].
  constructor; simpl; try done.
  - rewrite Hr, Hrr. apply u32_small. lia.
  - by rewrite Hv.
  - by rewrite Hh.
  - intros []. eapply held_busy. done.
  - intros n. rewrite lookup_insert_eq. intros [= <-]. lia.
Qed.

Lemma bunpin_rel dev p s σ b i n :
  cache_rel dev p s σ -> st_held σ !! b = Some i -> st_pins σ !! b = Some n ->
  wp (bunpin i) (fun _ s' => cache_rel dev p s' (st_unpin b σ) /\ io_only s s') s.
Proof.
  intros H Hh Hn. pose proof (held_buf _ _ _ _ _ _ H Hh) as (Hi & Hc & Ho & Hd & Hb & Hr & Hv).
  pose proof H as [? ? ? R]. pose proof (rel_refs_small R b) as Hsmall.
  pose proof (cr_held _ _ _ _ _ R _ _ Hh) as (_ & Hdev & _ & _ & Hlock).
  pose proof (cr_pins _ _ _ _ _ R _ _ Hn) as [Hn0 Hn1].
  assert (st_pins (st_unpin b σ) !! b = if decide (n = 1)%nat then None else Some (pred n)) as Hp.
  { simpl. rewrite Hn. destruct n as [|[|n]]; [lia| |]; simpl.
    - by rewrite lookup_delete_eq.
    - by rewrite lookup_insert_eq. }
  assert (refs (st_unpin b σ) b = refs σ b - 1) as Hrr.
  { unfold refs. rewrite Hp. simpl. rewrite Hn. simpl. case_decide; simpl; lia. }
  assert (0 < refs σ b) as Hpos by (apply (rel_busy R); by eapply held_busy).
  unfold bunpin. eapply count_rel; try done; [apply agree_unpin|].
  constructor; simpl; try done.
  - rewrite Hr, Hrr. apply u32_small. lia.
  - by rewrite Hv.
  - by rewrite Hh.
  - intros []. eapply held_busy. done.
  - intros m Hm. change (st_pins (st_unpin b σ) !! b = Some m) in Hm. rewrite Hp in Hm.
    case_decide; [done|]. injection Hm as <-. lia.
Qed.
End Ops.
