(* ===== verification/CacheSpec.v ===== *)
(** * The contract of the block cache

    The buffer cache (kernel/bio.c) promises its clients a store of blocks.
    [astore] is that store, with no buffers, no list and no locks; [a_step]
    gives the operations and the conditions under which a client may use
    them.  [block_cache_refines] shows that every sequence of operations the
    store allows runs on the buffers that [binit] set up, and reads the same
    contents. *)

From stdpp Require Import functions.
From S2P Require Import Prelude Bytes Params CString Spinlock State Kalloc Vm Sched SchedProofs Bio Lru BioProofs BlockCache.

(** ** The abstract store *)

Record astore := mk_astore {
  a_disk : Z -> list Z;
  a_cont : Z -> list Z;
  a_pins : gmap Z nat;
  a_held : gset Z;
}.

Inductive cop :=
| CRead (b : Z)
| CPut (b : Z) (data : list Z)
| CWrite (b : Z)
| CRelse (b : Z)
| CPin (b : Z)
| CUnpin (b : Z).

Definition a_busy (A : astore) : gset Z := dom (a_pins A) ∪ a_held A.

(** The next store and what the client sees.  [None]: the client must not. *)
Definition a_step (A : astore) (o : cop) : option (astore * list Z) :=
  let 'mk_astore d c pins held := A in
  match o with
  | CRead b =>
      if decide (b ∈ held) then None else
      if decide (b ∈ a_busy A \/ (size (a_busy A) < NBUF)%nat)
      then Some (mk_astore d c pins ({[b]} ∪ held), c b) else None
  | CPut b x =>
      if decide (b ∈ held) then Some (mk_astore d (<[b := x]> c) pins held, []) else None
  | CWrite b =>
      if decide (b ∈ held) then Some (mk_astore (<[b := c b]> d) c pins held, []) else None
  | CRelse b =>
      if decide (b ∈ held /\ (pins !! b = None -> c b = d b))
      then Some (mk_astore d c pins (held ∖ {[b]}), []) else None
  | CPin b =>
      let n := default O (pins !! b) in
      if decide (b ∈ held /\ Z.of_nat n + 1 < 2 ^ 31)
      then Some (mk_astore d c (<[b := S n]> pins) held, []) else None
  | CUnpin b =>
      if decide (b ∈ held) then
        match pins !! b with
        | Some (S (S n)) => Some (mk_astore d c (<[b := S n]> pins) held, [])
        | Some _ => Some (mk_astore d c (delete b pins) held, [])
        | None => None
        end
      else None
  end.

Fixpoint a_run (A : astore) (os : list cop) : option (astore * list (list Z)) :=
  match os with
  | [] => Some (A, [])
  | o :: os' =>
      '(A1, x) ← a_step A o; '(A2, xs) ← a_run A1 os'; Some (A2, x :: xs)
  end.

(** ** The cache at work *)

Section Refinement.
Context {E : Env} {D : Disk}.

(** A client holds the pointers that [bread] returned, by block number. *)
Definition c_step (dev : Z) (h : gmap Z nat) (o : cop) : K (gmap Z nat * list Z) :=
  match o with
  | CRead b => i <- bread dev b ;; x <- get_buf i ;; ret (<[b := i]> h, b_data x)
  | CPut b x => upd_buf (h !!! b) (set_b_data x) ;; ret (h, [])
  | CWrite b => bwrite (h !!! b) ;; ret (h, [])
  | CRelse b => brelse (h !!! b) ;; ret (delete b h, [])
  | CPin b => bpin (h !!! b) ;; ret (h, [])
  | CUnpin b => bunpin (h !!! b) ;; ret (h, [])
  end.

Fixpoint c_run (dev : Z) (h : gmap Z nat) (os : list cop) : K (gmap Z nat * list (list Z)) :=
  match os with
  | [] => ret (h, [])
  | o :: os' =>
      r <- c_step dev h o ;;
      r' <- c_run dev (fst r) os' ;;
      ret (fst r', snd r :: snd r')
  end.

(** The driver moves whole blocks. *)
Class MovesBlocks : Prop := moves_block : forall b write, virtio_disk_rw b write = disk_transfer b write.

Context {MB : MovesBlocks}.

#[export] Instance moves_reads : ReadsBlocks D.
Proof. intros b. apply moves_block. Qed.

Definition simulates (dev : Z) (p : nat) (A : astore) (h : gmap Z nat) (s : kernel) : Prop :=
  dom h = a_held A /\ cache_rel dev p s (mk_bstore (a_disk A) (a_cont A) (a_pins A) h).

Lemma busy_simulates A h :
  dom h = a_held A -> busy (mk_bstore (a_disk A) (a_cont A) (a_pins A) h) = a_busy A.
Proof. intros Hh. unfold busy, a_busy. simpl. by rewrite Hh. Qed.

(** A block in the client's hands. *)
Lemma held_lookup (h : gmap Z nat) (held : gset Z) b :
  dom h = held -> b ∈ held -> h !! b = Some (h !!! b).
Proof.
  intros <- Hb. apply elem_of_dom in Hb as [i Hi]. by rewrite (lookup_total_correct _ _ _ Hi).
Qed.

Lemma bwrite_rel dev p s σ b i :
  cache_rel dev p s σ -> st_held σ !! b = Some i ->
  wp (bwrite i) (fun _ s' => cache_rel dev p s' (st_write b σ) /\ io_only s s') s.
Proof.
  intros H Hh. pose proof (held_buf _ _ _ _ _ _ H Hh) as (_ & _ & Ho & _).
  unfold wp. rewrite (bwrite_run p) by (try done; apply H). rewrite moves_block.
  by apply write_rel.
Qed.

Lemma step_simulates dev p A A' x h s o :
  a_step A o = Some (A', x) -> simulates dev p A h s ->
  wp (c_step dev h o) (fun r s' => simulates dev p A' (fst r) s' /\ snd r = x /\ io_only s s') s.
Proof.
  intros Hstep [Hh H]. pose proof (busy_simulates _ _ Hh) as Hbusy. destruct A as [d c pins held].
  simpl in Hh. destruct o; simpl in *; repeat case_decide; simplify_eq; apply wp_bind.
  - eapply wp_mono; [eapply bread_rel; [done| |by rewrite Hbusy]|]; [simpl; by apply not_elem_of_dom|].
    intros i s' [H' O']. unfold get_buf. kwp. simpl.
    destruct (held_buf _ _ _ _ b i H') as (_ & _ & _ & Hd & _); [simpl; apply lookup_insert_eq|].
    split; [|done]. split; [simpl; by rewrite dom_insert_L|done].
  - eapply wp_mono; [eapply (set_data_rel _ _ _ _ b _ (fun _ => data)); [done|simpl; by eapply held_lookup]|].
    intros [] s' [H' O']. by kwp.
  - eapply wp_mono; [eapply (bwrite_rel _ _ _ _ b); [done|simpl; by eapply held_lookup]|].
    intros [] s' [H' O']. by kwp.
  - destruct_and?. eapply wp_mono; [eapply (brelse_rel _ _ _ _ b); [done|simpl; by eapply held_lookup|done]|].
    intros [] s' [H' O']. kwp. simpl. split; [|done]. split; [simpl; by rewrite dom_delete_L|done].
  - destruct_and?. eapply wp_mono; [eapply (bpin_rel _ _ _ _ b); [done|simpl; by eapply held_lookup|done]|].
    intros [] s' [H' O']. by kwp.
  - destruct (pins !! b) as [n|] eqn:Hn; [|done].
    eapply wp_mono; [eapply (bunpin_rel _ _ _ _ b); [done|simpl; by eapply held_lookup|done]|].
    intros [] s' [H' O']. unfold st_unpin in H'. simpl in H'. rewrite Hn in H'.
    kwp. destruct n as [|[|n]]; simplify_eq; done.
Qed.

Lemma run_simulates dev p os A A' xs h s :
  a_run A os = Some (A', xs) -> simulates dev p A h s ->
  wp (c_run dev h os) (fun r s' => simulates dev p A' (fst r) s' /\ snd r = xs /\ io_only s s') s.
Proof.
  revert A xs h s. induction os as [|o os IH]; intros A xs h s; simpl.
  { intros [= -> <-] H. by kwp. }
  destruct (a_step A o) as [[A1 x]|] eqn:H1; simpl; [|done].
  destruct (a_run A1 os) as [[A2 xs']|] eqn:H2; simpl; [|done]. intros [= -> <-] H.
  apply wp_bind. eapply wp_mono; [by eapply step_simulates|]. intros [h1 x1] s1 (S1 & <- & O1).
  apply wp_bind. eapply wp_mono; [by eapply IH|]. intros [h2 x2] s2 (S2 & <- & O2).
  kwp. simpl. split_and!; [done|done|by etrans].
Qed.

(** ** The cache at boot *)

Definition idle (b : buf) : Prop := b_dev b = 0 /\ b_refcnt b = 0 /\ sl_locked (b_lock b) = 0.

(** A state that differs from [s] in its buffers, none of them in use. *)
Definition idle_from (s s' : kernel) : Prop := s' = set_k_bufs (k_bufs s') s /\ Forall idle (k_bufs s').

Lemma idle_upd s i f : (forall b, idle b -> idle (f b)) -> preserves (idle_from s) (upd_buf i f).
Proof.
  intros Hf w [Hw HF]. unfold upd_buf, modify, wlp. split; [simpl; rewrite Hw; by destruct s|].
  simpl. apply Forall_alter; [done|]. intros x Hx ?. auto.
Qed.

Lemma binit_idle s : preserves (idle_from s) binit.
Proof.
  unfold binit. apply preserves_bind; [by apply idle_upd|intros _].
  apply preserves_bind; [by apply idle_upd|intros _]. apply preserves_for_all. intros b _.
  unfold initsleeplock, upd_sleeplock, get_buf.
  repeat first [ apply preserves_bind; [|intros ?] | apply preserves_gets
    | apply idle_upd; unfold idle; simpl; naive_solver ].
Qed.

Lemma binit_run_idle s :
  length (k_bufs s) = S NBUF -> Forall idle (k_bufs s) ->
  exists s', binit s = Ok tt s' /\ s' = set_k_bufs (k_bufs s') s /\
    Forall idle (k_bufs s') /\ lru (k_bufs s') (rev (seq 0 NBUF)).
Proof.
  intros Hl HF.
  pose proof (proj1 (wp_Ok _ _ _) (binit_builds_list s Hl)) as ([] & s' & Hrun & Hlru).
  assert (idle_from s s) as Hi. { split; [by destruct s|done]. }
  destruct (preserves_eq _ _ _ _ _ (binit_idle s) Hi Hrun) as [Hs' HF'].
  exists s'. split_and!; assumption.
Qed.

Lemma idle_simulates dev p s bs :
  dev <> 0 -> k_cur s = Some p -> k_held s = [] -> length (k_procs s) = NPROC ->
  (exists l, lru bs l) -> Forall idle bs ->
  let d := disk_block (k_disk s) in
  simulates dev p (mk_astore d d ∅ ∅) ∅ (set_k_bufs bs s).
Proof.
  intros Hdev Hc Hh Hp [l Hlru] HF d. split; [simpl; by rewrite dom_empty_L|].
  constructor; simpl; try done.
  assert (forall i, (i < NBUF)%nat -> idle (bs !!! i)) as Hidle.
  { intros i Hi. rewrite Forall_lookup in HF. apply (HF i).
    apply list_lookup_lookup_total_lt. rewrite (lru_len _ _ Hlru). lia. }
  constructor; simpl; try done.
  - by eexists.
  - intros i j Hi Hj Hd. destruct (Hidle i Hi) as (? & _). congruence.
  - intros i Hi. destruct (Hidle i Hi) as (? & ? & _). rewrite decide_False by congruence. done.
  - intros i Hi _. apply (Hidle i Hi).
  - intros i Hi Hd. destruct (Hidle i Hi) as (? & _). congruence.
Qed.

Lemma binit_simulates dev p s :
  dev <> 0 -> k_cur s = Some p -> k_held s = [] -> length (k_procs s) = NPROC ->
  length (k_bufs s) = S NBUF -> Forall idle (k_bufs s) ->
  wp binit (fun _ s' => let d := disk_block (k_disk s) in
    simulates dev p (mk_astore d d ∅ ∅) ∅ s') s.
Proof.
  intros Hdev Hc Hh Hp Hl HF. destruct (binit_run_idle s Hl HF) as (s' & Hrun & Hs' & HF' & Hlru).
  apply (wp_eq _ _ _ _ _ Hrun). rewrite Hs'. clear Hrun. apply idle_simulates; try assumption. by eexists.
Qed.

(** C3: the buffer cache is the store of blocks it promises to be.  After
    [binit], whatever sequence of reads, stores, disk writes, releases, pins
    and unpins the abstract store allows, the code of bio.c runs it without a
    panic and without blocking, hands its client the contents of the store at
    each read, and ends with the disk of the store. *)
Theorem block_cache_refines dev p s os A' xs :
  dev <> 0 -> k_cur s = Some p -> k_held s = [] -> length (k_procs s) = NPROC ->
  length (k_bufs s) = S NBUF -> Forall idle (k_bufs s) ->
  let d := disk_block (k_disk s) in
  a_run (mk_astore d d ∅ ∅) os = Some (A', xs) ->
  wp (binit ;; c_run dev ∅ os) (fun r s' => snd r = xs /\ dom (fst r) = a_held A' /\
       forall b, disk_block (k_disk s') b = a_disk A' b) s.
Proof.
  intros Hdev Hc Hh Hp Hl HF d Hrun. apply wp_bind.
  eapply wp_mono; [eapply (binit_simulates dev p); eassumption|]. intros [] s1 S1.
  eapply wp_mono; [eapply run_simulates; eassumption|]. intros [h xs'] s2 ((Hd & H2) & ? & _).
  split_and!; [done|done|]. apply (cr_disk _ _ _ _ _ (ca_bufs _ _ _ _ H2)).
Qed.
End Refinement.

Module CacheDemo.
#[local] Instance still : Env := fun _ s => Some s.
#[local] Instance perfect : Disk := disk_transfer.
#[local] Instance perfect_moves : MovesBlocks.
Proof. done. Qed.

Definition sevens : list Z := replicate 8 7.
Definition s0 : kernel := set_k_cur (Some O) kernel0.
Definition ops : list cop :=
  [CRead 5; CPut 5 sevens; CPin 5; CRelse 5; CRead 6; CRelse 6; CRead 5; CWrite 5; CUnpin 5; CRelse 5].

Lemma ops_run :
  match a_run (mk_astore (disk_block ∅) (disk_block ∅) ∅ ∅) ops with
  | Some (A', xs) => xs !! 6%nat = Some sevens /\ a_disk A' 5 = sevens
  | None => False
  end.
Proof. vm_compute. done. Qed.

Lemma block_cache_refines_witness :
  wp (binit ;; c_run 1 ∅ ops)
     (fun r s' => snd r !! 6%nat = Some sevens /\ disk_block (k_disk s') 5 = sevens) s0.
Proof.
  pose proof ops_run as H. destruct (a_run _ ops) as [[A' xs]|] eqn:E; [|destruct H].
  eapply wp_mono.
  - apply (block_cache_refines 1 O s0 ops A' xs);
      [lia|reflexivity|reflexivity|reflexivity|reflexivity| |exact E].
    apply Forall_replicate. split_and!; reflexivity.
  - intros r s' (-> & _ & Hd). rewrite Hd. exact H.
Defined.
End CacheDemo.
