(* ===== verification/LogProofs.v ===== *)
(** * Crash safety of the log

    [commit] and [recover_from_log] over a disk whose power may fail at any
    write.  The logical content of the disk reads a block from the log if the
    header on the disk names it, and from its home otherwise: committing
    changes it from the old content to the new at the write of the header, and
    no other write changes it at all. *)

From stdpp Require Import functions.
From S2P Require Import Prelude Bytes Params CString Spinlock State Kalloc Vm Sched SchedProofs Bio Lru BioProofs BlockCache CacheSpec Log.

#[local] Opaque put_le get_le.

(** Arithmetic with the sizes of the log and of a block. *)
Ltac loglia :=
  change (Z.to_nat LOGSIZE) with 30%nat in *; change (Z.to_nat BSIZE) with 1024%nat in *;
  change LOGSIZE with 30 in *; lia.

(** ** The header block *)

(** The header after the count and the first [i] block numbers are stored. *)
Fixpoint hput (h : list Z) (n : Z) (bl : list Z) (i : nat) : list Z :=
  match i with
  | O => put_le 4 h 0 n
  | S i' => put_le 4 (hput h n bl i') (Z.to_nat (4 + 4 * Z.of_nat i')) (bl !!! i')
  end.

Lemma length_hput h n bl i :
  length h = Z.to_nat BSIZE -> (i <= Z.to_nat LOGSIZE)%nat -> length (hput h n bl i) = length h.
Proof.
  intros Hh. change (Z.to_nat BSIZE) with 1024%nat in Hh. change (Z.to_nat LOGSIZE) with 30%nat.
  induction i as [|i IH]; intros Hi; simpl.
  - apply length_put_le. lia.
  - rewrite length_put_le; rewrite IH; lia.
Qed.

Lemma i32_mod z : i32 (z mod 2 ^ 32) = i32 z.
Proof. unfold i32. by rewrite Zplus_mod_idemp_l. Qed.

Lemma hb_n_hput h n bl i :
  length h = Z.to_nat BSIZE -> (i <= Z.to_nat LOGSIZE)%nat -> hb_n (hput h n bl i) = i32 n.
Proof.
  intros Hh Hi. unfold hb_n. transitivity (i32 (n mod 2 ^ (8 * Z.of_nat 4))); [f_equal|apply i32_mod].
  change (Z.to_nat BSIZE) with 1024%nat in Hh. change (Z.to_nat LOGSIZE) with 30%nat in Hi.
  induction i as [|i IH]; simpl.
  - apply get_put_le_same. lia.
  - rewrite get_put_le_disjoint; [apply IH; lia| | |]; rewrite ?length_hput; unfold BSIZE, LOGSIZE, MAXOPBLOCKS; lia.
Qed.

Lemma hb_block_hput h n bl i k :
  length h = Z.to_nat BSIZE -> (i <= Z.to_nat LOGSIZE)%nat -> (k < i)%nat ->
  hb_block (hput h n bl i) (Z.of_nat k) = i32 (bl !!! k).
Proof.
  intros Hh Hi Hk. unfold hb_block.
  transitivity (i32 ((bl !!! k) mod 2 ^ (8 * Z.of_nat 4))); [f_equal|apply i32_mod].
  pose proof Hh as Hh'. change (Z.to_nat BSIZE) with 1024%nat in Hh'.
  change (Z.to_nat LOGSIZE) with 30%nat in *.
  induction i as [|i IH]; [lia|]. simpl. destruct (decide (k = i)) as [->|].
  - apply get_put_le_same. rewrite length_hput; unfold LOGSIZE, MAXOPBLOCKS; lia.
  - rewrite get_put_le_disjoint; [apply IH; lia| | |]; rewrite ?length_hput; unfold LOGSIZE, MAXOPBLOCKS; lia.
Qed.

(** The blocks a header names. *)
Definition hdr_blocks (h : list Z) : list Z :=
  (fun k => hb_block h (Z.of_nat k)) <$> seq 0 (Z.to_nat (hb_n h)).

Lemma hdr_blocks_hput h bl :
  length h = Z.to_nat BSIZE -> (length bl <= Z.to_nat LOGSIZE)%nat ->
  Forall (fun b => 0 <= b < 2 ^ 31) bl ->
  hdr_blocks (hput h (Z.of_nat (length bl)) bl (length bl)) = bl.
Proof.
  intros Hh Hl Hbl. unfold hdr_blocks. rewrite hb_n_hput, i32_small; [|split; [lia|]|done|done].
  2:{ change (Z.to_nat LOGSIZE) with 30%nat in Hl. lia. }
  rewrite Nat2Z.id. apply list_eq. intros k. rewrite list_lookup_fmap.
  destruct (decide (k < length bl)%nat) as [Hk|Hk].
  - rewrite lookup_seq_lt by done. simpl. rewrite hb_block_hput by done.
    destruct (lookup_lt_is_Some_2 bl k Hk) as [b Hb]. rewrite Hb.
    rewrite (list_lookup_total_correct _ _ _ Hb). rewrite i32_small; [done|].
    rewrite Forall_lookup in Hbl. specialize (Hbl k b Hb). lia.
  - rewrite lookup_seq_ge by lia. simpl. symmetry. apply lookup_ge_None. lia.
Qed.

Lemma hdr_blocks_empty h : hb_n h = 0 -> hdr_blocks h = [].
Proof. unfold hdr_blocks. by intros ->. Qed.

(** ** Logical content of a disk with a log at [L] *)

Definition logical (L : Z) (d : Z -> list Z) (b : Z) : list Z :=
  match list_find (fun x => x = b) (hdr_blocks (d L)) with
  | Some (k, _) => d (L + 1 + Z.of_nat k)
  | None => d b
  end.

(** [mkfs] gives the log [LOGSIZE] blocks: the header at [L] and then the logged
    blocks. *)
Definition outside (L b : Z) : Prop := ~ (L <= b < L + LOGSIZE).

(** Disk [d] shows the blocks [V] outside the log. *)
Definition shows (L : Z) (d V : Z -> list Z) : Prop := forall b, outside L b -> logical L d b = V b.

Lemma shows_empty L d V :
  hb_n (d L) = 0 -> (forall b, outside L b -> d b = V b) -> shows L d V.
Proof. intros Hn HV b Hb. unfold logical. rewrite hdr_blocks_empty by done. simpl. auto. Qed.

Lemma find_eq_lookup (bl : list Z) b k :
  NoDup bl -> bl !! k = Some b -> list_find (fun x => x = b) bl = Some (k, b).
Proof.
  intros Hnd Hk. apply list_find_Some. split_and!; [done|done|].
  intros j y Hj Hlt ->. assert (j = k) by (by eapply NoDup_lookup). lia.
Qed.

Lemma find_eq_None (bl : list Z) b : b ∉ bl -> list_find (fun x => x = b) bl = None.
Proof. intros Hb. apply list_find_None, Forall_forall. intros x Hx ->. done. Qed.

Lemma shows_committed L d V bl :
  NoDup bl -> hdr_blocks (d L) = bl ->
  (forall k b, bl !! k = Some b -> d (L + 1 + Z.of_nat k) = V b) ->
  (forall b, outside L b -> b ∉ bl -> d b = V b) -> shows L d V.
Proof.
  intros Hnd Hh Hin Hout b Hb. unfold logical. rewrite Hh.
  destruct (decide (b ∈ bl)) as [Hi|Hi].
  - apply list_elem_of_lookup in Hi as [k Hk]. rewrite (find_eq_lookup _ _ k) by done. auto.
  - rewrite find_eq_None by done. auto.
Qed.

(** ** A disk whose power may fail *)

(** Every write either happens or is the last thing that is tried. *)
Class PowerDisk (D : Disk) : Prop := {
  power_reads :: ReadsBlocks D;
  power_writes : forall i s, virtio_disk_rw i true s = disk_transfer i true s \/
                             virtio_disk_rw i true s = Panic "power failure" s;
}.

(** The power failed with a disk that satisfies [P]. *)
Definition crashed (P : (Z -> list Z) -> Prop) (msg : string) (s : kernel) : Prop :=
  msg = "power failure" /\ exists d, (forall b, disk_block (k_disk s) b = d b) /\ P d.

(** The transaction in the log: the blocks [bl] of device [dev], with the log
    at [L]. *)
Record txn (dev L : Z) (bl : list Z) (l : log) : Prop := {
  tx_dev : l_dev l = dev;
  tx_start : l_start l = L;
  tx_n : lh_n l = Z.of_nat (length bl);
  tx_len : length (lh_block l) = Z.to_nat LOGSIZE;
  tx_blocks : take (length bl) (lh_block l) = bl;
  tx_fits : (length bl < Z.to_nat LOGSIZE)%nat;
  tx_nodup : NoDup bl;
  tx_range : Forall (fun b => 0 <= b < 2 ^ 31 /\ outside L b) bl;
  tx_log : 0 <= L /\ L + LOGSIZE < 2 ^ 31;
}.

Section Txn.
Context {dev L : Z} {bl : list Z} {l : log} (T : txn dev L bl l).

Lemma tx_block k : (k < length bl)%nat -> lh_block_at l (Z.of_nat k) = bl !!! k.
Proof.
  intros Hk. unfold lh_block_at. rewrite Nat2Z.id. rewrite <- (tx_blocks _ _ _ _ T) at 1.
  rewrite !list_lookup_total_alt. by rewrite lookup_take_lt.
Qed.

Lemma tx_in k : (k < length bl)%nat -> bl !!! k ∈ bl /\ 0 <= bl !!! k < 2 ^ 31 /\ outside L (bl !!! k).
Proof.
  intros Hk. destruct (lookup_lt_is_Some_2 bl k Hk) as [b Hb].
  rewrite (list_lookup_total_correct _ _ _ Hb). split; [by eapply list_elem_of_lookup_2|].
  pose proof (tx_range _ _ _ _ T) as H. rewrite Forall_lookup in H. by apply (H k).
Qed.

Lemma tx_u32 k : (k < length bl)%nat -> u32 (bl !!! k) = bl !!! k.
Proof. intros Hk. destruct (tx_in k Hk) as (_ & ? & _). apply u32_small. lia. Qed.

Lemma tx_logblock k : (k < length bl)%nat -> u32 (L + Z.of_nat k + 1) = L + 1 + Z.of_nat k.
Proof.
  intros Hk. pose proof (tx_fits _ _ _ _ T). destruct (tx_log _ _ _ _ T).
  rewrite u32_small; loglia.
Qed.
End Txn.

(** The log blocks, and the home blocks, after the first [k] are written. *)
Fixpoint logw (c : nat -> list Z) (L : Z) (k : nat) (d : Z -> list Z) : Z -> list Z :=
  match k with
  | O => d
  | S k' => <[L + 1 + Z.of_nat k' := c k']> (logw c L k' d)
  end.
Fixpoint homew (c : nat -> list Z) (bl : list Z) (k : nat) (d : Z -> list Z) : Z -> list Z :=
  match k with
  | O => d
  | S k' => <[bl !!! k' := c k']> (homew c bl k' d)
  end.

Lemma logw_in c L k d j : (j < k)%nat -> logw c L k d (L + 1 + Z.of_nat j) = c j.
Proof.
  induction k as [|k IH]; intros Hj; [lia|]. simpl. destruct (decide (j = k)) as [->|].
  - apply fn_lookup_insert.
  - rewrite fn_lookup_insert_ne by lia. apply IH. lia.
Qed.
Lemma logw_out c L k d b : ~ (L + 1 <= b < L + 1 + Z.of_nat k) -> logw c L k d b = d b.
Proof.
  induction k as [|k IH]; intros Hb; [done|]. simpl. rewrite fn_lookup_insert_ne by lia. apply IH. lia.
Qed.
Lemma homew_in c bl k d j :
  NoDup bl -> (k <= length bl)%nat -> (j < k)%nat -> homew c bl k d (bl !!! j) = c j.
Proof.
  intros Hnd. induction k as [|k IH]; intros Hk Hj; [lia|]. simpl. destruct (decide (j = k)) as [->|].
  - apply fn_lookup_insert.
  - rewrite fn_lookup_insert_ne; [apply IH; lia|]. intros E.
    destruct (lookup_lt_is_Some_2 bl k) as [x Hx]; [lia|].
    destruct (lookup_lt_is_Some_2 bl j) as [y Hy]; [lia|].
    rewrite (list_lookup_total_correct _ _ _ Hx), (list_lookup_total_correct _ _ _ Hy) in E. subst y.
    assert (j = k) by (by eapply NoDup_lookup). lia.
Qed.
Lemma homew_out c bl k d b : (k <= length bl)%nat -> b ∉ bl -> homew c bl k d b = d b.
Proof.
  induction k as [|k IH]; intros Hk Hb; [done|]. simpl. rewrite fn_lookup_insert_ne; [apply IH; [lia|done]|].
  intros <-. apply Hb. destruct (lookup_lt_is_Some_2 bl k) as [x Hx]; [lia|].
  rewrite (list_lookup_total_correct _ _ _ Hx). by eapply list_elem_of_lookup_2.
Qed.

Ltac wpc_step :=
  lazymatch goal with
  | |- wpc (bind _ _) _ _ _ => apply wpc_bind
  | |- wpc (ret _) _ _ _ => apply wpc_wp, wp_ret
  | |- wpc (gets _) _ _ _ => apply wpc_wp, wp_gets
  | |- wpc (modify _) _ _ _ => apply wpc_wp, wp_modify
  end.
Ltac kwpc := repeat first [ wpc_step; cbv beta | progress unfold get_buf, get_log, upd_log ].
(** Runs an operation of the cache by its lemma. *)
Tactic Notation "wpc_op" uconstr(lem) := eapply wpc_mono; [apply wpc_wp; eapply lem| |done].

Lemma wpc_assoc {W A B C} (m : M W A) (f : A -> M W B) (g : B -> M W C) Q X w :
  wpc (bind (bind m f) g) Q X w -> wpc (bind m (fun a => bind (f a) g)) Q X w.
Proof. unfold wpc. by rewrite bind_assoc. Qed.

Lemma wpc_get_log {A} (f : log -> K A) Q X s : wpc (f (k_log s)) Q X s -> wpc (bind get_log f) Q X s.
Proof. done. Qed.

Section Ops.
Context {E : Env} {D : Disk} {PD : PowerDisk D}.

Lemma bwrite_wpc dev p s σ b i P :
  cache_rel dev p s σ -> st_held σ !! b = Some i -> P (st_disk σ) ->
  wpc (bwrite i) (fun _ s' => cache_rel dev p s' (st_write b σ) /\ io_only s s') (crashed P) s.
Proof.
  intros H Hh HP. pose proof (held_buf _ _ _ _ _ _ H Hh) as (_ & _ & Ho & _).
  unfold wpc. rewrite (bwrite_run p) by (try done; apply H).
  destruct (power_writes i s) as [->| ->].
  - by apply (wpc_wp (disk_transfer i true) _ (crashed P)), write_rel.
  - split; [done|]. exists (st_disk σ). split; [|done]. apply (cr_disk _ _ _ _ _ (ca_bufs _ _ _ _ H)).
Qed.

Lemma delete_two (x y : Z) (i j : nat) (m : gmap Z nat) :
  m !! x = None -> m !! y = None -> delete x (delete y (<[y := j]> (<[x := i]> m))) = m.
Proof.
  intros Hx Hy. apply map_eq. intros z. destruct (decide (z = x)) as [->|].
  - by rewrite lookup_delete_eq.
  - rewrite lookup_delete_ne by done. destruct (decide (z = y)) as [->|].
    + by rewrite lookup_delete_eq.
    + by rewrite lookup_delete_ne, !lookup_insert_ne.
Qed.

Lemma busy_hold b i σ : busy (st_hold b i σ) = {[b]} ∪ busy σ.
Proof. unfold busy. simpl. rewrite dom_insert_L. set_solver. Qed.

Definition plain (d c : Z -> list Z) (pins : gmap Z nat) : bstore := mk_bstore d c pins ∅.

Lemma busy_plain d c pins : busy (plain d c pins) = dom pins.
Proof. unfold busy. simpl. rewrite dom_empty_L. set_solver. Qed.

(** One round of [write_log]: block [b] is copied to block [t] of the log. *)
Lemma write_log_step dev p s tail d c pins t b P :
  cache_rel dev p s (plain d c pins) -> l_dev (k_log s) = dev ->
  u32 (l_start (k_log s) + tail + 1) = t -> u32 (lh_block_at (k_log s) tail) = b ->
  t <> b -> is_Some (pins !! b) -> (size (dom pins) < NBUF)%nat -> P d ->
  wpc (to <- bread dev (u32 (l_start (k_log s) + tail + 1)) ;;
       l <- get_log ;;
       from <- bread (l_dev l) (u32 (lh_block_at l tail)) ;;
       fb <- get_buf from ;;
       upd_buf to (set_b_data (b_data fb)) ;;
       bwrite to ;;
       brelse from ;;
       brelse to ;;
       ret (inl (tail + 1) : Z + unit))
    (fun r s' => r = inl (tail + 1) /\ io_only s s' /\
       cache_rel dev p s' (plain (<[t := c b]> d) (<[t := c b]> c) pins))
    (crashed P) s.
Proof.
  intros H Hdev Et Eb Hne Hpin Hroom HP. rewrite Et. kwpc.
  wpc_op bread_rel; [done|done|right; by rewrite busy_plain|]. intros to s1 [H1 O1]. kwpc.
  rewrite (io_only_log _ _ O1), Hdev, Eb.
  wpc_op bread_rel; [done|simpl; by rewrite lookup_insert_ne| |].
  { left. apply elem_of_union_l, elem_of_dom. done. }
  intros from s2 [H2 O2]. kwpc.
  destruct (held_buf _ _ _ _ b from H2) as (_ & _ & _ & Hdata & _); [simpl; apply lookup_insert_eq|].
  simpl in Hdata. rewrite Hdata.
  wpc_op (set_data_rel dev p s2 _ t to (fun _ => c b));
    [done|simpl; by rewrite lookup_insert_ne, lookup_insert_eq|].
  intros [] s3 [H3 O3]. kwpc.
  eapply wpc_mono; [eapply (bwrite_wpc _ _ _ _ t); [done| |done]| |done].
  { simpl. by rewrite lookup_insert_ne, lookup_insert_eq. }
  intros [] s4 [H4 O4]. kwpc.
  wpc_op (brelse_rel dev p s4 _ b); [done|simpl; apply lookup_insert_eq| |].
  { simpl. intros Hn. destruct Hpin as [? Hs]. congruence. }
  intros [] s5 [H5 O5]. kwpc.
  wpc_op (brelse_rel dev p s5 _ t).
  - done.
  - simpl. rewrite lookup_delete_ne, lookup_insert_ne by done. apply lookup_insert_eq.
  - intros _. simpl. by rewrite !fn_lookup_insert.
  - intros [] s6 [H6 O6]. kwpc. split; [done|].
    split; [by etrans; [|etrans; [|etrans; [|etrans; [|etrans]]]]|].
    unfold st_release in H6. simpl in H6. rewrite fn_lookup_insert in H6.
    by rewrite delete_two in H6.
Qed.

Lemma write_log_wpc dev p L bl s d c pins P :
  txn dev L bl (k_log s) -> cache_rel dev p s (plain d c pins) ->
  (forall b, b ∈ bl -> is_Some (pins !! b)) -> (size (dom pins) < NBUF)%nat ->
  let data k := c (bl !!! k) in
  (forall k, (k <= length bl)%nat -> P (logw data L k d)) ->
  wpc write_log (fun _ s' => io_only s s' /\
      cache_rel dev p s' (plain (logw data L (length bl) d) (logw data L (length bl) c) pins))
    (crashed P) s.
Proof.
  intros T H Hpin Hroom data HP. unfold write_log.
  apply (wpc_loop _ (fun n tail s' => exists k, (k <= length bl)%nat /\ tail = Z.of_nat k /\
    n = Z.of_nat (length bl - k) /\ io_only s s' /\
    cache_rel dev p s' (plain (logw data L k d) (logw data L k c) pins)) _ _ (Z.of_nat (length bl))).
  - intros n tail s1 (k & Hk & -> & -> & O & H1). kwpc. rewrite (io_only_log _ _ O), (tx_n _ _ _ _ T).
    destruct (Z.ltb_spec (Z.of_nat k) (Z.of_nat (length bl))); simpl negb; cbv iota.
    + assert (k < length bl)%nat as Hlt by lia. destruct (tx_in T k Hlt) as (Hin & Hb & Hout).
      rewrite (tx_dev _ _ _ _ T). rewrite <- (io_only_log _ _ O).
      assert (c (bl !!! k) = logw data L k c (bl !!! k)) as Hc.
      { symmetry. apply logw_out. unfold outside in Hout. pose proof (tx_fits _ _ _ _ T). loglia. }
      eapply wpc_mono; [eapply (write_log_step dev p s1 (Z.of_nat k) _ _ _ _ (bl !!! k))| |done]; try done.
      * rewrite (io_only_log _ _ O). apply T.
      * rewrite (io_only_log _ _ O), (tx_block T) by done. by apply (tx_u32 T).
      * rewrite (io_only_log _ _ O), (tx_start _ _ _ _ T), (tx_logblock T) by done.
        intros E0. unfold outside in Hout. pose proof (tx_fits _ _ _ _ T). loglia.
      * auto.
      * auto.
      * intros r s2 (-> & O2 & H2). exists (Z.of_nat (length bl - S k)). split; [lia|].
        exists (S k). split_and!; [lia|lia|done|by etrans|].
        rewrite (io_only_log _ _ O), (tx_start _ _ _ _ T), (tx_logblock T), <- Hc in H2 by done. done.
    + kwpc. assert (k = length bl) as -> by lia. done.
  - exists O. split_and!; [lia|done|lia|done|done].
  - pose proof (tx_fits _ _ _ _ T). loglia.
Qed.

Lemma io_log_set s s' l : io_only s s' -> io_only (set_k_log l s) (set_k_log l s').
Proof. intros [->]. constructor; [by destruct s|done]. Qed.

(** The stores of [write_head] into the buffer of the header. *)
Lemma write_head_stores dev p L bl s σ buf :
  txn dev L bl (k_log s) -> cache_rel dev p s σ -> st_held σ !! L = Some buf ->
  wp (upd_buf buf (fun b => set_b_data (put_le 4 (b_data b) 0 (lh_n (k_log s))) b) ;;
      loop (fun i =>
        l <- get_log ;;
        if negb (i <? lh_n l) then ret (inr tt) else
        upd_buf buf (fun b =>
          set_b_data (put_le 4 (b_data b) (Z.to_nat (4 + 4 * i)) (lh_block_at l i)) b) ;;
        ret (inl (i + 1))) 0)
     (fun _ s' => io_only s s' /\
        cache_rel dev p s' (st_set L (hput (st_cont σ L) (Z.of_nat (length bl)) bl (length bl)) σ)) s.
Proof.
  intros T H Hh. set (h i := hput (st_cont σ L) (Z.of_nat (length bl)) bl i).
  apply wp_bind. eapply wp_mono; [by eapply (set_data_rel dev p s σ L buf (fun x => put_le 4 x 0 (lh_n (k_log s))))|].
  intros [] s1 [H1 O1]. rewrite (tx_n _ _ _ _ T) in H1.
  apply (wp_loop_idx _ (fun n i s' => exists k, (k <= length bl)%nat /\ i = Z.of_nat k /\
    n = Z.of_nat (length bl - k) /\ io_only s s' /\ cache_rel dev p s' (st_set L (h k) σ))
    _ (Z.of_nat (length bl))).
  - intros n i s2 (k & Hk & -> & -> & O & H2). unfold get_log. wp_step. wp_step.
    rewrite (io_only_log _ _ O), (tx_n _ _ _ _ T).
    destruct (Z.ltb_spec (Z.of_nat k) (Z.of_nat (length bl))); simpl negb; cbv iota.
    + assert (k < length bl)%nat as Hlt by lia. rewrite (tx_block T) by done. apply wp_bind.
      eapply wp_mono; [eapply (set_data_rel dev p s2 _ L buf
        (fun x => put_le 4 x (Z.to_nat (4 + 4 * Z.of_nat k)) (bl !!! k))); done|].
      intros [] s3 [H3 O3]. wp_step. exists (Z.of_nat (length bl - S k)). split; [lia|].
      exists (S k). split_and!; [lia|lia|done|by etrans|].
      simpl st_cont in H3. rewrite fn_lookup_insert, st_set_set in H3. done.
    + wp_step. assert (k = length bl) as -> by lia. done.
  - exists O. split_and!; [lia|done|lia|done|done].
  - pose proof (tx_fits _ _ _ _ T). loglia.
Qed.

Lemma write_head_wpc dev p L bl s d c pins (P : (Z -> list Z) -> Prop) :
  txn dev L bl (k_log s) -> cache_rel dev p s (plain d c pins) ->
  (size (dom pins) < NBUF)%nat -> pins !! L = None -> P d ->
  let h := hput (c L) (Z.of_nat (length bl)) bl (length bl) in
  wpc write_head (fun _ s' => io_only s s' /\
      cache_rel dev p s' (plain (<[L := h]> d) (<[L := h]> c) pins)) (crashed P) s.
Proof.
  intros T H Hroom HnL HP h. unfold write_head. apply wpc_get_log, wpc_bind.
  rewrite (tx_dev _ _ _ _ T), (tx_start _ _ _ _ T), u32_small
    by (destruct (tx_log _ _ _ _ T); loglia).
  wpc_op bread_rel; [done|done|right; by rewrite busy_plain|]. intros buf s1 [H1 O1].
  rewrite <- (io_only_log _ _ O1) in T. apply wpc_get_log.
  apply (wpc_assoc _ (fun _ => loop _ _) (fun _ => bwrite buf ;; brelse buf)), wpc_bind.
  eapply wpc_mono; [apply wpc_wp; eapply (write_head_stores dev p L bl s1); [done|done|]| |done].
  { simpl. apply lookup_insert_eq. }
  intros [] s2 [O2 H2]. kwpc.
  eapply wpc_mono; [eapply (bwrite_wpc _ _ _ _ L); [done|simpl; apply lookup_insert_eq|done]| |done].
  intros [] s3 [H3 O3].
  wpc_op (brelse_rel dev p s3 _ L); [done|simpl; apply lookup_insert_eq| |].
  { intros _. simpl. by rewrite !fn_lookup_insert. }
  intros [] s4 [H4 O4]. split; [by etrans; [|etrans; [|etrans]]|].
  unfold st_release in H4. simpl in H4. rewrite fn_lookup_insert in H4.
  by rewrite delete_insert_id in H4.
Qed.

(** The pins left after block [b] is installed: [bunpin] is for commits. *)
Definition unpin1 (recovering b : Z) (pins : gmap Z nat) : gmap Z nat :=
  if recovering =? 0 then delete b pins else pins.

(** What installing block [b] needs: it is pinned once, or the cache has room
    for it. *)
Definition installable (recovering b : Z) (pins : gmap Z nat) : Prop :=
  if recovering =? 0 then pins !! b = Some 1%nat
  else pins !! b = None /\ (S (size (dom pins)) < NBUF)%nat.

Lemma size_hold t i d c pins :
  (size (busy (st_hold t i (plain d c pins))) <= S (size (dom pins)))%nat.
Proof.
  rewrite busy_hold, busy_plain, size_union_alt, size_singleton.
  pose proof (subseteq_size (dom pins ∖ {[t]}) (dom pins) ltac:(set_solver)). lia.
Qed.

(** One round of [install_trans]: block [t] of the log goes home to [b]. *)
Lemma install_step dev p s tail d c pins t b recovering P :
  cache_rel dev p s (plain d c pins) -> l_dev (k_log s) = dev ->
  u32 (l_start (k_log s) + tail + 1) = t -> u32 (lh_block_at (k_log s) tail) = b ->
  t <> b -> pins !! t = None -> c t = d t -> installable recovering b pins ->
  (size (dom pins) < NBUF)%nat -> P d ->
  wpc (lbuf <- bread dev (u32 (l_start (k_log s) + tail + 1)) ;;
       l <- get_log ;;
       dbuf <- bread (l_dev l) (u32 (lh_block_at l tail)) ;;
       lb <- get_buf lbuf ;;
       upd_buf dbuf (set_b_data (b_data lb)) ;;
       bwrite dbuf ;;
       when (recovering =? 0) (bunpin dbuf) ;;
       brelse lbuf ;;
       brelse dbuf ;;
       ret (inl (tail + 1) : Z + unit))
    (fun r s' => r = inl (tail + 1) /\ io_only s s' /\
       cache_rel dev p s' (plain (<[b := c t]> d) (<[b := c t]> c) (unpin1 recovering b pins)))
    (crashed P) s.
Proof.
  intros H Hdev Et Eb Hne Hpt Hct Hinst Hroom HP. rewrite Et. kwpc.
  wpc_op bread_rel; [done|done|right; by rewrite busy_plain|]. intros lbuf s1 [H1 O1]. kwpc.
  rewrite (io_only_log _ _ O1), Hdev, Eb.
  wpc_op bread_rel; [done|simpl; by rewrite lookup_insert_ne| |].
  { unfold installable in Hinst. pose proof (size_hold t lbuf d c pins). destruct (recovering =? 0).
    - left. apply elem_of_union_l, elem_of_dom. by eexists.
    - right. lia. }
  intros dbuf s2 [H2 O2]. kwpc.
  destruct (held_buf _ _ _ _ t lbuf H2) as (_ & _ & _ & Hdata & _).
  { simpl. by rewrite lookup_insert_ne, lookup_insert_eq. }
  simpl in Hdata. rewrite Hdata.
  wpc_op (set_data_rel dev p s2 _ b dbuf (fun _ => c t)); [done|simpl; apply lookup_insert_eq|].
  intros [] s3 [H3 O3]. kwpc.
  eapply wpc_mono; [eapply (bwrite_wpc _ _ _ _ b); [done|simpl; apply lookup_insert_eq|done]| |done].
  intros [] s4 [H4 O4]. kwpc. unfold st_write in H4. simpl in H4. rewrite fn_lookup_insert in H4.
  eapply (wpc_mono _ (fun _ s5 => io_only s4 s5 /\ cache_rel dev p s5
    (mk_bstore (<[b := c t]> d) (<[b := c t]> c) (unpin1 recovering b pins) (<[b := dbuf]> (<[t := lbuf]> ∅)))));
    [| |done].
  { unfold installable, unpin1 in *. destruct (recovering =? 0); unfold when; [|by kwpc].
    wpc_op (bunpin_rel dev p s4 _ b); [done|simpl; apply lookup_insert_eq|done|].
    intros [] s5 [H5 O5]. split; [done|]. unfold st_unpin in H5. simpl in H5. by rewrite Hinst in H5. }
  intros [] s5 [O5 H5]. kwpc.
  wpc_op (brelse_rel dev p s5 _ t); [done|simpl; by rewrite lookup_insert_ne, lookup_insert_eq| |].
  { intros _. simpl. by rewrite !fn_lookup_insert_ne. }
  intros [] s6 [H6 O6]. kwpc.
  wpc_op (brelse_rel dev p s6 _ b).
  - done.
  - simpl. rewrite lookup_delete_ne by done. apply lookup_insert_eq.
  - intros _. simpl. by rewrite !fn_lookup_insert.
  - intros [] s7 [H7 O7]. kwpc. split; [done|].
    split; [by etrans; [|etrans; [|etrans; [|etrans; [|etrans; [|etrans]]]]]|].
    unfold st_release in H7. simpl in H7. rewrite delete_delete, delete_two in H7 by done. done.
Qed.
Fixpoint unpins (recovering : Z) (bl : list Z) (k : nat) (pins : gmap Z nat) : gmap Z nat :=
  match k with
  | O => pins
  | S k' => unpin1 recovering (bl !!! k') (unpins recovering bl k' pins)
  end.

Lemma unpins_dom recovering bl k pins : dom (unpins recovering bl k pins) ⊆ dom pins.
Proof.
  induction k as [|k IH]; simpl; [done|]. unfold unpin1. destruct (recovering =? 0); [|done].
  rewrite dom_delete_L. set_solver.
Qed.

Lemma unpins_lookup recovering bl k pins b :
  (forall j, (j < k)%nat -> bl !!! j <> b) -> unpins recovering bl k pins !! b = pins !! b.
Proof.
  induction k as [|k IH]; intros Hj; [done|]. simpl. unfold unpin1. destruct (recovering =? 0).
  - rewrite lookup_delete_ne by (apply Hj; lia). apply IH. intros j ?. apply Hj. lia.
  - apply IH. intros j ?. apply Hj. lia.
Qed.

Lemma nodup_total_inj (bl : list Z) j k :
  NoDup bl -> (j < length bl)%nat -> (k < length bl)%nat -> bl !!! j = bl !!! k -> j = k.
Proof.
  intros Hnd Hj Hk Heq.
  destruct (lookup_lt_is_Some_2 bl j Hj) as [x Hx], (lookup_lt_is_Some_2 bl k Hk) as [y Hy].
  rewrite (list_lookup_total_correct _ _ _ Hx), (list_lookup_total_correct _ _ _ Hy) in Heq. subst.
  by eapply NoDup_lookup.
Qed.

Lemma unpins_installable recovering bl k pins :
  NoDup bl -> (k < length bl)%nat -> installable recovering (bl !!! k) pins ->
  installable recovering (bl !!! k) (unpins recovering bl k pins).
Proof.
  intros Hnd Hk. unfold installable.
  rewrite unpins_lookup by (intros j Hj Hjk; apply nodup_total_inj in Hjk; [lia|done|lia|done]).
  pose proof (subseteq_size _ _ (unpins_dom recovering bl k pins)).
  destruct (recovering =? 0); [done|]. intros []. split; [done|lia].
Qed.

Lemma unpins_room recovering bl k pins :
  (size (dom pins) < NBUF)%nat -> (size (dom (unpins recovering bl k pins)) < NBUF)%nat.
Proof. pose proof (subseteq_size _ _ (unpins_dom recovering bl k pins)). lia. Qed.

Lemma install_trans_wpc dev p L bl s d c pins recovering P :
  txn dev L bl (k_log s) -> cache_rel dev p s (plain d c pins) ->
  let data k := c (L + 1 + Z.of_nat k) in
  (forall k, (k < length bl)%nat ->
     installable recovering (bl !!! k) pins /\ pins !! (L + 1 + Z.of_nat k) = None /\
     c (L + 1 + Z.of_nat k) = d (L + 1 + Z.of_nat k)) ->
  (size (dom pins) < NBUF)%nat ->
  (forall k, (k <= length bl)%nat -> P (homew data bl k d)) ->
  wpc (install_trans recovering) (fun _ s' => io_only s s' /\
      cache_rel dev p s' (plain (homew data bl (length bl) d) (homew data bl (length bl) c)
                                (unpins recovering bl (length bl) pins)))
    (crashed P) s.
Proof.
  intros T H data Hbl Hroom HP. unfold install_trans.
  apply (wpc_loop _ (fun n tail s' => exists k, (k <= length bl)%nat /\ tail = Z.of_nat k /\
    n = Z.of_nat (length bl - k) /\ io_only s s' /\
    cache_rel dev p s' (plain (homew data bl k d) (homew data bl k c) (unpins recovering bl k pins)))
    _ _ (Z.of_nat (length bl))).
  - intros n tail s1 (k & Hk & -> & -> & O & H1). kwpc. rewrite (io_only_log _ _ O), (tx_n _ _ _ _ T).
    destruct (Z.ltb_spec (Z.of_nat k) (Z.of_nat (length bl))); simpl negb; cbv iota.
    + assert (k < length bl)%nat as Hlt by lia. destruct (Hbl k Hlt) as (Hi & Hp & Hcd).
      assert (forall f, homew data bl k f (L + 1 + Z.of_nat k) = f (L + 1 + Z.of_nat k)) as Hlog.
      { intros f. apply homew_out; [lia|]. intros Hin.
        pose proof (tx_range _ _ _ _ T) as Hr. rewrite Forall_forall in Hr.
        destruct (Hr _ Hin) as [_ Hout]. unfold outside in Hout. pose proof (tx_fits _ _ _ _ T). loglia. }
      rewrite (tx_dev _ _ _ _ T). rewrite <- (io_only_log _ _ O).
      eapply wpc_mono; [eapply (install_step dev p s1 (Z.of_nat k) _ _ _
        (L + 1 + Z.of_nat k) (bl !!! k) recovering)| |done].
      * done.
      * rewrite (io_only_log _ _ O). apply T.
      * rewrite (io_only_log _ _ O), (tx_start _ _ _ _ T). by apply (tx_logblock T).
      * rewrite (io_only_log _ _ O), (tx_block T) by done. by apply (tx_u32 T).
      * destruct (tx_in T k Hlt) as (_ & _ & Hout). unfold outside in Hout.
        pose proof (tx_fits _ _ _ _ T). intros E0. loglia.
      * rewrite unpins_lookup; [done|]. intros j Hj E0.
        destruct (tx_in T j) as (_ & _ & Hout); [lia|]. unfold outside in Hout.
        pose proof (tx_fits _ _ _ _ T). loglia.
      * by rewrite !Hlog.
      * apply unpins_installable; [apply T|done|done].
      * by apply unpins_room.
      * auto.
      * intros r s2 (-> & O2 & H2). exists (Z.of_nat (length bl - S k)). split; [lia|].
        exists (S k). split_and!; [lia|lia|done|by etrans|]. by rewrite Hlog in H2.
    + kwpc. assert (k = length bl) as -> by lia. done.
  - exists O. split_and!; [lia|done|lia|done|done].
  - pose proof (tx_fits _ _ _ _ T). loglia.
Qed.
Lemma cache_rel_set_log dev p s σ l : cache_rel dev p s σ -> cache_rel dev p (set_k_log l s) σ.
Proof. by intros [? ? ? ?]. Qed.

(** The transaction of a log whose count is reset. *)
Lemma tx_clear dev L bl l : txn dev L bl l -> txn dev L [] (set_lh_n 0 l).
Proof. intros []. constructor; simpl; try done; [loglia|constructor]. Qed.

(** The last two steps of a commit and of a recovery: the disk shows the same
    before and after the header is cleared. *)
Lemma clear_head_wpc dev p L bl s d c V :
  txn dev L bl (k_log s) -> cache_rel dev p s (plain d c ∅) -> length (c L) = Z.to_nat BSIZE ->
  shows L d V -> (forall b, outside L b -> d b = V b) ->
  wpc (upd_log (set_lh_n 0) ;; write_head)
    (fun _ s' => txn dev L [] (k_log s') /\ exists d', cache_rel dev p s' (plain d' d' ∅) /\
       hb_n (d' L) = 0 /\ length (d' L) = Z.to_nat BSIZE /\ forall b, outside L b -> d' b = V b)
    (crashed (fun d' => shows L d' V)) s.
Proof.
  intros T H Hlen HV Hhome. kwpc. set (s1 := set_k_log _ s).
  pose proof (tx_clear _ _ _ _ T) as T1.
  eapply wpc_mono; [eapply (write_head_wpc dev p L [] s1 d c ∅)| |]; try done.
  - by apply cache_rel_set_log.
  - rewrite dom_empty_L, size_empty. unfold NBUF. lia.
  - exact HV.
  - intros _ s2 [O H2]. split; [by rewrite (io_only_log _ _ O)|].
    set (h := hput (c L) 0 [] 0). exists (<[L := h]> d).
    assert (length h = Z.to_nat BSIZE) as Hh by (unfold h; rewrite length_hput; [done|done|lia]).
    split_and!.
    + revert H2. apply cache_rel_proper. split_and!; try done. intros b. symmetry.
      pose proof (cr_clean _ _ _ _ _ (ca_bufs _ _ _ _ H) b) as Hb. rewrite busy_plain, dom_empty_L in Hb.
      simpl. destruct (decide (b = L)) as [->|]; [by rewrite !fn_lookup_insert|].
      rewrite !fn_lookup_insert_ne by done. apply Hb. set_solver.
    + rewrite fn_lookup_insert. unfold h. rewrite hb_n_hput; [done|done|lia].
    + by rewrite fn_lookup_insert.
    + intros b Hb. rewrite fn_lookup_insert_ne; [auto|]. intros <-. apply Hb. loglia.
Qed.

Definition pinned (bl : list Z) : gmap Z nat := gset_to_gmap 1%nat (list_to_set bl).

Lemma pinned_in bl b : b ∈ bl -> pinned bl !! b = Some 1%nat.
Proof. intros. apply lookup_gset_to_gmap_Some. split; [by apply elem_of_list_to_set|done]. Qed.
Lemma pinned_out bl b : b ∉ bl -> pinned bl !! b = None.
Proof. intros. apply lookup_gset_to_gmap_None. by rewrite elem_of_list_to_set. Qed.
Lemma size_pinned bl : NoDup bl -> size (dom (pinned bl)) = length bl.
Proof. intros. unfold pinned. rewrite dom_gset_to_gmap. by apply size_list_to_set. Qed.

Lemma unpins_pinned bl : unpins 0 bl (length bl) (pinned bl) = ∅.
Proof.
  assert (forall k b, (k <= length bl)%nat -> (exists j, (j < k)%nat /\ bl !!! j = b) ->
    unpins 0 bl k (pinned bl) !! b = None) as H.
  { induction k as [|k IH]; intros b Hk (j & Hj & Hb); [lia|]. simpl. unfold unpin1. simpl.
    apply lookup_delete_None. destruct (decide (j = k)) as [->|]; [by left|].
    right. apply IH; [lia|]. exists j. split; [lia|done]. }
  apply map_empty. intros b. destruct (decide (b ∈ bl)) as [Hb|Hb].
  - apply H; [done|]. apply list_elem_of_lookup in Hb as [j Hj]. exists j.
    split; [by eapply lookup_lt_Some|by apply list_lookup_total_correct].
  - pose proof (unpins_dom 0 bl (length bl) (pinned bl)) as Hd. apply not_elem_of_dom.
    pose proof (pinned_out _ _ Hb) as Hn. apply not_elem_of_dom in Hn. set_solver.
Qed.
(** [V] is shown while the transaction is being copied to the log, as the
    header is clear. *)
Lemma shows_writing L d data k :
  (k < Z.to_nat LOGSIZE)%nat -> hb_n (d L) = 0 -> shows L (logw data L k d) d.
Proof.
  intros Hk Hn. apply shows_empty.
  - rewrite logw_out; [done|loglia].
  - intros b Hb. unfold outside in Hb. apply logw_out. loglia.
Qed.

(** The new contents are shown while the transaction goes home: the log on
    the disk holds [data] for the blocks [bl]. *)
Lemma shows_installing dev L bl l d V data k :
  txn dev L bl l -> hdr_blocks (d L) = bl -> (k <= length bl)%nat ->
  (forall j, (j < length bl)%nat -> data j = V (bl !!! j) /\ d (L + 1 + Z.of_nat j) = data j) ->
  (forall b, outside L b -> b ∉ bl -> d b = V b) ->
  shows L (homew data bl k d) V.
Proof.
  intros T Hh Hk Hin Hout.
  assert (forall b, ~ outside L b -> homew data bl k d b = d b) as Hlog.
  { intros b Hb. apply homew_out; [done|]. intros Hi.
    pose proof (tx_range _ _ _ _ T) as Hr. rewrite Forall_forall in Hr. by destruct (Hr _ Hi). }
  apply (shows_committed _ _ _ bl).
  - apply T.
  - rewrite Hlog; [done|]. unfold outside. loglia.
  - intros j b Hj. pose proof (lookup_lt_Some _ _ _ Hj) as Hlt. destruct (Hin j Hlt) as [E1 E2].
    rewrite (list_lookup_total_correct _ _ _ Hj) in E1.
    rewrite Hlog; [congruence|]. unfold outside. pose proof (tx_fits _ _ _ _ T). loglia.
  - intros b Hb Hi. rewrite homew_out by done. auto.
Qed.

Lemma homew_home bl d V data b :
  NoDup bl -> (forall j, (j < length bl)%nat -> data j = V (bl !!! j)) ->
  (b ∉ bl -> d b = V b) -> homew data bl (length bl) d b = V b.
Proof.
  intros Hnd Hin Hout. destruct (decide (b ∈ bl)) as [Hi|Hi].
  - apply list_elem_of_lookup in Hi as [j Hj]. pose proof (lookup_lt_Some _ _ _ Hj).
    rewrite <- (list_lookup_total_correct _ _ _ Hj). rewrite homew_in by done. auto.
  - rewrite homew_out by done. auto.
Qed.

(** Installing and clearing the header, for both a commit and a recovery: [V]
    is shown throughout and is the plain content of the disk at the end. *)
Lemma install_clear_wpc dev p L bl s d c V pins recovering :
  txn dev L bl (k_log s) -> cache_rel dev p s (plain d c pins) ->
  (size (dom pins) < NBUF)%nat -> unpins recovering bl (length bl) pins = ∅ ->
  c L = d L -> length (d L) = Z.to_nat BSIZE -> hdr_blocks (d L) = bl ->
  (forall k, (k < length bl)%nat ->
     installable recovering (bl !!! k) pins /\ pins !! (L + 1 + Z.of_nat k) = None /\
     c (L + 1 + Z.of_nat k) = V (bl !!! k) /\ d (L + 1 + Z.of_nat k) = V (bl !!! k)) ->
  (forall b, outside L b -> b ∉ bl -> d b = V b) ->
  wpc (install_trans recovering ;; upd_log (set_lh_n 0) ;; write_head)
    (fun _ s' => txn dev L [] (k_log s') /\ exists d', cache_rel dev p s' (plain d' d' ∅) /\
       hb_n (d' L) = 0 /\ length (d' L) = Z.to_nat BSIZE /\ forall b, outside L b -> d' b = V b)
    (crashed (fun d' => shows L d' V)) s.
Proof.
  intros T H Hroom Hun HcL Hlen Hh Hbl Hout. apply wpc_bind.
  assert (forall k, (k <= length bl)%nat ->
    shows L (homew (fun k => c (L + 1 + Z.of_nat k)) bl k d) V) as Hshow.
  { intros k Hk. eapply shows_installing; try done. intros j Hj.
    destruct (Hbl j Hj) as (_ & _ & -> & ->). done. }
  eapply wpc_mono; [eapply (install_trans_wpc dev p L bl s d c pins recovering); try done| |done].
  { intros k Hk. destruct (Hbl k Hk) as (? & ? & -> & ->). done. }
  { exact Hshow. }
  intros [] s1 [O H1]. rewrite Hun in H1. rewrite <- (io_only_log _ _ O) in T.
  eapply clear_head_wpc; [done|done| |by apply Hshow|].
  - rewrite homew_out; [congruence|done|]. intros Hi.
    pose proof (tx_range _ _ _ _ T) as Hr. rewrite Forall_forall in Hr.
    destruct (Hr _ Hi) as [_ Ho]. apply Ho. loglia.
  - intros b Hb. apply homew_home; [apply T| |auto]. intros j Hj. by destruct (Hbl j Hj) as (_ & _ & -> & _).
Qed.
(** The header written by a commit names the transaction. *)
Lemma commit_header dev L bl l h : txn dev L bl l -> length h = Z.to_nat BSIZE ->
  hdr_blocks (hput h (Z.of_nat (length bl)) bl (length bl)) = bl /\
  length (hput h (Z.of_nat (length bl)) bl (length bl)) = Z.to_nat BSIZE.
Proof.
  intros T Hh. pose proof (tx_fits _ _ _ _ T). split.
  - apply hdr_blocks_hput; [done|lia|]. eapply Forall_impl; [apply T|]. by intros b [].
  - rewrite length_hput; [done|done|lia].
Qed.

Lemma tx_outside dev L bl l b : txn dev L bl l -> ~ outside L b -> b ∉ bl.
Proof.
  intros T Hb Hi. pose proof (tx_range _ _ _ _ T) as Hr. rewrite Forall_forall in Hr. by destruct (Hr _ Hi).
Qed.

Lemma pinned_clean dev p s bl d c b :
  cache_rel dev p s (plain d c (pinned bl)) -> b ∉ bl -> c b = d b.
Proof.
  intros H Hb. apply (cr_clean _ _ _ _ _ (ca_bufs _ _ _ _ H)). rewrite busy_plain.
  apply not_elem_of_dom. by apply pinned_out.
Qed.

Lemma pinned_room dev L bl l : txn dev L bl l -> (size (dom (pinned bl)) < NBUF)%nat.
Proof. intros T. rewrite size_pinned by apply T. pose proof (tx_fits _ _ _ _ T). unfold NBUF. loglia. Qed.

Lemma crashed_mono (P Q : (Z -> list Z) -> Prop) msg s :
  (forall d, P d -> Q d) -> crashed P msg s -> crashed Q msg s.
Proof. intros HPQ (? & d & ? & ?). split; [done|]. exists d. auto. Qed.

(** The first half of a commit, up to the write of the header. *)
Lemma log_and_head_wpc dev p L bl s d c :
  txn dev L bl (k_log s) -> cache_rel dev p s (plain d c (pinned bl)) ->
  hb_n (d L) = 0 -> length (d L) = Z.to_nat BSIZE ->
  let data k := c (bl !!! k) in
  let h := hput (c L) (Z.of_nat (length bl)) bl (length bl) in
  wpc (write_log ;; write_head)
    (fun _ s' => io_only s s' /\ cache_rel dev p s'
       (plain (<[L := h]> (logw data L (length bl) d)) (<[L := h]> (logw data L (length bl) c)) (pinned bl)))
    (crashed (fun d' => shows L d' d)) s.
Proof.
  intros T H Hn Hlen data h. apply wpc_bind. pose proof (tx_fits _ _ _ _ T) as Hfits.
  eapply wpc_mono; [eapply (write_log_wpc dev p L bl s d c); try done| |done].
  { intros b Hb. exists 1%nat. by apply pinned_in. }
  { by eapply pinned_room. }
  { intros k Hk. apply shows_writing; [lia|done]. }
  intros [] s1 [O1 H1]. rewrite <- (io_only_log _ _ O1) in T.
  eapply wpc_mono; [eapply (write_head_wpc dev p L bl s1); try done| |done].
  { by eapply pinned_room. }
  { eapply pinned_out, tx_outside; [done|]. unfold outside. loglia. }
  { apply shows_writing; [lia|done]. }
  intros [] s2 [O2 H2]. rewrite (logw_out _ _ _ c L) in H2 by lia. split; [by etrans|done].
Qed.

(** The transaction of a commit is not empty. *)
Lemma commit_some_wpc dev p L bl s d c :
  txn dev L bl (k_log s) -> cache_rel dev p s (plain d c (pinned bl)) ->
  hb_n (d L) = 0 -> length (d L) = Z.to_nat BSIZE ->
  wpc (write_log ;; write_head ;; install_trans 0 ;; upd_log (set_lh_n 0) ;; write_head)
    (fun _ s' => txn dev L [] (k_log s') /\ exists d', cache_rel dev p s' (plain d' d' ∅) /\
       hb_n (d' L) = 0 /\ length (d' L) = Z.to_nat BSIZE /\ forall b, outside L b -> d' b = c b)
    (crashed (fun d' => shows L d' d \/ shows L d' c)) s.
Proof.
  intros T H Hn Hlen. pose proof (tx_fits _ _ _ _ T) as Hfits.
  assert (forall b, ~ outside L b -> b ∉ bl) as Hlog by (intros b; by eapply tx_outside).
  assert (forall b, b ∉ bl -> c b = d b) as Hcd by (intros b; by eapply pinned_clean).
  assert (~ outside L L) as HL by (unfold outside; loglia).
  apply (wpc_assoc write_log (fun _ => write_head)), wpc_bind.
  eapply wpc_mono; [by apply log_and_head_wpc| |intros msg s'; apply crashed_mono; auto].
  intros [] s1 [O1 H1]. rewrite <- (io_only_log _ _ O1) in T.
  destruct (commit_header dev L bl _ (c L) T) as [Hh Hl]; [by rewrite Hcd by auto|].
  eapply wpc_mono; [eapply (install_clear_wpc dev p L bl s1 _ _ c); try done| |].
  - by eapply pinned_room.
  - apply unpins_pinned.
  - by rewrite !fn_lookup_insert.
  - by rewrite fn_lookup_insert.
  - by rewrite fn_lookup_insert.
  - intros k Hk. rewrite !fn_lookup_insert_ne, !logw_in by lia. destruct (tx_in T k Hk) as (Hi & _).
    split_and!; [by apply pinned_in|apply pinned_out, Hlog; unfold outside; loglia|done|done].
  - intros b Hb Hi. rewrite fn_lookup_insert_ne, logw_out.
    + symmetry. auto.
    + unfold outside in Hb. loglia.
    + intros <-. done.
  - done.
  - intros msg s'. apply crashed_mono. auto.
Qed.

(** C1: [commit] is atomic however the power fails.  From a log whose header on
    the disk is clear, with the blocks of the transaction pinned in the cache,
    [commit] returns with every block of the file system on the disk as the
    kernel sees it, the header clear and nothing pinned; and if the power
    fails at any of its writes, the disk as recovery reads it shows either all
    the old blocks or all the new ones.  The log is the [LOGSIZE] blocks from
    [L] on, as [mkfs] lays it out; the other blocks are the file system. *)
Theorem commit_crash_safe dev p L bl s d c :
  txn dev L bl (k_log s) -> cache_rel dev p s (plain d c (pinned bl)) ->
  hb_n (d L) = 0 -> length (d L) = Z.to_nat BSIZE ->
  wpc commit
    (fun _ s' => txn dev L [] (k_log s') /\ exists d', cache_rel dev p s' (plain d' d' ∅) /\
       hb_n (d' L) = 0 /\ length (d' L) = Z.to_nat BSIZE /\ forall b, outside L b -> d' b = c b)
    (crashed (fun d' => shows L d' d \/ shows L d' c)) s.
Proof.
  intros T H Hn Hlen. unfold commit. apply wpc_get_log. rewrite (tx_n _ _ _ _ T).
  destruct bl as [|b0 bl'] eqn:Ebl.
  - assert (forall b, c b = d b) as Hcd by (intros b; eapply pinned_clean; [done|set_solver]).
    simpl. apply wpc_wp, wp_ret. split; [done|]. exists d. split_and!; [|done|done|done].
    revert H. apply cache_rel_proper. by split_and!.
  - rewrite <- Ebl in *. assert (0 < length bl)%nat by (rewrite Ebl; simpl; lia).
    destruct (Z.gtb_spec (Z.of_nat (length bl)) 0); [|lia]. unfold when. by eapply commit_some_wpc.
Qed.
(** ** Recovery *)

(** A header that a commit, or [mkfs], has written. *)
Record header_ok (L : Z) (h : list Z) : Prop := {
  hd_len : length h = Z.to_nat BSIZE;
  hd_n : 0 <= hb_n h;
  hd_fits : (length (hdr_blocks h) < Z.to_nat LOGSIZE)%nat;
  hd_nodup : NoDup (hdr_blocks h);
  hd_range : Forall (fun b => 0 <= b < 2 ^ 31 /\ outside L b) (hdr_blocks h);
}.

(** The log structure while the first [k] numbers of header [h] are read. *)
Record reading (dev L : Z) (h : list Z) (k : nat) (l : log) : Prop := {
  rd_dev : l_dev l = dev;
  rd_start : l_start l = L;
  rd_n : lh_n l = hb_n h;
  rd_len : length (lh_block l) = Z.to_nat LOGSIZE;
  rd_blocks : take k (lh_block l) = take k (hdr_blocks h);
}.

Lemma hdr_blocks_length h : length (hdr_blocks h) = Z.to_nat (hb_n h).
Proof. unfold hdr_blocks. by rewrite length_fmap, length_seq. Qed.

Lemma hdr_blocks_lookup h k : (k < length (hdr_blocks h))%nat ->
  hdr_blocks h !! k = Some (hb_block h (Z.of_nat k)).
Proof.
  intros Hk. rewrite hdr_blocks_length in Hk. unfold hdr_blocks.
  by rewrite list_lookup_fmap, lookup_seq_lt.
Qed.

Lemma reading_step dev L h k l :
  (k < length (hdr_blocks h))%nat -> (length (hdr_blocks h) < Z.to_nat LOGSIZE)%nat ->
  reading dev L h k l ->
  reading dev L h (S k) (set_lh_block (<[k := hb_block h (Z.of_nat k)]> (lh_block l)) l).
Proof.
  intros Hk Hfits []. constructor; simpl; try done.
  - by rewrite length_insert.
  - rewrite (take_S_r (hdr_blocks h) k _ (hdr_blocks_lookup h k Hk)).
    rewrite (take_S_r _ k (hb_block h (Z.of_nat k))).
    + by rewrite take_insert_ge, rd_blocks0 by lia.
    + apply list_lookup_insert_eq. lia.
Qed.

Lemma reading_txn dev L h l :
  header_ok L h -> 0 <= L -> L + LOGSIZE < 2 ^ 31 ->
  reading dev L h (length (hdr_blocks h)) l -> txn dev L (hdr_blocks h) l.
Proof.
  intros [] ? ? [? ? ? ? Hb]. rewrite (firstn_all (hdr_blocks h)) in Hb. constructor; try done.
  rewrite hdr_blocks_length. lia.
Qed.

Lemma read_head_loop dev p L d buf s :
  cache_rel dev p s (st_hold L buf (plain d d ∅)) -> header_ok L (d L) ->
  reading dev L (d L) 0 (k_log s) ->
  wp (loop (fun i =>
        l <- get_log ;;
        if negb (i <? lh_n l) then ret (inr tt) else
        b <- get_buf buf ;;
        store_lh_block i (hb_block (b_data b) i) ;;
        ret (inl (i + 1))) 0)
    (fun _ s' => cache_rel dev p s' (st_hold L buf (plain d d ∅)) /\
       reading dev L (d L) (length (hdr_blocks (d L))) (k_log s')) s.
Proof.
  intros H Hok HR. pose proof (hd_n _ _ Hok) as Hn. pose proof (hd_fits _ _ Hok) as Hfits.
  pose proof (hdr_blocks_length (d L)) as Hlen.
  apply (wp_loop_idx _ (fun n i s' => exists k, (k <= length (hdr_blocks (d L)))%nat /\
    i = Z.of_nat k /\ n = Z.of_nat (length (hdr_blocks (d L)) - k) /\
    cache_rel dev p s' (st_hold L buf (plain d d ∅)) /\ reading dev L (d L) k (k_log s'))
    _ (Z.of_nat (length (hdr_blocks (d L))))).
  - intros n i s1 (k & Hk & -> & -> & H1 & R1). unfold get_log. wp_step. wp_step.
    rewrite (rd_n _ _ _ _ _ R1). destruct (Z.ltb_spec (Z.of_nat k) (hb_n (d L))); simpl negb; cbv iota.
    + assert (k < length (hdr_blocks (d L)))%nat as Hlt by lia.
      unfold get_buf. wp_step. wp_step.
      destruct (held_buf _ _ _ _ L buf H1) as (_ & _ & _ & -> & _); [simpl; apply lookup_insert_eq|].
      unfold store_lh_block. destruct (Z.leb_spec 0 (Z.of_nat k)); [|lia].
      destruct (Z.ltb_spec (Z.of_nat k) LOGSIZE); [|loglia]. simpl andb. cbv iota.
      unfold upd_log. wp_step. wp_step. wp_step. exists (Z.of_nat (length (hdr_blocks (d L)) - S k)).
      split; [lia|]. exists (S k). split_and!; [lia|lia|done|by apply cache_rel_set_log|].
      rewrite Nat2Z.id. by apply reading_step.
    + wp_step. assert (k = length (hdr_blocks (d L))) as -> by lia. done.
  - exists O. split_and!; [lia|done|lia|done|done].
  - loglia.
Qed.

Lemma read_head_wp dev p L d s :
  cache_rel dev p s (plain d d ∅) -> header_ok L (d L) -> 0 <= L -> L + LOGSIZE < 2 ^ 31 ->
  l_dev (k_log s) = dev -> l_start (k_log s) = L -> length (lh_block (k_log s)) = Z.to_nat LOGSIZE ->
  wp read_head (fun _ s' => cache_rel dev p s' (plain d d ∅) /\ txn dev L (hdr_blocks (d L)) (k_log s')) s.
Proof.
  intros H Hok HL HL' Hdev Hst Hlb. unfold read_head, get_log. wp_step. wp_step.
  rewrite Hdev, Hst, u32_small by loglia. apply wp_bind.
  eapply wp_mono; [eapply bread_rel; [done|done|right]|].
  { rewrite busy_plain, dom_empty_L, size_empty. unfold NBUF. lia. }
  intros buf s1 [H1 O1]. unfold get_buf, upd_log. wp_step. wp_step. wp_step. wp_step.
  destruct (held_buf _ _ _ _ L buf H1) as (_ & _ & _ & Hdata & _); [simpl; apply lookup_insert_eq|].
  rewrite Hdata. simpl st_cont. apply wp_bind.
  eapply wp_mono; [eapply (read_head_loop dev p L d buf)|].
  - by apply cache_rel_set_log.
  - done.
  - constructor; simpl; rewrite ?(io_only_log _ _ O1); done.
  - intros [] s2 [H2 R2]. eapply wp_mono; [eapply (brelse_rel dev p s2 _ L); [done|simpl; apply lookup_insert_eq|done]|].
    intros [] s3 [H3 O3]. simpl in H3. rewrite (io_only_log _ _ O3).
    split; [|by apply reading_txn]. revert H3. apply cache_rel_proper. split_and!; try done.
    simpl. by rewrite delete_insert_id.
Qed.

(** C2: recovery at boot brings the disk back to the state its log shows, and
    may itself be interrupted.  For a header that names distinct blocks of the
    file system, [initlog] returns with every block of the file system at
    home as the log showed it and the header clear; and if the power fails at
    any write of the recovery, the disk shows the same blocks as before.  The
    log is the [LOGSIZE] blocks from [L] on; the block after it is a block of
    the file system like any other. *)
Theorem initlog_recovers dev p L d s :
  cache_rel dev p s (plain d d ∅) -> header_ok L (d L) ->
  sb_logstart (k_sb s) = L -> 0 <= L -> L + LOGSIZE < 2 ^ 31 ->
  length (lh_block (k_log s)) = Z.to_nat LOGSIZE ->
  wpc (initlog dev)
    (fun _ s' => txn dev L [] (k_log s') /\ exists d', cache_rel dev p s' (plain d' d' ∅) /\
       hb_n (d' L) = 0 /\ length (d' L) = Z.to_nat BSIZE /\ forall b, outside L b -> d' b = logical L d b)
    (crashed (fun d' => shows L d' (logical L d))) s.
Proof.
  intros H Hok HL H0 H1 Hlb. unfold initlog. change (4 + 4 * LOGSIZE >=? BSIZE) with false. cbv iota.
  kwpc. unfold recover_from_log. rewrite HL, (i32_small L) by loglia. apply wpc_bind.
  eapply wpc_mono; [apply wpc_wp, (read_head_wp dev p L d)| |done]; try done.
  { by repeat apply cache_rel_set_log. }
  intros [] s1 [H2 T]. pose proof (hd_nodup _ _ Hok) as Hnd.
  eapply install_clear_wpc; try done.
  - rewrite dom_empty_L, size_empty. unfold NBUF. lia.
  - generalize (length (hdr_blocks (d L))). induction n as [|n IH]; [done|]. simpl. by rewrite IH.
  - apply Hok.
  - intros k Hk. destruct (lookup_lt_is_Some_2 _ _ Hk) as [b Hb].
    assert (logical L d (hdr_blocks (d L) !!! k) = d (L + 1 + Z.of_nat k)) as ->.
    { rewrite (list_lookup_total_correct _ _ _ Hb). unfold logical.
      by rewrite (find_eq_lookup _ _ k). }
    split_and!; try done. unfold installable. simpl. split; [done|].
    rewrite dom_empty_L, size_empty. unfold NBUF. lia.
  - intros b _ Hb. unfold logical. by rewrite find_eq_None.
Qed.
End Ops.

Module LogDemo.
#[local] Instance still : Env := fun _ s => Some s.

(** The power fails at the first write to a home block. *)
#[local] Instance weak : Disk := fun i write s =>
  if write && (32 <=? b_blockno (k_bufs s !!! i)) then Panic "power failure" s else disk_transfer i write s.
#[local] Instance weak_power : PowerDisk weak.
Proof.
  split; [done|]. intros i s. unfold virtio_disk_rw, weak. simpl andb. destruct (32 <=? _); auto.
Qed.

(** The log is at blocks 2 to 31; block 32, the first block of inodes, is in the
    transaction, new in the cache. *)
Definition sevens : list Z := replicate 1024 7.
Definition log1 : log := mk_log 2 30 0 1 1 1 (32 :: replicate 29 0).
Definition s0 : kernel := set_k_cur (Some O) (set_k_log log1 kernel0).
Definition setup : K unit :=
  binit ;;
  i <- bread 1 32 ;;
  upd_buf i (set_b_data sevens) ;;
  bpin i ;;
  brelse i.
Definition final {A} (m : K A) (s : kernel) : kernel := match m s with Ok _ s' => s' | _ => s end.
Definition s1 : kernel := final setup s0.

Lemma wp_final {A} (m : K A) (Q : kernel -> Prop) s :
  wp m (fun _ s' => Q s') s -> Q (final m s).
Proof. unfold wp, final. by destruct (m s). Qed.

Lemma s0_binit : wp binit (fun _ s => cache_rel 1 O s (plain (disk_block ∅) (disk_block ∅) ∅) /\ k_log s = log1) s0.
Proof.
  assert (Forall idle (k_bufs s0)) as Hi by (apply Forall_replicate; split_and!; reflexivity).
  destruct (binit_run_idle s0 eq_refl Hi) as (s' & Hrun & Hs' & HF & Hl).
  apply (wp_eq _ _ _ _ _ Hrun). clear Hrun. rewrite Hs'. split; [|reflexivity].
  apply (idle_simulates 1 O s0); [lia|reflexivity|reflexivity|reflexivity|by eexists|exact HF].
Qed.

Lemma s1_ok : cache_rel 1 O s1 (plain (disk_block ∅) (<[32 := sevens]> (disk_block ∅)) (pinned [32])) /\
  k_log s1 = log1.
Proof.
  apply (wp_final setup (fun s => cache_rel 1 O s _ /\ k_log s = log1)). unfold setup. apply wp_bind.
  eapply wp_mono; [apply s0_binit|]. intros [] s [H Hlog]. apply wp_bind.
  eapply wp_mono; [eapply bread_rel; [exact H|reflexivity|right; vm_compute; lia]|].
  intros i s2 [H2 O2]. apply wp_bind.
  eapply wp_mono; [eapply (set_data_rel _ _ _ _ 32 _ (fun _ => sevens)); [exact H2|simpl; apply lookup_insert_eq]|].
  intros [] s3 [H3 O3]. apply wp_bind.
  eapply wp_mono; [eapply (bpin_rel _ _ _ _ 32); [exact H3|simpl; apply lookup_insert_eq|vm_compute; reflexivity]|].
  intros [] s4 [H4 O4].
  eapply wp_mono; [eapply (brelse_rel _ _ _ _ 32); [exact H4|simpl; apply lookup_insert_eq|done]|].
  intros [] s5 [H5 O5]. split; [exact H5|].
  by rewrite (io_only_log _ _ O5), (io_only_log _ _ O4), (io_only_log _ _ O3), (io_only_log _ _ O2).
Qed.

Lemma log1_txn : txn 1 2 [32] log1.
Proof.
  constructor; try reflexivity; try (simpl; loglia).
  - apply NoDup_singleton.
  - constructor; [|constructor]. unfold outside. loglia.
Qed.

Lemma commit_crash_safe_witness :
  txn 1 2 [32] (k_log s1) /\
  wpc commit
    (fun _ s' => txn 1 2 [] (k_log s') /\ exists d', cache_rel 1 O s' (plain d' d' ∅) /\
       hb_n (d' 2) = 0 /\ length (d' 2) = Z.to_nat BSIZE /\
       forall b, outside 2 b -> d' b = (<[32 := sevens]> (disk_block ∅)) b)
    (crashed (fun d' => shows 2 d' (disk_block ∅) \/ shows 2 d' (<[32 := sevens]> (disk_block ∅)))) s1.
Proof.
  destruct s1_ok as [H Hlog]. split; [rewrite Hlog; exact log1_txn|].
  apply (commit_crash_safe 1 O 2 [32]); [rewrite Hlog; exact log1_txn|exact H|reflexivity|reflexivity].
Defined.

(** A committed transaction with block 32 in the log. *)
Definition header : list Z := hput (replicate 1024 0) 1 [32] 1.
Definition s2 : kernel :=
  set_k_cur (Some O) (set_k_sb (set_sb_logstart 2 superblock0)
    (set_k_disk (<[2 := header]> (<[3 := sevens]> ∅)) kernel0)).
Definition s3 : kernel := final binit s2.

Lemma s3_ok : cache_rel 1 O s3 (plain (disk_block (k_disk s2)) (disk_block (k_disk s2)) ∅) /\
  k_log s3 = log0 /\ sb_logstart (k_sb s3) = 2.
Proof.
  assert (Forall idle (k_bufs s2)) as Hi by (apply Forall_replicate; split_and!; reflexivity).
  apply (wp_final binit (fun s => cache_rel 1 O s _ /\ k_log s = log0 /\ sb_logstart (k_sb s) = 2)).
  destruct (binit_run_idle s2 eq_refl Hi) as (s' & Hrun & Hs' & HF & Hl).
  apply (wp_eq _ _ _ _ _ Hrun). clear Hrun. rewrite Hs'. split; [|split; reflexivity].
  apply (idle_simulates 1 O s2); [lia|reflexivity|reflexivity|reflexivity|by eexists|exact HF].
Qed.

Lemma header_blocks : hdr_blocks header = [32].
Proof. vm_compute. reflexivity. Qed.

Lemma initlog_recovers_witness :
  logical 2 (disk_block (k_disk s2)) 32 = sevens /\
  wpc (initlog 1)
    (fun _ s' => txn 1 2 [] (k_log s') /\ exists d', cache_rel 1 O s' (plain d' d' ∅) /\
       hb_n (d' 2) = 0 /\ length (d' 2) = Z.to_nat BSIZE /\
       forall b, outside 2 b -> d' b = logical 2 (disk_block (k_disk s2)) b)
    (crashed (fun d' => shows 2 d' (logical 2 (disk_block (k_disk s2))))) s3.
Proof.
  destruct s3_ok as (H & Hlog & Hsb). split; [vm_compute; reflexivity|].
  apply (initlog_recovers 1 O 2 _ s3); [exact H| |exact Hsb|lia|loglia|rewrite Hlog; reflexivity].
  constructor.
  - vm_compute. reflexivity.
  - vm_compute. discriminate.
  - change (disk_block (k_disk s2) 2) with header. rewrite header_blocks. simpl. loglia.
  - change (disk_block (k_disk s2) 2) with header. rewrite header_blocks. apply NoDup_singleton.
  - change (disk_block (k_disk s2) 2) with header. rewrite header_blocks.
    constructor; [|constructor]. unfold outside. loglia.
Defined.
End LogDemo.
