(* ===== verification/LogSpace.v ===== *)
(** * Space in the log

    What [log_write] does to the transaction, and the reservation made by
    [begin_op]: every system call may write [MAXOPBLOCKS] blocks, and none is
    admitted unless the log has room for all that are admitted. *)

From S2P Require Import Prelude Bytes Params CString Spinlock State Kalloc Vm Sched SchedProofs Bio Lru BioProofs Log.

(** ** log_write *)

(** The blocks of the transaction. *)
Definition log_blocks (l : log) : list Z := take (Z.to_nat (lh_n l)) (lh_block l).

(** The transaction after block [bno] is written. *)
Definition logged (bno : Z) (l : log) : log :=
  if decide (bno ∈ log_blocks l) then l
  else set_lh_n (lh_n l + 1) (set_lh_block (<[Z.to_nat (lh_n l) := bno]> (lh_block l)) l).

Record log_ok (l : log) : Prop := {
  lo_n : 0 <= lh_n l <= LOGSIZE;
  lo_len : length (lh_block l) = Z.to_nat LOGSIZE;
}.

Lemma log_blocks_length l : log_ok l -> length (log_blocks l) = Z.to_nat (lh_n l).
Proof. intros [? Hl]. unfold log_blocks. rewrite length_take. lia. Qed.

Lemma log_slot_in l bno : log_ok l -> bno ∈ log_blocks l ->
  0 <= log_slot l bno < lh_n l /\ lh_block l !! Z.to_nat (log_slot l bno) = Some bno.
Proof.
  intros Hok Hin. unfold log_slot. fold (log_blocks l).
  destruct (list_find _ (log_blocks l)) as [[i x]|] eqn:Hf.
  - apply list_find_Some in Hf as (Hi & -> & _). rewrite Nat2Z.id.
    pose proof (lookup_lt_Some _ _ _ Hi) as Hlt. rewrite log_blocks_length in Hlt by done.
    split; [lia|]. unfold log_blocks in Hi. by apply lookup_take_Some in Hi as [? _].
  - apply list_find_None in Hf. rewrite Forall_forall in Hf. by destruct (Hf _ Hin).
Qed.

Lemma log_slot_out l bno : bno ∉ log_blocks l -> log_slot l bno = lh_n l.
Proof.
  intros Hout. unfold log_slot. fold (log_blocks l).
  destruct (list_find _ (log_blocks l)) as [[i x]|] eqn:Hf; [|done].
  apply list_find_Some in Hf as (Hi & -> & _). destruct Hout. by eapply list_elem_of_lookup_2.
Qed.

Lemma logged_blocks bno l : log_ok l -> lh_n l < LOGSIZE ->
  log_blocks (logged bno l) =
    if decide (bno ∈ log_blocks l) then log_blocks l else log_blocks l ++ [bno].
Proof.
  intros [? Hlen] Hlt. unfold logged. case_decide; [done|]. unfold log_blocks. simpl.
  replace (Z.to_nat (lh_n l + 1)) with (S (Z.to_nat (lh_n l))) by lia.
  rewrite (take_S_r _ _ bno) by (apply list_lookup_insert_eq; lia).
  by rewrite take_insert_ge by lia.
Qed.

Lemma logged_ok bno l : log_ok l -> lh_n l < LOGSIZE -> log_ok (logged bno l).
Proof.
  intros [? ?] ?. unfold logged. case_decide; [done|].
  constructor; simpl; [lia|by rewrite length_insert].
Qed.

(** The state after [log_write]: a block new to the transaction is pinned. *)
Definition log_written (b : nat) (s : kernel) : kernel :=
  let bno := i32 (b_blockno (k_bufs s !!! b)) in
  let s1 := set_k_log (logged bno (k_log s)) s in
  if decide (bno ∈ log_blocks (k_log s)) then s1
  else set_k_bufs (alter (fun x => set_b_refcnt (u32 (b_refcnt x + 1)) x) b (k_bufs s)) s1.

Definition has_room (l : log) : Prop :=
  lh_n l < LOGSIZE /\ lh_n l < l_size l - 1 /\ 1 <= l_outstanding l.

Lemma set_log_log l l' s : set_k_log l (set_k_log l' s) = set_k_log l s.
Proof. by destruct s. Qed.

Lemma log_write_run b s :
  log_ok (k_log s) -> has_room (k_log s) -> LLog ∉ k_held s -> LBcache ∉ k_held s ->
  log_write b s = Ok tt (log_written b s).
Proof.
  intros Hok (H1 & H2 & H3) Hl Hb. pose proof (lo_n _ Hok) as Hn. unfold log_write.
  rewrite bind_acquire by done. unfold get_log, get_buf. rewrite bind_gets.
  change (k_log (set_k_held (LLog :: k_held s) s)) with (k_log s).
  destruct (Z.geb_spec (lh_n (k_log s)) LOGSIZE); [lia|].
  destruct (Z.geb_spec (lh_n (k_log s)) (l_size (k_log s) - 1)); [lia|]. cbn [orb].
  destruct (Z.ltb_spec (l_outstanding (k_log s)) 1); [lia|]. cbv iota. rewrite bind_gets. simpl k_bufs.
  set (bno := i32 _). unfold store_lh_block, log_written, upd_log. fold bno.
  destruct (decide (bno ∈ log_blocks (k_log s))) as [Hin|Hout].
  - destruct (log_slot_in _ _ Hok Hin) as [Hi Hs].
    destruct (Z.leb_spec 0 (log_slot (k_log s) bno)); [|lia].
    destruct (Z.ltb_spec (log_slot (k_log s) bno) LOGSIZE); [|lia]. cbn [andb].
    rewrite bind_modify. simpl k_log. rewrite list_insert_id by done.
    destruct (Z.eqb_spec (log_slot (k_log s) bno) (lh_n (k_log s))); [lia|]. unfold when.
    rewrite bind_ret. erewrite release_top by done. unfold logged. rewrite decide_True by done.
    by destruct s as [? ? ? ? ? ? ? ? ? ? ? []].
  - rewrite log_slot_out by done. destruct (Z.leb_spec 0 (lh_n (k_log s))); [|lia].
    destruct (Z.ltb_spec (lh_n (k_log s)) LOGSIZE); [|lia]. cbn [andb].
    rewrite bind_modify, Z.eqb_refl. simpl k_log. unfold when, bpin. rewrite !bind_assoc.
    rewrite bind_acquire by (simpl; set_solver). unfold upd_buf. rewrite bind_assoc, bind_modify.
    rewrite (bind_release _ (LLog :: k_held s)) by (done || set_solver). rewrite bind_modify.
    erewrite release_top by done. unfold logged. rewrite decide_False by done. simpl. by destruct s.
Qed.

(** C31: [log_write] adds a block to the transaction once.  Within the space of
    the log it returns with every lock as it was; a block that is already in
    the transaction is absorbed, and a new one is appended, so that the blocks
    of the transaction stay distinct, and its buffer is pinned. *)
Theorem log_write_absorbs b s :
  log_ok (k_log s) -> has_room (k_log s) -> LLog ∉ k_held s -> LBcache ∉ k_held s ->
  let bno := i32 (b_blockno (k_bufs s !!! b)) in
  wp (log_write b) (fun _ s' =>
    log_ok (k_log s') /\ k_held s' = k_held s /\
    log_blocks (k_log s') = (if decide (bno ∈ log_blocks (k_log s)) then log_blocks (k_log s)
                             else log_blocks (k_log s) ++ [bno]) /\
    (NoDup (log_blocks (k_log s)) -> NoDup (log_blocks (k_log s'))) /\
    k_bufs s' = (if decide (bno ∈ log_blocks (k_log s)) then k_bufs s
                 else alter (fun x => set_b_refcnt (u32 (b_refcnt x + 1)) x) b (k_bufs s))) s.
Proof.
  intros Hok Hroom Hl Hb bno. pose proof Hroom as [Hlt _].
  eapply wp_eq; [by apply log_write_run|].
  assert (k_log (log_written b s) = logged bno (k_log s)) as ->.
  { unfold log_written. fold bno. by case_decide. }
  rewrite logged_blocks by done. split_and!.
  - by apply logged_ok.
  - unfold log_written. by case_decide.
  - done.
  - case_decide as Hin; [done|]. intros Hnd. apply NoDup_app. split_and!; [done| |apply NoDup_singleton].
    intros x Hx ->%list_elem_of_singleton. done.
  - unfold log_written. fold bno. by case_decide.
Qed.

(** ** The operations that leave the log structure alone *)

Class keeps_log {A} (m : K A) : Prop := log_kept : forall l, preserves (fun s => k_log s = l) m.
#[export] Hint Mode keeps_log - ! : typeclass_instances.

Lemma keeps_on_held {A} (f : M (list lock) A) : keeps_log (on_held f).
Proof. intros l s Hs. unfold wlp, on_held. destruct (f (k_held s)); try done. Qed.

#[export] Instance keeps_acquire lk : keeps_log (acquire lk).
Proof. apply keeps_on_held. Qed.
#[export] Instance keeps_release lk : keeps_log (release lk).
Proof. apply keeps_on_held. Qed.
#[export] Instance keeps_holding lk : keeps_log (holding lk).
Proof. apply keeps_on_held. Qed.

(** Walks through code whose primitives leave the log alone. *)
Ltac keeps_step :=
  lazymatch goal with
  | |- preserves _ (ret _) => apply preserves_ret
  | |- preserves _ (gets _) => apply preserves_gets
  | |- preserves _ (panic _) => apply preserves_panic
  | |- preserves _ blocked => apply preserves_blocked
  | |- preserves _ (modify _) => apply preserves_modify; intros; assumption
  | |- preserves _ (bind _ _) => apply preserves_bind; [|intros ?]
  | |- preserves _ (when _ _) => apply preserves_when
  | |- preserves _ (loop _ _) => apply preserves_loop; intros ?
  | |- preserves _ (for_all _ _) => apply preserves_for_all; intros ? _
  | |- preserves _ (match ?x with _ => _ end) => destruct x
  | |- preserves _ ?m =>
      first [ apply (_ : keeps_log m)
            | progress unfold get_buf, upd_buf, get_inode, upd_inode, get_log, get_proc, upd_proc, myproc,
                deref, curproc, get_sleeplock, upd_sleeplock ]
  end.
Ltac keeps := intros ?; repeat keeps_step.

#[export] Instance keeps_uptime : keeps_log sys_uptime.
Proof. intros l. eapply preserves_ext; [apply sys_uptime_eq|]. revert l. keeps. Qed.
#[export] Instance keeps_wakeup_one c p : keeps_log (run_code (wakeup_one c p)).
Proof. intros l. eapply preserves_ext; [apply wakeup_one_eq|]. revert l. keeps. Qed.
#[export] Instance keeps_wakeup c : keeps_log (wakeup c).
Proof. intros l. eapply preserves_ext; [apply wakeup_eq|]. revert l. keeps. Qed.
#[export] Instance keeps_releasesleep lk : keeps_log (releasesleep lk).
Proof. unfold releasesleep. keeps. Qed.
#[export] Instance keeps_holdingsleep lk : keeps_log (holdingsleep lk).
Proof. unfold holdingsleep. keeps. Qed.
#[export] Instance keeps_brelse b : keeps_log (brelse b).
Proof. unfold brelse, move_to_front. keeps. Qed.
#[export] Instance keeps_bpin b : keeps_log (bpin b).
Proof. unfold bpin. keeps. Qed.
#[export] Instance keeps_bunpin b : keeps_log (bunpin b).
Proof. unfold bunpin. keeps. Qed.

(** ** Reservations *)

(** A process that waits inside a log operation finds the log structure as it
    left it: the others cannot enter while it commits. *)
Class QuietEnv (E : Env) : Prop := env_log : forall n s s', env n s = Some s' -> k_log s' = k_log s.
Class QuietDisk (D : Disk) : Prop := disk_log :: forall b write, keeps_log (virtio_disk_rw b write).

Section Reservation.
Context {E : Env} {D : Disk} {QE : QuietEnv E} {QD : QuietDisk D}.

#[export] Instance keeps_swtch p : keeps_log (swtch p).
Proof.
  intros l s Hs. unfold wlp. rewrite swtch_eq. simpl. destruct (env _ _) as [s'|] eqn:He; [|done].
  apply env_log in He. case_decide; [|done]. simpl. by rewrite He.
Qed.
#[export] Instance keeps_sched : keeps_log sched.
Proof.
  intros l. eapply preserves_ext; [apply sched_eq|]. revert l. unfold sched_check, interruptible. keeps.
Qed.
#[export] Instance keeps_sleep c lk : keeps_log (sleep c lk).
Proof. intros l. eapply preserves_ext; [apply sleep_eq|]. revert l. keeps. Qed.
#[export] Instance keeps_acquiresleep lk : keeps_log (acquiresleep lk).
Proof. unfold acquiresleep. keeps. Qed.
#[export] Instance keeps_bread dev b : keeps_log (bread dev b).
Proof. unfold bread, bget, bget_cached, bget_unused. keeps. Qed.
#[export] Instance keeps_bwrite b : keeps_log (bwrite b).
Proof. unfold bwrite. keeps. Qed.
#[export] Instance keeps_write_log : keeps_log write_log.
Proof. unfold write_log. keeps. Qed.
#[export] Instance keeps_write_head : keeps_log write_head.
Proof. unfold write_head. keeps. Qed.
#[export] Instance keeps_install_trans r : keeps_log (install_trans r).
Proof. unfold install_trans. keeps. Qed.

(** Runs a step that leaves the log alone. *)
Lemma wlp_keeps {A} (m : K A) `{!keeps_log m} Q s :
  (forall a s', k_log s' = k_log s -> Q a s') -> wlp m Q s.
Proof. intros HQ. eapply wlp_mono; [by apply (log_kept (k_log s))|]. intros a s' Hs'. by apply HQ. Qed.

Ltac kept :=
  lazymatch goal with |- wlp (bind _ _) _ _ => apply wlp_bind | _ => idtac end;
  lazymatch goal with |- wlp ?m _ _ => apply (wlp_keeps m) end; let Hs := fresh "Hlog" in intros ? ? Hs; cbv beta.

Lemma wlp_modify_log f Q s : Q tt (set_k_log (f (k_log s)) s) -> wlp (upd_log f) Q s.
Proof. done. Qed.
Lemma wlp_get_log {A} (f : log -> K A) Q s : wlp (f (k_log s)) Q s -> wlp (bind get_log f) Q s.
Proof. done. Qed.
Lemma wlp_get_buf {A} b (f : buf -> K A) Q s : wlp (f (k_bufs s !!! b)) Q s -> wlp (bind (get_buf b) f) Q s.
Proof. done. Qed.

Lemma commit_log s :
  wlp commit (fun _ s' => k_log s' = if lh_n (k_log s) >? 0 then set_lh_n 0 (k_log s) else k_log s) s.
Proof.
  unfold commit. apply wlp_get_log. destruct (lh_n (k_log s) >? 0); unfold when; [|done].
  kept. kept. kept. apply wlp_bind, wlp_modify_log. kept. simpl in *. congruence.
Qed.

Lemma begin_op_log s :
  wlp begin_op (fun _ s' => let l := k_log s in
    l_committing l = 0 /\ lh_n l + (l_outstanding l + 1) * MAXOPBLOCKS <= LOGSIZE /\
    k_log s' = set_l_outstanding (l_outstanding l + 1) l) s.
Proof.
  unfold begin_op. kept. apply (wlp_loop _ (fun _ s' => k_log s' = k_log s)); [|done].
  intros [] s1 Hs1. apply wlp_get_log. rewrite Hs1. unfold z2b.
  destruct (Z.eqb_spec (l_committing (k_log s)) 0) as [Hc|Hc]; simpl negb; cbv iota.
  - destruct (Z.gtb_spec (lh_n (k_log s) + (l_outstanding (k_log s) + 1) * MAXOPBLOCKS) LOGSIZE).
    + kept. apply wlp_ret. congruence.
    + apply wlp_bind, wlp_modify_log. kept. apply wlp_ret. simpl in *. split_and!; [done|lia|congruence].
  - kept. apply wlp_ret. congruence.
Qed.

Lemma end_op_log s :
  wlp end_op (fun _ s' => let l := k_log s in
    l_committing l = 0 /\
    k_log s' = if l_outstanding l =? 1
               then set_l_committing 0 (set_l_outstanding 0 (if lh_n l >? 0 then set_lh_n 0 l else l))
               else set_l_outstanding (l_outstanding l - 1) l) s.
Proof.
  unfold end_op. kept. apply wlp_bind, wlp_modify_log, wlp_get_log. rewrite Hlog. simpl k_log.
  unfold z2b. simpl l_committing. simpl l_outstanding.
  destruct (Z.eqb_spec (l_committing (k_log s)) 0) as [Hc|Hc]; simpl negb; cbv iota; [|apply wlp_panic].
  replace (l_outstanding (k_log s) - 1 =? 0) with (l_outstanding (k_log s) =? 1)
    by (destruct (Z.eqb_spec (l_outstanding (k_log s)) 1), (Z.eqb_spec (l_outstanding (k_log s) - 1) 0); lia).
  destruct (Z.eqb_spec (l_outstanding (k_log s)) 1) as [E1|E1]; unfold when.
  - apply wlp_bind, wlp_modify_log. simpl k_log. kept. apply wlp_bind.
    eapply wlp_mono; [apply commit_log|]. intros [] s2 Hs2. kept. apply wlp_bind, wlp_modify_log.
    kept. kept. simpl in *. split; [done|]. rewrite Hlog3, Hlog2, Hlog1, Hs2, Hlog0, E1. simpl. destruct (lh_n (k_log s) >? 0); reflexivity.
  - kept. kept. apply wlp_ret. simpl in *. split; [done|congruence].
Qed.

Lemma log_write_log b s :
  log_ok (k_log s) ->
  wlp (log_write b) (fun _ s' => lh_n (k_log s) < LOGSIZE /\ exists bno, k_log s' = logged bno (k_log s)) s.
Proof.
  intros Hok. pose proof (lo_n _ Hok) as Hn. unfold log_write. kept. apply wlp_get_log. rewrite Hlog.
  destruct (Z.geb_spec (lh_n (k_log s)) LOGSIZE); [apply wlp_panic|].
  destruct (lh_n (k_log s) >=? l_size (k_log s) - 1); [apply wlp_panic|]. cbn [orb].
  destruct (l_outstanding (k_log s) <? 1); [apply wlp_panic|]. apply wlp_get_buf.
  set (bno := i32 _). unfold store_lh_block.
  destruct ((0 <=? _) && _); [|apply wlp_bind, wlp_panic]. apply wlp_bind, wlp_modify_log. rewrite Hlog.
  destruct (decide (bno ∈ log_blocks (k_log s))) as [Hin|Hout].
  - destruct (log_slot_in _ _ Hok Hin) as [Hi Hs]. rewrite list_insert_id by done.
    destruct (Z.eqb_spec (log_slot (k_log s) bno) (lh_n (k_log s))); [lia|]. unfold when.
    apply wlp_bind, wlp_ret. kept. split; [done|]. exists bno. unfold logged. rewrite decide_True by done.
    simpl in *. rewrite Hlog0. by destruct (k_log s).
  - rewrite log_slot_out, Z.eqb_refl by done. unfold when. apply wlp_bind. kept. apply wlp_modify_log.
    kept. split; [done|]. exists bno. unfold logged. rewrite decide_False by done. simpl in *.
    by rewrite Hlog1, Hlog0.
Qed.

(** The log when the operations in progress may still write [bud] blocks
    each. *)
Record reserved (bud : list nat) (l : log) : Prop := {
  rs_ok : log_ok l;
  rs_outstanding : l_outstanding l = Z.of_nat (length bud);
  rs_committing : l_committing l = 0;
  rs_room : lh_n l + Z.of_nat (sum_list bud) <= LOGSIZE;
  rs_each : Forall (fun n => Z.of_nat n <= MAXOPBLOCKS) bud;
}.

(** The steps of the processes that use the log.  [begin_op] reserves
    [MAXOPBLOCKS] blocks, and each [log_write] of an operation spends one.  An
    operation that [begin_op] makes wait takes its step when it is admitted. *)
Inductive log_step : kernel * list nat -> kernel * list nat -> Prop :=
| step_begin s s' bud : begin_op s = Ok tt s' -> log_step (s, bud) (s', Z.to_nat MAXOPBLOCKS :: bud)
| step_write s s' b bud1 n bud2 : log_write b s = Ok tt s' ->
    log_step (s, bud1 ++ S n :: bud2) (s', bud1 ++ n :: bud2)
| step_end s s' bud1 n bud2 : end_op s = Ok tt s' -> log_step (s, bud1 ++ n :: bud2) (s', bud1 ++ bud2)
| step_other s s' bud : k_log s' = k_log s -> log_step (s, bud) (s', bud).

Lemma wlp_Ok {A} (m : K A) Q s a s' : wlp m Q s -> m s = Ok a s' -> Q a s'.
Proof. unfold wlp. intros H Hr. by rewrite Hr in H. Qed.

Lemma sum_bud bud : Forall (fun n => Z.of_nat n <= MAXOPBLOCKS) bud ->
  Z.of_nat (sum_list bud) <= MAXOPBLOCKS * Z.of_nat (length bud).
Proof. induction 1; simpl; unfold MAXOPBLOCKS in *; lia. Qed.

Lemma logged_fields bno l : lh_n l <= lh_n (logged bno l) <= lh_n l + 1 /\
  l_outstanding (logged bno l) = l_outstanding l /\ l_committing (logged bno l) = l_committing l /\
  l_size (logged bno l) = l_size l.
Proof. unfold logged. case_decide; simpl; split_and!; try done; lia. Qed.

Lemma step_reserved x y :
  log_step x y -> reserved (snd x) (k_log (fst x)) ->
  reserved (snd y) (k_log (fst y)) /\ l_size (k_log (fst y)) = l_size (k_log (fst x)).
Proof.
  destruct 1 as [s s' bud Hr|s s' b bud1 n bud2 Hr|s s' bud1 n bud2 Hr|s s' bud Hr];
    simpl; intros [Hok Ho Hc Hs Hf].
  - apply (wlp_Ok _ _ _ _ _ (begin_op_log s)) in Hr as (_ & Hfit & ->). split; [|done].
    pose proof (sum_bud _ Hf). destruct Hok. constructor; simpl.
    + constructor; simpl; done.
    + lia.
    + done.
    + change (Pos.to_nat 10) with 10%nat. unfold MAXOPBLOCKS in *. lia.
    + constructor; [done|done].
  - apply (wlp_Ok _ _ _ _ _ (log_write_log b s Hok)) in Hr as (Hlt & bno & ->).
    destruct (logged_fields bno (k_log s)) as (? & ? & ? & ?). split; [|done].
    rewrite sum_list_with_app in Hs.
    constructor; [by apply logged_ok| | | |]; rewrite ?length_app, ?sum_list_with_app in *; simpl in *; try lia.
    apply Forall_app in Hf as [? Hf]. inversion Hf; subst. apply Forall_app. split; [done|].
    constructor; [lia|done].
  - apply (wlp_Ok _ _ _ _ _ (end_op_log s)) in Hr as (_ & ->). apply Forall_app in Hf as [Hf1 Hf2].
    inversion Hf2; subst. rewrite length_app in Ho. rewrite sum_list_with_app in Hs. simpl in *.
    destruct Hok. destruct (Z.eqb_spec (l_outstanding (k_log s)) 1).
    + assert (bud1 = [] /\ bud2 = []) as [-> ->] by (split; apply length_zero_iff_nil; lia).
      split; [|by destruct (_ >? 0)]. destruct (_ >? 0); constructor; simpl; try done; try lia;
        constructor; simpl; done || lia.
    + split; [|done]. constructor; simpl; [constructor; done| |done| |];
        rewrite ?length_app, ?sum_list_with_app; [lia|lia|]. by apply Forall_app.
  - by rewrite Hr.
Qed.

Lemma reach_reserved x y :
  rtc log_step x y -> reserved (snd x) (k_log (fst x)) ->
  reserved (snd y) (k_log (fst y)) /\ l_size (k_log (fst y)) = l_size (k_log (fst x)).
Proof.
  induction 1 as [x|x y z Hxy _ IH]; intros Hx; [done|].
  destruct (step_reserved _ _ Hxy Hx) as [Hy Hsz]. destruct (IH Hy). split; [done|congruence].
Qed.

(** C30: the reservation of [begin_op] is enough, given a log of more than
    [LOGSIZE] blocks.  However the operations of the processes interleave, an
    operation that has written fewer than [MAXOPBLOCKS] blocks can write
    another: [log_write] does not find the log full or the transaction
    closed, and does not store outside the header. *)
Theorem reservation_suffices s0 s bud1 n bud2 b :
  reserved [] (k_log s0) -> LOGSIZE < l_size (k_log s0) ->
  rtc log_step (s0, []) (s, bud1 ++ S n :: bud2) -> LLog ∉ k_held s -> LBcache ∉ k_held s ->
  wp (log_write b) (fun _ s' => reserved (bud1 ++ n :: bud2) (k_log s')) s.
Proof.
  intros H0 Hsz Hr Hl Hb. destruct (reach_reserved _ _ Hr H0) as [H Hs]. simpl in H, Hs.
  pose proof H as [Hok Ho Hc Hroom Hf]. rewrite length_app in Ho.
  rewrite sum_list_with_app in Hroom. simpl in Ho, Hroom.
  assert (has_room (k_log s)) as Hhr by (split_and!; lia).
  pose proof (log_write_run b s Hok Hhr Hl Hb) as Hrun. eapply wp_eq; [exact Hrun|].
  by destruct (step_reserved _ _ (step_write _ _ b bud1 n bud2 Hrun) H).
Qed.

(** ** Executable schedules *)

Inductive act := ABegin | AWrite (op b : nat) | AEnd (op : nat).

Definition act_run (a : act) (x : kernel * list nat) : option (kernel * list nat) :=
  let '(s, bud) := x in
  match a with
  | ABegin =>
      match begin_op s with Ok _ s' => Some (s', Z.to_nat MAXOPBLOCKS :: bud) | _ => None end
  | AWrite op b =>
      match bud !! op, log_write b s with
      | Some (S n), Ok _ s' => Some (s', take op bud ++ n :: drop (S op) bud)
      | _, _ => None
      end
  | AEnd op =>
      match bud !! op, end_op s with
      | Some _, Ok _ s' => Some (s', take op bud ++ drop (S op) bud)
      | _, _ => None
      end
  end.

Fixpoint acts_run (l : list act) (x : kernel * list nat) : option (kernel * list nat) :=
  match l with
  | [] => Some x
  | a :: l' => match act_run a x with Some y => acts_run l' y | None => None end
  end.

Lemma acts_reach l x y : acts_run l x = Some y -> rtc log_step x y.
Proof.
  revert x. induction l as [|a l IH]; intros [s bud]; cbn [acts_run]; [by intros [= <-]|].
  destruct (act_run a (s, bud)) as [x1|] eqn:H1; [|discriminate]. intros H. eapply rtc_l; [|by apply IH].
  clear H IH. destruct a as [|op b|op]; simpl in H1.
  - destruct (begin_op s) as [[] s'| | |] eqn:Hr; try discriminate H1. injection H1 as <-. by apply step_begin.
  - destruct (bud !! op) as [[|n]|] eqn:Hb; try discriminate H1.
    destruct (log_write b s) as [[] s'| | |] eqn:Hr; try discriminate H1. injection H1 as <-.
    rewrite <- (take_drop_middle _ _ _ Hb) at 1. by eapply step_write.
  - destruct (bud !! op) as [n|] eqn:Hb; try discriminate H1.
    destruct (end_op s) as [[] s'| | |] eqn:Hr; try discriminate H1. injection H1 as <-.
    rewrite <- (take_drop_middle _ _ _ Hb) at 1. by eapply step_end.
Qed.
End Reservation.

Module SpaceDemo.
#[local] Instance still : Env := fun _ _ => None.
#[local] Instance perfect : Disk := disk_transfer.
#[local] Instance still_quiet : QuietEnv still.
Proof. done. Qed.
#[local] Instance perfect_quiet : QuietDisk perfect.
Proof. intros b w. unfold virtio_disk_rw, perfect, disk_transfer. keeps. Qed.

(** Buffer [i] holds block [100 + i]; the log has [size] blocks. *)
Definition s0 (size : Z) : kernel :=
  set_k_bufs ((fun i => set_b_blockno (100 + Z.of_nat i) buf0) <$> seq 0 (S NBUF))
    (set_k_log (set_l_size size log0) kernel0).

(** Three operations begin and write ten, ten and nine blocks. *)
Definition three_ops : list act :=
  [ABegin; ABegin; ABegin] ++ (AWrite 0 <$> seq 0 10) ++ (AWrite 1 <$> seq 10 10) ++ (AWrite 2 <$> seq 20 9).

Lemma s0_reserved size : reserved [] (k_log (s0 size)).
Proof. repeat constructor; simpl; unfold LOGSIZE, MAXOPBLOCKS; lia. Qed.

Lemma reservation_suffices_witness :
  exists s, rtc log_step (s0 31, []) (s, [0; 0] ++ 1 :: [])%nat /\
    wp (log_write 29) (fun _ s' => reserved [0; 0; 0]%nat (k_log s')) s.
Proof.
  assert (match acts_run three_ops (s0 31, []) with
          | Some (s, bud) => bud = [0; 0; 1]%nat /\ k_held s = [] | None => False end) as H
    by (vm_compute; split; reflexivity).
  destruct (acts_run three_ops (s0 31, [])) as [[s bud]|] eqn:Hr; [|destruct H].
  destruct H as [-> Hh]. apply acts_reach in Hr. exists s. split; [exact Hr|].
  apply (reservation_suffices (s0 31) s [0; 0]%nat O [] 29);
    [apply s0_reserved|vm_compute; reflexivity|exact Hr|rewrite Hh; apply not_elem_of_nil..].
Defined.

Definition s1 : kernel := set_k_log (set_l_outstanding 1 (set_l_size 30 log0)) (s0 30).
Lemma log_write_absorbs_witness :
  wp (log_write 3) (fun _ s' => log_blocks (k_log s') = [103] /\ b_refcnt (k_bufs s' !!! 3%nat) = 1) s1.
Proof.
  eapply wp_mono.
  - apply (log_write_absorbs 3 s1); [repeat constructor; simpl; unfold LOGSIZE, MAXOPBLOCKS; lia| | |].
    + vm_compute. repeat split; discriminate || reflexivity.
    + apply not_elem_of_nil.
    + apply not_elem_of_nil.
  - intros [] s' (_ & _ & Hb & _ & Hbufs). rewrite Hb, Hbufs. split; vm_compute; reflexivity.
Defined.
End SpaceDemo.

(** C32: with the log that [mkfs] makes, of [LOGSIZE] blocks, the reservation is
    not enough.  Three operations are admitted together, each writes at most
    [MAXOPBLOCKS] blocks, and the last of these writes panics: [log_write]
    keeps one block for the header, which [begin_op] does not count. *)
Theorem reservation_too_big :
  exists s, rtc (log_step (E := SpaceDemo.still) (D := SpaceDemo.perfect))
              (SpaceDemo.s0 LOGSIZE, []) (s, [0; 0; 1]%nat) /\
    match log_write 29 s with Panic msg _ => msg = "too big a transaction" | _ => False end.
Proof.
  assert (match acts_run (E := SpaceDemo.still) (D := SpaceDemo.perfect)
                  SpaceDemo.three_ops (SpaceDemo.s0 LOGSIZE, []) with
          | Some (s, bud) => bud = [0; 0; 1]%nat /\
              match log_write 29 s with Panic msg _ => msg = "too big a transaction" | _ => False end
          | None => False end) as H by (vm_compute; split; reflexivity).
  destruct (acts_run _ _) as [[s bud]|] eqn:Hr; [|destruct H].
  destruct H as [-> H]. apply acts_reach in Hr. exists s. split; [exact Hr|exact H].
Qed.
