(* ===== verification/IoCopy.v ===== *)
(** * Ends of a copy

    What [either_copyin] takes from its source and [either_copyout] leaves at
    its destination, in pieces: the loops of the file system copy a block at a
    time and advance the pointer. *)

From S2P Require Import Prelude Bytes Params CString Spinlock State Kalloc Vm PageTable VmProofs UserSpace UvmProofs UserCopy Sched.

Lemma store_app m a bs1 bs2 : store m a (bs1 ++ bs2) = store (store m a bs1) (a + Z.of_nat (length bs1)) bs2.
Proof.
  revert m a. induction bs1 as [|b bs1 IH]; intros m a; simpl; [by rewrite store_nil, Z.add_0_r|].
  rewrite !store_cons, IH. f_equal. lia.
Qed.

Section Ends.
Context `{Lk : Linker} {LkOk : LinkerOk Lk}.

(** The address space of the running process. *)
Definition user_space (s : kernel) (AS : aspace) : Prop :=
  exists p G fr, k_cur s = Some p /\ (p < length (k_procs s))%nat /\
    uvm s (p_pagetable (k_procs s !!! p)) G AS fr.

(** States that agree on what the copies read. *)
Record same_user (s s' : kernel) : Prop := {
  su_mem : k_mem s' = k_mem s;
  su_free : k_freelist s' = k_freelist s;
  su_cur : k_cur s' = k_cur s;
  su_roots : p_pagetable <$> k_procs s' = p_pagetable <$> k_procs s;
  su_held : k_held s' = k_held s;
}.

Lemma user_space_frame s s' AS : same_user s s' -> user_space s AS -> user_space s' AS.
Proof.
  intros [Em Ef Ec Er Eh] (p & G & fr & Hc & Hl & U). pose proof (f_equal length Er) as El. rewrite !length_fmap in El.
  assert (p_pagetable (k_procs s' !!! p) = p_pagetable (k_procs s !!! p)) as Ep.
  { rewrite <- !(list_lookup_total_fmap p_pagetable) by lia. by rewrite Er. }
  exists p, G, fr. split_and!; [congruence|lia|]. rewrite Ep. apply (uvm_frame s); try done.
  rewrite Eh. apply U.
Qed.

Inductive source (s : kernel) : csrc -> list Z -> Prop :=
| source_local bs : source s (SLocal bs) bs
| source_user va bs AS :
    user_space s AS -> 0 <= va < 2 ^ 64 -> va + Z.of_nat (length bs) <= 2 ^ 64 ->
    uread AS (k_mem s) va (length bs) = (bs, true) -> source s (SUser va) bs.

Inductive sink (s : kernel) : cdst -> list Z -> gmap Z Z -> Prop :=
| sink_local bs : sink s DLocal bs (k_mem s)
| sink_phys pa bs : 0 <= pa < 2 ^ 64 -> pa + Z.of_nat (length bs) < 2 ^ 64 -> sink s (DPhys pa) bs (store (k_mem s) pa bs)
| sink_user va bs AS m' :
    user_space s AS -> 0 <= va < 2 ^ 64 -> va + Z.of_nat (length bs) <= 2 ^ 64 ->
    uwrite AS (k_mem s) va bs = (m', true) -> sink s (DUser va) bs m'.

Lemma source_frame s s' src bs : same_user s s' -> source s src bs -> source s' src bs.
Proof.
  intros S [|va bs' AS U Hv Hl Hr]; [constructor|]. apply (source_user s' va bs' AS); try done; [by eapply user_space_frame|].
  by rewrite (su_mem _ _ S).
Qed.

Lemma sink_frame s s' dst bs m' : same_user s s' -> sink s dst bs m' -> sink s' dst bs m'.
Proof.
  intros S [|pa bs' Hp Hl|va bs' AS m1 U Hv Hl Hr]; [rewrite <- (su_mem _ _ S)|rewrite <- (su_mem _ _ S)|].
  - constructor.
  - by constructor.
  - apply (sink_user s' va bs' AS); try done; [by eapply user_space_frame|]. by rewrite (su_mem _ _ S).
Qed.

Lemma bind_me (s : kernel) {A} (f : option nat -> K A) : bind myproc f s = f (k_cur s) s.
Proof. done. Qed.

Lemma source_copyin s src bs n : source s src bs -> 0 <= n <= Z.of_nat (length bs) -> n < 2 ^ 64 ->
  either_copyin src n s = Ok (0, take (Z.to_nat n) bs) s.
Proof.
  intros [|va bs' AS (p & G & fr & Hc & Hp & U) Hv Hl Hr] Hn H64; unfold either_copyin; rewrite bind_me; [done|].
  rewrite Hc. unfold deref, get_proc. rewrite bind_ret, bind_gets, (copyin_bytes _ _ _ _ _ _ _ U) by lia.
  replace (length bs') with (Z.to_nat n + (length bs' - Z.to_nat n))%nat in Hr by lia.
  rewrite uread_app in Hr. destruct (uread AS (k_mem s) va (Z.to_nat n)) as [l1 []] eqn:E1; [|by injection Hr].
  destruct (uread AS (k_mem s) (va + _) _) as [l2 ok2]. injection Hr as <- ->.
  by rewrite take_app_length' by (by apply uread_length in E1).
Qed.

Lemma source_add s src bs n : source s src bs -> 0 <= n <= Z.of_nat (length bs) ->
  source s (src_add src n) (drop (Z.to_nat n) bs).
Proof.
  intros [|va bs' AS U Hv Hl Hr] Hn; [constructor|]. simpl.
  replace (length bs') with (Z.to_nat n + (length bs' - Z.to_nat n))%nat in Hr by lia.
  rewrite uread_app in Hr. destruct (uread AS (k_mem s) va (Z.to_nat n)) as [l1 []] eqn:E1; [|by injection Hr].
  destruct (uread AS (k_mem s) (va + _) _) as [l2 ok2] eqn:E2. injection Hr as <- ->.
  apply uread_length in E1. rewrite length_app in *. rewrite drop_app_length' by done.
  replace (length l1 + length l2 - Z.to_nat n)%nat with (length l2) in E2 by lia.
  apply (source_user s _ _ AS); [done|apply u64_range| |].
  - unfold u64. pose proof (Z.mod_le (va + n) (2 ^ 64)). lia.
  - destruct l2 as [|b l2]; [done|]. simpl length in *. rewrite u64_small by lia.
    by replace (va + n) with (va + Z.of_nat (Z.to_nat n)) by lia.
Qed.

Lemma sink_copyout s dst bs m' : sink s dst bs m' -> Z.of_nat (length bs) < 2 ^ 64 ->
  either_copyout dst bs (Z.of_nat (length bs)) s = Ok 0 (set_k_mem m' s).
Proof.
  intros [|pa bs' Hp Hl|va bs' AS m1 (p & G & fr & Hc & Hp & U) Hv Hl Hr] H64; unfold either_copyout; rewrite bind_me.
  - by destruct s.
  - unfold upd_mem. rewrite bind_modify, Nat2Z.id, firstn_all. done.
  - rewrite Hc. unfold deref, get_proc. rewrite bind_ret, bind_gets, (copyout_bytes _ _ _ _ _ _ _ _ U) by lia.
    by rewrite Nat2Z.id, firstn_all, Hr.
Qed.

Lemma sink_app s dst bs1 bs2 m' : sink s dst (bs1 ++ bs2) m' ->
  exists m1, sink s dst bs1 m1 /\ sink (set_k_mem m1 s) (dst_add dst (Z.of_nat (length bs1))) bs2 m'.
Proof.
  remember (bs1 ++ bs2) as bs eqn:Eb. intros Hs. revert Eb.
  destruct Hs as [|pa bs' Hp Hl|va bs' AS m2 U Hv Hl Hr]; intros ->.
  - exists (k_mem s). split; [apply sink_local|apply (sink_local (set_k_mem (k_mem s) s))].
  - rewrite length_app in Hl. exists (store (k_mem s) pa bs1). split; [constructor; lia|]. simpl.
    rewrite u64_small, store_app by lia. apply (sink_phys (set_k_mem (store (k_mem s) pa bs1) s)); lia.
  - rewrite length_app in Hl. rewrite uwrite_app in Hr.
    destruct (uwrite AS (k_mem s) va bs1) as [m1 []] eqn:E1; [|by injection Hr]. exists m1. split.
    { apply (sink_user s va bs1 AS); try done. lia. }
    simpl. apply (sink_user _ _ _ AS).
    + destruct U as (p & G & fr & ? & ? & U). exists p, G, fr. split_and!; [done|done|]. by eapply uvm_uwrite.
    + apply u64_range.
    + unfold u64. pose proof (Z.mod_le (va + Z.of_nat (length bs1)) (2 ^ 64)). lia.
    + destruct bs2 as [|b bs2]; [done|]. simpl length in *. by rewrite u64_small by lia.
Qed.
End Ends.
