(* ===== verification/FsBlocks.v ===== *)
(** * Blocks of the file system inside a transaction

    [in_txn] is the view that a file system operation has of the disk between
    [begin_op] and [end_op]: the contents of the blocks as the operations
    before it left them, and the blocks the transaction has written so far.
    The operations of the cache and of the log keep it; the block allocator is
    specified on it. *)

From stdpp Require Import functions.
From S2P Require Import Prelude Bytes Params CString Spinlock State Kalloc Vm Sched SchedProofs Bio Lru BioProofs BlockCache CacheSpec Log LogProofs LogSpace Fs.

(** Only buffers, the disk, process states and the log differ. *)
Record fs_only (s s' : kernel) : Prop := {
  fs_only_eq : s' = set_k_log (k_log s') (set_k_bufs (k_bufs s')
                      (set_k_disk (k_disk s') (set_k_procs (k_procs s') s)));
  fs_only_roots : p_pagetable <$> k_procs s' = p_pagetable <$> k_procs s;
}.

#[export] Instance fs_only_preorder : PreOrder fs_only.
Proof.
  split.
  - intros s. constructor; [by destruct s|done].
  - intros s1 s2 s3 [H1 P1] [H2 P2]. constructor; [rewrite H2, H1; by destruct s1|congruence].
Qed.

Lemma io_fs s s' : io_only s s' -> fs_only s s'.
Proof. intros [E1 P1]. constructor; [|done]. rewrite E1. by destruct s. Qed.
#[export] Hint Resolve io_fs : core.

Lemma fs_only_sb s s' : fs_only s s' -> k_sb s' = k_sb s.
Proof. intros [-> _]. done. Qed.
Lemma fs_only_itable s s' : fs_only s s' -> k_itable s' = k_itable s.
Proof. intros [-> _]. done. Qed.

(** The transaction after block [b] is logged. *)
Definition add_block (b : Z) (bl : list Z) : list Z := if decide (b ∈ bl) then bl else bl ++ [b].

Record in_txn (dev : Z) (p : nat) (bl : list Z) (held : gmap Z nat) (d c : Z -> list Z) (s : kernel) : Prop := {
  it_rel : cache_rel dev p s (mk_bstore d c (pinned bl) held);
  it_log : log_ok (k_log s);
  it_blocks : log_blocks (k_log s) = bl;
  it_nodup : NoDup bl;
  it_open : 1 <= l_outstanding (k_log s);
}.

(** Room in the log for [n] more blocks, and in the cache for [m] more
    buffers. *)
Definition log_room (n : Z) (s : kernel) : Prop :=
  lh_n (k_log s) + n <= LOGSIZE /\ lh_n (k_log s) + n <= l_size (k_log s) - 1.
Definition buf_room (m : nat) (bl : list Z) (held : gmap Z nat) : Prop :=
  (length bl + size (dom held) + m <= NBUF)%nat.

Lemma pinned_add b bl : b ∉ bl -> pinned (bl ++ [b]) = <[b := 1%nat]> (pinned bl).
Proof.
  intros Hb. apply map_eq. intros x. destruct (decide (x = b)) as [->|].
  - rewrite lookup_insert_eq. apply pinned_in. set_solver.
  - rewrite lookup_insert_ne by done. destruct (decide (x ∈ bl)).
    + rewrite !pinned_in; [done|done|set_solver].
    + rewrite !pinned_out; [done|done|set_solver].
Qed.

Section Txn.
Context {E : Env} {D : Disk} {RD : ReadsBlocks D}.
Context {dev : Z} {p : nat}.

Lemma busy_room bl held d c :
  NoDup bl -> (size (busy (mk_bstore d c (pinned bl) held)) <= length bl + size (dom held))%nat.
Proof.
  intros Hnd. unfold busy. simpl. rewrite size_union_alt, size_pinned by done.
  pose proof (subseteq_size (dom held ∖ dom (pinned bl)) (dom held) ltac:(set_solver)). lia.
Qed.

Lemma bread_txn bl held d c s b :
  in_txn dev p bl held d c s -> held !! b = None -> buf_room 1 bl held ->
  wp (bread dev b) (fun i s' => in_txn dev p bl (<[b := i]> held) d c s' /\ io_only s s') s.
Proof.
  intros [H Hl Hb Hn Ho] Hh Hroom. eapply wp_mono; [eapply bread_rel; [exact H|done|right]|].
  - pose proof (busy_room bl held d c Hn). unfold buf_room in Hroom. lia.
  - intros i s' [H' O]. split; [|done]. constructor; rewrite ?(io_only_log _ _ O); done.
Qed.

Lemma upd_data_txn bl held d c s b i f :
  in_txn dev p bl held d c s -> held !! b = Some i ->
  wp (upd_data i f) (fun _ s' => in_txn dev p bl held d (<[b := f (c b)]> c) s' /\ io_only s s') s.
Proof.
  intros [H Hl Hb Hn Ho] Hh. eapply wp_mono; [eapply (set_data_rel dev p s _ b i f); [exact H|done]|].
  intros [] s' [H' O]. split; [|done]. constructor; rewrite ?(io_only_log _ _ O); done.
Qed.

Lemma brelse_txn bl held d c s b i :
  in_txn dev p bl held d c s -> held !! b = Some i -> (b ∉ bl -> c b = d b) ->
  wp (brelse i) (fun _ s' => in_txn dev p bl (delete b held) d c s' /\ io_only s s') s.
Proof.
  intros [H Hl Hb Hn Ho] Hh Hcl. eapply wp_mono; [eapply (brelse_rel dev p s _ b i); [exact H|done|]|].
  - simpl. intros Hp. apply Hcl. intros Hi. by rewrite pinned_in in Hp.
  - intros [] s' [H' O]. split; [|done]. constructor; rewrite ?(io_only_log _ _ O); done.
Qed.

(** A block that is neither logged nor held is as on the disk. *)
Lemma txn_clean bl held d c s b :
  in_txn dev p bl held d c s -> b ∉ bl -> held !! b = None -> c b = d b.
Proof.
  intros [H _ _ _ _] Hb Hh. apply (cr_clean _ _ _ _ _ (ca_bufs _ _ _ _ H)). unfold busy. simpl.
  rewrite elem_of_union, !elem_of_dom, pinned_out, Hh by done. intros [[? ?]|[? ?]]; done.
Qed.

Lemma data_txn bl held d c s b i :
  in_txn dev p bl held d c s -> held !! b = Some i -> b_data (k_bufs s !!! i) = c b.
Proof. intros H Hh. by apply (held_buf _ _ _ _ _ _ (it_rel _ _ _ _ _ _ _ H) Hh). Qed.

Lemma log_write_txn bl held d c s b i :
  in_txn dev p bl held d c s -> held !! b = Some i -> 0 <= b < 2 ^ 31 -> log_room 1 s ->
  wp (log_write i) (fun _ s' => in_txn dev p (add_block b bl) held d c s' /\ fs_only s s' /\
      lh_n (k_log s') <= lh_n (k_log s) + 1 /\ l_size (k_log s') = l_size (k_log s)) s.
Proof.
  intros H Hh Hb [Hr1 Hr2]. pose proof H as [HR Hl Hbl Hn Ho].
  pose proof (held_buf _ _ _ _ _ _ HR Hh) as (_ & _ & _ & _ & Hbno & _).
  assert (has_room (k_log s)) as Hroom by (split_and!; lia).
  eapply wp_eq; [apply log_write_run; [done|done|..]; rewrite (ca_locks _ _ _ _ HR); apply not_elem_of_nil|].
  unfold log_written. rewrite Hbno, i32_small, Hbl by lia.
  destruct (logged_fields b (k_log s)) as (Hf1 & Hf2 & _ & Hf3).
  pose proof (logged_ok b (k_log s) Hl ltac:(lia)) as Hok'.
  pose proof (logged_blocks b (k_log s) Hl ltac:(lia)) as Hlb. rewrite Hbl in Hlb.
  unfold add_block. destruct (decide (b ∈ bl)) as [Hin|Hout].
  - split; [|split; [constructor; [by destruct s|done]|simpl; split; [lia|done]]].
    constructor; simpl; [by apply cache_rel_set_log|done|done|done|lia].
  - split; [|split; [constructor; [by destruct s|done]|simpl; split; [lia|done]]].
    constructor; simpl; [|done|done| |lia].
    + rewrite pinned_add by done.
      pose proof (bpin_rel dev p s _ b i HR Hh) as Hpin. simpl in Hpin.
      rewrite pinned_out in Hpin by done. simpl in Hpin. specialize (Hpin ltac:(lia)).
      unfold wp, bpin in Hpin. rewrite pin_run in Hpin by (rewrite (ca_locks _ _ _ _ HR); apply not_elem_of_nil).
      destruct Hpin as [Hpin _]. unfold st_pin in Hpin. simpl in Hpin. rewrite pinned_out in Hpin by done.
      by apply (cache_rel_set_log _ _ _ _ (logged b (k_log s))) in Hpin.
    + apply NoDup_app. split_and!; [done| |apply NoDup_singleton].
      intros y Hy ->%list_elem_of_singleton. done.
Qed.
End Txn.

(** ** Bits of a block *)

Definition bit_of (data : list Z) (bi : Z) : bool := Z.testbit (byte_at data (bi / 8)) (bi mod 8).
Definition set_bit (bi : Z) (data : list Z) : list Z :=
  set_byte (bi / 8) (Z.lor (byte_at data (bi / 8)) (Z.shiftl 1 (bi mod 8))) data.
Definition clear_bit (bi : Z) (data : list Z) : list Z :=
  set_byte (bi / 8) (Z.land (byte_at data (bi / 8)) (Z.lnot (Z.shiftl 1 (bi mod 8)))) data.

Definition block_ok (data : list Z) : Prop := length data = Z.to_nat BSIZE /\ Forall is_byte data.

Lemma byte_at_range data i : block_ok data -> 0 <= i < BSIZE -> is_byte (byte_at data i).
Proof.
  intros [Hl Hb] Hi. unfold byte_at. destruct (lookup_lt_is_Some_2 data (Z.to_nat i)) as [x Hx]; [lia|].
  rewrite (list_lookup_total_correct _ _ _ Hx). rewrite Forall_lookup in Hb. eauto.
Qed.

Lemma set_byte_at data i j v : block_ok data -> 0 <= i < BSIZE -> 0 <= j ->
  byte_at (set_byte i v data) j = if j =? i then u8 v else byte_at data j.
Proof.
  intros [Hl _] Hi Hj. unfold byte_at, set_byte. destruct (Z.eqb_spec j i) as [->|].
  - apply list_lookup_total_insert_eq. lia.
  - apply list_lookup_total_insert_ne. lia.
Qed.

Lemma set_byte_ok data i v : block_ok data -> block_ok (set_byte i v data).
Proof.
  intros [Hl Hb]. unfold set_byte. split; [by rewrite length_insert|].
  apply Forall_insert; [done|]. unfold is_byte, u8. apply Z.mod_pos_bound. lia.
Qed.

Lemma bi_bounds bi : 0 <= bi < BPB -> 0 <= bi / 8 < BSIZE /\ 0 <= bi mod 8 < 8.
Proof.
  intros H. change BPB with 8192 in H. change BSIZE with 1024.
  pose proof (Z.div_mod bi 8). pose proof (Z.mod_pos_bound bi 8). lia.
Qed.

Lemma same_bit bi bj : (bj / 8 =? bi / 8) && (bj mod 8 =? bi mod 8) = (bj =? bi).
Proof.
  pose proof (Z.div_mod bi 8). pose proof (Z.div_mod bj 8).
  destruct (Z.eqb_spec (bj / 8) (bi / 8)), (Z.eqb_spec (bj mod 8) (bi mod 8)), (Z.eqb_spec bj bi); subst; simpl; lia.
Qed.

Lemma u8_bits x n : 0 <= n < 8 -> Z.testbit (u8 x) n = Z.testbit x n.
Proof. intros. unfold u8. change 256 with (2 ^ 8). by rewrite Z.mod_pow2_bits_low by lia. Qed.

Lemma bit_of_set data bi bj : block_ok data -> 0 <= bi < BPB -> 0 <= bj < BPB ->
  bit_of (set_bit bi data) bj = (bj =? bi) || bit_of data bj.
Proof.
  intros Hd Hi Hj. destruct (bi_bounds _ Hi) as [Hi1 Hi2], (bi_bounds _ Hj) as [Hj1 Hj2].
  unfold bit_of, set_bit. rewrite set_byte_at by (done || lia). rewrite <- (same_bit bi bj).
  destruct (Z.eqb_spec (bj / 8) (bi / 8)) as [->|]; [|done]. simpl.
  rewrite u8_bits, Z.lor_spec, Z.shiftl_1_l, Z.pow2_bits_eqb by lia.
  rewrite (Z.eqb_sym (bi mod 8)). apply orb_comm.
Qed.

Lemma bit_of_clear data bi bj : block_ok data -> 0 <= bi < BPB -> 0 <= bj < BPB ->
  bit_of (clear_bit bi data) bj = negb (bj =? bi) && bit_of data bj.
Proof.
  intros Hd Hi Hj. destruct (bi_bounds _ Hi) as [Hi1 Hi2], (bi_bounds _ Hj) as [Hj1 Hj2].
  unfold bit_of, clear_bit. rewrite set_byte_at by (done || lia). rewrite <- (same_bit bi bj).
  destruct (Z.eqb_spec (bj / 8) (bi / 8)) as [->|]; [|done]. simpl.
  rewrite u8_bits, Z.land_spec, Z.lnot_spec, Z.shiftl_1_l, Z.pow2_bits_eqb by lia.
  rewrite (Z.eqb_sym (bi mod 8)). apply andb_comm.
Qed.

(** The code's test of a bit. *)
Lemma bit_test data bi : 0 <= bi ->
  (Z.land (byte_at data (bi / 8)) (Z.shiftl 1 (bi mod 8)) =? 0) = negb (bit_of data bi).
Proof.
  intros. rewrite Z.shiftl_1_l. apply land_bit_zero. by apply Z.mod_pos_bound.
Qed.

(** ** The allocator *)

(** Block [b] is marked in the bitmap. *)
Definition used (sb : superblock) (c : Z -> list Z) (b : Z) : bool := bit_of (c (BBLOCK b sb)) (b mod BPB).

Lemma BBLOCK_base sb b bi : b mod BPB = 0 -> 0 <= bi < BPB ->
  BBLOCK (b + bi) sb = BBLOCK b sb /\ (b + bi) mod BPB = bi.
Proof.
  intros Hb Hbi. change BPB with 8192 in *. pose proof (Z.div_mod b 8192). split.
  - unfold BBLOCK. change BPB with 8192. do 2 f_equal.
    symmetry. apply (Z.div_unique _ _ _ bi); lia.
  - symmetry. apply (Z.mod_unique _ _ (b / 8192)); lia.
Qed.

Section Alloc.
Context {E : Env} {D : Disk} {RD : ReadsBlocks D}.
Context {dev : Z} {p : nat}.

Lemma balloc_scan_txn bl held d c s b bp sb :
  in_txn dev p bl held d c s -> k_sb s = sb -> held !! BBLOCK b sb = Some bp ->
  wp (balloc_scan bp b) (fun r s' => io_only s s' /\
    match r with
    | Some bi => 0 <= bi < BPB /\ b + bi < sb_size sb /\ bit_of (c (BBLOCK b sb)) bi = false /\
        (forall bj, 0 <= bj < bi -> bit_of (c (BBLOCK b sb)) bj = true) /\
        in_txn dev p bl held d (<[BBLOCK b sb := set_bit bi (c (BBLOCK b sb))]> c) s'
    | None => (forall bj, 0 <= bj < BPB -> b + bj < sb_size sb -> bit_of (c (BBLOCK b sb)) bj = true) /\
        in_txn dev p bl held d c s'
    end) s.
Proof.
  intros H Hsb Hh. unfold balloc_scan.
  apply (wp_loop_idx _ (fun k bi s' => k = BPB - bi /\ s' = s /\ 0 <= bi <= BPB /\
    (forall bj, 0 <= bj < bi -> bit_of (c (BBLOCK b sb)) bj = true)) _ BPB).
  - intros k bi s1 (-> & -> & Hbi & Hall). wp_step. wp_step. rewrite Hsb.
    destruct (Z.ltb_spec bi BPB); [|].
    2:{ cbn [andb negb]. wp_step. split; [done|]. split; [|done]. intros bj Hbj _. apply Hall. lia. }
    destruct (Z.ltb_spec (b + bi) (sb_size sb)); cbn [andb negb].
    2:{ wp_step. split; [done|]. split; [|done]. intros bj Hbj Hlt. apply Hall. lia. }
    unfold get_buf. wp_step. wp_step. rewrite (data_txn _ _ _ _ _ _ _ H Hh), bit_test by lia.
    destruct (bit_of (c (BBLOCK b sb)) bi) eqn:Hbit; cbn [negb].
    + wp_step. exists (BPB - (bi + 1)). split; [lia|]. split_and!; try done; try lia.
      intros bj Hbj. destruct (decide (bj = bi)) as [->|]; [done|]. apply Hall. lia.
    + apply wp_bind. eapply wp_mono; [eapply (upd_data_txn _ _ _ _ _ _ _ (set_bit bi)); [exact H|exact Hh]|].
      intros [] s2 [H2 O2]. wp_step. split; [done|]. split_and!; try done; lia.
  - split; [lia|]. split_and!; try done. intros bj Hbj. lia.
  - reflexivity.
Qed.

(** [bzero] inside a transaction. *)
Definition zeros : list Z := replicate (Z.to_nat BSIZE) 0.

Lemma bzero_txn bl held d c s b :
  in_txn dev p bl held d c s -> held !! b = None -> 0 <= b < 2 ^ 31 -> log_room 1 s -> buf_room 1 bl held ->
  wp (bzero dev b) (fun _ s' => in_txn dev p (add_block b bl) held d (<[b := zeros]> c) s' /\ fs_only s s' /\
      lh_n (k_log s') <= lh_n (k_log s) + 1 /\ l_size (k_log s') = l_size (k_log s)) s.
Proof.
  intros H Hh Hb Hlr Hbr. unfold bzero. rewrite u32_small by lia. apply wp_bind.
  eapply wp_mono; [by eapply bread_txn|]. intros i s1 [H1 O1]. apply wp_bind.
  eapply wp_mono; [eapply (upd_data_txn _ _ _ _ _ b); [exact H1|apply lookup_insert_eq]|].
  intros [] s2 [H2 O2]. apply wp_bind.
  assert (k_log s2 = k_log s) as El by (by rewrite (io_only_log _ _ O2), (io_only_log _ _ O1)).
  eapply wp_mono; [eapply (log_write_txn _ _ _ _ _ b); [exact H2|apply lookup_insert_eq|done|]|].
  { unfold log_room in *. by rewrite El. }
  intros [] s3 (H3 & O3 & Hn3 & Hs3).
  eapply wp_mono; [eapply (brelse_txn _ _ _ _ _ b); [exact H3|apply lookup_insert_eq|]|].
  { intros Hnb. exfalso. apply Hnb. unfold add_block. case_decide; [done|set_solver]. }
  intros [] s4 [H4 O4]. rewrite delete_insert_id in H4 by done. rewrite (io_only_log _ _ O4), Hs3, El.
  rewrite El in Hn3. split_and!; [done| |done|done].
  etrans; [apply io_fs, O1|]. etrans; [apply io_fs, O2|]. etrans; [apply O3|]. by apply io_fs.
Qed.
(** Every block below [n] is marked. *)
Definition all_used (sb : superblock) (c : Z -> list Z) (n : Z) : Prop :=
  forall b, 0 <= b < n -> used sb c b = true.

(** The bitmap can be read: its blocks are not held by the caller. *)
Definition bitmap_free (sb : superblock) (held : gmap Z nat) : Prop :=
  forall b, 0 <= b < sb_size sb -> held !! BBLOCK b sb = None.

(** One round of the outer loop of [balloc] that finds nothing. *)
Lemma used_round sb c b :
  b mod BPB = 0 -> 0 <= b -> all_used sb c b ->
  (forall bj, 0 <= bj < BPB -> b + bj < sb_size sb -> bit_of (c (BBLOCK b sb)) bj = true) ->
  all_used sb c (Z.min (b + BPB) (sb_size sb)).
Proof.
  intros Hb H0 Hall Hscan x Hx. destruct (decide (x < b)); [apply Hall; lia|].
  unfold used. replace x with (b + (x - b)) by lia.
  destruct (BBLOCK_base sb b (x - b) Hb ltac:(lia)) as [-> ->]. apply Hscan; lia.
Qed.

(** A found bit is the first clear one. *)
Lemma first_found sb c b bi b0 :
  b mod BPB = 0 -> 0 <= bi < BPB -> bit_of (c (BBLOCK b sb)) bi = false ->
  (forall bj, 0 <= bj < bi -> bit_of (c (BBLOCK b sb)) bj = true) ->
  0 <= b -> all_used sb c b -> 0 <= b0 -> used sb c b0 = false -> all_used sb c b0 -> b + bi = b0.
Proof.
  intros Hb Hbi Hbit Hbefore H0 Hall Hb0 Hfree Hfirst.
  destruct (BBLOCK_base sb b bi Hb Hbi) as [E1 E2].
  assert (used sb c (b + bi) = false) as Hu by (unfold used; by rewrite E1, E2).
  destruct (Z.lt_trichotomy (b + bi) b0) as [Hlt|[?|Hlt]]; [|done|].
  - rewrite Hfirst in Hu by lia. done.
  - destruct (decide (b0 < b)); [by rewrite Hall in Hfree by lia|].
    unfold used in Hfree. replace b0 with (b + (b0 - b)) in Hfree by lia.
    destruct (BBLOCK_base sb b (b0 - b) Hb ltac:(lia)) as [E3 E4]. rewrite E3, E4 in Hfree.
    by rewrite Hbefore in Hfree by lia.
Qed.

Lemma balloc_found bl held d c s sb b bp bi b0 :
  in_txn dev p bl (<[BBLOCK b sb := bp]> held) d (<[BBLOCK b sb := set_bit bi (c (BBLOCK b sb))]> c) s ->
  held !! BBLOCK b sb = None -> held !! b0 = None -> b0 <> BBLOCK b sb -> 0 <= BBLOCK b sb < 2 ^ 31 ->
  0 <= b0 < 2 ^ 31 -> log_room 2 s -> buf_room 2 bl held -> b + bi = b0 ->
  wp (log_write bp ;; brelse bp ;; bzero dev (b + bi) ;; ret (inr (b + bi) : Z + Z))
    (fun r s' => r = inr b0 /\ fs_only s s' /\
       in_txn dev p (add_block b0 (add_block (BBLOCK b sb) bl)) held d
         (<[b0 := zeros]> (<[BBLOCK b sb := set_bit bi (c (BBLOCK b sb))]> c)) s' /\
       lh_n (k_log s') <= lh_n (k_log s) + 2 /\ l_size (k_log s') = l_size (k_log s)) s.
Proof.
  intros H Hh Hh0 Hne Hr1 Hr2 Hlr Hbr Eb. rewrite Eb. set (BB := BBLOCK b sb) in *. apply wp_bind.
  eapply wp_mono; [eapply (log_write_txn _ _ _ _ _ BB); [exact H|apply lookup_insert_eq|done|]|].
  { unfold log_room in *. lia. }
  intros [] s1 (H1 & O1 & Hn1 & Hs1). apply wp_bind.
  eapply wp_mono; [eapply (brelse_txn _ _ _ _ _ BB); [exact H1|apply lookup_insert_eq|]|].
  { intros Hnb. exfalso. apply Hnb. unfold add_block. case_decide; [done|set_solver]. }
  intros [] s2 [H2 O2]. rewrite delete_insert_id in H2 by done. apply wp_bind.
  eapply wp_mono; [eapply (bzero_txn _ _ _ _ _ b0); [exact H2|done|done| |]|].
  { unfold log_room in *. rewrite (io_only_log _ _ O2), Hs1. lia. }
  { unfold buf_room, add_block in *. case_decide; rewrite ?length_app; simpl; lia. }
  intros [] s3 (H3 & O3 & Hn3 & Hs3). wp_step. rewrite (io_only_log _ _ O2) in Hn3, Hs3.
  split; [done|]. split; [by etrans; [|etrans; [apply io_fs|]]|]. split; [done|]. split; [lia|congruence].
Qed.

Lemma balloc_txn bl held d c s sb b0 :
  in_txn dev p bl held d c s -> k_sb s = sb -> sb_size sb < 2 ^ 31 ->
  0 <= b0 < sb_size sb -> used sb c b0 = false -> all_used sb c b0 ->
  bitmap_free sb held -> held !! b0 = None -> b0 <> BBLOCK b0 sb -> 0 <= BBLOCK b0 sb < 2 ^ 31 ->
  log_room 2 s -> buf_room 2 bl held ->
  wp (balloc dev) (fun r s' => r = b0 /\ fs_only s s' /\
    in_txn dev p (add_block b0 (add_block (BBLOCK b0 sb) bl)) held d
      (<[b0 := zeros]> (<[BBLOCK b0 sb := set_bit (b0 mod BPB) (c (BBLOCK b0 sb))]> c)) s' /\
    lh_n (k_log s') <= lh_n (k_log s) + 2 /\ l_size (k_log s') = l_size (k_log s)) s.
Proof.
  intros H Hsb Hsz Hb0 Hfree Hfirst Hbf Hh0 Hne Hr Hlr Hbr. unfold balloc.
  apply (wp_loop_idx _ (fun k b s' => k = b0 / BPB - b / BPB /\ b mod BPB = 0 /\ 0 <= b <= b0 /\
    all_used sb c b /\ in_txn dev p bl held d c s' /\ io_only s s') _ (b0 / BPB)).
  - intros k b s1 (-> & Hm & Hb & Hall & H1 & O1). wp_step. wp_step.
    rewrite (fs_only_sb _ _ (io_fs _ _ O1)), Hsb. destruct (Z.ltb_spec b (sb_size sb)); [|lia]. cbn [negb].
    apply wp_bind. eapply wp_mono; [eapply bread_txn; [exact H1|apply Hbf; lia|unfold buf_room in *; lia]|].
    intros bp s2 [H2 O2]. apply wp_bind.
    eapply wp_mono; [eapply (balloc_scan_txn _ _ _ _ _ b bp sb); [exact H2| |apply lookup_insert_eq]|].
    { by rewrite (fs_only_sb _ _ (io_fs _ _ O2)), (fs_only_sb _ _ (io_fs _ _ O1)). }
    intros [bi|] s3 [O3 H3].
    + destruct H3 as (Hbi & Hlt & Hbit & Hbefore & H3).
      assert (b + bi = b0) as Eb by (eapply first_found; try done; lia).
      destruct (BBLOCK_base sb b bi Hm Hbi) as [E1 E2]. rewrite Eb in E1, E2. rewrite E1, E2 in *.
      assert (k_log s3 = k_log s) as El
        by (by rewrite (io_only_log _ _ O3), (io_only_log _ _ O2), (io_only_log _ _ O1)).
      eapply wp_mono; [eapply balloc_found; [exact H3|by rewrite <- E1; apply Hbf|done|done|done|lia| |done|done]|].
      { unfold log_room in *. by rewrite El. }
      intros r s4 (-> & O4 & H4 & Hn & Hs). rewrite El in Hn, Hs. split; [done|]. split; [|done].
      etrans; [apply io_fs, O1|]. etrans; [apply io_fs, O2|]. etrans; [apply io_fs, O3|]. done.
    + destruct H3 as [Hnone H3]. apply wp_bind.
      eapply wp_mono; [eapply (brelse_txn _ _ _ _ _ (BBLOCK b sb)); [exact H3|apply lookup_insert_eq|]|].
      { intros Hnb. by eapply txn_clean; [exact H1|done|apply Hbf; lia]. }
      intros [] s4 [H4 O4]. rewrite delete_insert_id in H4 by (apply Hbf; lia). wp_step.
      pose proof (used_round sb c b Hm ltac:(lia) Hall Hnone) as Hall'.
      assert (b + BPB <= b0).
      { destruct (decide (b + BPB <= b0)); [done|]. by rewrite Hall' in Hfree by lia. }
      assert ((b + BPB) / BPB = b / BPB + 1 /\ (b + BPB) mod BPB = 0) as [Hdiv Hmod].
      { change BPB with 8192 in *. pose proof (Z.div_mod b 8192).
        split; [symmetry; apply (Z.div_unique _ _ _ 0)|symmetry; apply (Z.mod_unique _ _ (b / 8192 + 1))]; lia. }
      exists (b0 / BPB - (b + BPB) / BPB). split.
      { rewrite Hdiv. assert ((b + BPB) / BPB <= b0 / BPB) by (apply Z.div_le_mono; [done|lia]). lia. }
      split_and!; try done; try lia.
      * change BPB with 8192. lia.
      * intros x Hx. apply Hall'. lia.
      * by etrans; [|etrans; [|etrans]].
  - split_and!; try done; try lia; [rewrite Z.div_0_l by done; lia|]. intros x Hx. lia.
  - change BPB with 8192. assert (b0 / 8192 <= b0) by (apply Z.div_le_upper_bound; lia). lia.
Qed.
(** With every block in use [balloc] stops the kernel. *)
Lemma balloc_none bl held d c s sb :
  in_txn dev p bl held d c s -> k_sb s = sb -> sb_size sb < 2 ^ 31 -> all_used sb c (sb_size sb) ->
  bitmap_free sb held -> buf_room 1 bl held ->
  wpc (balloc dev) (fun _ _ => False) (fun msg _ => msg = "balloc: out of blocks") s.
Proof.
  intros H Hsb Hsz Hused Hbf Hbr. unfold balloc.
  apply (wpc_loop _ (fun k b s' => k = Z.max 0 (sb_size sb - b) /\ b mod BPB = 0 /\ 0 <= b /\
    in_txn dev p bl held d c s' /\ io_only s s') _ _ (Z.max 0 (sb_size sb))).
  - intros k b s1 (-> & Hm & Hb & H1 & O1). apply wpc_bind, wpc_wp, wp_gets.
    rewrite (fs_only_sb _ _ (io_fs _ _ O1)), Hsb.
    destruct (Z.ltb_spec b (sb_size sb)); cbn [negb]; [|done]. apply wpc_bind, wpc_wp.
    eapply wp_mono; [eapply bread_txn; [exact H1|apply Hbf; lia|done]|].
    intros bp s2 [H2 O2]. apply wpc_bind, wpc_wp.
    eapply wp_mono; [eapply (balloc_scan_txn _ _ _ _ _ b bp sb); [exact H2| |apply lookup_insert_eq]|].
    { by rewrite (fs_only_sb _ _ (io_fs _ _ O2)), (fs_only_sb _ _ (io_fs _ _ O1)). }
    intros [bi|] s3 [O3 H3].
    + destruct H3 as (Hbi & Hlt & Hbit & _). exfalso.
      destruct (BBLOCK_base sb b bi Hm Hbi) as [E1 E2]. pose proof (Hused (b + bi) ltac:(lia)) as Hu.
      unfold used in Hu. congruence.
    + destruct H3 as [Hnone H3]. apply wpc_bind, wpc_wp.
      eapply wp_mono; [eapply (brelse_txn _ _ _ _ _ (BBLOCK b sb)); [exact H3|apply lookup_insert_eq|]|].
      { intros Hnb. by eapply txn_clean; [exact H1|done|apply Hbf; lia]. }
      intros [] s4 [H4 O4]. rewrite delete_insert_id in H4 by (apply Hbf; lia). apply wpc_wp, wp_ret.
      exists (Z.max 0 (sb_size sb - (b + BPB))). change BPB with 8192 in *. split; [lia|].
      split_and!; try done; try lia.
      * pose proof (Z.div_mod b 8192). symmetry. apply (Z.mod_unique _ _ (b / 8192 + 1)); lia.
      * by etrans; [|etrans; [|etrans]].
  - split_and!; try done; lia.
  - lia.
Qed.

Lemma bfree_txn bl held d c s sb b :
  in_txn dev p bl held d c s -> k_sb s = sb -> 0 <= b -> held !! BBLOCK b sb = None ->
  0 <= BBLOCK b sb < 2 ^ 31 -> log_room 1 s -> buf_room 1 bl held -> used sb c b = true ->
  wp (bfree dev b) (fun _ s' => fs_only s s' /\
    in_txn dev p (add_block (BBLOCK b sb) bl) held d
      (<[BBLOCK b sb := clear_bit (b mod BPB) (c (BBLOCK b sb))]> c) s') s.
Proof.
  intros H Hsb Hb Hh Hr Hlr Hbr Hu. unfold bfree. wp_step. wp_step. rewrite Hsb. apply wp_bind.
  eapply wp_mono; [by eapply bread_txn|]. intros bp s1 [H1 O1]. unfold get_buf. wp_step. wp_step.
  rewrite (data_txn _ _ _ _ _ _ _ H1 (lookup_insert_eq _ _ _)), bit_test by (apply Z.mod_pos_bound; done).
  unfold used in Hu. rewrite Hu. cbn [negb]. apply wp_bind.
  eapply wp_mono; [eapply (upd_data_txn _ _ _ _ _ _ _ (clear_bit (b mod BPB))); [exact H1|apply lookup_insert_eq]|].
  intros [] s2 [H2 O2]. apply wp_bind.
  assert (k_log s2 = k_log s) as El by (by rewrite (io_only_log _ _ O2), (io_only_log _ _ O1)).
  eapply wp_mono; [eapply (log_write_txn _ _ _ _ _ (BBLOCK b sb)); [exact H2|apply lookup_insert_eq|done|]|].
  { unfold log_room in *. by rewrite El. }
  intros [] s3 (H3 & O3 & _).
  eapply wp_mono; [eapply (brelse_txn _ _ _ _ _ (BBLOCK b sb)); [exact H3|apply lookup_insert_eq|]|].
  { intros Hnb. exfalso. apply Hnb. unfold add_block. case_decide; [done|set_solver]. }
  intros [] s4 [H4 O4]. rewrite delete_insert_id in H4 by done. split; [|done].
  etrans; [apply io_fs, O1|]. etrans; [apply io_fs, O2|]. etrans; [apply O3|]. by apply io_fs.
Qed.

Lemma bfree_free bl held d c s sb b :
  in_txn dev p bl held d c s -> k_sb s = sb -> 0 <= b -> held !! BBLOCK b sb = None ->
  buf_room 1 bl held -> used sb c b = false ->
  wpc (bfree dev b) (fun _ _ => False) (fun msg _ => msg = "freeing free block") s.
Proof.
  intros H Hsb Hb Hh Hbr Hu. unfold bfree. apply wpc_bind, wpc_wp, wp_gets. rewrite Hsb.
  apply wpc_bind, wpc_wp. eapply wp_mono; [by eapply bread_txn|]. intros bp s1 [H1 O1].
  unfold get_buf. apply wpc_bind, wpc_wp, wp_gets.
  rewrite (data_txn _ _ _ _ _ _ _ H1 (lookup_insert_eq _ _ _)), bit_test by (apply Z.mod_pos_bound; done).
  unfold used in Hu. by rewrite Hu.
Qed.

(** The bitmap is readable: its blocks hold bytes, have numbers that fit an
    [int] and are not held by the caller. *)
Record bitmap_ok (sb : superblock) (held : gmap Z nat) (c : Z -> list Z) : Prop := {
  bm_size : sb_size sb < 2 ^ 31;
  bm_free : bitmap_free sb held;
  bm_block : forall b, 0 <= b < sb_size sb -> block_ok (c (BBLOCK b sb));
  bm_range : forall b, 0 <= b < sb_size sb -> BBLOCK b sb < 2 ^ 31;
}.

Lemma BBLOCK_nonneg b sb : 0 <= BBLOCK b sb.
Proof. unfold BBLOCK, u32. apply Z.mod_pos_bound. lia. Qed.

Lemma same_mark sb b x : 0 <= b < 2 ^ 31 -> 0 <= x < 2 ^ 31 ->
  (BBLOCK x sb =? BBLOCK b sb) && (x mod BPB =? b mod BPB) = (x =? b).
Proof.
  intros Hb Hx. destruct (Z.eqb_spec x b) as [->|Hne]; [by rewrite !Z.eqb_refl|].
  apply andb_false_iff. destruct (Z.eqb_spec (x mod BPB) (b mod BPB)); [left|by right].
  apply Z.eqb_neq. unfold BBLOCK, u32. change BPB with 8192 in *. intros Eq. apply Hne.
  pose proof (Z.div_mod x 8192). pose proof (Z.div_mod b 8192).
  pose proof (Z.div_mod (x / 8192 + sb_bmapstart sb) (2 ^ 32)).
  pose proof (Z.div_mod (b / 8192 + sb_bmapstart sb) (2 ^ 32)). lia.
Qed.

(** Marks after one bit of the bitmap changes. *)
Lemma used_update sb held c b f v x :
  bitmap_ok sb held c -> 0 <= b < sb_size sb -> 0 <= x < sb_size sb ->
  (forall bj, 0 <= bj < BPB -> bit_of (f (c (BBLOCK b sb))) bj =
     if bj =? b mod BPB then v else bit_of (c (BBLOCK b sb)) bj) ->
  used sb (<[BBLOCK b sb := f (c (BBLOCK b sb))]> c) x =
    if x =? b then v else used sb c x.
Proof.
  intros [] Hb Hx Hf. rewrite <- (same_mark sb) by lia. unfold used. destruct (Z.eqb_spec (BBLOCK x sb) (BBLOCK b sb)) as [Eb|Eb].
  - rewrite Eb, fn_lookup_insert, Hf by (by apply Z.mod_pos_bound). simpl. done.
  - by rewrite fn_lookup_insert_ne.
Qed.

(** [balloc] hands out the first free block, marked and zeroed.  Inside a
    transaction with room for two more blocks, if some block is not marked in
    the bitmap, [balloc] returns the lowest such block; its mark is set and no
    other mark changes, its contents are zero, every other block outside the
    bitmap keeps its contents, and the two blocks written are in the
    transaction.  If every block is marked it panics. *)
Lemma balloc_spec bl held d c s sb :
  in_txn dev p bl held d c s -> k_sb s = sb -> bitmap_ok sb held c ->
  log_room 2 s -> buf_room 2 bl held ->
  (forall b0, 0 <= b0 < sb_size sb -> used sb c b0 = false -> all_used sb c b0 -> held !! b0 = None ->
   (forall x, 0 <= x < sb_size sb -> BBLOCK x sb <> b0) ->
   wp (balloc dev) (fun r s' => r = b0 /\ fs_only s s' /\ exists c',
     in_txn dev p (add_block b0 (add_block (BBLOCK b0 sb) bl)) held d c' s' /\ c' b0 = zeros /\
     (forall x, x <> b0 -> x <> BBLOCK b0 sb -> c' x = c x) /\
     (forall x, 0 <= x < sb_size sb -> used sb c' x =
        (x =? b0) || used sb c x)) s) /\
  (all_used sb c (sb_size sb) ->
   wpc (balloc dev) (fun _ _ => False) (fun msg _ => msg = "balloc: out of blocks") s).
Proof.
  intros H Hsb Hbm Hlr Hbr. pose proof Hbm as [Hsz Hbf Hbk Hrg]. split.
  - intros b0 Hb0 Hfree Hfirst Hh Hself.
    eapply wp_mono; [eapply (balloc_txn bl held d c s sb b0); try done|].
    + intros E0. by apply (Hself b0).
    + split; [apply BBLOCK_nonneg|by apply Hrg].
    + intros r s' (-> & O & H' & _). split; [done|]. split; [done|]. eexists. split; [exact H'|].
      split; [apply fn_lookup_insert|]. split.
      * intros x Hx1 Hx2. by rewrite !fn_lookup_insert_ne.
      * intros x Hx. unfold used. rewrite fn_lookup_insert_ne by (symmetry; by apply Hself).
        fold (used sb (<[BBLOCK b0 sb := set_bit (b0 mod BPB) (c (BBLOCK b0 sb))]> c) x).
        rewrite (used_update sb held c b0 _ true) by (try done; intros bj Hbj;
          rewrite bit_of_set by (try done; try (by apply Hbk); by apply Z.mod_pos_bound); by destruct (_ =? _)).
        by destruct (x =? _).
  - intros Hall. eapply balloc_none; try done. unfold buf_room in *. lia.
Qed.

(** [bfree] takes back a block that is in use.  The mark of the block is
    cleared and no other mark and no other block changes, and the bitmap block
    is in the transaction; freeing a block that is not in use panics. *)
Lemma bfree_spec bl held d c s sb b :
  in_txn dev p bl held d c s -> k_sb s = sb -> bitmap_ok sb held c ->
  log_room 1 s -> buf_room 1 bl held -> 0 <= b < sb_size sb ->
  (used sb c b = true ->
   wp (bfree dev b) (fun _ s' => fs_only s s' /\ exists c',
     in_txn dev p (add_block (BBLOCK b sb) bl) held d c' s' /\
     (forall x, x <> BBLOCK b sb -> c' x = c x) /\
     (forall x, 0 <= x < sb_size sb -> used sb c' x =
        negb (x =? b) && used sb c x)) s) /\
  (used sb c b = false ->
   wpc (bfree dev b) (fun _ _ => False) (fun msg _ => msg = "freeing free block") s).
Proof.
  intros H Hsb Hbm Hlr Hbr Hb. pose proof Hbm as [Hsz Hbf Hbk Hrg]. split.
  - intros Hu. eapply wp_mono; [eapply (bfree_txn bl held d c s sb b); try done; [lia|by apply Hbf|]|].
    + split; [apply BBLOCK_nonneg|by apply Hrg].
    + intros [] s' (O & H'). split; [done|]. eexists. split; [exact H'|]. split.
      * intros x Hx. by rewrite fn_lookup_insert_ne.
      * intros x Hx. rewrite (used_update sb held c b _ false) by (try done; intros bj Hbj;
          rewrite bit_of_clear by (try done; try (by apply Hbk); by apply Z.mod_pos_bound); by destruct (_ =? _)).
        by destruct (x =? _).
  - intros Hu. eapply bfree_free; try done; [lia|by apply Hbf].
Qed.

(** C33: the block allocator, inside a transaction with room for what it writes.
    [balloc] returns the lowest block that is not marked in the bitmap, marked
    and zeroed, or panics if every block is marked.  [bfree] clears the mark of a
    block in use, and panics if it is not in use.  No other mark and no other
    block outside the bitmap changes, and the blocks written are in the
    transaction. *)
Theorem block_allocator_correct bl held d c s sb :
  in_txn dev p bl held d c s -> k_sb s = sb -> bitmap_ok sb held c ->
  (log_room 2 s -> buf_room 2 bl held ->
   (forall b0, 0 <= b0 < sb_size sb -> used sb c b0 = false -> all_used sb c b0 -> held !! b0 = None ->
    (forall x, 0 <= x < sb_size sb -> BBLOCK x sb <> b0) ->
    wp (balloc dev) (fun r s' => r = b0 /\ fs_only s s' /\ exists c',
      in_txn dev p (add_block b0 (add_block (BBLOCK b0 sb) bl)) held d c' s' /\ c' b0 = zeros /\
      (forall x, x <> b0 -> x <> BBLOCK b0 sb -> c' x = c x) /\
      (forall x, 0 <= x < sb_size sb -> used sb c' x = (x =? b0) || used sb c x)) s) /\
   (all_used sb c (sb_size sb) -> wpc (balloc dev) (fun _ _ => False) (fun msg _ => msg = "balloc: out of blocks") s)) /\
  (forall b, log_room 1 s -> buf_room 1 bl held -> 0 <= b < sb_size sb ->
   (used sb c b = true ->
    wp (bfree dev b) (fun _ s' => fs_only s s' /\ exists c',
      in_txn dev p (add_block (BBLOCK b sb) bl) held d c' s' /\ (forall x, x <> BBLOCK b sb -> c' x = c x) /\
      (forall x, 0 <= x < sb_size sb -> used sb c' x = negb (x =? b) && used sb c x)) s) /\
   (used sb c b = false -> wpc (bfree dev b) (fun _ _ => False) (fun msg _ => msg = "freeing free block") s)).
Proof. intros H Hsb Hbm. split; [intros; by apply balloc_spec|intros; by apply bfree_spec]. Qed.
End Alloc.

Module BlocksDemo.
#[local] Instance still : Env := fun _ _ => None.
#[local] Instance perfect : Disk := disk_transfer.
#[local] Instance perfect_reads : ReadsBlocks perfect.
Proof. intros b. reflexivity. Qed.

(** The first fifty blocks are in use. *)
Definition bitmap : list Z := replicate 6 255 ++ [3] ++ replicate 1017 0.
Definition sb1 : superblock := set_sb_size 1000 (set_sb_inodestart 32 (set_sb_bmapstart 45 superblock0)).
Definition s0 : kernel :=
  set_k_cur (Some O) (set_k_sb sb1 (set_k_disk (<[45 := bitmap]> ∅)
    (set_k_log (set_l_outstanding 1 (set_l_size 30 log0)) kernel0))).
Definition s1 : kernel := LogDemo.final binit s0.
Definition d1 : Z -> list Z := disk_block (k_disk s0).

Lemma s1_txn : in_txn 1 O [] ∅ d1 d1 s1 /\ k_sb s1 = sb1 /\ k_log s1 = k_log s0.
Proof.
  assert (Forall idle (k_bufs s0)) as Hi by (apply Forall_replicate; split_and!; reflexivity).
  apply (LogDemo.wp_final binit (fun s => in_txn 1 O [] ∅ d1 d1 s /\ k_sb s = sb1 /\ k_log s = k_log s0)).
  destruct (binit_run_idle s0 eq_refl Hi) as (s' & Hrun & Hs' & HF & Hl).
  apply (wp_eq _ _ _ _ _ Hrun). clear Hrun. rewrite Hs'. split; [|split; reflexivity].
  constructor; [|repeat constructor; simpl; unfold LOGSIZE, MAXOPBLOCKS; lia|reflexivity|constructor|simpl; lia].
  apply (idle_simulates 1 O s0); [lia|reflexivity|reflexivity|reflexivity|by eexists|exact HF].
Qed.

Lemma BBLOCK_45 b : 0 <= b < 1000 -> BBLOCK b sb1 = 45.
Proof. intros Hb. unfold BBLOCK. change BPB with 8192. rewrite Z.div_small by lia. reflexivity. Qed.

Lemma d1_bitmap : bitmap_ok sb1 ∅ d1.
Proof.
  constructor; [reflexivity|done| |]; change (sb_size sb1) with 1000; intros b Hb; rewrite BBLOCK_45 by done.
  - split; [reflexivity|]. apply Forall_app. split; [apply Forall_replicate; split; lia|].
    constructor; [split; lia|]. apply Forall_replicate. split; lia.
  - reflexivity.
Qed.

Lemma d1_used : all_used sb1 d1 50.
Proof.
  assert (forallb (fun k => used sb1 d1 (Z.of_nat k)) (seq 0 50) = true) as H by (vm_compute; reflexivity).
  rewrite forallb_forall in H. intros b Hb. rewrite <- (Z2Nat.id b) by lia. apply H, in_seq. lia.
Qed.

Lemma s1_room n : 0 <= n <= 29 -> log_room n s1.
Proof.
  destruct s1_txn as (_ & _ & Hl). intros Hn. unfold log_room. rewrite Hl. simpl.
  unfold LOGSIZE, MAXOPBLOCKS. lia.
Qed.

Lemma empty_room m : (m <= NBUF)%nat -> buf_room m [] ∅.
Proof. intros Hm. unfold buf_room. rewrite dom_empty_L, size_empty. exact Hm. Qed.

Lemma on_disk b : 0 <= b < 1000 -> 0 <= b < sb_size sb1.
Proof. intros H. exact H. Qed.

Lemma block_allocator_correct_witness :
  wp (balloc 1) (fun r s' => r = 50 /\ exists c', in_txn 1 O [45; 50] ∅ d1 c' s' /\ used sb1 c' 50 = true) s1 /\
  wp (bfree 1 7) (fun _ s' => exists c', in_txn 1 O [45] ∅ d1 c' s' /\ used sb1 c' 7 = false) s1 /\
  wpc (bfree 1 60) (fun _ _ => False) (fun msg _ => msg = "freeing free block") s1.
Proof.
  destruct s1_txn as (H & Hsb & Hl). destruct (block_allocator_correct [] ∅ d1 d1 s1 sb1 H Hsb d1_bitmap) as [Ha Hf].
  specialize (fun b => Hf b (s1_room 1 ltac:(lia)) (empty_room 1 ltac:(unfold NBUF; lia))). split_and!.
  - eapply wp_mono.
    + apply (proj1 (Ha (s1_room 2 ltac:(lia)) (empty_room 2 ltac:(unfold NBUF; lia))) 50); [apply on_disk; lia|vm_compute; reflexivity|exact d1_used|reflexivity|].
      intros x Hx. rewrite BBLOCK_45 by exact Hx. lia.
    + intros r s' (-> & _ & c' & H' & _ & _ & Hu). split; [reflexivity|]. exists c'. split; [exact H'|].
      rewrite Hu by (apply on_disk; lia). reflexivity.
  - eapply wp_mono.
    + apply (proj1 (Hf 7 (on_disk 7 ltac:(lia)))). vm_compute. reflexivity.
    + intros [] s' (_ & c' & H' & _ & Hu). exists c'. split; [exact H'|]. rewrite Hu by (apply on_disk; lia). reflexivity.
  - apply (proj2 (Hf 60 (on_disk 60 ltac:(lia)))). vm_compute. reflexivity.
Defined.
End BlocksDemo.
