(* ===== verification/FileMap.v ===== *)
(** * The blocks and bytes of a file

    [layout] is the division of the disk that [mkfs] makes: inodes before the
    bitmap, data after it.  [amap] reads the block numbers of a file off its
    inode and its indirect block the way [bmap] does, [file_ok] says that they
    are marked data blocks, each used once, and [fbyte] is the byte at an
    offset.  [grown] and [written] relate the contents of the disk before and
    after a file gets more blocks or is written to. *)

From stdpp Require Import functions.
From S2P Require Import Prelude Bytes Params CString Spinlock State Kalloc Vm Sched SchedProofs Bio Lru BioProofs BlockCache CacheSpec Log LogProofs LogSpace Fs FsPure FsBlocks.

(** ** The layout of the disk *)

Definition dstart (sb : superblock) : Z := sb_bmapstart sb + sb_size sb / BPB + 1.

Record layout (sb : superblock) : Prop := {
  lay_bmap : 0 < sb_bmapstart sb;
  lay_data : dstart sb <= sb_size sb;
  lay_size : 0 <= sb_size sb < 2 ^ 31;
}.

Definition data (sb : superblock) (b : Z) : Prop := dstart sb <= b < sb_size sb.
(** A block outside the bitmap. *)
Definition plain_block (sb : superblock) (b : Z) : Prop := 0 <= b < sb_bmapstart sb \/ data sb b.

Lemma BBLOCK_range sb b : layout sb -> 0 <= b < sb_size sb ->
  sb_bmapstart sb <= BBLOCK b sb < dstart sb.
Proof.
  intros [H1 H2 H3] Hb. unfold dstart in *. unfold BBLOCK.
  assert (0 <= b / BPB <= sb_size sb / BPB).
  { split; [apply Z.div_pos; [lia|done]|apply Z.div_le_mono; [done|lia]]. }
  rewrite u32_small by lia. lia.
Qed.

Lemma data_range sb b : layout sb -> data sb b -> 0 < b < sb_size sb.
Proof.
  intros [H1 H2 H3] [H4 H5]. unfold dstart in *.
  assert (0 <= sb_size sb / BPB) by (apply Z.div_pos; [lia|done]). lia.
Qed.

Lemma plain_range sb b : layout sb -> plain_block sb b -> 0 <= b < sb_size sb.
Proof.
  intros L [H|H%data_range]; [|lia|done]. destruct L as [H1 H2 H3]. unfold dstart in *.
  assert (0 <= sb_size sb / BPB) by (apply Z.div_pos; [lia|done]). lia.
Qed.

Lemma plain_bitmap sb b x : layout sb -> plain_block sb b -> 0 <= x < sb_size sb -> BBLOCK x sb <> b.
Proof. intros L Hb Hx. pose proof (BBLOCK_range sb x L Hx). destruct Hb as [?|[? _]]; lia. Qed.

(** Blocks hold bytes, and the blocks before the data are marked. *)
Record fs_ok (sb : superblock) (c : Z -> list Z) : Prop := {
  fo_layout : layout sb;
  fo_blocks : forall b, 0 <= b < sb_size sb -> block_ok (c b);
  fo_meta : forall b, 0 <= b < dstart sb -> used sb c b = true;
}.

(** The marks do not depend on the other blocks. *)
Lemma used_plain sb c b v x : layout sb -> plain_block sb b -> 0 <= x < sb_size sb ->
  used sb (<[b := v]> c) x = used sb c x.
Proof. intros L Hb Hx. unfold used. rewrite fn_lookup_insert_ne; [done|]. symmetry. by apply plain_bitmap. Qed.

Lemma fs_ok_insert sb c b v : fs_ok sb c -> plain_block sb b -> block_ok v -> fs_ok sb (<[b := v]> c).
Proof.
  intros [L Hb Hm] Hp Hv. constructor; [done| |].
  - intros x Hx. destruct (decide (x = b)) as [->|]; [by rewrite fn_lookup_insert|].
    rewrite fn_lookup_insert_ne by done. by apply Hb.
  - intros x Hx. pose proof (lay_data _ L). rewrite used_plain by (done || lia). by apply Hm.
Qed.

(** A free block is a data block. *)
Lemma free_data sb c b : fs_ok sb c -> 0 <= b < sb_size sb -> used sb c b = false -> data sb b.
Proof.
  intros [_ _ Hm] Hb Hu. destruct (decide (b < dstart sb)); [|split; lia].
  by rewrite Hm in Hu by lia.
Qed.

(** ** A block handed out by [balloc] *)
Record allocated (sb : superblock) (c : Z -> list Z) (a : Z) (c' : Z -> list Z) : Prop := {
  al_data : data sb a;
  al_free : used sb c a = false;
  al_zero : c' a = zeros;
  al_keep : forall x, plain_block sb x -> x <> a -> c' x = c x;
  al_used : forall x, 0 <= x < sb_size sb -> used sb c' x = (x =? a) || used sb c x;
  al_ok : fs_ok sb c';
}.

Lemma zeros_ok : block_ok zeros.
Proof. split; [apply length_replicate|]. apply Forall_replicate. split; lia. Qed.

Lemma set_bit_ok data bi : block_ok data -> block_ok (set_bit bi data).
Proof. apply set_byte_ok. Qed.

Lemma allocated_intro sb c b0 : fs_ok sb c -> 0 <= b0 < sb_size sb -> used sb c b0 = false ->
  allocated sb c b0 (<[b0 := zeros]> (<[BBLOCK b0 sb := set_bit (b0 mod BPB) (c (BBLOCK b0 sb))]> c)).
Proof.
  intros F Hb Hu. pose proof (free_data _ _ _ F Hb Hu) as Hd. pose proof (fo_layout _ _ F) as L.
  assert (bitmap_ok sb ∅ c) as BM.
  { constructor; [apply L|done| |]; intros b Hb'; pose proof (BBLOCK_range sb b L Hb');
      pose proof (lay_data _ L); pose proof (lay_bmap _ L); pose proof (lay_size _ L); [apply F|]; lia. }
  set (c1 := <[BBLOCK b0 sb := _]> c).
  assert (forall x, 0 <= x < sb_size sb -> used sb c1 x = (x =? b0) || used sb c x) as Hused.
  { intros x Hx. unfold c1. rewrite (used_update sb ∅ c b0 _ true) by (try done; intros bj Hbj;
      rewrite bit_of_set by (try done; try (by eapply bm_block); by apply Z.mod_pos_bound); by destruct (_ =? _)).
    by destruct (_ =? _). }
  assert (fs_ok sb c1) as F1.
  { constructor; [done| |].
    - intros x Hx. unfold c1. destruct (decide (x = BBLOCK b0 sb)) as [->|].
      + rewrite fn_lookup_insert. apply set_bit_ok. by eapply bm_block.
      + rewrite fn_lookup_insert_ne by done. by apply F.
    - intros x Hx. pose proof (lay_data _ L). rewrite Hused by lia. rewrite (fo_meta _ _ F) by done. apply orb_true_r. }
  constructor; try done.
  - apply fn_lookup_insert.
  - intros x Hx Hne. rewrite fn_lookup_insert_ne by done. unfold c1.
    rewrite fn_lookup_insert_ne; [done|]. intros E. apply (plain_bitmap sb x b0 L Hx Hb). done.
  - intros x Hx. rewrite used_plain by (try done; by right). by apply Hused.
  - apply fs_ok_insert; [done|by right|apply zeros_ok].
Qed.

(** ** The block map of a file *)

Definition ind (addrs : list Z) : Z := addrs !!! Z.to_nat NDIRECT.

Definition amap (c : Z -> list Z) (addrs : list Z) (bn : Z) : Z :=
  if bn <? NDIRECT then addrs !!! Z.to_nat bn
  else if ind addrs =? 0 then 0 else get_le 4 (c (ind addrs)) (Z.to_nat (4 * (bn - NDIRECT))).

Record file_ok (sb : superblock) (c : Z -> list Z) (addrs : list Z) : Prop := {
  fi_len : length addrs = 13%nat;
  fi_ind : ind addrs <> 0 -> data sb (ind addrs) /\ used sb c (ind addrs) = true;
  fi_map : forall bn, 0 <= bn < MAXFILE -> amap c addrs bn <> 0 ->
    data sb (amap c addrs bn) /\ used sb c (amap c addrs bn) = true /\ amap c addrs bn <> ind addrs;
  fi_inj : forall bn bn', 0 <= bn < MAXFILE -> 0 <= bn' < MAXFILE ->
    amap c addrs bn <> 0 -> amap c addrs bn = amap c addrs bn' -> bn = bn';
}.

(** The blocks of the file, the indirect block included. *)
Definition owns (c : Z -> list Z) (addrs : list Z) (b : Z) : Prop :=
  b <> 0 /\ (b = ind addrs \/ exists bn, 0 <= bn < MAXFILE /\ amap c addrs bn = b).

Definition fbyte (c : Z -> list Z) (addrs : list Z) (o : Z) : Z :=
  let a := amap c addrs (o / BSIZE) in if a =? 0 then 0 else c a !!! Z.to_nat (o mod BSIZE).

(** Every block below the size is there. *)
Definition mapped (c : Z -> list Z) (addrs : list Z) (size : Z) : Prop :=
  forall bn, 0 <= bn -> bn * BSIZE < size -> amap c addrs bn <> 0.

Lemma owns_used sb c addrs b : file_ok sb c addrs -> owns c addrs b -> data sb b /\ used sb c b = true.
Proof.
  intros F [Hb [->|(bn & Hbn & <-)]]; [by apply (fi_ind _ _ _ F)|].
  destruct (fi_map _ _ _ F bn Hbn Hb) as (? & ? & _). done.
Qed.

(** A file keeps its shape when some of its missing blocks are filled in with
    free ones. *)
Lemma file_ok_update sb c addrs c' addrs' bn :
  layout sb -> file_ok sb c addrs -> length addrs' = 13%nat ->
  (forall b, 0 <= b < sb_size sb -> used sb c b = true -> used sb c' b = true) ->
  (ind addrs' = ind addrs \/ data sb (ind addrs') /\ used sb c (ind addrs') = false /\ used sb c' (ind addrs') = true) ->
  (forall bn', 0 <= bn' < MAXFILE -> amap c' addrs' bn' = amap c addrs bn' \/
     bn' = bn /\ data sb (amap c' addrs' bn) /\ used sb c (amap c' addrs' bn) = false /\
     used sb c' (amap c' addrs' bn) = true /\ amap c' addrs' bn <> ind addrs') ->
  file_ok sb c' addrs'.
Proof.
  intros L F Hl Hu Hi Ha. pose proof (data_range sb) as R.
  assert (forall bn, 0 <= bn < MAXFILE -> amap c addrs bn <> 0 ->
    data sb (amap c addrs bn) /\ used sb c (amap c addrs bn) = true /\ used sb c' (amap c addrs bn) = true) as Hold.
  { intros k Hk H0. destruct (fi_map _ _ _ F k Hk H0) as (H1 & H2 & _). split_and!; try done.
    apply Hu; [|done]. pose proof (R _ L H1). lia. }
  constructor; [done| | |].
  - intros H0. destruct Hi as [Hi|(H1 & H2 & H3)]; [|done]. rewrite Hi in *.
    destruct (fi_ind _ _ _ F H0) as [H1 H2]. split; [done|]. apply Hu; [|done]. pose proof (R _ L H1). lia.
  - intros k Hk H0. destruct (Ha k Hk) as [E|(-> & H1 & H2 & H3 & H4)]; [|done]. rewrite E in *.
    destruct (Hold k Hk H0) as (H1 & H2 & H3). split_and!; try done.
    destruct (fi_map _ _ _ F k Hk H0) as (_ & _ & Hne).
    destruct Hi as [->|(_ & H4 & _)]; [done|]. intros Eq. congruence.
  - intros k k' Hk Hk' H0 Eq.
    destruct (Ha k Hk) as [E|(-> & H1 & H2 & _)], (Ha k' Hk') as [E'|(-> & H1' & H2' & _)].
    + rewrite E, E' in *. by apply (fi_inj _ _ _ F).
    + rewrite E in *. destruct (Hold k Hk H0) as (_ & H3 & _). congruence.
    + rewrite E' in *. rewrite Eq in *. destruct (Hold k' Hk' H0) as (_ & H3 & _). congruence.
    + done.
Qed.

(** ** What a write to a file does to the disk *)

(** [bs] laid over a file's bytes at [off]. *)
Definition over (off : Z) (bs : list Z) (f : Z -> Z) (o : Z) : Z :=
  if decide (off <= o < off + Z.of_nat (length bs)) then bs !!! Z.to_nat (o - off) else f o.

Lemma over_nil off f o : over off [] f o = f o.
Proof. unfold over. simpl. by rewrite decide_False by lia. Qed.

Lemma over_ext off bs f g o : f o = g o -> over off bs f o = over off bs g o.
Proof. unfold over. by intros ->. Qed.

Lemma over_app off bs bs' f o :
  over (off + Z.of_nat (length bs)) bs' (over off bs f) o = over off (bs ++ bs') f o.
Proof.
  unfold over. rewrite length_app. repeat case_decide; try lia; try done.
  - rewrite lookup_total_app_r by lia. f_equal. lia.
  - by rewrite lookup_total_app_l by lia.
Qed.

Record written (sb : superblock) (off : Z) (bs : list Z) (c : Z -> list Z) (addrs : list Z)
    (c' : Z -> list Z) (addrs' : list Z) : Prop := {
  wr_fs : fs_ok sb c';
  wr_file : file_ok sb c' addrs';
  wr_byte : forall o, 0 <= o < MAXFILE * BSIZE -> fbyte c' addrs' o = over off bs (fbyte c addrs) o;
  wr_map : forall bn, 0 <= bn < MAXFILE -> amap c addrs bn <> 0 -> amap c' addrs' bn = amap c addrs bn;
  wr_owns : forall b, owns c' addrs' b -> owns c addrs b \/ used sb c b = false;
  wr_used : forall b, 0 <= b < sb_size sb -> used sb c b = true -> used sb c' b = true;
  wr_keep : forall b, plain_block sb b -> used sb c b = true -> ~ owns c addrs b -> c' b = c b;
}.

(** More blocks, the same bytes. *)
Definition grown (sb : superblock) : (Z -> list Z) -> list Z -> (Z -> list Z) -> list Z -> Prop := written sb 0 [].

Lemma written_nil_refl sb c addrs : fs_ok sb c -> file_ok sb c addrs -> grown sb c addrs c addrs.
Proof. intros F H. constructor; try done; [intros; by rewrite over_nil|auto]. Qed.

Lemma written_trans sb off bs bs' c addrs c1 addrs1 c2 addrs2 :
  written sb off bs c addrs c1 addrs1 -> written sb (off + Z.of_nat (length bs)) bs' c1 addrs1 c2 addrs2 ->
  written sb off (bs ++ bs') c addrs c2 addrs2.
Proof.
  intros H1 H2. pose proof (fo_layout _ _ (wr_fs _ _ _ _ _ _ _ H1)) as L. constructor.
  - apply H2.
  - apply H2.
  - intros o Ho. rewrite (wr_byte _ _ _ _ _ _ _ H2) by done. rewrite <- over_app.
    apply over_ext. by apply (wr_byte _ _ _ _ _ _ _ H1).
  - intros bn Hbn H0. rewrite (wr_map _ _ _ _ _ _ _ H2), (wr_map _ _ _ _ _ _ _ H1); try done.
    by rewrite (wr_map _ _ _ _ _ _ _ H1).
  - intros b Hb. destruct (wr_owns _ _ _ _ _ _ _ H2 b Hb) as [Hb'|Hu]; [by apply (wr_owns _ _ _ _ _ _ _ H1)|].
    right. destruct (used sb c b) eqn:Eu; [|done].
    pose proof (data_range _ _ L (proj1 (owns_used _ _ _ _ (wr_file _ _ _ _ _ _ _ H2) Hb))).
    rewrite (wr_used _ _ _ _ _ _ _ H1) in Hu; [done|lia|done].
  - intros b Hr Hu. apply (wr_used _ _ _ _ _ _ _ H2); [done|]. by apply (wr_used _ _ _ _ _ _ _ H1).
  - intros b Hp Hu Hno. assert (used sb c1 b = true) by (apply (wr_used _ _ _ _ _ _ _ H1); [by apply plain_range|done]).
    rewrite (wr_keep _ _ _ _ _ _ _ H2); [by apply (wr_keep _ _ _ _ _ _ _ H1)|done|done|].
    intros [Ho|Hf]%(wr_owns _ _ _ _ _ _ _ H1); [done|congruence].
Qed.

Lemma written_nil sb off c addrs c' addrs' : written sb off [] c addrs c' addrs' <-> grown sb c addrs c' addrs'.
Proof.
  split; intros H; constructor; try apply H; intros o Ho;
    rewrite (wr_byte _ _ _ _ _ _ _ H) by done; by rewrite !over_nil.
Qed.

Lemma grown_trans sb c addrs c1 addrs1 c2 addrs2 :
  grown sb c addrs c1 addrs1 -> grown sb c1 addrs1 c2 addrs2 -> grown sb c addrs c2 addrs2.
Proof. intros H1 H2. apply (written_trans sb 0 [] [] _ _ _ _ _ _ H1). by apply written_nil. Qed.

Lemma written_grown sb off bs c addrs c1 addrs1 c2 addrs2 :
  grown sb c addrs c1 addrs1 -> written sb off bs c1 addrs1 c2 addrs2 -> written sb off bs c addrs c2 addrs2.
Proof.
  intros H1 H2. apply (written_nil sb off) in H1. apply (written_trans sb off [] bs _ _ _ _ _ _ H1).
  simpl. by rewrite Z.add_0_r.
Qed.

(** Bytes of a file whose new blocks are zero. *)
Lemma fbyte_same c addrs c' addrs' o :
  (amap c' addrs' (o / BSIZE) = amap c addrs (o / BSIZE) /\
     (amap c addrs (o / BSIZE) <> 0 -> c' (amap c addrs (o / BSIZE)) = c (amap c addrs (o / BSIZE))) \/
   amap c addrs (o / BSIZE) = 0 /\ c' (amap c' addrs' (o / BSIZE)) = zeros) ->
  fbyte c' addrs' o = fbyte c addrs o.
Proof.
  unfold fbyte. intros [[-> Hc]|[-> ->]].
  - destruct (Z.eqb_spec (amap c addrs (o / BSIZE)) 0); [done|]. by rewrite Hc.
  - simpl. destruct (_ =? 0); [done|]. unfold zeros. apply lookup_total_replicate_2.
    pose proof (Z.mod_pos_bound o BSIZE). unfold BSIZE in *. lia.
Qed.

Lemma amap_ext c c' addrs bn : (ind addrs <> 0 -> c' (ind addrs) = c (ind addrs)) ->
  amap c' addrs bn = amap c addrs bn.
Proof. intros H. unfold amap. destruct (bn <? NDIRECT); [done|]. destruct (Z.eqb_spec (ind addrs) 0); [done|]. by rewrite H. Qed.

Section Grow.
Context (sb : superblock) (c c' : Z -> list Z) (addrs : list Z) (a : Z).
Context (F : fs_ok sb c) (FI : file_ok sb c addrs) (A : allocated sb c a c').

Lemma alloc_fresh b : used sb c b = true -> b <> a.
Proof. intros Hu ->. rewrite (al_free _ _ _ _ A) in Hu. done. Qed.

Lemma alloc_keep b : data sb b -> used sb c b = true -> c' b = c b.
Proof. intros Hd Hu. apply (al_keep _ _ _ _ A); [by right|by apply alloc_fresh]. Qed.

Lemma alloc_used b : 0 <= b < sb_size sb -> used sb c b = true -> used sb c' b = true.
Proof. intros Hb Hu. rewrite (al_used _ _ _ _ A), Hu by done. apply orb_true_r. Qed.

Lemma alloc_self : used sb c' a = true.
Proof.
  pose proof (data_range _ _ (fo_layout _ _ F) (al_data _ _ _ _ A)).
  rewrite (al_used _ _ _ _ A) by lia. by rewrite Z.eqb_refl.
Qed.

(** The common part of the three ways a file grows: [c1] and [addrs1] are the
    disk and the block numbers afterwards, [bn] the block filled in. *)
Lemma grown_intro c1 addrs1 bn :
  length addrs1 = 13%nat -> fs_ok sb c1 ->
  (forall b, 0 <= b < sb_size sb -> used sb c1 b = used sb c' b) ->
  (forall b, plain_block sb b -> b <> ind addrs \/ ind addrs = 0 -> c1 b = c' b) ->
  (ind addrs1 = ind addrs \/ ind addrs1 = a) ->
  (forall bn', 0 <= bn' < MAXFILE -> amap c1 addrs1 bn' = amap c addrs bn' \/
     bn' = bn /\ amap c addrs bn = 0 /\ amap c1 addrs1 bn = a /\ a <> ind addrs1) ->
  grown sb c addrs c1 addrs1.
Proof.
  intros Hl F1 Hu Hk Hi Hm. pose proof (fo_layout _ _ F) as L. pose proof (al_data _ _ _ _ A) as Hd.
  pose proof (data_range _ _ L Hd) as Hr. pose proof (al_free _ _ _ _ A) as Hf.
  assert (used sb c1 a = true) as Hua by (rewrite Hu by lia; apply alloc_self).
  assert (forall b, 0 <= b < sb_size sb -> used sb c b = true -> used sb c1 b = true) as Hus.
  { intros b Hb Hc. rewrite Hu by done. by apply alloc_used. }
  assert (forall b, data sb b -> used sb c b = true -> b <> ind addrs -> c1 b = c b) as Hkeep.
  { intros b Hb Hc Hne. rewrite Hk; [|by right|by left]. by apply alloc_keep. }
  assert (file_ok sb c1 addrs1) as FI1.
  { apply (file_ok_update sb c addrs c1 addrs1 bn); try done.
    - destruct Hi as [Hi|Hi]; [by left|]. right. by rewrite Hi.
    - intros k Hk'. destruct (Hm k Hk') as [?|(-> & _ & E & Hne)]; [by left|right]. by rewrite E. }
  constructor; try done.
  - intros o Ho. rewrite over_nil. apply fbyte_same.
    assert (0 <= o / BSIZE < MAXFILE).
    { unfold BSIZE in *. split; [apply Z.div_pos; lia|]. apply Z.div_lt_upper_bound; lia. }
    destruct (Hm (o / BSIZE) ltac:(done)) as [E|(-> & E0 & E & Hne)].
    + left. split; [done|]. intros H0. destruct (fi_map _ _ _ FI _ ltac:(done) H0) as (? & ? & ?). by apply Hkeep.
    + right. split; [done|]. rewrite E, Hk; [apply A|by right|].
      destruct (decide (ind addrs = 0)) as [E1|E1]; [by right|left].
      apply (fi_ind _ _ _ FI) in E1 as [_ E1]. congruence.
  - intros k Hk' H0. destruct (Hm k Hk') as [?|(-> & ? & _)]; [done|congruence].
  - intros b [H0 [->|(k & Hk' & <-)]].
    + destruct Hi as [Hi|Hi]; rewrite Hi in *; [left; split; [done|by left]|by right].
    + destruct (Hm k Hk') as [E|(-> & _ & -> & _)]; [|by right]. rewrite E in *. left. split; [done|]. right. eauto.
  - intros b Hb Hc Hno. rewrite Hk; [|done|].
    + apply (al_keep _ _ _ _ A); [done|by apply alloc_fresh].
    + destruct (decide (ind addrs = 0)) as [E0|E0]; [by right|left].
      intros ->. apply Hno. split; [done|by left].
Qed.

Lemma grown_direct bn : 0 <= bn < NDIRECT -> addrs !!! Z.to_nat bn = 0 ->
  grown sb c addrs c' (<[Z.to_nat bn := a]> addrs) /\ amap c' (<[Z.to_nat bn := a]> addrs) bn = a.
Proof.
  intros Hbn H0. pose proof (fi_len _ _ _ FI) as Hl. unfold NDIRECT in Hbn.
  assert (ind (<[Z.to_nat bn := a]> addrs) = ind addrs) as Ei.
  { unfold ind, NDIRECT. apply list_lookup_total_insert_ne. lia. }
  assert (amap c' (<[Z.to_nat bn := a]> addrs) bn = a) as Ea.
  { unfold amap, NDIRECT. destruct (Z.ltb_spec bn 12); [|lia]. apply list_lookup_total_insert_eq. lia. }
  split; [|done]. apply (grown_intro _ _ bn); [by rewrite length_insert|apply A|done|done|by left|].
  intros k Hk. destruct (decide (k = bn)) as [->|Hne].
  - right. split_and!; [done| |done|].
    + unfold amap, NDIRECT. destruct (Z.ltb_spec bn 12); [done|lia].
    + rewrite Ei. intros E. pose proof (al_free _ _ _ _ A) as Hf.
      pose proof (data_range _ _ (fo_layout _ _ F) (al_data _ _ _ _ A)).
      destruct (fi_ind _ _ _ FI) as [_ Hu]; [lia|]. congruence.
  - left. unfold amap. rewrite Ei. destruct (Z.ltb_spec k NDIRECT).
    + apply list_lookup_total_insert_ne. unfold NDIRECT in *. lia.
    + destruct (Z.eqb_spec (ind addrs) 0); [done|].
      rewrite alloc_keep; [done|by apply (fi_ind _ _ _ FI)..].
Qed.

Lemma get_le_zeros n off : get_le n zeros off = 0.
Proof.
  unfold get_le, slice, zeros. rewrite drop_replicate, take_replicate.
  generalize (n `min` (Z.to_nat BSIZE - off))%nat. intros k. induction k as [|k IH]; [done|]. simpl. lia.
Qed.

Lemma grown_ind : ind addrs = 0 ->
  let addrs' := <[Z.to_nat NDIRECT := a]> addrs in
  grown sb c addrs c' addrs' /\ ind addrs' = a /\ (forall bn, 0 <= bn < MAXFILE -> amap c' addrs' bn = amap c addrs bn).
Proof.
  intros H0 addrs'. pose proof (fi_len _ _ _ FI) as Hl.
  assert (ind addrs' = a) as Ei by (apply list_lookup_total_insert_eq; rewrite Hl; unfold NDIRECT; lia).
  assert (forall bn, 0 <= bn < MAXFILE -> amap c' addrs' bn = amap c addrs bn) as Em.
  { intros k Hk. unfold amap. rewrite Ei. destruct (Z.ltb_spec k NDIRECT).
    - apply list_lookup_total_insert_ne. unfold NDIRECT in *. lia.
    - rewrite H0. simpl. rewrite (al_zero _ _ _ _ A), get_le_zeros. by destruct (a =? 0). }
  split_and!; [|done|done].
  apply (grown_intro _ _ 0); [unfold addrs'; by rewrite length_insert|apply A|done|done|by right|]. intros k Hk. left. by apply Em.
Qed.

Lemma amap_entry k c1 v : ind addrs <> 0 -> block_ok (c (ind addrs)) -> NDIRECT <= k < MAXFILE -> 0 <= v < 2 ^ 32 ->
  c1 (ind addrs) = put_le 4 (c (ind addrs)) (Z.to_nat (4 * (k - NDIRECT))) v ->
  forall bn, 0 <= bn < MAXFILE -> amap c1 addrs bn = if bn =? k then v else amap c addrs bn.
Proof.
  intros Hi [Hlen _] Hk Hv E bn Hbn. unfold amap. rewrite E. unfold MAXFILE, NINDIRECT, NDIRECT, BSIZE in *.
  change (1024 / 4) with 256 in *. rewrite (proj2 (Z.eqb_neq _ _) Hi).
  destruct (Z.eqb_spec bn k) as [->|Hne].
  - destruct (Z.ltb_spec k 12); [lia|]. rewrite get_put_le_same by lia. by apply Z.mod_small.
  - destruct (Z.ltb_spec bn 12); [done|]. by rewrite get_put_le_disjoint by lia.
Qed.

Lemma grown_entry bn : ind addrs <> 0 -> NDIRECT <= bn < MAXFILE -> amap c addrs bn = 0 ->
  let c1 := <[ind addrs := put_le 4 (c' (ind addrs)) (Z.to_nat (4 * (bn - NDIRECT))) a]> c' in
  grown sb c addrs c1 addrs /\ amap c1 addrs bn = a.
Proof.
  intros Hi Hbn H0 c1. destruct (fi_ind _ _ _ FI Hi) as [Hd Hu]. pose proof (fo_layout _ _ F) as L.
  pose proof (data_range _ _ L Hd). pose proof (data_range _ _ L (al_data _ _ _ _ A)). pose proof (lay_size _ L).
  assert (c' (ind addrs) = c (ind addrs)) as Ec by (by apply alloc_keep).
  assert (block_ok (c (ind addrs))) as Hok by (apply F; lia).
  assert (forall k, 0 <= k < MAXFILE -> amap c1 addrs k = if k =? bn then a else amap c addrs k) as Em.
  { apply amap_entry; [done|done|done|lia|]. unfold c1. by rewrite fn_lookup_insert, Ec. }
  assert (amap c1 addrs bn = a) as Ea.
  { rewrite Em by (unfold NDIRECT in *; lia). by rewrite Z.eqb_refl. }
  split; [|done]. apply (grown_intro _ _ bn).
  - apply FI.
  - apply fs_ok_insert; [apply A|by right|]. rewrite Ec. destruct Hok as [Hl Hb].
    split; [|by apply put_le_is_byte]. rewrite length_put_le; [done|].
    unfold MAXFILE, NINDIRECT, NDIRECT, BSIZE in *. change (1024 / 4) with 256 in *. lia.
  - intros b Hb. apply used_plain; [done|by right|done].
  - intros b Hb [Hne|?]; [|done]. by apply fn_lookup_insert_ne.
  - by left.
  - intros k Hk. rewrite Em by done. destruct (Z.eqb_spec k bn) as [->|]; [right|by left].
    split_and!; try done. by apply not_eq_sym, alloc_fresh.
Qed.
End Grow.

(** Bytes put into a block of the file. *)
Lemma written_block sb c addrs off bs :
  fs_ok sb c -> file_ok sb c addrs -> 0 <= off < MAXFILE * BSIZE -> Forall is_byte bs ->
  off mod BSIZE + Z.of_nat (length bs) <= BSIZE ->
  let a := amap c addrs (off / BSIZE) in a <> 0 ->
  written sb off bs c addrs (<[a := splice (c a) (Z.to_nat (off mod BSIZE)) bs]> c) addrs.
Proof.
  intros F FI Ho Hbs Hfit a Ha. pose proof (fo_layout _ _ F) as L.
  assert (0 <= off / BSIZE < MAXFILE) as Hbn.
  { unfold BSIZE in *. split; [apply Z.div_pos; lia|]. apply Z.div_lt_upper_bound; lia. }
  destruct (fi_map _ _ _ FI _ Hbn Ha) as (Hd & Hu & Hni). fold a in Hd, Hu, Hni.
  pose proof (data_range _ _ L Hd). assert (block_ok (c a)) as [Hl Hb] by (apply F; lia).
  assert (0 <= off mod BSIZE < BSIZE) as Hm by (by apply Z.mod_pos_bound).
  set (v := splice (c a) _ bs). assert (forall k, amap (<[a := v]> c) addrs k = amap c addrs k) as Em.
  { intros k. apply amap_ext. intros _. by apply fn_lookup_insert_ne. }
  assert (forall b, 0 <= b < sb_size sb -> used sb (<[a := v]> c) b = used sb c b) as Eu.
  { intros b Hb'. apply used_plain; [done|by right|done]. }
  assert (block_ok v) as Hv.
  { split; [unfold v; rewrite length_splice; lia|by apply Forall_splice]. }
  constructor.
  - apply fs_ok_insert; [done|by right|done].
  - apply (file_ok_update sb c addrs _ _ 0); try done; [apply FI|intros b ? ?; by rewrite Eu|by left|].
    intros k Hk. left. apply Em.
  - intros o Ho'. unfold fbyte. rewrite Em. unfold over.
    pose proof (Z.div_mod off BSIZE ltac:(done)). pose proof (Z.div_mod o BSIZE ltac:(done)).
    pose proof (Z.mod_pos_bound o BSIZE ltac:(done)).
    assert (0 <= o / BSIZE < MAXFILE).
    { unfold BSIZE in *. split; [apply Z.div_pos; lia|]. apply Z.div_lt_upper_bound; lia. }
    destruct (decide (o / BSIZE = off / BSIZE)) as [E|E].
    + rewrite E. fold a. rewrite (proj2 (Z.eqb_neq _ _) Ha), fn_lookup_insert. unfold v.
      rewrite !list_lookup_total_alt, lookup_splice by lia. unfold BSIZE in *.
      case_decide; case_decide; try lia.
      f_equal. f_equal. lia.
    + rewrite decide_False by (intros Hr; apply E; unfold BSIZE in *; lia).
      destruct (Z.eqb_spec (amap c addrs (o / BSIZE)) 0); [done|]. rewrite fn_lookup_insert_ne; [done|].
      intros E2. apply E. symmetry. by apply (fi_inj _ _ _ FI).
  - intros k Hk _. apply Em.
  - intros b [H0 [->|(k & Hk & <-)]]; left; (split; [done|]); [by left|]. rewrite Em. right. by exists k.
  - intros b Hb'. by rewrite Eu.
  - intros b Hb' Hub Hno. apply fn_lookup_insert_ne. intros E. apply Hno. rewrite <- E. split; [done|]. right. by exists (off / BSIZE).
Qed.
