(* ===== verification/FsFiles.v ===== *)
(** * Files as arrays of bytes

    [readi] and [writei] over the block map: inside a transaction a file is
    the bytes [fbyte] below its size, a read returns a range of them and a
    write lays bytes over them, with blocks handed out by [balloc] where the
    file has none. *)

From stdpp Require Import functions.
From S2P Require Import Prelude Bytes Params CString Spinlock State Kalloc Vm PageTable VmProofs UserSpace UvmProofs UserCopy IoCopy Sched SchedProofs Bio Lru BioProofs BlockCache CacheSpec Log LogProofs LogSpace Fs FsPure FsBlocks FileMap.

(** Only the file system's part of the state and inode [ip] differ. *)
Record ino_only (ip : nat) (s s' : kernel) : Prop := {
  ino_eq : s' = set_k_itable (k_itable s') (set_k_log (k_log s') (set_k_bufs (k_bufs s')
             (set_k_disk (k_disk s') (set_k_procs (k_procs s') s))));
  ino_roots : p_pagetable <$> k_procs s' = p_pagetable <$> k_procs s;
  ino_len : length (k_itable s') = length (k_itable s);
  ino_other : forall j, j <> ip -> k_itable s' !!! j = k_itable s !!! j;
}.

#[export] Instance ino_only_preorder ip : PreOrder (ino_only ip).
Proof.
  split.
  - intros s. constructor; [by destruct s|done..].
  - intros s1 s2 s3 [H1 P1 L1 O1] [H2 P2 L2 O2]. constructor; [rewrite H2, H1; by destruct s1|congruence|congruence|].
    intros j Hj. by rewrite O2, O1.
Qed.

Lemma fs_ino ip s s' : fs_only s s' -> ino_only ip s s'.
Proof.
  intros O. pose proof (fs_only_itable _ _ O) as Ei. destruct O as [H1 P1].
  constructor; [rewrite H1; by destruct s|done|by rewrite Ei|by rewrite Ei].
Qed.

Lemma io_ino ip s s' : io_only s s' -> ino_only ip s s'.
Proof. intros H. by apply fs_ino, io_fs. Qed.

Lemma upd_ino ip f s : ino_only ip s (set_k_itable (alter f ip (k_itable s)) s).
Proof.
  constructor; simpl; [by destruct s|done|by rewrite length_alter|].
  intros j Hj. rewrite !list_lookup_total_alt. by rewrite list_lookup_alter_ne.
Qed.

Lemma ino_sb ip s s' : ino_only ip s s' -> k_sb s' = k_sb s.
Proof. intros [-> _ _ _]. done. Qed.

Lemma ino_mem ip s s' : ino_only ip s s' -> k_mem s' = k_mem s /\ k_cur s' = k_cur s /\ k_freelist s' = k_freelist s.
Proof. intros [-> _ _ _]. done. Qed.

(** ** Transactions with room *)

Definition room (L n : Z) (bl : list Z) : Prop :=
  Z.of_nat (length bl) + n + 2 <= LOGSIZE /\ Z.of_nat (length bl) + n <= L - 1.

(** The transaction got at most [n] blocks bigger. *)
Definition longer (n : Z) (bl bl' : list Z) : Prop :=
  Z.of_nat (length bl') <= Z.of_nat (length bl) + n /\ bl ⊆ bl'.

Lemma longer_refl n bl : 0 <= n -> longer n bl bl.
Proof. split; [lia|done]. Qed.

Lemma longer_trans n m bl bl1 bl2 : longer n bl bl1 -> longer m bl1 bl2 -> longer (n + m) bl bl2.
Proof. intros [H1 S1] [H2 S2]. split; [lia|by etrans]. Qed.

Lemma longer_mono n m bl bl' : longer n bl bl' -> n <= m -> longer m bl bl'.
Proof. intros [H S] ?. split; [lia|done]. Qed.

Lemma room_longer L n m bl bl' : room L n bl -> longer m bl bl' -> room L (n - m) bl'.
Proof. intros [H1 H2] [H3 _]. split; lia. Qed.

Lemma room_mono L n m bl : room L n bl -> m <= n -> room L m bl.
Proof. intros [H1 H2] ?. split; lia. Qed.

Lemma longer_add b bl : longer 1 bl (add_block b bl).
Proof.
  unfold add_block. case_decide; [by apply longer_refl|]. split; [rewrite length_app; simpl; lia|set_solver].
Qed.

Lemma elem_add b bl : b ∈ add_block b bl.
Proof. unfold add_block. case_decide; [done|set_solver]. Qed.

Section Files.
Context {E : Env} {D : Disk} {RD : ReadsBlocks D}.
Context {dev : Z} {p : nat}.

Record ftxn (L : Z) (bl : list Z) (held : gmap Z nat) (d c : Z -> list Z) (s : kernel) : Prop := {
  ft_txn : in_txn dev p bl held d c s;
  ft_size : l_size (k_log s) = L;
}.

Lemma ftxn_room L n bl held d c s : ftxn L bl held d c s -> room L n bl -> log_room n s.
Proof.
  intros [H HL] [H1 H2]. pose proof (log_blocks_length _ (it_log _ _ _ _ _ _ _ H)) as Hl.
  rewrite (it_blocks _ _ _ _ _ _ _ H) in Hl. pose proof (lo_n _ (it_log _ _ _ _ _ _ _ H)).
  unfold log_room. rewrite HL. lia.
Qed.

Lemma room_buf L n m bl held : room L n bl -> (size (dom held) + m <= Z.to_nat (n + 2))%nat -> 0 <= n -> buf_room m bl held.
Proof. intros [H1 _] Hm Hn. unfold buf_room, NBUF. unfold LOGSIZE, MAXOPBLOCKS in H1. lia. Qed.

Lemma dom_none : size (dom (∅ : gmap Z nat)) = 0%nat.
Proof. by rewrite dom_empty_L, size_empty. Qed.

Lemma dom_one (b : Z) (i : nat) : size (dom (<[b := i]> ∅ : gmap Z nat)) = 1%nat.
Proof. by rewrite dom_insert_L, dom_empty_L, union_empty_r_L, size_singleton. Qed.

(** [balloc] with the free block it finds. *)
Lemma first_free sb c n : 0 <= n ->
  all_used sb c n \/ exists b0, 0 <= b0 < n /\ used sb c b0 = false /\ all_used sb c b0.
Proof.
  revert n. apply natlike_ind; [left; intros b ?; lia|]. intros n Hn [Ha|(b0 & ? & ? & ?)]; [|right; exists b0; split; [lia|done]].
  destruct (used sb c n) eqn:Eu.
  - left. intros b Hb. destruct (decide (b = n)) as [->|]; [done|]. apply Ha. lia.
  - right. exists n. split; [lia|done].
Qed.

Lemma balloc_ftxn L bl held d c s sb :
  ftxn L bl held d c s -> k_sb s = sb -> fs_ok sb c ->
  (forall b, is_Some (held !! b) -> data sb b /\ used sb c b = true) -> (size (dom held) <= 1)%nat -> room L 2 bl ->
  wpc (balloc dev) (fun a s' => exists bl' c', ftxn L bl' held d c' s' /\ fs_only s s' /\
      allocated sb c a c' /\ longer 2 bl bl') (fun msg _ => msg = "balloc: out of blocks") s.
Proof.
  intros H Hsb F Hheld Hh Hr. pose proof (fo_layout _ _ F) as Ly. pose proof (lay_size _ Ly) as Hsz.
  assert (bitmap_free sb held) as Hbf.
  { intros b Hb. apply eq_None_not_Some. intros [Hd _]%Hheld. by apply (plain_bitmap sb _ b Ly (or_intror Hd) Hb). }
  pose proof (ftxn_room _ _ _ _ _ _ _ H Hr) as Hlr.
  destruct (first_free sb c (sb_size sb) ltac:(lia)) as [Ha|(b0 & Hb0 & Hf & Ha)].
  - eapply wpc_mono; [apply (balloc_none (p := p) bl held d c s sb); try done; [apply H|lia|by eapply room_buf; [done|lia|lia]]|done|done].
  - pose proof (BBLOCK_range sb b0 Ly Hb0). pose proof (lay_data _ Ly). pose proof (lay_bmap _ Ly).
    pose proof (free_data _ _ _ F Hb0 Hf) as Hd.
    apply wpc_wp. eapply wp_mono; [apply (balloc_txn (p := p) bl held d c s sb b0); try done; try lia; [apply H| | |]|].
    + apply eq_None_not_Some. intros [_ Hu]%Hheld. congruence.
    + intros Eb. apply (plain_bitmap sb b0 b0 Ly (or_intror Hd) Hb0). done.
    + by eapply room_buf; [done|lia|lia].
    + intros r s' (-> & O & H' & _ & Hs'). eexists _, _. split_and!; [| done|by apply allocated_intro|].
      * constructor; [exact H'|]. rewrite Hs'. apply H.
      * apply (longer_trans 1 1 _ (add_block (BBLOCK b0 sb) bl)); apply longer_add.
Qed.
Lemma ftxn_itable L bl held d c s t : ftxn L bl held d c s -> ftxn L bl held d c (set_k_itable t s).
Proof. intros [[[? ? ? ?] ? ? ? ?] ?]. constructor; [|done]. constructor; [|done..]. by constructor. Qed.

(** ** The block map *)

Record at_file (L : Z) (bl : list Z) (d c : Z -> list Z) (sb : superblock) (ip : nat) (x : inode) (s : kernel) : Prop := {
  af_txn : ftxn L bl ∅ d c s;
  af_sb : k_sb s = sb;
  af_fs : fs_ok sb c;
  af_ip : k_itable s !! ip = Some x;
  af_dev : i_dev x = dev;
  af_file : file_ok sb c (i_addrs x);
}.

Definition no_blocks (msg : string) (s : kernel) : Prop := msg = "balloc: out of blocks".

Lemma at_file_x L bl d c sb ip x s : at_file L bl d c sb ip x s -> k_itable s !!! ip = x.
Proof. intros H. apply list_lookup_total_correct, H. Qed.

(** A new address is stored in the inode. *)
Lemma at_file_addrs L bl d c sb ip x s f :
  ftxn L bl ∅ d c s -> k_sb s = sb -> fs_ok sb c -> k_itable s !! ip = Some x -> i_dev x = dev ->
  file_ok sb c (f (i_addrs x)) ->
  at_file L bl d c sb ip (set_i_addrs (f (i_addrs x)) x)
    (set_k_itable (alter (fun x => set_i_addrs (f (i_addrs x)) x) ip (k_itable s)) s).
Proof.
  intros H Hsb F Hx Hd FI. constructor; try done; [by apply ftxn_itable|].
  simpl. by rewrite list_lookup_alter_eq, Hx.
Qed.

(** [balloc] for a file, and the store of the new address in slot [k]. *)
Lemma balloc_addr L bl d c sb ip x s k : at_file L bl d c sb ip x s -> room L 2 bl ->
  (forall a c', allocated sb c a c' -> file_ok sb c' (<[k := a]> (i_addrs x))) ->
  wpc (a <- balloc dev ;; upd_inode ip (fun x => set_i_addrs (<[k := a]> (i_addrs x)) x) ;; ret a)
    (fun a s' => exists bl' c', allocated sb c a c' /\ longer 2 bl bl' /\ ino_only ip s s' /\
       at_file L bl' d c' sb ip (set_i_addrs (<[k := a]> (i_addrs x)) x) s') no_blocks s.
Proof.
  intros [H Hsb F Hx Hd FI] Hr Hok. apply wpc_bind.
  eapply wpc_mono; [apply (balloc_ftxn L bl ∅ d c s sb); try done| |done].
  { intros b [? Hb]. by rewrite lookup_empty in Hb. }
  { rewrite dom_none. lia. }
  intros a s1 (bl1 & c1 & H1 & O1 & A & Hl). unfold upd_inode. apply wpc_bind, wpc_wp, wp_modify, wp_ret.
  exists bl1, c1. split_and!; [done|done| |].
  - etrans; [by apply fs_ino|]. apply upd_ino.
  - apply (at_file_addrs _ _ _ _ _ _ _ _ (fun l => <[k := a]> l)); [done|by rewrite (fs_only_sb _ _ O1)|apply A| |done|by apply Hok].
    by rewrite (fs_only_itable _ _ O1).
Qed.

Lemma amap_direct c addrs bn : 0 <= bn < NDIRECT -> amap c addrs bn = addrs !!! Z.to_nat bn.
Proof. intros H. unfold amap. by destruct (Z.ltb_spec bn NDIRECT); [|lia]. Qed.

Lemma amap_indirect c addrs bn : NDIRECT <= bn -> ind addrs <> 0 ->
  amap c addrs bn = get_le 4 (c (ind addrs)) (Z.to_nat (4 * (bn - NDIRECT))).
Proof.
  intros H Hi. unfold amap. destruct (Z.ltb_spec bn NDIRECT) as [?|_]; [lia|]. by rewrite (proj2 (Z.eqb_neq _ _) Hi).
Qed.

(** The entry of the indirect block. *)
Lemma bmap_entry L bl d c sb ip x s bn :
  at_file L bl d c sb ip x s -> room L 3 bl -> ind (i_addrs x) <> 0 -> NDIRECT <= bn < MAXFILE ->
  wpc (bp <- bread dev (ind (i_addrs x)) ;;
       b <- get_buf bp ;;
       addr <- (let addr := get_le 4 (b_data b) (Z.to_nat (4 * (bn - NDIRECT))) in
                if negb (addr =? 0) then ret addr else
                addr <- balloc dev ;;
                upd_data bp (fun d => put_le 4 d (Z.to_nat (4 * (bn - NDIRECT))) addr) ;;
                log_write bp ;;
                ret addr) ;;
       brelse bp ;;
       ret addr)
    (fun a s' => exists bl' c', at_file L bl' d c' sb ip x s' /\ ino_only ip s s' /\ longer 3 bl bl' /\
       grown sb c (i_addrs x) c' (i_addrs x) /\ amap c' (i_addrs x) bn = a /\ a <> 0) no_blocks s.
Proof.
  intros [H Hsb F Hx Hd FI] Hr Hi Hbn. set (a0 := ind (i_addrs x)) in *.
  destruct (fi_ind _ _ _ FI Hi) as [Hdat Hus]. pose proof (fo_layout _ _ F) as Ly. pose proof (data_range _ _ Ly Hdat) as Hrg.
  pose proof (lay_size _ Ly) as Hsz. apply wpc_bind.
  eapply wpc_mono; [apply wpc_wp, (bread_txn (p := p) bl ∅ d c s a0); [apply H|done|]| |done].
  { eapply room_buf; [done|rewrite dom_none; lia|lia]. }
  intros bp s1 [H1 O1]. unfold get_buf. apply wpc_bind, wpc_wp, wp_gets.
  rewrite (data_txn _ _ _ _ _ _ _ H1 (lookup_insert_eq _ _ _)).
  pose proof (amap_indirect c (i_addrs x) bn ltac:(lia) Hi) as Ea. fold a0 in Ea. rewrite <- Ea.
  assert (ftxn L bl (<[a0 := bp]> ∅) d c s1) as T1.
  { constructor; [done|]. rewrite (io_only_log _ _ O1). apply H. }
  cbv zeta. destruct (Z.eqb_spec (amap c (i_addrs x) bn) 0) as [E0|E0]; cbn [negb]; apply wpc_bind.
  - apply wpc_bind. eapply wpc_mono; [apply (balloc_ftxn L bl _ d c s1 sb T1); try done| |done].
    { by rewrite (fs_only_sb _ _ (io_fs _ _ O1)). }
    { intros b Hb. apply lookup_insert_is_Some in Hb as [<-|[_ [? Hb]]]; [done|by rewrite lookup_empty in Hb]. }
    { rewrite dom_one. lia. }
    { eapply room_mono; [done|lia]. }
    intros a s2 (bl2 & c2 & T2 & O2 & A & Hl2). apply wpc_bind.
    eapply wpc_mono; [apply wpc_wp; eapply (upd_data_txn (dev := dev) (p := p) bl2 _ d c2 s2 a0 bp); [apply T2|apply lookup_insert_eq]| |done].
    intros [] s3 [H3 O3]. apply wpc_bind.
    assert (ftxn L bl2 (<[a0 := bp]> ∅) d (<[a0 := put_le 4 (c2 a0) (Z.to_nat (4 * (bn - NDIRECT))) a]> c2) s3) as T3.
    { constructor; [exact H3|]. rewrite (io_only_log _ _ O3). apply T2. }
    eapply wpc_mono; [apply wpc_wp; eapply (log_write_txn (dev := dev) (p := p) bl2 _ d _ s3 a0 bp); [apply T3|apply lookup_insert_eq|lia|]| |done].
    { eapply ftxn_room; [exact T3|]. eapply room_mono; [by eapply room_longer|lia]. }
    intros [] s4 (H4 & O4 & _ & Hs4). apply wpc_wp, wp_ret. apply wpc_wp, wp_bind.
    eapply wp_mono; [eapply (brelse_txn _ _ _ _ _ a0 bp); [exact H4|apply lookup_insert_eq|]|].
    { intros Hn. exfalso. apply Hn, elem_add. }
    intros [] s5 [H5 O5]. rewrite delete_insert_id in H5 by done. apply wp_ret.
    destruct (grown_entry sb c c2 (i_addrs x) a F FI A bn Hi Hbn E0) as [G Ga].
    assert (fs_only s s5) as O.
    { etrans; [apply io_fs, O1|]. etrans; [apply O2|]. etrans; [apply io_fs, O3|]. etrans; [apply O4|]. by apply io_fs. }
    eexists _, _. split_and!; [|by apply fs_ino| |exact G|exact Ga|].
    + constructor; [|by rewrite (fs_only_sb _ _ O)|apply G|by rewrite (fs_only_itable _ _ O)|done|apply G].
      constructor; [exact H5|]. rewrite (io_only_log _ _ O5), Hs4. apply T3.
    + apply (longer_trans 2 1 _ bl2); [done|apply longer_add].
    + pose proof (data_range _ _ Ly (al_data _ _ _ _ A)). lia.
  - apply wpc_wp, wp_ret. apply wpc_wp, wp_bind.
    eapply wp_mono; [eapply (brelse_txn _ _ _ _ _ a0 bp); [exact H1|apply lookup_insert_eq|]|].
    { intros Hn. by eapply txn_clean; [apply H|done|]. }
    intros [] s5 [H5 O5]. rewrite delete_insert_id in H5 by done. apply wp_ret.
    assert (io_only s s5) as O by (by etrans).
    eexists bl, c. split_and!; [|by apply io_ino|by apply longer_refl|by apply written_nil_refl|done|done].
    constructor; [|by rewrite (fs_only_sb _ _ (io_fs _ _ O))|done|by rewrite (fs_only_itable _ _ (io_fs _ _ O))|done|done].
    constructor; [exact H5|]. rewrite (io_only_log _ _ O). apply H.
Qed.

Lemma set_addrs_id x : set_i_addrs (i_addrs x) x = x.
Proof. by destruct x. Qed.

Lemma bmap_direct L bl d c sb ip x s bn :
  at_file L bl d c sb ip x s -> room L 2 bl -> 0 <= bn < NDIRECT ->
  wpc (bmap ip bn) (fun a s' => exists bl' c' addrs', at_file L bl' d c' sb ip (set_i_addrs addrs' x) s' /\
       ino_only ip s s' /\ longer 2 bl bl' /\ grown sb c (i_addrs x) c' addrs' /\ amap c' addrs' bn = a /\ a <> 0)
    no_blocks s.
Proof.
  intros H Hr Hbn. pose proof H as [_ _ F _ Hd FI]. unfold bmap, get_inode. apply wpc_bind, wpc_wp, wp_gets.
  rewrite (at_file_x _ _ _ _ _ _ _ _ H), Hd. destruct (Z.ltb_spec bn NDIRECT); [|lia]. cbv zeta.
  pose proof (amap_direct c (i_addrs x) bn Hbn) as Ea.
  destruct (Z.eqb_spec (i_addrs x !!! Z.to_nat bn) 0) as [E0|E0]; cbn [negb].
  - eapply wpc_mono; [apply (balloc_addr L bl d c sb ip x s (Z.to_nat bn) H Hr)| |done].
    + intros a c' A. apply (grown_direct sb c c' _ a F FI A bn Hbn E0).
    + intros a s' (bl' & c' & A & Hl & O & H'). destruct (grown_direct sb c c' _ a F FI A bn Hbn E0) as [G Ga].
      eexists bl', c', _. split_and!; [exact H'|done|done|exact G|exact Ga|].
      pose proof (data_range _ _ (fo_layout _ _ F) (al_data _ _ _ _ A)). lia.
  - apply wpc_wp, wp_ret. exists bl, c, (i_addrs x). rewrite set_addrs_id.
    split_and!; [done|done|by apply longer_refl|by apply written_nil_refl|done|done].
Qed.

(** The indirect block of the file. *)
Lemma bmap_ind L bl d c sb ip x s :
  at_file L bl d c sb ip x s -> room L 2 bl ->
  wpc (let ind := i_addrs x !!! Z.to_nat NDIRECT in
       if negb (ind =? 0) then ret ind else
       ind <- balloc dev ;;
       upd_inode ip (fun x => set_i_addrs (<[Z.to_nat NDIRECT := ind]> (i_addrs x)) x) ;;
       ret ind)
    (fun a s' => exists bl' c' addrs', at_file L bl' d c' sb ip (set_i_addrs addrs' x) s' /\
       ino_only ip s s' /\ longer 2 bl bl' /\ grown sb c (i_addrs x) c' addrs' /\ ind addrs' = a /\ a <> 0) no_blocks s.
Proof.
  intros H Hr. pose proof H as [_ _ F _ _ FI]. cbv zeta. fold (ind (i_addrs x)).
  destruct (Z.eqb_spec (ind (i_addrs x)) 0) as [E0|E0]; cbn [negb].
  - eapply wpc_mono; [apply (balloc_addr L bl d c sb ip x s (Z.to_nat NDIRECT) H Hr)| |done].
    + intros a c' A. apply (grown_ind sb c c' _ a F FI A E0).
    + intros a s' (bl' & c' & A & Hl & O & H'). destruct (grown_ind sb c c' _ a F FI A E0) as (G & Ga & _).
      eexists bl', c', _. split_and!; [exact H'|done|done|exact G|exact Ga|].
      pose proof (data_range _ _ (fo_layout _ _ F) (al_data _ _ _ _ A)). lia.
  - apply wpc_wp, wp_ret. exists bl, c, (i_addrs x). rewrite set_addrs_id.
    split_and!; [done|done|by apply longer_refl|by apply written_nil_refl|done|done].
Qed.

Lemma bmap_grow L bl d c sb ip x s bn :
  at_file L bl d c sb ip x s -> room L 5 bl -> 0 <= bn < MAXFILE ->
  wpc (bmap ip bn) (fun a s' => exists bl' c' addrs', at_file L bl' d c' sb ip (set_i_addrs addrs' x) s' /\
       ino_only ip s s' /\ longer 5 bl bl' /\ grown sb c (i_addrs x) c' addrs' /\ amap c' addrs' bn = a /\ a <> 0)
    no_blocks s.
Proof.
  intros H Hr Hbn. destruct (decide (bn < NDIRECT)) as [Hlt|Hge].
  { eapply wpc_mono; [apply (bmap_direct L bl d c sb ip x s bn H); [eapply room_mono; [done|lia]|lia]| |done].
    intros a s' (bl' & c' & addrs' & H' & O & Hl & G). eexists _, _, _. split_and!; [done|done|by eapply longer_mono|apply G..]. }
  unfold bmap, get_inode. apply wpc_bind, wpc_wp, wp_gets.
  rewrite (at_file_x _ _ _ _ _ _ _ _ H), (af_dev _ _ _ _ _ _ _ _ H). destruct (Z.ltb_spec bn NDIRECT) as [?|_]; [lia|].
  destruct (Z.ltb_spec (bn - NDIRECT) NINDIRECT) as [_|?]; [|unfold MAXFILE in Hbn; lia].
  cbv zeta. apply wpc_bind. eapply wpc_mono; [apply (bmap_ind L bl d c sb ip x s H); eapply room_mono; [done|lia]| |done].
  intros a s1 (bl1 & c1 & addrs1 & H1 & O1 & Hl1 & G1 & Ei & Hi). subst a.
  eapply wpc_mono; [apply (bmap_entry L bl1 d c1 sb ip _ s1 bn H1); [|done|lia]| |done].
  { eapply room_mono; [by eapply room_longer|lia]. }
  simpl. intros a s2 (bl2 & c2 & H2 & O2 & Hl2 & G2 & Ea & Ha). exists bl2, c2, addrs1. split_and!; try done.
  - by etrans.
  - by apply (longer_trans 2 3 _ bl1).
  - by eapply grown_trans.
Qed.

(** A block that is there is found, and nothing changes. *)
Lemma bmap_hit L bl d c sb ip x s bn :
  at_file L bl d c sb ip x s -> room L 0 bl -> 0 <= bn < MAXFILE -> amap c (i_addrs x) bn <> 0 ->
  wp (bmap ip bn) (fun a s' => a = amap c (i_addrs x) bn /\ at_file L bl d c sb ip x s' /\ io_only s s') s.
Proof.
  intros H Hr Hbn Ha. pose proof H as [T Hsb F Hx Hd FI]. unfold bmap, get_inode. apply wp_bind, wp_gets.
  rewrite (at_file_x _ _ _ _ _ _ _ _ H), Hd. destruct (Z.ltb_spec bn NDIRECT) as [?|?].
  { rewrite amap_direct in * by lia. cbv zeta. by rewrite (proj2 (Z.eqb_neq _ _) Ha). }
  destruct (Z.ltb_spec (bn - NDIRECT) NINDIRECT) as [_|?]; [|unfold MAXFILE in Hbn; lia].
  assert (ind (i_addrs x) <> 0) as Hi.
  { intros E0. apply Ha. unfold amap. destruct (Z.ltb_spec bn NDIRECT) as [?|_]; [lia|]. by rewrite E0. }
  cbv zeta. fold (ind (i_addrs x)). rewrite (proj2 (Z.eqb_neq _ _) Hi). cbn [negb].
  pose proof (amap_indirect c (i_addrs x) bn ltac:(lia) Hi) as Ea. rewrite Ea in *.
  wp_step. wp_step. wp_step. eapply wp_mono; [apply (bread_txn (p := p) bl ∅ d c s); [apply T|done|]|].
  { eapply room_buf; [done|rewrite dom_none; lia|lia]. }
  intros bp s1 [H1 O1]. unfold get_buf. wp_step. wp_step.
  rewrite (data_txn _ _ _ _ _ _ _ H1 (lookup_insert_eq _ _ _)), (proj2 (Z.eqb_neq _ _) Ha). cbn [negb].
  wp_step. wp_step. wp_step.
  eapply wp_mono; [eapply (brelse_txn _ _ _ _ _ _ bp); [exact H1|apply lookup_insert_eq|]|].
  { intros Hn. by eapply txn_clean; [apply T|done|]. }
  intros [] s5 [H5 O5]. rewrite delete_insert_id in H5 by done. wp_step.
  assert (io_only s s5) as O by (by etrans). split_and!; [done| |done].
  constructor; [|by rewrite (fs_only_sb _ _ (io_fs _ _ O))|done|by rewrite (fs_only_itable _ _ (io_fs _ _ O))|done|done].
  constructor; [exact H5|]. rewrite (io_only_log _ _ O). apply T.
Qed.
End Files.

(** ** Bytes of a range *)

Definition fread (c : Z -> list Z) (addrs : list Z) (off : Z) (n : nat) : list Z :=
  (fun k => fbyte c addrs (off + Z.of_nat k)) <$> seq 0 n.

Lemma length_fread c addrs off n : length (fread c addrs off n) = n.
Proof. unfold fread. by rewrite length_fmap, length_seq. Qed.

Lemma lookup_fread c addrs off n k : (k < n)%nat -> fread c addrs off n !! k = Some (fbyte c addrs (off + Z.of_nat k)).
Proof. intros Hk. unfold fread. by rewrite list_lookup_fmap, lookup_seq_lt. Qed.

Lemma fread_app c addrs off n m :
  fread c addrs off (n + m) = fread c addrs off n ++ fread c addrs (off + Z.of_nat n) m.
Proof.
  apply list_eq. intros i. destruct (decide (i < n)%nat); [|destruct (decide (i < n + m)%nat)].
  - rewrite lookup_app_l, !lookup_fread by (rewrite ?length_fread; lia). done.
  - rewrite lookup_app_r, !lookup_fread by (rewrite ?length_fread; lia). do 2 f_equal. rewrite length_fread. lia.
  - rewrite !lookup_ge_None_2; [done|..]; rewrite ?length_app, ?length_fread; lia.
Qed.

Lemma fread_block c addrs off m :
  0 <= off -> off mod BSIZE + Z.of_nat m <= BSIZE -> amap c addrs (off / BSIZE) <> 0 ->
  length (c (amap c addrs (off / BSIZE))) = Z.to_nat BSIZE ->
  slice (c (amap c addrs (off / BSIZE))) (Z.to_nat (off mod BSIZE)) m = fread c addrs off m.
Proof.
  intros Ho Hm Ha Hl. pose proof (Z.mod_pos_bound off BSIZE ltac:(done)) as Hb.
  apply list_eq. intros i. destruct (decide (i < m)%nat).
  - rewrite lookup_slice, lookup_fread by done. unfold fbyte.
    assert ((off + Z.of_nat i) / BSIZE = off / BSIZE /\ (off + Z.of_nat i) mod BSIZE = off mod BSIZE + Z.of_nat i) as [-> ->].
    { pose proof (Z.div_mod off BSIZE ltac:(done)). unfold BSIZE in *.
      split; symmetry; [apply (Z.div_unique _ _ _ (off mod 1024 + Z.of_nat i))|apply (Z.mod_unique _ _ (off / 1024))]; lia. }
    rewrite (proj2 (Z.eqb_neq _ _) Ha), list_lookup_total_alt.
    replace (Z.to_nat (off mod BSIZE + Z.of_nat i)) with (Z.to_nat (off mod BSIZE) + i)%nat by lia.
    destruct (lookup_lt_is_Some_2 (c (amap c addrs (off / BSIZE))) (Z.to_nat (off mod BSIZE) + i)) as [b Eb];
      [rewrite Hl; lia|]. by rewrite Eb.
  - rewrite !lookup_ge_None_2; [done|rewrite length_fread; lia|]. rewrite length_slice; [lia|]. rewrite Hl. lia.
Qed.

Lemma io_same_user s s' : io_only s s' -> same_user s s'.
Proof. intros [-> Hr]. by constructor. Qed.

Lemma io_only_mem m s s' : io_only s s' -> io_only (set_k_mem m s) (set_k_mem m s').
Proof. intros [E1 Hr]. constructor; [|done]. rewrite E1. by destruct s. Qed.

Section Read.
Context `{Lk : Linker} {LkOk : LinkerOk Lk}.
Context {E : Env} {D : Disk} {RD : ReadsBlocks D}.
Context {dev : Z} {p : nat}.

Lemma in_txn_mem bl held d c s m : in_txn dev p bl held d c s -> in_txn dev p bl held d c (set_k_mem m s).
Proof. intros [[? ? ? ?] ? ? ? ?]. constructor; [|done..]. by constructor. Qed.

Lemma at_file_io L bl d c sb ip x s s' :
  at_file (dev := dev) (p := p) L bl d c sb ip x s -> in_txn dev p bl ∅ d c s' ->
  k_log s' = k_log s -> k_sb s' = k_sb s -> k_itable s' = k_itable s -> at_file (dev := dev) (p := p) L bl d c sb ip x s'.
Proof.
  intros [[T Hs] Hsb F Hx Hd FI] T' El Es Ei. constructor; [|congruence|done|by rewrite Ei|done|done].
  constructor; [done|by rewrite El].
Qed.

(** One round of the loop of [readi], and what follows it. *)
Lemma readi_step {B} L bl d c sb ip x s dst off m m' bytes bs2 (k : Z -> list Z -> K B) Q :
  at_file (dev := dev) (p := p) L bl d c sb ip x s -> room L 0 bl -> 0 <= off < MAXFILE * BSIZE -> 0 <= m ->
  amap c (i_addrs x) (off / BSIZE) <> 0 -> off mod BSIZE + m <= BSIZE ->
  bytes = fread c (i_addrs x) off (Z.to_nat m) -> sink s dst (bytes ++ bs2) m' ->
  (forall s' m1, at_file (dev := dev) (p := p) L bl d c sb ip x s' -> io_only (set_k_mem m1 s) s' ->
     sink s' (dst_add dst m) bs2 m' -> wp (k 0 bytes) Q s') ->
  wp (addr <- bmap ip (off / BSIZE) ;;
      x <- get_inode ip ;;
      bp <- bread (i_dev x) addr ;;
      b <- get_buf bp ;;
      r <- either_copyout dst (slice (b_data b) (Z.to_nat (off mod BSIZE)) (Z.to_nat m)) m ;;
      brelse bp ;;
      k r (slice (b_data b) (Z.to_nat (off mod BSIZE)) (Z.to_nat m))) Q s.
Proof.
  intros H Hr Ho Hm Ha Hfit Hb Hsink Hk. pose proof H as [T _ F _ Hd FI]. pose proof (fo_layout _ _ F) as Ly.
  assert (0 <= off / BSIZE < MAXFILE) as Hbn.
  { unfold BSIZE in *. split; [apply Z.div_pos; lia|]. apply Z.div_lt_upper_bound; lia. }
  wp_step. eapply wp_mono; [apply (bmap_hit L bl d c sb ip x s _ H Hr Hbn Ha)|].
  intros a s1 (-> & H1 & O1). unfold get_inode. wp_step. wp_step. rewrite (at_file_x _ _ _ _ _ _ _ _ H1), Hd.
  destruct (fi_map _ _ _ FI _ Hbn Ha) as (Hdat & _ & _). pose proof (data_range _ _ Ly Hdat) as Hdr.
  set (a := amap c (i_addrs x) (off / BSIZE)) in *.
  wp_step. eapply wp_mono; [apply (bread_txn (p := p) bl ∅ d c s1 a); [apply H1|done|]|].
  { eapply room_buf; [done|rewrite dom_none; lia|lia]. }
  intros bp s2 [H2 O2]. unfold get_buf. wp_step. wp_step.
  rewrite (data_txn _ _ _ _ _ _ _ H2 (lookup_insert_eq _ _ _)).
  assert (slice (c a) (Z.to_nat (off mod BSIZE)) (Z.to_nat m) = bytes) as ->.
  { rewrite Hb. apply fread_block; [lia|lia|done|]. apply F. lia. }
  assert (io_only s s2) as O by (by etrans).
  apply (sink_frame _ s2) in Hsink; [|by apply io_same_user]. apply sink_app in Hsink as (m1 & Hs1 & Hs2).
  assert (Z.of_nat (length bytes) = m) as Elen by (rewrite Hb, length_fread; lia). rewrite Elen in Hs2.
  pose proof (Z.mod_pos_bound off BSIZE ltac:(done)) as Hmb.
  wp_step. rewrite <- Elen at 1. eapply wp_eq; [apply (sink_copyout _ _ _ _ Hs1); unfold BSIZE in *; lia|].
  wp_step. eapply wp_mono; [eapply (brelse_txn _ _ _ _ _ a bp); [apply in_txn_mem, H2|apply lookup_insert_eq|]|].
  { intros Hn. by eapply txn_clean; [apply H1|done|]. }
  intros [] s3 [H3 O3]. rewrite delete_insert_id in H3 by done.
  assert (io_only (set_k_mem m1 s) s3) as O'. { etrans; [by apply io_only_mem|done]. }
  pose proof (io_fs _ _ O') as O''. apply (Hk s3 m1); [|done|].
  - apply (at_file_io _ _ _ _ _ _ _ _ _ H H3); [by rewrite (io_only_log _ _ O')|by rewrite (fs_only_sb _ _ O'')|by rewrite (fs_only_itable _ _ O'')].
  - apply (sink_frame (set_k_mem m1 s2)); [by apply io_same_user|done].
Qed.

Lemma io_mem_trans m1 m2 s s1 s2 : io_only (set_k_mem m1 s) s1 -> io_only (set_k_mem m2 s1) s2 -> io_only (set_k_mem m2 s) s2.
Proof. intros O1 O2. etrans; [|exact O2]. apply (io_only_mem m2) in O1. by destruct s. Qed.

Lemma sink_nil s dst m' : sink s dst [] m' -> m' = k_mem s.
Proof. intros H. remember [] as l. destruct H as [|pa bs|va bs AS m' U Hv Hl Hr]; subst; [done|apply store_nil|by injection Hr]. Qed.

(** [readi] inside the file. *)
Lemma readi_spec L bl d c sb ip x s dst off n m' :
  at_file (dev := dev) (p := p) L bl d c sb ip x s -> room L 0 bl ->
  mapped c (i_addrs x) (i_size x) -> 0 <= i_size x <= MAXFILE * BSIZE ->
  0 <= off <= i_size x -> 0 <= n -> off + n < 2 ^ 32 ->
  let k := Z.min n (i_size x - off) in
  sink s dst (fread c (i_addrs x) off (Z.to_nat k)) m' ->
  wp (readi ip dst off n) (fun r s' => r = (k, fread c (i_addrs x) off (Z.to_nat k)) /\
    at_file (dev := dev) (p := p) L bl d c sb ip x s' /\ io_only (set_k_mem m' s) s') s.
Proof.
  intros H Hr Hmap Hsz Ho Hn Hon k Hsink. unfold readi, get_inode. wp_step. wp_step.
  rewrite (at_file_x _ _ _ _ _ _ _ _ H). change (MAXFILE * BSIZE) with 274432 in *.
  rewrite (u32_small (off + n)), (u32_small (i_size x - off)) by lia.
  destruct (Z.gtb_spec off (i_size x)) as [?|_]; [lia|]. destruct (Z.ltb_spec (off + n) off) as [?|_]; [lia|]. cbn [orb]. cbv zeta.
  replace (if off + n >? i_size x then i_size x - off else n) with k
    by (unfold k; destruct (Z.gtb_spec (off + n) (i_size x)); lia).
  assert (0 <= k <= n /\ off + k <= i_size x) as [Hk Hks] by (unfold k; lia). clearbody k.
  apply (wp_loop_idx _ (fun j '(tot, o, dst', acc) s' => j = k - tot /\ 0 <= tot <= k /\ o = off + tot /\
    acc = fread c (i_addrs x) off (Z.to_nat tot) /\ at_file (dev := dev) (p := p) L bl d c sb ip x s' /\
    (exists mt, io_only (set_k_mem mt s) s') /\
    sink s' dst' (fread c (i_addrs x) o (Z.to_nat (k - tot))) m') _ k); [| |lia].
  2:{ split_and!; try done; try lia; [|by rewrite Z.sub_0_r].
      exists (k_mem s). by destruct s. }
  intros j [[[tot o] dst'] acc] s1 (-> & Htot & -> & -> & H1 & (mt & O1) & Hs1).
  destruct (Z.ltb_spec tot k) as [Hlt|Hge]; cbn [negb].
  2:{ assert (tot = k) as -> by lia. wp_step. rewrite Z.sub_diag in Hs1. apply sink_nil in Hs1 as ->.
      rewrite i32_small by lia. split_and!; [done|done|]. 
      replace (k_mem s1) with mt; [done|]. destruct O1 as [-> _]. done. }
  set (o := off + tot) in *. set (m := Z.min (k - tot) (BSIZE - o mod BSIZE)).
  pose proof (Z.mod_pos_bound o BSIZE ltac:(done)) as Hmb. pose proof (Z.div_mod o BSIZE ltac:(done)) as Hdm.
  assert (0 < m <= k - tot) as Hm by lia.
  apply (readi_step L bl d c sb ip x s1 dst' o m m' (fread c (i_addrs x) o (Z.to_nat m))
    (fread c (i_addrs x) (o + m) (Z.to_nat (k - (tot + m))))
    (fun r bytes => if r =? -1 then ret (inr (-1, fread c (i_addrs x) off (Z.to_nat tot))) else
       ret (inl (tot + m, u32 (o + m), dst_add dst' m, fread c (i_addrs x) off (Z.to_nat tot) ++ bytes))));
    try done; try (change (MAXFILE * BSIZE) with 274432; lia).
  - apply Hmap; [apply Z.div_pos; lia|unfold BSIZE in *; lia].
  - replace (o + m) with (o + Z.of_nat (Z.to_nat m)) by lia. rewrite <- fread_app.
    by replace (Z.to_nat m + Z.to_nat (k - (tot + m)))%nat with (Z.to_nat (k - tot)) by lia.
  - intros s2 m1 H2 O2 Hs2. cbn [Z.eqb]. wp_step. exists (k - (tot + m)). split; [lia|].
    rewrite u32_small by lia. split_and!; try done; try lia.
    + replace (Z.to_nat (tot + m)) with (Z.to_nat tot + Z.to_nat m)%nat by lia. rewrite fread_app.
      by replace (off + Z.of_nat (Z.to_nat tot)) with o by lia.
    + exists m1. by eapply io_mem_trans.
Qed.
End Read.

(** ** Writing *)

Lemma ino_same_user ip s s' : ino_only ip s s' -> same_user s s'.
Proof. intros [-> Hr _ _]. by constructor. Qed.

Section Write.
Context `{Lk : Linker} {LkOk : LinkerOk Lk}.
Context {E : Env} {D : Disk} {RD : ReadsBlocks D}.
Context {dev : Z} {p : nat}.

Lemma set_addrs_twice a b x : set_i_addrs a (set_i_addrs b x) = set_i_addrs a x.
Proof. by destruct x. Qed.

(** The block at [off] is read, changed and logged; [bad] is the exit when the
    source cannot be read. *)
Lemma writei_block {B} L bl d c sb ip x s src off m bs a (bad : nat -> K B) (k : K B) Q :
  at_file (dev := dev) (p := p) L bl d c sb ip x s -> room L 1 bl -> 0 <= off < MAXFILE * BSIZE ->
  0 <= m <= Z.of_nat (length bs) -> off mod BSIZE + m <= BSIZE -> source s src bs -> Forall is_byte bs ->
  amap c (i_addrs x) (off / BSIZE) = a -> a <> 0 ->
  (forall s' bl' c', at_file (dev := dev) (p := p) L bl' d c' sb ip x s' ->
     fs_only s s' -> longer 1 bl bl' -> written sb off (take (Z.to_nat m) bs) c (i_addrs x) c' (i_addrs x) ->
     wpc k Q no_blocks s') ->
  wpc (bp <- bread dev a ;;
       let* (r, bytes) := either_copyin src m in
       upd_data bp (fun d => splice d (Z.to_nat (off mod BSIZE)) bytes) ;;
       if r =? -1 then bad bp else
       log_write bp ;;
       brelse bp ;;
       k) Q no_blocks s.
Proof.
  intros [T Hsb F Hx Hd FI] Hr Ho Hm Hfit Hsrc Hby Ea Ha Hk. pose proof (fo_layout _ _ F) as Ly.
  assert (0 <= off / BSIZE < MAXFILE) as Hbn.
  { unfold BSIZE in *. split; [apply Z.div_pos; lia|]. apply Z.div_lt_upper_bound; lia. }
  pose proof (Z.mod_pos_bound off BSIZE ltac:(done)) as Hmb. pose proof (lay_size _ Ly) as Hsz.
  destruct (fi_map _ _ _ FI _ Hbn) as (Hdat & _ & _); [by rewrite Ea|]. rewrite Ea in Hdat.
  pose proof (data_range _ _ Ly Hdat) as Hdr.
  apply wpc_bind. eapply wpc_mono; [apply wpc_wp, (bread_txn (p := p) bl ∅ d c s a); [apply T|done|]| |done].
  { eapply room_buf; [done|rewrite dom_none; lia|lia]. }
  intros bp s2 [H2 O2]. apply wpc_bind, wpc_wp. eapply wp_eq.
  { apply (source_copyin _ _ bs); [|lia|unfold BSIZE in *; lia]. apply (source_frame s); [|done]. by apply io_same_user. }
  cbv iota beta. set (bytes := take (Z.to_nat m) bs) in *. apply wpc_bind.
  eapply wpc_mono; [apply wpc_wp, (upd_data_txn (dev := dev) (p := p) bl (<[a := bp]> ∅) d c s2 a bp); [exact H2|apply lookup_insert_eq]| |done].
  intros [] s3 [H3 O3]. cbn [Z.eqb]. apply wpc_bind.
  set (c3 := <[a := splice (c a) (Z.to_nat (off mod BSIZE)) bytes]> c) in *.
  assert (ftxn (dev := dev) (p := p) L bl (<[a := bp]> ∅) d c3 s3) as T3.
  { constructor; [exact H3|]. rewrite (io_only_log _ _ O3), (io_only_log _ _ O2). apply T. }
  eapply wpc_mono; [apply wpc_wp, (log_write_txn (dev := dev) (p := p) bl (<[a := bp]> ∅) d c3 s3 a bp); [apply T3|apply lookup_insert_eq|lia|]| |done].
  { by eapply ftxn_room. }
  intros [] s4 (H4 & O4 & _ & Hs4). apply wpc_bind.
  eapply wpc_mono; [apply wpc_wp, (brelse_txn (dev := dev) (p := p) (add_block a bl) (<[a := bp]> ∅) d c3 s4 a bp); [exact H4|apply lookup_insert_eq|]| |done].
  { intros Hn. exfalso. apply Hn, elem_add. }
  intros [] s5 [H5 O5]. rewrite delete_insert_id in H5 by done.
  assert (fs_only s s5) as O.
  { etrans; [apply io_fs, O2|]. etrans; [apply io_fs, O3|]. etrans; [apply O4|]. by apply io_fs. }
  assert (written sb off bytes c (i_addrs x) c3 (i_addrs x)) as W.
  { unfold c3. rewrite <- Ea. apply written_block; try done; [by apply Forall_take| |by rewrite Ea].
    unfold bytes. rewrite length_take. lia. }
  apply (Hk s5 (add_block a bl) c3); [|done|apply longer_add|done].
  constructor; [|by rewrite (fs_only_sb _ _ O)|apply W|by rewrite (fs_only_itable _ _ O)|done|apply W].
  constructor; [exact H5|]. rewrite (io_only_log _ _ O5), Hs4. apply T3.
Qed.

(** One round of the loop of [writei], and what follows it. *)
Lemma writei_step {B} L bl d c sb ip x s src off m bs (bad : nat -> K B) (k : K B) Q :
  at_file (dev := dev) (p := p) L bl d c sb ip x s -> room L 6 bl -> 0 <= off < MAXFILE * BSIZE ->
  0 <= m <= Z.of_nat (length bs) -> off mod BSIZE + m <= BSIZE -> source s src bs -> Forall is_byte bs ->
  (forall s' bl' c' addrs', at_file (dev := dev) (p := p) L bl' d c' sb ip (set_i_addrs addrs' x) s' ->
     ino_only ip s s' -> longer 6 bl bl' -> written sb off (take (Z.to_nat m) bs) c (i_addrs x) c' addrs' ->
     amap c' addrs' (off / BSIZE) <> 0 ->
     source s' (src_add src m) (drop (Z.to_nat m) bs) -> wpc k Q no_blocks s') ->
  wpc (addr <- bmap ip (off / BSIZE) ;;
       x <- get_inode ip ;;
       bp <- bread (i_dev x) addr ;;
       let* (r, bytes) := either_copyin src m in
       upd_data bp (fun d => splice d (Z.to_nat (off mod BSIZE)) bytes) ;;
       if r =? -1 then bad bp else
       log_write bp ;;
       brelse bp ;;
       k) Q no_blocks s.
Proof.
  intros H Hr Ho Hm Hfit Hsrc Hby Hk.
  assert (0 <= off / BSIZE < MAXFILE) as Hbn.
  { unfold BSIZE in *. split; [apply Z.div_pos; lia|]. apply Z.div_lt_upper_bound; lia. }
  apply wpc_bind. eapply wpc_mono; [apply (bmap_grow L bl d c sb ip x s _ H); [eapply room_mono; [done|lia]|done]| |done].
  intros a s1 (bl1 & c1 & addrs1 & H1 & O1 & Hl1 & G1 & Ea & Ha). unfold get_inode. apply wpc_bind, wpc_wp, wp_gets.
  rewrite (at_file_x _ _ _ _ _ _ _ _ H1), (af_dev _ _ _ _ _ _ _ _ H1).
  apply (writei_block L bl1 d c1 sb ip _ s1 src off m bs a bad k Q H1); try done.
  { eapply room_mono; [by eapply room_longer|lia]. }
  { apply (source_frame s); [by apply (ino_same_user ip)|done]. }
  simpl. intros s2 bl2 c2 H2 O2 Hl2 W2. assert (ino_only ip s s2) as O. { etrans; [exact O1|]. by apply fs_ino. }
  apply (Hk s2 bl2 c2 addrs1); try done.
  - by apply (longer_trans 5 1 _ bl1).
  - by eapply written_grown.
  - rewrite (wr_map _ _ _ _ _ _ _ W2) by (rewrite ?Ea; done). by rewrite Ea.
  - apply (source_frame s); [by apply (ino_same_user ip)|]. by apply source_add.
Qed.

(** Rounds of the loop from offset [o] to [e]. *)
Definition rounds (o e : Z) : Z := (e + BSIZE - 1) / BSIZE - o / BSIZE.

Lemma rounds_nonneg o e : 0 <= o <= e -> 0 <= rounds o e.
Proof.
  intros H. unfold rounds, BSIZE. assert (o / 1024 <= (e + 1024 - 1) / 1024) by (apply Z.div_le_mono; lia). lia.
Qed.

Lemma rounds_pos o e : 0 <= o < e -> 1 <= rounds o e.
Proof.
  intros H. unfold rounds, BSIZE. assert (o / 1024 + 1 <= (e + 1024 - 1) / 1024); [|lia].
  replace (o / 1024 + 1) with ((o + 1 * 1024) / 1024) by (apply Z.div_add; lia). apply Z.div_le_mono; lia.
Qed.

Lemma rounds_step o e : 0 <= o < e ->
  let m := Z.min (e - o) (BSIZE - o mod BSIZE) in
  0 < m /\ o mod BSIZE + m <= BSIZE /\ (o + m < e -> rounds (o + m) e = rounds o e - 1).
Proof.
  intros Ho m. pose proof (Z.mod_pos_bound o BSIZE ltac:(done)) as Hm. pose proof (Z.div_mod o BSIZE ltac:(done)) as Hd.
  unfold m. split_and!; [lia|lia|]. intros Hlt. replace (Z.min _ _) with (BSIZE - o mod BSIZE) by lia.
  unfold rounds. unfold BSIZE in *.
  assert ((o + (1024 - o mod 1024)) / 1024 = o / 1024 + 1) as ->; [|lia].
  symmetry. apply (Z.div_unique _ _ _ 0); lia.
Qed.

Lemma mapped_write c addrs c' addrs' o m :
  0 <= o -> o + m <= MAXFILE * BSIZE ->
  (forall bn, 0 <= bn < MAXFILE -> amap c addrs bn <> 0 -> amap c' addrs' bn = amap c addrs bn) ->
  mapped c addrs o -> o mod BSIZE + m <= BSIZE -> amap c' addrs' (o / BSIZE) <> 0 -> mapped c' addrs' (o + m).
Proof.
  intros Ho Hmax Hk Hm Hfit Ha bn Hbn Hlt. unfold BSIZE in *. pose proof (Z.div_mod o 1024 ltac:(lia)).
  pose proof (Z.mod_pos_bound o 1024 ltac:(lia)). destruct (decide (bn * 1024 < o)).
  - rewrite Hk; [by apply Hm|lia|by apply Hm].
  - by replace bn with (o / 1024) by lia.
Qed.

Lemma mapped_keep c addrs c' addrs' size : size <= MAXFILE * BSIZE ->
  (forall bn, 0 <= bn < MAXFILE -> amap c addrs bn <> 0 -> amap c' addrs' bn = amap c addrs bn) ->
  mapped c addrs size -> mapped c' addrs' size.
Proof.
  intros Hs Hk Hm bn Hbn Hlt. unfold BSIZE in *. rewrite Hk; [by apply Hm|lia|by apply Hm].
Qed.

Lemma writei_loop L bl d c sb ip x s src off n bs :
  at_file (dev := dev) (p := p) L bl d c sb ip x s -> room L (6 * rounds off (off + n)) bl ->
  mapped c (i_addrs x) off -> 0 <= off -> 0 <= n -> off + n <= MAXFILE * BSIZE ->
  Z.of_nat (length bs) = n -> source s src bs -> Forall is_byte bs ->
  wpc (loop (fun '(tot, off, src) =>
    if negb (tot <? n) then ret (inr (tot, off)) else
    addr <- bmap ip (off / BSIZE) ;;
    x <- get_inode ip ;;
    bp <- bread (i_dev x) addr ;;
    let m := Z.min (n - tot) (BSIZE - off mod BSIZE) in
    let* (r, bytes) := either_copyin src m in
    upd_data bp (fun d => splice d (Z.to_nat (off mod BSIZE)) bytes) ;;
    if r =? -1 then brelse bp ;; ret (inr (tot, off)) else
    log_write bp ;;
    brelse bp ;;
    ret (inl (tot + m, u32 (off + m), src_add src m))) (0, off, src))
   (fun r s' => r = (n, off + n) /\ exists bl' c' addrs',
      at_file (dev := dev) (p := p) L bl' d c' sb ip (set_i_addrs addrs' x) s' /\ ino_only ip s s' /\
      longer (6 * rounds off (off + n)) bl bl' /\ written sb off bs c (i_addrs x) c' addrs' /\
      mapped c' addrs' (off + n)) no_blocks s.
Proof.
  intros H Hr Hmap Ho Hn Hmax Hlen Hsrc Hby. set (e := off + n) in *.
  apply (wpc_loop _ (fun j '(tot, o, src') s' => j = n - tot /\ 0 <= tot <= n /\ o = off + tot /\
    exists bl' c' addrs', at_file (dev := dev) (p := p) L bl' d c' sb ip (set_i_addrs addrs' x) s' /\
      ino_only ip s s' /\ longer (6 * (rounds off e - (if decide (o < e) then rounds o e else 0))) bl bl' /\
      written sb off (take (Z.to_nat tot) bs) c (i_addrs x) c' addrs' /\ mapped c' addrs' o /\
      source s' src' (drop (Z.to_nat tot) bs)) _ _ n); [| |change (MAXFILE * BSIZE) with 274432 in Hmax; lia].
  2:{ split_and!; try lia. exists bl, c, (i_addrs x). rewrite set_addrs_id. simpl.
      split_and!; try done; [|apply written_nil, written_nil_refl; apply H].
      apply longer_refl. pose proof (rounds_nonneg off e). case_decide; lia. }
  intros j [[tot o] src'] s1 (-> & Htot & -> & bl1 & c1 & addrs1 & H1 & O1 & Hl1 & W1 & M1 & S1).
  destruct (Z.ltb_spec tot n) as [Hlt|Hge]; cbn [negb].
  2:{ assert (tot = n) as -> by lia. apply wpc_wp, wp_ret. split; [done|]. exists bl1, c1, addrs1.
      rewrite firstn_all2 in W1 by lia. fold e in Hl1, M1. rewrite decide_False, Z.sub_0_r in Hl1 by lia. done. }
  set (o := off + tot) in *. rewrite decide_True in Hl1 by lia.
  destruct (rounds_step o e ltac:(lia)) as (Hm & Hfit & Hrd). pose proof (rounds_pos o e ltac:(lia)) as Hpos.
  replace (e - o) with (n - tot) in * by lia. set (m := Z.min (n - tot) (BSIZE - o mod BSIZE)) in *.
  apply (writei_step L bl1 d c1 sb ip (set_i_addrs addrs1 x) s1 src' o m (drop (Z.to_nat tot) bs)); try done.
  { eapply room_mono; [by eapply room_longer|]. lia. }
  { change (MAXFILE * BSIZE) with 274432 in *. lia. }
  { rewrite length_drop. lia. }
  { by apply Forall_drop. }
  simpl. intros s2 bl2 c2 addrs2 H2 O2 Hl2 W2 Ha2 S2. rewrite set_addrs_twice in H2.
  apply wpc_wp, wp_ret. exists (n - (tot + m)). split; [lia|].
  change (MAXFILE * BSIZE) with 274432 in *. rewrite u32_small by lia.
  split_and!; [done|lia|lia|lia|]. exists bl2, c2, addrs2. split_and!; [done|by etrans| | | |].
  - eapply longer_mono; [by eapply longer_trans|]. case_decide; [|lia]. rewrite Hrd by done. lia.
  - replace (Z.to_nat (tot + m)) with (Z.to_nat tot + Z.to_nat m)%nat by lia. rewrite <- take_take_drop.
    eapply written_trans; [exact W1|]. rewrite length_take.
    by replace (off + Z.of_nat (Z.to_nat tot `min` length bs)) with o by lia.
  - apply (mapped_write c1 addrs1); try done; [lia|change (MAXFILE * BSIZE) with 274432; lia|]. apply W2.
  - rewrite drop_drop in S2. by replace (Z.to_nat (tot + m)) with (Z.to_nat tot + Z.to_nat m)%nat by lia.
Qed.

(** ** The inode on disk *)

(** The inode has a place in the inode blocks. *)
Definition inode_place (sb : superblock) (inum : Z) : Prop := 0 <= inum /\ 0 <= IBLOCK inum sb < sb_bmapstart sb.

Lemma dinode_off_bound inum : (dinode_off inum + 64 <= 1024)%nat.
Proof.
  unfold dinode_off. change IPB with 16. change sizeof_dinode with 64.
  pose proof (Z.mod_pos_bound inum 16 ltac:(lia)). lia.
Qed.

Lemma enc_dinode_bytes d off di : Forall is_byte d -> Forall is_byte (enc_dinode d off di).
Proof.
  intros Hd. unfold enc_dinode, enc_addrs. apply Forall_splice; [by repeat apply put_le_is_byte|].
  apply Forall_concat, Forall_fmap, Forall_true. intros z. apply le_bytes_is_byte.
Qed.

Lemma enc_dinode_block d inum di : block_ok d -> dinode_ok di -> block_ok (enc_dinode d (dinode_off inum) di).
Proof.
  intros [Hl Hb] Hk. pose proof (dinode_off_bound inum). split; [|by apply enc_dinode_bytes].
  rewrite enc_dinode_length; [done| |done]. rewrite Hl. change (Z.to_nat BSIZE) with 1024%nat. lia.
Qed.

Lemma addrs_range sb c addrs : layout sb -> file_ok sb c addrs -> Forall (fun a => 0 <= a < 2 ^ 32) addrs.
Proof.
  intros Ly FI. apply Forall_lookup. intros k a Hk. pose proof (lookup_lt_Some _ _ _ Hk) as Hlt. rewrite (fi_len _ _ _ FI) in Hlt.
  pose proof (lay_size _ Ly). destruct (decide (a = 0)) as [->|Ha]; [lia|].
  assert (data sb a) as Hd; [|pose proof (data_range _ _ Ly Hd); lia].
  apply list_lookup_total_correct in Hk. destruct (decide (k = 12)%nat) as [->|].
  - rewrite <- Hk in *. by apply (fi_ind _ _ _ FI).
  - pose proof (amap_direct c addrs (Z.of_nat k)) as Ea. rewrite Nat2Z.id, Hk in Ea.
    rewrite <- Ea in * by (unfold NDIRECT; lia). apply (fi_map _ _ _ FI); [|done]. unfold MAXFILE, NDIRECT. change NINDIRECT with 256. lia.
Qed.

(** A block before the bitmap is not part of the file. *)
Section Meta.
Context (sb : superblock) (c : Z -> list Z) (addrs : list Z) (b : Z) (v : list Z).
Context (F : fs_ok sb c) (FI : file_ok sb c addrs) (Hb : 0 <= b < sb_bmapstart sb).

Lemma meta_not_data a : data sb a -> a <> b.
Proof.
  intros [Hd _] ->. unfold dstart in Hd. pose proof (fo_layout _ _ F) as Ly.
  assert (0 <= sb_size sb / BPB) by (apply Z.div_pos; [apply (lay_size _ Ly)|done]). lia.
Qed.

Lemma meta_amap bn : amap (<[b := v]> c) addrs bn = amap c addrs bn.
Proof.
  apply amap_ext. intros Hi. apply fn_lookup_insert_ne, not_eq_sym, meta_not_data. by apply (fi_ind _ _ _ FI).
Qed.

Lemma meta_file_ok : file_ok sb (<[b := v]> c) addrs.
Proof.
  pose proof (fo_layout _ _ F) as Ly. apply (file_ok_update sb c addrs _ _ 0); try done; [apply FI| |by left|].
  - intros a Ha Hu. by rewrite used_plain by (done || by left).
  - intros k Hk. left. apply meta_amap.
Qed.

Lemma meta_fbyte o : 0 <= o < MAXFILE * BSIZE -> fbyte (<[b := v]> c) addrs o = fbyte c addrs o.
Proof.
  intros Ho. unfold fbyte. rewrite meta_amap. destruct (Z.eqb_spec (amap c addrs (o / BSIZE)) 0) as [|Ha]; [done|].
  rewrite fn_lookup_insert_ne; [done|]. apply not_eq_sym, meta_not_data. apply (fi_map _ _ _ FI); [|done].
  unfold BSIZE in *. split; [apply Z.div_pos; lia|]. apply Z.div_lt_upper_bound; lia.
Qed.
End Meta.

Lemma iupdate_spec L bl d c sb ip x s :
  at_file (dev := dev) (p := p) L bl d c sb ip x s -> inode_place sb (i_inum x) -> room L 1 bl ->
  dinode_ok (inode_dinode x) ->
  wp (iupdate ip) (fun _ s' => exists bl',
    at_file (dev := dev) (p := p) L bl' d (<[IBLOCK (i_inum x) sb := enc_dinode (c (IBLOCK (i_inum x) sb)) (dinode_off (i_inum x)) (inode_dinode x)]> c)
      sb ip x s' /\ fs_only s s' /\ longer 1 bl bl') s.
Proof.
  intros H [Hin Hib] Hr Hdi. pose proof H as [T Hsb F Hx Hd FI]. unfold iupdate, get_inode. wp_step. wp_step. wp_step. wp_step.
  rewrite (at_file_x _ _ _ _ _ _ _ _ H), Hsb, Hd. set (b := IBLOCK (i_inum x) sb) in *.
  pose proof (fo_layout _ _ F) as Ly. pose proof (lay_size _ Ly) as Hsz. pose proof (plain_range _ _ Ly (or_introl Hib)) as Hpr.
  wp_step. eapply wp_mono; [apply (bread_txn (p := p) bl ∅ d c s b); [apply T|done|]|].
  { eapply room_buf; [done|rewrite dom_none; lia|lia]. }
  intros bp s2 [H2 O2]. wp_step. wp_step. rewrite (fs_only_itable _ _ (io_fs _ _ O2)), (at_file_x _ _ _ _ _ _ _ _ H).
  wp_step. eapply wp_mono; [apply (upd_data_txn (dev := dev) (p := p) bl (<[b := bp]> ∅) d c s2 b bp); [exact H2|apply lookup_insert_eq]|].
  intros [] s3 [H3 O3]. set (c3 := <[b := _]> c) in *.
  assert (ftxn (dev := dev) (p := p) L bl (<[b := bp]> ∅) d c3 s3) as T3.
  { constructor; [exact H3|]. rewrite (io_only_log _ _ O3), (io_only_log _ _ O2). apply T. }
  wp_step. eapply wp_mono; [apply (log_write_txn (dev := dev) (p := p) bl (<[b := bp]> ∅) d c3 s3 b bp); [apply T3|apply lookup_insert_eq|lia|by eapply ftxn_room]|].
  intros [] s4 (H4 & O4 & _ & Hs4).
  eapply wp_mono; [apply (brelse_txn (dev := dev) (p := p) (add_block b bl) (<[b := bp]> ∅) d c3 s4 b bp); [exact H4|apply lookup_insert_eq|]|].
  { intros Hn. exfalso. apply Hn, elem_add. }
  intros [] s5 [H5 O5]. rewrite delete_insert_id in H5 by done.
  assert (fs_only s s5) as O.
  { etrans; [apply io_fs, O2|]. etrans; [apply io_fs, O3|]. etrans; [apply O4|]. by apply io_fs. }
  exists (add_block b bl). split_and!; [|done|apply longer_add].
  constructor; [|by rewrite (fs_only_sb _ _ O)| |by rewrite (fs_only_itable _ _ O)|done|by apply meta_file_ok].
  - constructor; [exact H5|]. rewrite (io_only_log _ _ O5), Hs4. apply T3.
  - apply fs_ok_insert; [done|by left|]. apply enc_dinode_block; [by apply F|done].
Qed.

(** ** The two operations *)

(** The file of inode [x] and the disk [c], after [bs] was written at [off]. *)
Record wrote_file (sb : superblock) (off : Z) (bs : list Z) (c : Z -> list Z) (x : inode) (c' : Z -> list Z) (x' : inode) : Prop := {
  wf_size : i_size x' = Z.max (i_size x) (off + Z.of_nat (length bs));
  wf_rest : x' = set_i_size (i_size x') (set_i_addrs (i_addrs x') x);
  wf_mapped : mapped c' (i_addrs x') (i_size x');
  wf_bytes : forall o, 0 <= o < MAXFILE * BSIZE -> fbyte c' (i_addrs x') o = over off bs (fbyte c (i_addrs x)) o;
  wf_disk : dec_dinode (c' (IBLOCK (i_inum x) sb)) (dinode_off (i_inum x)) = inode_dinode x';
  wf_used : forall b, 0 <= b < sb_size sb -> used sb c b = true -> used sb c' b = true;
  wf_keep : forall b, plain_block sb b -> used sb c b = true -> ~ owns c (i_addrs x) b -> b <> IBLOCK (i_inum x) sb -> c' b = c b;
}.

Lemma at_file_size L bl d c sb ip x s n :
  at_file (dev := dev) (p := p) L bl d c sb ip x s ->
  at_file (dev := dev) (p := p) L bl d c sb ip (set_i_size n x) (set_k_itable (alter (set_i_size n) ip (k_itable s)) s).
Proof.
  intros [T Hsb F Hx Hd FI]. constructor; try done; [by apply ftxn_itable|]. simpl. by rewrite list_lookup_alter_eq, Hx.
Qed.

(** The end of [writei]: the size and the inode block. *)
Lemma writei_finish L bl d c c1 sb ip x addrs1 s off bs :
  at_file (dev := dev) (p := p) L bl d c1 sb ip (set_i_addrs addrs1 x) s ->
  inode_place sb (i_inum x) -> dinode_ok (inode_dinode x) -> room L 1 bl ->
  written sb off bs c (i_addrs x) c1 addrs1 -> mapped c1 addrs1 (Z.max (i_size x) (off + Z.of_nat (length bs))) ->
  0 <= off -> off + Z.of_nat (length bs) <= MAXFILE * BSIZE ->
  wp (x <- get_inode ip ;;
      when (off + Z.of_nat (length bs) >? i_size x) (upd_inode ip (set_i_size (off + Z.of_nat (length bs)))) ;;
      iupdate ip ;;
      ret (i32 (Z.of_nat (length bs))))
   (fun r s' => r = Z.of_nat (length bs) /\ ino_only ip s s' /\ exists bl' c' x', longer 1 bl bl' /\
      at_file (dev := dev) (p := p) L bl' d c' sb ip x' s' /\ wrote_file sb off bs c x c' x') s.
Proof.
  intros H Hpl Hdi Hr W Hmap Ho Hmax. set (n := Z.of_nat (length bs)) in *. change (MAXFILE * BSIZE) with 274432 in Hmax.
  unfold get_inode. wp_step. wp_step. rewrite (at_file_x _ _ _ _ _ _ _ _ H). simpl i_size.
  set (sz := Z.max (i_size x) (off + n)) in *. set (x' := set_i_size sz (set_i_addrs addrs1 x)).
  wp_step. eapply (wp_mono _ (fun _ s1 => at_file (dev := dev) (p := p) L bl d c1 sb ip x' s1 /\ ino_only ip s s1)).
  { unfold when. destruct (Z.gtb_spec (off + n) (i_size x)) as [Hgt|Hle].
    - unfold upd_inode. apply wp_modify. split; [|apply upd_ino].
      unfold x'. replace sz with (off + n) by lia. by apply at_file_size.
    - apply wp_ret. split; [|done]. unfold x', sz. rewrite Z.max_l by lia. by destruct x. }
  intros [] s1 [H1 O1]. pose proof (af_fs _ _ _ _ _ _ _ _ H1) as F1. pose proof (af_file _ _ _ _ _ _ _ _ H1) as FI1. simpl in FI1.
  assert (dinode_ok (inode_dinode x')) as Hdi'.
  { destruct Hdi as [? ? ? ? Hs ? ?]. simpl in Hs. constructor; try done; simpl; [lia|apply FI1|].
    eapply addrs_range; [apply F1|exact FI1]. }
  wp_step. eapply wp_mono; [apply (iupdate_spec L bl d c1 sb ip x' s1 H1 Hpl Hr Hdi')|].
  intros [] s2 (bl2 & H2 & O2 & Hl2). wp_step. destruct Hpl as [Hin Hib].
  split; [apply i32_small; lia|]. split; [etrans; [done|by apply fs_ino]|].
  eexists bl2, _, x'. split_and!; [done|exact H2|]. change (i_inum x') with (i_inum x) in *. set (b := IBLOCK (i_inum x) sb) in *.
  assert (block_ok (c1 b)) as [Hbl _].
  { apply F1. by apply (plain_range sb b (fo_layout _ _ F1) (or_introl Hib)). }
  constructor; try done; change (i_addrs x') with addrs1.
  - intros bn Hbn Hlt. rewrite (meta_amap sb c1 addrs1 b _ F1 FI1 Hib). by apply Hmap.
  - intros o Hoo. rewrite (meta_fbyte sb c1 addrs1 b _ F1 FI1 Hib) by done. by apply (wr_byte _ _ _ _ _ _ _ W).
  - rewrite fn_lookup_insert. apply dec_enc; [|done]. rewrite Hbl. apply dinode_off_bound.
  - intros b' Hb' Hu. rewrite used_plain; [by apply (wr_used _ _ _ _ _ _ _ W)|apply F1|by left|done].
  - intros b' Hp Hu Hno Hne. rewrite fn_lookup_insert_ne by done. by apply (wr_keep _ _ _ _ _ _ _ W).
Qed.

Lemma writei_spec L bl d c sb ip x s src off n bs :
  at_file (dev := dev) (p := p) L bl d c sb ip x s ->
  mapped c (i_addrs x) (i_size x) -> 0 <= i_size x <= MAXFILE * BSIZE -> 0 <= off <= i_size x -> 0 <= n ->
  off + n <= MAXFILE * BSIZE -> Z.of_nat (length bs) = n -> source s src bs -> Forall is_byte bs ->
  inode_place sb (i_inum x) -> dinode_ok (inode_dinode x) -> room L (6 * rounds off (off + n) + 1) bl ->
  wpc (writei ip src off n)
    (fun r s' => r = n /\ ino_only ip s s' /\ exists bl' c' x', longer (6 * rounds off (off + n) + 1) bl bl' /\
       at_file (dev := dev) (p := p) L bl' d c' sb ip x' s' /\ wrote_file sb off bs c x c' x') no_blocks s.
Proof.
  intros H Hmap Hsz Ho Hn Hmax Hlen Hsrc Hby Hpl Hdi Hr. change (MAXFILE * BSIZE) with 274432 in *.
  unfold writei, get_inode. apply wpc_bind, wpc_wp, wp_gets.
  rewrite (at_file_x _ _ _ _ _ _ _ _ H), (u32_small (off + n)) by lia.
  destruct (Z.gtb_spec off (i_size x)) as [?|_]; [lia|]. destruct (Z.ltb_spec (off + n) off) as [?|_]; [lia|]. cbn [orb].
  change (MAXFILE * BSIZE) with 274432. destruct (Z.gtb_spec (off + n) 274432) as [?|_]; [lia|].
  pose proof (rounds_nonneg off (off + n) ltac:(lia)) as Hrn.
  apply wpc_bind. eapply wpc_mono; [apply (writei_loop L bl d c sb ip x s src off n bs H); try done; try lia| |done].
  { eapply room_mono; [done|lia]. }
  { intros bn Hbn Hlt. apply Hmap; lia. }
  intros r s1 (-> & bl1 & c1 & addrs1 & H1 & O1 & Hl1 & W1 & M1). cbv iota beta. subst n.
  apply wpc_wp. eapply wp_mono; [apply (writei_finish L bl1 d c c1 sb ip x addrs1 s1 off bs); try done; try lia|].
  { eapply room_mono; [by eapply room_longer|lia]. }
  { destruct (Z.max_spec (i_size x) (off + Z.of_nat (length bs))) as [[_ ->]|[_ ->]]; [done|].
    apply (mapped_keep c (i_addrs x)); [apply Hsz|apply W1|done]. }
  intros r s2 (-> & O2 & bl2 & c2 & x2 & Hl2 & H2 & W2). split; [done|]. split; [by etrans|].
  exists bl2, c2, x2. split_and!; [by eapply longer_trans|done|done].
Qed.

(** C4: [writei] lays its bytes over the file.  Inside a transaction with room
    for the blocks, a write at [off], not beyond the end, of bytes that can be
    read from kernel or user memory, returns their number; the file then has
    the bytes at [off], every other byte as before, a size that covers both and
    all its blocks; the inode block on disk agrees with the inode; and no other
    block in use changes.  The only other outcome is the panic of [balloc] on a
    full disk.  A write that starts beyond the end, would exceed the largest
    file or wraps around 2^32 is refused with -1 and no effect. *)
Theorem writei_correct L bl d c sb ip x s src off n bs :
  at_file (dev := dev) (p := p) L bl d c sb ip x s ->
  mapped c (i_addrs x) (i_size x) -> 0 <= i_size x <= MAXFILE * BSIZE -> 0 <= off < 2 ^ 32 -> 0 <= n < 2 ^ 32 ->
  (off <= i_size x -> off + n <= MAXFILE * BSIZE -> Z.of_nat (length bs) = n -> source s src bs -> Forall is_byte bs ->
   inode_place sb (i_inum x) -> dinode_ok (inode_dinode x) -> room L (6 * rounds off (off + n) + 1) bl ->
   wpc (writei ip src off n)
     (fun r s' => r = n /\ ino_only ip s s' /\ exists bl' c' x', longer (6 * rounds off (off + n) + 1) bl bl' /\
        at_file (dev := dev) (p := p) L bl' d c' sb ip x' s' /\ wrote_file sb off bs c x c' x') no_blocks s) /\
  (i_size x < off \/ MAXFILE * BSIZE < off + n -> writei ip src off n s = Ok (-1) s).
Proof.
  intros H Hmap Hsz Hoff Hn. change (MAXFILE * BSIZE) with 274432 in *. split.
  - intros. apply writei_spec; done || lia.
  - intros Hbad. unfold writei, get_inode. rewrite bind_gets, (at_file_x _ _ _ _ _ _ _ _ H).
    change (MAXFILE * BSIZE) with 274432. destruct (Z.gtb_spec off (i_size x)) as [?|?]; [done|]. cbn [orb].
    destruct (decide (off + n < 2 ^ 32)).
    + rewrite u32_small by lia. destruct (Z.ltb_spec (off + n) off) as [?|_]; [lia|].
      destruct (Z.gtb_spec (off + n) 274432); [done|lia].
    + assert (u32 (off + n) = off + n - 2 ^ 32) as ->.
      { unfold u32. symmetry. apply (Z.mod_unique _ _ 1); lia. }
      destruct (Z.ltb_spec (off + n - 2 ^ 32) off); [done|lia].
Qed.

(** C11: [readi] returns the bytes of the file.  A read at [off] inside the file
    of [n] bytes gives the bytes from [off] up to [off + n] or the end, stored
    at the destination in user memory, at a kernel address or in a local
    buffer, and returns their number; it changes no file and no block.  A read
    beyond the end, or one that wraps around 2^32, returns 0. *)
Theorem readi_correct L bl d c sb ip x s dst off n :
  at_file (dev := dev) (p := p) L bl d c sb ip x s -> room L 0 bl ->
  mapped c (i_addrs x) (i_size x) -> 0 <= i_size x <= MAXFILE * BSIZE -> 0 <= off < 2 ^ 32 -> 0 <= n < 2 ^ 32 ->
  let bytes := fread c (i_addrs x) off (Z.to_nat (Z.min n (i_size x - off))) in
  (off <= i_size x -> off + n < 2 ^ 32 -> forall m', sink s dst bytes m' ->
   wp (readi ip dst off n) (fun r s' => r = (Z.of_nat (length bytes), bytes) /\
     at_file (dev := dev) (p := p) L bl d c sb ip x s' /\ io_only (set_k_mem m' s) s') s) /\
  (i_size x < off \/ 2 ^ 32 <= off + n -> readi ip dst off n s = Ok (0, []) s).
Proof.
  intros H Hr Hmap Hsz Hoff Hn bytes. change (MAXFILE * BSIZE) with 274432 in *. split.
  - intros Ho Hon m' Hs. unfold bytes. rewrite length_fread, Z2Nat.id by lia.
    apply (readi_spec L bl d c sb ip x s dst off n m'); done || lia.
  - intros Hbad. unfold readi, get_inode. rewrite bind_gets, (at_file_x _ _ _ _ _ _ _ _ H).
    destruct (Z.gtb_spec off (i_size x)) as [?|?]; [done|]. cbn [orb].
    assert (u32 (off + n) = off + n - 2 ^ 32) as ->.
    { unfold u32. symmetry. apply (Z.mod_unique _ _ 1); lia. }
    destruct (Z.ltb_spec (off + n - 2 ^ 32) off); [done|lia].
Qed.
End Write.

Module FilesDemo.
#[local] Instance still : Env := fun _ _ => None.
#[local] Instance perfect : Disk := disk_transfer.
#[local] Instance perfect_reads : ReadsBlocks perfect.
Proof. intros b. reflexivity. Qed.
#[local] Existing Instance kernel_sym.

(** The disk of [BlocksDemo], with inode 2 in the table: five bytes in block 47. *)
Definition x1 : inode :=
  set_i_size 5 (set_i_addrs (47 :: replicate 12 0) (set_i_nlink 1 (set_i_type T_FILE (set_i_valid 1
    (set_i_ref 1 (set_i_inum 2 (set_i_dev 1 inode0))))))).
Definition s2 : kernel := set_k_itable [x1] BlocksDemo.s1.

Lemma layout1 : layout BlocksDemo.sb1.
Proof. by constructor. Qed.

Lemma blocks1 b : 0 <= b < sb_size BlocksDemo.sb1 -> block_ok (BlocksDemo.d1 b).
Proof.
  intros _. unfold BlocksDemo.d1, BlocksDemo.s0. simpl k_disk. unfold disk_block.
  destruct (decide (b = 45)) as [->|Hne].
  - rewrite lookup_insert_eq. simpl. apply (bm_block _ _ _ BlocksDemo.d1_bitmap 0). done.
  - rewrite lookup_insert_ne, lookup_empty by done. apply zeros_ok.
Qed.

Lemma fs1 : fs_ok BlocksDemo.sb1 BlocksDemo.d1.
Proof.
  constructor; [apply layout1|apply blocks1|]. intros b Hb. apply BlocksDemo.d1_used.
  change (dstart BlocksDemo.sb1) with 46 in Hb. lia.
Qed.

Lemma amap1 c bn : 0 <= bn < MAXFILE -> amap c (i_addrs x1) bn = if bn =? 0 then 47 else 0.
Proof.
  intros Hbn. unfold amap. change (ind (i_addrs x1)) with 0. cbn [Z.eqb]. destruct (Z.ltb_spec bn NDIRECT) as [Hlt|Hge].
  - unfold NDIRECT in Hlt. assert (exists k, Z.to_nat bn = k /\ (k < 12)%nat /\ bn = Z.of_nat k) as (k & -> & Hk & ->)
      by (eexists; split_and!; [reflexivity|lia|lia]). do 12 (destruct k as [|k]; [reflexivity|]). lia.
  - unfold NDIRECT in Hge. by destruct (Z.eqb_spec bn 0); [lia|].
Qed.

Lemma file1 : file_ok BlocksDemo.sb1 BlocksDemo.d1 (i_addrs x1).
Proof.
  constructor; [done|done| |].
  - intros bn Hbn H0. rewrite amap1 in * by done. destruct (bn =? 0); [|done]. split_and!; [by split|vm_compute; reflexivity|done].
  - intros bn bn' Hb Hb' H0 Eq. rewrite !amap1 in * by done. destruct (Z.eqb_spec bn 0), (Z.eqb_spec bn' 0); try done. lia.
Qed.

Lemma at_table s : in_txn 1 O [] ∅ BlocksDemo.d1 BlocksDemo.d1 s -> k_sb s = BlocksDemo.sb1 -> l_size (k_log s) = 30 ->
  at_file (dev := 1) (p := O) 30 [] BlocksDemo.d1 BlocksDemo.d1 BlocksDemo.sb1 O x1 (set_k_itable [x1] s).
Proof.
  intros H Hsb Hl. constructor; [|exact Hsb|apply fs1|reflexivity|reflexivity|apply file1].
  apply ftxn_itable. constructor; [exact H|exact Hl].
Qed.

Lemma at1 : at_file (dev := 1) (p := O) 30 [] BlocksDemo.d1 BlocksDemo.d1 BlocksDemo.sb1 O x1 s2.
Proof.
  destruct BlocksDemo.s1_txn as (H & Hsb & Hl). apply at_table; [exact H|exact Hsb|]. rewrite Hl. reflexivity.
Qed.

Lemma mapped1 : mapped BlocksDemo.d1 (i_addrs x1) (i_size x1).
Proof.
  intros bn Hbn Hlt. change (i_size x1) with 5 in Hlt. unfold BSIZE in Hlt. assert (bn = 0) as -> by lia. by rewrite amap1.
Qed.

Lemma writei_correct_witness :
  wpc (writei O (SLocal [104; 105]) 5 2) (fun r s' => r = 2 /\ exists bl c x, at_file (dev := 1) (p := O) 30 bl BlocksDemo.d1 c BlocksDemo.sb1 O x s' /\
    i_size x = 7 /\ fbyte c (i_addrs x) 6 = 105) no_blocks s2.
Proof.
  eapply wpc_mono; [apply (proj1 (writei_correct 30 [] BlocksDemo.d1 BlocksDemo.d1 BlocksDemo.sb1 O x1 s2 (SLocal [104; 105]) 5 2 [104; 105]
    at1 mapped1 ltac:(by split) ltac:(by split) ltac:(by split)))| |done].
  - by change (i_size x1) with 5.
  - done.
  - reflexivity.
  - constructor.
  - repeat constructor; lia.
  - by split.
  - constructor; try (by split). repeat constructor; lia.
  - split; unfold LOGSIZE, MAXOPBLOCKS; change (rounds 5 (5 + 2)) with 1; simpl; lia.
  - intros r s' (-> & _ & bl & c & x & _ & H & W). split; [reflexivity|]. exists bl, c, x. split; [exact H|].
    rewrite (wf_size _ _ _ _ _ _ _ W), (wf_bytes _ _ _ _ _ _ _ W) by (by split). split; reflexivity.
Defined.

Lemma readi_correct_witness :
  wp (readi O DLocal 2 100) (fun r _ => r = (3, [0; 0; 0])) s2 /\ readi O DLocal 6 1 s2 = Ok (0, []) s2.
Proof.
  assert (room 30 0 []) as Hr by (split; unfold LOGSIZE, MAXOPBLOCKS; simpl; lia).
  split.
  - eapply wp_mono; [apply (proj1 (readi_correct 30 [] BlocksDemo.d1 BlocksDemo.d1 BlocksDemo.sb1 O x1 s2 DLocal 2 100
      at1 Hr mapped1 ltac:(by split) ltac:(by split) ltac:(by split))) with (m' := k_mem s2); [done|done|constructor]|].
    intros r s' (-> & _). reflexivity.
  - apply (proj2 (readi_correct 30 [] BlocksDemo.d1 BlocksDemo.d1 BlocksDemo.sb1 O x1 s2 DLocal 6 1
      at1 Hr mapped1 ltac:(by split) ltac:(by split) ltac:(by split))). left. reflexivity.
Defined.
End FilesDemo.
