(* ===== verification/FsInode.v ===== *)
(** * Inodes between memory and disk: kernel/fs.c, iupdate and ilock

    What [iupdate] stores in the block of an inode, byte by byte, and what
    [ilock] reads back. *)

From stdpp Require Import functions.
From S2P Require Import Prelude Bytes Params CString Spinlock State Kalloc Vm PageTable VmProofs UserSpace UvmProofs UserCopy IoCopy Sched SchedProofs Bio Lru BioProofs BlockCache CacheSpec Log LogProofs LogSpace Fs FsPure FsBlocks FileMap FsFiles.

(** ** The bytes of [struct dinode]

    The fields in the order of [kernel/fs.h], little-endian and without padding. *)

Definition struct_dinode (x : inode) : list Z :=
  le_bytes 2 (i_type x) ++ le_bytes 2 (i_major x) ++ le_bytes 2 (i_minor x) ++ le_bytes 2 (i_nlink x) ++
  le_bytes 4 (i_size x) ++ concat (le_bytes 4 <$> i_addrs x).

Lemma struct_length x : length (i_addrs x) = 13%nat -> length (struct_dinode x) = 64%nat.
Proof. intros H. unfold struct_dinode. rewrite !length_app, !length_le_bytes, length_concat_le, H. done. Qed.

Lemma splice_next {A} (l a b : list A) off :
  (off + length a + length b <= length l)%nat ->
  splice (splice l off a) (off + length a) b = splice l off (a ++ b).
Proof.
  intros H. apply list_eq. intros i.
  rewrite !lookup_splice by (rewrite ?length_splice, ?length_app by lia; lia). rewrite length_app.
  repeat case_decide; try lia; try done.
  - rewrite lookup_app_r by lia. f_equal. lia.
  - rewrite lookup_app_l by lia. done.
Qed.

(** The stores of [iupdate] are one store of the whole struct. *)
Lemma enc_struct d off x : (off + 64 <= length d)%nat -> length (i_addrs x) = 13%nat ->
  enc_dinode d off (inode_dinode x) = splice d off (struct_dinode x).
Proof.
  intros Hd Hl. assert (length (concat (le_bytes 4 <$> i_addrs x)) = 52%nat) as L by (by rewrite length_concat_le, Hl).
  unfold enc_dinode, enc_addrs, put_le, struct_dinode. cbn [inode_dinode d_type d_major d_minor d_nlink d_size d_addrs].
  set (a := le_bytes 2 (i_type x)). set (b := le_bytes 2 (i_major x)). set (e := le_bytes 2 (i_minor x)).
  set (f := le_bytes 2 (i_nlink x)). set (g := le_bytes 4 (i_size x)).
  change (splice (splice d off a) (off + 2) b) with (splice (splice d off a) (off + length a) b).
  rewrite splice_next by (simpl; lia).
  change (off + 4)%nat with (off + length (a ++ b))%nat. rewrite splice_next by (simpl; lia).
  change (off + 6)%nat with (off + length ((a ++ b) ++ e))%nat. rewrite splice_next by (simpl; lia).
  change (off + 8)%nat with (off + length (((a ++ b) ++ e) ++ f))%nat. rewrite splice_next by (simpl; lia).
  change (off + 12)%nat with (off + length ((((a ++ b) ++ e) ++ f) ++ g))%nat.
  rewrite splice_next by (rewrite L; simpl; lia). by rewrite <- !app_assoc.
Qed.

Lemma get_le_slice n d off o m : (o + n <= m)%nat -> get_le n d (off + o) = get_le n (slice d off m) o.
Proof.
  intros H. Transparent get_le. unfold get_le. Opaque get_le. by rewrite slice_slice.
Qed.

(** Only the 64 bytes matter to [ilock]. *)
Lemma dec_slice d off : dec_dinode d off = dec_dinode (slice d off 64) 0.
Proof.
  unfold dec_dinode. rewrite <- (Nat.add_0_r off) at 1. rewrite !(get_le_slice _ d off _ 64) by lia. f_equal.
  apply list_fmap_ext. intros i k [-> Hk]%lookup_seq. rewrite <- Nat.add_assoc. apply (get_le_slice 4). lia.
Qed.

Lemma dec_struct d off x : dinode_ok (inode_dinode x) -> slice d off 64 = struct_dinode x ->
  dec_dinode d off = inode_dinode x.
Proof.
  intros Hok E. rewrite dec_slice, E. pose proof (dk_len _ Hok) as Hl. simpl in Hl.
  pose proof (struct_length x Hl) as Hs.
  assert (splice (struct_dinode x) 0 (struct_dinode x) = struct_dinode x) as Eq.
  { unfold splice. by rewrite take_0, drop_ge, app_nil_r by lia. }
  rewrite <- Eq, <- enc_struct by (done || lia). apply dec_enc; [lia|done].
Qed.

Section Inode.
Context {E : Env} {D : Disk} {RD : ReadsBlocks D}.
Context {dev : Z} {p : nat}.

(** Entry [ip] of the table is for [inum] on this device, referenced, not locked
    and not yet read. *)
Record unread (ip : nat) (inum : Z) (y : inode) (s : kernel) : Prop := {
  ur_entry : k_itable s !! ip = Some y;
  ur_dev : i_dev y = dev;
  ur_inum : i_inum y = inum;
  ur_ref : 1 <= i_ref y;
  ur_valid : i_valid y = 0;
  ur_lock : sl_locked (i_lock y) = 0;
}.

(** The part of [ilock] that reads the block. *)
Lemma ilock_load L bl d c sb ip inum x y s :
  ftxn (dev := dev) (p := p) L bl ∅ d c s -> buf_room 1 bl ∅ -> k_itable s !! ip = Some y -> i_inum y = inum ->
  dinode_ok (inode_dinode x) -> i_type x <> 0 ->
  slice (c (IBLOCK inum sb)) (dinode_off inum) 64 = struct_dinode x ->
  wp (bp <- bread dev (IBLOCK inum sb) ;;
      b <- get_buf bp ;;
      upd_inode ip (fun y => load_dinode (dec_dinode (b_data b) (dinode_off (i_inum y))) y) ;;
      brelse bp ;;
      upd_inode ip (set_i_valid 1) ;;
      x <- get_inode ip ;;
      when (i_type x =? 0) (panic "ilock: no type"))
    (fun _ s' => ftxn (dev := dev) (p := p) L bl ∅ d c s' /\ ino_only ip s s' /\
       k_itable s' !! ip = Some (set_i_valid 1 (load_dinode (inode_dinode x) y))) s.
Proof.
  intros T Hr Hy Hi Hok Hty Hsl. set (b := IBLOCK inum sb) in *.
  wp_step. eapply wp_mono; [apply (bread_txn (p := p) bl ∅ d c s b); [apply T|done|done]|].
  intros bp s2 [H2 O2]. unfold get_buf. wp_step. wp_step.
  rewrite (data_txn _ _ _ _ _ _ _ H2 (lookup_insert_eq _ _ _)). unfold upd_inode. wp_step. wp_step.
  set (s3 := set_k_itable _ s2).
  assert (k_itable s3 !! ip = Some (load_dinode (inode_dinode x) y)) as Hy3.
  { unfold s3. simpl. rewrite (fs_only_itable _ _ (io_fs _ _ O2)), list_lookup_alter_eq, Hy. simpl.
    by rewrite Hi, (dec_struct _ _ x Hok Hsl). }
  assert (ftxn (dev := dev) (p := p) L bl (<[b := bp]> ∅) d c s3) as T3.
  { apply ftxn_itable. constructor; [exact H2|]. rewrite (io_only_log _ _ O2). apply T. }
  wp_step. eapply wp_mono; [eapply (brelse_txn _ _ _ _ _ b bp); [apply T3|apply lookup_insert_eq|]|].
  { intros Hn. by eapply txn_clean; [apply T|done|]. }
  intros [] s4 [H4 O4]. rewrite delete_insert_id in H4 by done. unfold get_inode. wp_step. wp_step. wp_step. wp_step.
  set (s5 := set_k_itable _ s4).
  assert (k_itable s5 !! ip = Some (set_i_valid 1 (load_dinode (inode_dinode x) y))) as Hy5
    by (unfold s5; simpl; by rewrite (fs_only_itable _ _ (io_fs _ _ O4)), list_lookup_alter_eq, Hy3).
  rewrite (list_lookup_total_correct _ _ _ Hy5). simpl i_type. rewrite (proj2 (Z.eqb_neq _ _) Hty). unfold when. wp_step.
  split_and!; [| |done].
  - apply ftxn_itable. constructor; [exact H4|]. rewrite (io_only_log _ _ O4). apply T3.
  - etrans; [by apply (io_ino ip), O2|]. etrans; [apply upd_ino|]. etrans; [by apply (io_ino ip), O4|]. apply upd_ino.
Qed.

(** [ilock] reads the inode that the block holds. *)
Lemma ilock_spec L bl d c sb ip inum x y s :
  ftxn (dev := dev) (p := p) L bl ∅ d c s -> buf_room 1 bl ∅ -> k_sb s = sb -> unread ip inum y s ->
  dinode_ok (inode_dinode x) -> i_type x <> 0 ->
  slice (c (IBLOCK inum sb)) (dinode_off inum) 64 = struct_dinode x ->
  wp (ilock (Some ip)) (fun _ s' => ftxn (dev := dev) (p := p) L bl ∅ d c s' /\ ino_only ip s s' /\
    k_itable s' !! ip =
      Some (set_i_valid 1 (load_dinode (inode_dinode x) (set_i_lock (mk_sleeplock 1 (pid_of s p)) y)))) s.
Proof.
  intros T Hr Hsb [Hy Hd Hi Href Hv Hl] Hok Hty Hsl. pose proof (list_lookup_total_correct _ _ _ Hy) as Ey.
  pose proof (ca_cur _ _ _ _ (it_rel _ _ _ _ _ _ _ (ft_txn _ _ _ _ _ _ T))) as Hc.
  pose proof (ca_locks _ _ _ _ (it_rel _ _ _ _ _ _ _ (ft_txn _ _ _ _ _ _ T))) as Hh.
  unfold ilock, get_inode. wp_step. wp_step. rewrite Ey. destruct (Z.ltb_spec (i_ref y) 1) as [?|_]; [lia|].
  apply wp_bind. eapply wp_eq; [apply (acquiresleep_free (SInode ip) p); [rewrite Hh; apply not_elem_of_nil|done|by rewrite <- Ey in Hl]|].
  set (s1 := upd_sl _ _ s). set (y1 := set_i_lock (mk_sleeplock 1 (pid_of s p)) y).
  assert (k_itable s1 !! ip = Some y1) as Hy1 by (unfold s1; simpl; by rewrite list_lookup_alter_eq, Hy).
  wp_step. wp_step. rewrite (list_lookup_total_correct _ _ _ Hy1). change (i_valid y1) with (i_valid y). rewrite Hv.
  unfold when at 1. cbn [Z.eqb]. wp_step. wp_step. change (k_sb s1) with (k_sb s). change (i_dev y1) with (i_dev y).
  change (i_inum y1) with (i_inum y). rewrite Hsb, Hd, Hi.
  eapply wp_mono; [apply (ilock_load L bl d c sb ip inum x y1 s1); try done; by apply ftxn_itable|].
  intros [] s' (T' & O' & Hy'). split_and!; [done| |done]. etrans; [apply upd_ino|exact O'].
Qed.

(** C34: an inode survives the disk.  [iupdate] stores the fields of the inode in
    its slot of its block, each at its place in [struct dinode], and touches no
    other byte of the block and no other block; and whenever [ilock] later
    finds these bytes in the slot, for a table entry of this inode that has not
    been read, the entry gets the same type, device numbers, link count, size and
    addresses, becomes valid and locked by the caller, and keeps its identity
    and its references, with no other entry touched. *)
Theorem inode_roundtrip L bl d c sb ip x s :
  at_file (dev := dev) (p := p) L bl d c sb ip x s -> inode_place sb (i_inum x) -> room L 1 bl ->
  dinode_ok (inode_dinode x) ->
  let b := IBLOCK (i_inum x) sb in
  let off := dinode_off (i_inum x) in
  wp (iupdate ip) (fun _ s' => fs_only s s' /\ exists bl' c',
    at_file (dev := dev) (p := p) L bl' d c' sb ip x s' /\ longer 1 bl bl' /\
    slice (c' b) off 64 = struct_dinode x /\ take off (c' b) = take off (c b) /\
    drop (off + 64) (c' b) = drop (off + 64) (c b) /\ forall b', b' <> b -> c' b' = c b') s /\
  (forall L2 bl2 d2 c2 s2 j y, ftxn (dev := dev) (p := p) L2 bl2 ∅ d2 c2 s2 -> buf_room 1 bl2 ∅ -> k_sb s2 = sb ->
    unread j (i_inum x) y s2 -> i_type x <> 0 -> slice (c2 b) off 64 = struct_dinode x ->
    wp (ilock (Some j)) (fun _ s3 => ftxn (dev := dev) (p := p) L2 bl2 ∅ d2 c2 s3 /\ ino_only j s2 s3 /\
      exists z, k_itable s3 !! j = Some z /\
        i_type z = i_type x /\ i_major z = i_major x /\ i_minor z = i_minor x /\ i_nlink z = i_nlink x /\
        i_size z = i_size x /\ i_addrs z = i_addrs x /\ i_valid z = 1 /\
        i_lock z = mk_sleeplock 1 (pid_of s2 p) /\
        i_dev z = i_dev y /\ i_inum z = i_inum y /\ i_ref z = i_ref y) s2).
Proof.
  intros H Hpl Hr Hok b off. pose proof (af_fs _ _ _ _ _ _ _ _ H) as F. split.
  - eapply wp_mono; [by apply (iupdate_spec (dev := dev) (p := p) L bl d c sb ip x s)|]. intros [] s' (bl' & H' & O' & Hl').
    split; [done|]. eexists bl', _. split; [exact H'|]. fold b off. rewrite fn_lookup_insert.
    assert (off + 64 <= length (c b))%nat as Hoff.
    { destruct Hpl as [_ Hb]. destruct (plain_range sb b (fo_layout _ _ F) (or_introl Hb)) as [? ?].
      destruct (fo_blocks _ _ F b) as [-> _]; [lia|]. apply dinode_off_bound. }
    pose proof (dk_len _ Hok) as Hl. simpl in Hl. pose proof (struct_length x Hl) as Hs.
    rewrite enc_struct by done. split_and!; [done| | | |intros b' Hb'; by apply fn_lookup_insert_ne].
    + rewrite <- Hs. apply slice_splice_same. lia.
    + unfold splice. rewrite take_app_le by (rewrite length_take; lia). by rewrite take_take, Nat.min_id.
    + unfold splice. rewrite app_assoc, drop_app_ge; rewrite length_app, length_take, Hs; [|lia].
      rewrite drop_drop. f_equal. lia.
  - intros L2 bl2 d2 c2 s2 j y T2 Hr2 Hsb2 Hu Hty Hsl.
    eapply wp_mono; [by apply (ilock_spec L2 bl2 d2 c2 sb j (i_inum x) x y s2)|].
    intros [] s3 (T3 & O3 & Hz). split_and!; [done|done|]. eexists. split; [exact Hz|]. done.
Qed.
End Inode.

Module InodeDemo.
#[local] Existing Instance FilesDemo.still.
#[local] Existing Instance FilesDemo.perfect.
#[local] Existing Instance FilesDemo.perfect_reads.

(** A table entry for inode 2 of [FilesDemo], as [iget] leaves it. *)
Definition y1 : inode := set_i_ref 1 (set_i_inum 2 (set_i_dev 1 inode0)).

Lemma x1_ok : dinode_ok (inode_dinode FilesDemo.x1).
Proof.
  constructor; [split; vm_compute; congruence..|reflexivity|]. repeat (constructor; [split; vm_compute; congruence|]). constructor.
Qed.

(** Stored, forgotten and read again. *)
Lemma inode_roundtrip_witness :
  wp (iupdate O ;; modify (set_k_itable [y1]) ;; ilock (Some O))
    (fun _ s => exists z, k_itable s !! O = Some z /\ i_size z = 5 /\ i_addrs z = 47 :: replicate 12 0) FilesDemo.s2.
Proof.
  destruct (inode_roundtrip 30 [] _ _ _ O FilesDemo.x1 FilesDemo.s2 FilesDemo.at1) as [H1 H2].
  - split; [done|]. vm_compute. split; congruence.
  - split; vm_compute; congruence.
  - exact x1_ok.
  - apply wp_bind. eapply wp_mono; [exact H1|]. clear H1.
    intros [] s' (_ & bl' & c' & [T Hsb _ _ _ _] & [Hlen _] & Hsl & _). apply wp_bind, wp_modify.
    eapply wp_mono; [apply (H2 30 bl' BlocksDemo.d1 c' (set_k_itable [y1] s') O y1)|].
    + by apply ftxn_itable.
    + unfold buf_room, NBUF. rewrite dom_none. simpl in Hlen. lia.
    + exact Hsb.
    + by constructor.
    + discriminate.
    + exact Hsl.
    + intros [] s3 (_ & _ & z & Hz & _ & _ & _ & _ & Hs & Ha & _). exists z. split; [exact Hz|]. split; [exact Hs|exact Ha].
Defined.
End InodeDemo.
