(* ===== verification/FsDir.v ===== *)
(** * The inode table and directories

    [iget] keeps at most one live entry per inode.  A directory is a file of
    sixteen-byte entries; [dirlookup] finds the first entry with a name and
    [dirlink] adds one. *)

From stdpp Require Import functions.
From S2P Require Import Prelude Bytes Params CString Spinlock State Kalloc Vm PageTable VmProofs UserSpace UvmProofs UserCopy IoCopy Sched SchedProofs Bio Lru BioProofs BlockCache CacheSpec Log LogProofs LogSpace Fs FsPure FsBlocks FileMap FsFiles.

(** ** The inode table *)

Definition entry_for (dev inum : Z) (x : inode) : Prop := 0 < i_ref x /\ i_dev x = dev /\ i_inum x = inum.
Definition free_entry (x : inode) : Prop := i_ref x = 0.
#[export] Instance entry_for_dec dev inum x : Decision (entry_for dev inum x).
Proof. unfold entry_for. apply _. Defined.
#[export] Instance free_entry_dec x : Decision (free_entry x).
Proof. unfold free_entry. apply _. Defined.

(** What [iget] does to the table: the slot, and the table after it. *)
Definition igot (dev inum : Z) (t : list inode) : option (nat * list inode) :=
  match list_find (entry_for dev inum) t with
  | Some (ip, _) => Some (ip, alter (fun x => set_i_ref (i_ref x + 1) x) ip t)
  | None =>
      match list_find free_entry t with
      | Some (ip, _) => Some (ip, alter (fun x => set_i_valid 0 (set_i_ref 1 (set_i_inum inum (set_i_dev dev x)))) ip t)
      | None => None
      end
  end.

Lemma list_find_snoc_None {A} (P : A -> Prop) `{forall x, Decision (P x)} l x :
  list_find P (l ++ [x]) = match list_find P l with Some r => Some r | None => if decide (P x) then Some (length l, x) else None end.
Proof.
  induction l as [|y l IH]; simpl; [by case_decide|]. destruct (decide (P y)); [done|]. rewrite IH.
  destruct (list_find P l) as [[i z]|]; simpl; [done|]. by destruct (decide (P x)).
Qed.

Lemma alter_insert_at {A} (f : A -> A) (l : list A) i x : l !! i = Some x -> alter f i l = <[i := f x]> l.
Proof.
  intros Hx. pose proof (lookup_lt_Some _ _ _ Hx). apply list_eq. intros j. destruct (decide (i = j)) as [<-|].
  - by rewrite list_lookup_alter_eq, list_lookup_insert_eq, Hx.
  - by rewrite list_lookup_alter_ne, list_lookup_insert_ne.
Qed.

Section Iget.
Context {E : Env} {D : Disk}.

Lemma iget_scan_spec dev inum s : length (k_itable s) = NINODE ->
  wp (iget_scan dev inum) (fun r s' => s' = s /\ r =
    match list_find (entry_for dev inum) (k_itable s) with
    | Some (ip, _) => inl ip
    | None => inr (fst <$> list_find free_entry (k_itable s))
    end) s.
Proof.
  intros Hl. set (t := k_itable s) in *. unfold iget_scan.
  apply (wp_loop_idx _ (fun n '(l, empty) s' => exists k, (k <= NINODE)%nat /\ n = Z.of_nat (NINODE - k) /\ s' = s /\
    l = seq k (NINODE - k) /\ list_find (entry_for dev inum) (take k t) = None /\
    empty = fst <$> list_find free_entry (take k t)) _ (Z.of_nat NINODE)); [| |done].
  2:{ exists O. split_and!; try done. lia. }
  intros n [l empty] s1 (k & Hk & -> & -> & -> & Hnone & ->). destruct (NINODE - k)%nat as [|m] eqn:Em; cbn [seq]; cbv iota.
  - wp_step. split; [done|]. rewrite firstn_all2 in Hnone |- * by lia. by rewrite Hnone.
  - destruct (lookup_lt_is_Some_2 t k) as [x Hx]; [lia|]. unfold get_inode. wp_step. wp_step. fold t.
    rewrite (list_lookup_total_correct _ _ _ Hx).
    assert ((i_ref x >? 0) && (i_dev x =? dev) && (i_inum x =? inum) = bool_decide (entry_for dev inum x)) as ->.
    { unfold entry_for. destruct (Z.gtb_spec (i_ref x) 0), (Z.eqb_spec (i_dev x) dev), (Z.eqb_spec (i_inum x) inum);
        simpl; symmetry; (apply bool_decide_eq_true || apply bool_decide_eq_false); lia. }
    assert (list_find (entry_for dev inum) (take (S k) t) = if decide (entry_for dev inum x) then Some (k, x) else None) as Es.
    { erewrite take_S_r by done. rewrite list_find_snoc_None, Hnone. by rewrite length_take_le by lia. }
    case_bool_decide as Hm.
    + wp_step. split; [done|]. rewrite decide_True in Es by done.
      assert (list_find (entry_for dev inum) t = Some (k, x)) as ->; [|done].
      rewrite <- (take_drop (S k) t). by apply list_find_app_l.
    + wp_step. exists (Z.of_nat m). split; [lia|]. exists (S k). rewrite decide_False in Es by done.
      split_and!; try done; try lia; [by replace (NINODE - S k)%nat with m by lia|].
      erewrite take_S_r by done. rewrite list_find_snoc_None.
      destruct (list_find free_entry (take k t)) as [[j y]|] eqn:Ef; simpl; [done|].
      unfold free_entry.
      destruct (Z.eqb_spec (i_ref x) 0); [rewrite decide_True by done|by rewrite decide_False by done].
      simpl. by rewrite length_take_le by lia.
Qed.

Lemma iget_run dev inum s : length (k_itable s) = NINODE -> LItable ∉ k_held s ->
  iget dev inum s =
    match igot dev inum (k_itable s) with
    | Some (ip, t') => Ok ip (set_k_itable t' s)
    | None => Panic "iget: no inodes" (set_k_held (LItable :: k_held s) s)
    end.
Proof.
  intros Hl Hh. unfold iget, igot. rewrite bind_acquire by done. set (s1 := set_k_held _ s).
  pose proof (iget_scan_spec dev inum s1 Hl) as (r & s' & Er & -> & ->)%wp_Ok. rewrite (bind_ok _ _ _ _ _ Er). clear Er.
  change (k_itable s1) with (k_itable s). destruct (list_find (entry_for dev inum) (k_itable s)) as [[ip x]|].
  - unfold upd_inode. rewrite bind_modify. erewrite bind_release by done. by destruct s.
  - destruct (list_find free_entry (k_itable s)) as [[ip x]|]; simpl; [|done].
    unfold upd_inode. rewrite !bind_modify. erewrite bind_release by done. simpl.
    rewrite !alter_twice. by destruct s.
Qed.
End Iget.

(** At most one live entry per inode. *)
Definition itable_ok (t : list inode) : Prop :=
  forall i j x y, t !! i = Some x -> t !! j = Some y -> 0 < i_ref x -> 0 < i_ref y ->
    i_dev x = i_dev y -> i_inum x = i_inum y -> i = j.

Lemma igot_some dev inum t ip t' : itable_ok t -> igot dev inum t = Some (ip, t') ->
  exists x x', t !! ip = Some x /\ t' = <[ip := x']> t /\ i_dev x' = dev /\ i_inum x' = inum /\
    (entry_for dev inum x /\ x' = set_i_ref (i_ref x + 1) x \/
     i_ref x = 0 /\ i_ref x' = 1 /\ i_valid x' = 0 /\ forall j y, t !! j = Some y -> ~ entry_for dev inum y).
Proof.
  intros Hu. unfold igot. destruct (list_find (entry_for dev inum) t) as [[i x]|] eqn:Ef.
  - intros [= <- <-]. apply list_find_Some in Ef as (Hx & He & _). pose proof He as (_ & <- & <-).
    exists x. eexists. split_and!; [done|by apply alter_insert_at|done|done|by left].
  - destruct (list_find free_entry t) as [[i x]|] eqn:Ee; [|done]. intros [= <- <-].
    apply list_find_Some in Ee as (Hx & He & _). exists x. eexists.
    split_and!; [done|by apply alter_insert_at|done|done|]. right. split_and!; [done|done|done|].
    intros j y Hy. rewrite list_find_None in Ef. by apply (Forall_lookup_1 _ _ _ _ Ef Hy).
Qed.

Lemma igot_ok dev inum t ip t' : itable_ok t -> igot dev inum t = Some (ip, t') -> itable_ok t'.
Proof.
  intros Hu Hg. destruct (igot_some _ _ _ _ _ Hu Hg) as (x & x' & Hx & -> & Hd & Hi & Hcase). clear Hg.
  assert (forall j y, t !! j = Some y -> 0 < i_ref y -> i_dev y = dev -> i_inum y = inum -> j = ip) as Hone.
  { intros j y Hy Hr Ed Ei. destruct Hcase as [[(Hrx & Edx & Eix) _]|(_ & _ & _ & Hno)].
    - apply (Hu j ip y x); congruence.
    - exfalso. by eapply Hno. }
  assert (forall k w, <[ip := x']> t !! k = Some w -> k = ip /\ w = x' \/ t !! k = Some w) as Hget.
  { intros k w. destruct (decide (ip = k)) as [<-|]; [|rewrite list_lookup_insert_ne by done; auto].
    rewrite list_lookup_insert_eq by (by eapply lookup_lt_Some). naive_solver. }
  intros i j y z [[-> ->]|Hy]%Hget [[-> ->]|Hz]%Hget Ry Rz Ed Ei.
  - done.
  - symmetry. apply (Hone j z); congruence.
  - apply (Hone i y); congruence.
  - by apply (Hu i j y z).
Qed.

(** ** Directory entries *)

Definition dent (c : Z -> list Z) (addrs : list Z) (k : nat) : list Z := fread c addrs (16 * Z.of_nat k) 16.
Definition dents (c : Z -> list Z) (x : inode) : list (list Z) := dent c (i_addrs x) <$> seq 0 (Z.to_nat (i_size x / 16)).

(** An entry in use with the name. *)
Definition same_name (name : list Z) (e : list Z) : Prop := de_inum e <> 0 /\ namecmp name (de_name e) = 0.
Definition empty_entry (e : list Z) : Prop := de_inum e = 0.
#[export] Instance same_name_dec name e : Decision (same_name name e).
Proof. unfold same_name. apply _. Defined.
#[export] Instance empty_entry_dec e : Decision (empty_entry e).
Proof. unfold empty_entry. apply _. Defined.

Lemma length_dent c addrs k : length (dent c addrs k) = 16%nat.
Proof. apply length_fread. Qed.

Lemma length_dents c x : length (dents c x) = Z.to_nat (i_size x / 16).
Proof. unfold dents. by rewrite length_fmap, length_seq. Qed.

Lemma lookup_dents c x k : (k < Z.to_nat (i_size x / 16))%nat -> dents c x !! k = Some (dent c (i_addrs x) k).
Proof. intros Hk. unfold dents. by rewrite list_lookup_fmap, lookup_seq_lt. Qed.

(** A directory: whole entries, all of whose blocks are there. *)
Record dir_ok (c : Z -> list Z) (x : inode) : Prop := {
  di_type : i_type x = T_DIR;
  di_size : 0 <= i_size x <= MAXFILE * BSIZE;
  di_whole : i_size x mod 16 = 0;
  di_mapped : mapped c (i_addrs x) (i_size x);
}.

Section Dir.
Context `{Lk : Linker} {LkOk : LinkerOk Lk}.
Context {E : Env} {D : Disk} {RD : ReadsBlocks D}.
Context {dev : Z} {p : nat}.

(** Reading entry [k]. *)
Lemma readi_dent L bl d c sb dp x s k :
  at_file (dev := dev) (p := p) L bl d c sb dp x s -> room L 0 bl -> dir_ok c x -> 16 * Z.of_nat k < i_size x ->
  wp (readi dp DLocal (16 * Z.of_nat k) sizeof_dirent) (fun r s' => r = (16, dent c (i_addrs x) k) /\
    at_file (dev := dev) (p := p) L bl d c sb dp x s' /\ io_only s s') s.
Proof.
  intros H Hr [_ Hsz Hw Hm] Hk. change (MAXFILE * BSIZE) with 274432 in *. unfold sizeof_dirent.
  pose proof (Z.div_mod (i_size x) 16 ltac:(lia)) as Hd. rewrite Hw in Hd.
  eapply wp_mono; [apply (readi_spec (dev := dev) (p := p) L bl d c sb dp x s DLocal (16 * Z.of_nat k) 16 (k_mem s)); try done; try lia; constructor|].
  intros r s' (-> & H' & O). replace (Z.min 16 (i_size x - 16 * Z.of_nat k)) with 16 by lia.
  split_and!; [done|done|]. by destruct s.
Qed.

(** The scan of a directory for the first entry with a property: [dirlookup]
    and [dirlink] have the same loop with different tests. *)
Lemma find_step (P : list Z -> Prop) `{forall e, Decision (P e)} c x k :
  (k < length (dents c x))%nat -> list_find P (take k (dents c x)) = None ->
  (P (dent c (i_addrs x) k) -> list_find P (dents c x) = Some (k, dent c (i_addrs x) k)) /\
  (~ P (dent c (i_addrs x) k) -> list_find P (take (S k) (dents c x)) = None).
Proof.
  intros Hk Hn. rewrite length_dents in Hk. pose proof (lookup_dents c x k Hk) as He.
  assert (list_find P (take (S k) (dents c x)) = if decide (P (dent c (i_addrs x) k)) then Some (k, dent c (i_addrs x) k) else None) as Es.
  { erewrite take_S_r by done. rewrite list_find_snoc_None, Hn. by rewrite length_take_le by (rewrite length_dents; lia). }
  split; intros HP.
  - rewrite decide_True in Es by done. rewrite <- (take_drop (S k) (dents c x)). by apply list_find_app_l.
  - by rewrite decide_False in Es.
Qed.

(** What [dirlookup] returns, and the state it leaves: the inode table has a
    reference more to the inode that the entry names. *)
Definition looked_up (L : Z) (bl : list Z) (d c : Z -> list Z) (sb : superblock) (dp : nat) (x : inode) (name : list Z)
    (s : kernel) (r : option (nat * Z)) (s' : kernel) : Prop :=
  exists s1, at_file (dev := dev) (p := p) L bl d c sb dp x s1 /\ io_only s s1 /\
    match list_find (same_name name) (dents c x) with
    | None => r = None /\ s' = s1
    | Some (k, e) => exists ip t', igot dev (de_inum e) (k_itable s) = Some (ip, t') /\
        r = Some (ip, 16 * Z.of_nat k) /\ s' = set_k_itable t' s1
    end.

(** The inode table is full. *)
Definition no_inodes (name : list Z) (c : Z -> list Z) (x : inode) (s : kernel) (msg : string) (s' : kernel) : Prop :=
  msg = "iget: no inodes" /\ exists k e, list_find (same_name name) (dents c x) = Some (k, e) /\
    igot dev (de_inum e) (k_itable s) = None.

Lemma dirlookup_spec L bl d c sb dp x s name :
  at_file (dev := dev) (p := p) L bl d c sb dp x s -> room L 0 bl -> dir_ok c x -> length (k_itable s) = NINODE ->
  wpc (dirlookup dp name) (looked_up L bl d c sb dp x name s) (no_inodes name c x s) s.
Proof.
  intros H Hr Hdir Hlen. pose proof Hdir as [Hty Hsz Hw Hm]. change (MAXFILE * BSIZE) with 274432 in *.
  pose proof (Z.div_mod (i_size x) 16 ltac:(lia)) as Hd. rewrite Hw in Hd. pose proof (length_dents c x) as Hld.
  unfold dirlookup, get_inode. apply wpc_bind, wpc_wp, wp_gets. rewrite (at_file_x _ _ _ _ _ _ _ _ H), Hty. cbn [negb Z.eqb].
  change (negb (T_DIR =? T_DIR)) with false. cbv iota.
  apply (wpc_loop _ (fun n off s' => exists k, n = i_size x - off /\ off = 16 * Z.of_nat k /\ off <= i_size x /\
    at_file (dev := dev) (p := p) L bl d c sb dp x s' /\ io_only s s' /\
    list_find (same_name name) (take k (dents c x)) = None) _ _ (i_size x)); [| |lia].
  2:{ exists O. split_and!; try done; lia. }
  intros n off s1 (k & -> & -> & Hoff & H1 & O1 & Hnone). apply wpc_bind, wpc_wp, wp_gets.
  rewrite (at_file_x _ _ _ _ _ _ _ _ H1). destruct (Z.ltb_spec (16 * Z.of_nat k) (i_size x)) as [Hlt|Hge]; cbn [negb].
  2:{ apply wpc_wp, wp_ret. exists s1. rewrite firstn_all2 in Hnone by lia. by rewrite Hnone. }
  apply wpc_bind. eapply wpc_mono; [apply wpc_wp, (readi_dent L bl d c sb dp x s1 k); done| |done].
  intros r s2 (-> & H2 & O2). cbv iota beta. change (negb (16 =? sizeof_dirent)) with false. cbv iota.
  set (e := dent c (i_addrs x) k). destruct (find_step (same_name name) c x k ltac:(lia) Hnone) as [Hy Hn]. fold e in Hy, Hn.
  assert (~ same_name name e -> exists m, 0 <= m < i_size x - 16 * Z.of_nat k /\ exists k', m = i_size x - u32 (16 * Z.of_nat k + sizeof_dirent) /\
    u32 (16 * Z.of_nat k + sizeof_dirent) = 16 * Z.of_nat k' /\ u32 (16 * Z.of_nat k + sizeof_dirent) <= i_size x /\
    at_file (dev := dev) (p := p) L bl d c sb dp x s2 /\ io_only s s2 /\ list_find (same_name name) (take k' (dents c x)) = None) as Hnext.
  { intros Hne. unfold sizeof_dirent. rewrite u32_small by lia. exists (i_size x - (16 * Z.of_nat k + 16)). split; [lia|].
    exists (S k). split_and!; try done; try lia; [by etrans|by apply Hn]. }
  destruct (Z.eqb_spec (de_inum e) 0) as [E0|E0]; [apply wpc_wp, wp_ret, Hnext; by intros [? _]|].
  destruct (Z.eqb_spec (namecmp name (de_name e)) 0) as [E1|E1]; [|apply wpc_wp, wp_ret, Hnext; by intros [_ ?]].
  apply wpc_bind, wpc_wp, wp_gets. rewrite (at_file_x _ _ _ _ _ _ _ _ H2), (af_dev _ _ _ _ _ _ _ _ H2).
  assert (io_only s s2) as O by (by etrans).
  assert (k_itable s2 = k_itable s) as Et by (apply fs_only_itable; by apply io_fs).
  apply wpc_bind. unfold wpc. rewrite iget_run.
  2:{ by rewrite Et. }
  2:{ rewrite (ca_locks _ _ _ _ (it_rel _ _ _ _ _ _ _ (ft_txn _ _ _ _ _ _ (af_txn _ _ _ _ _ _ _ _ H2)))). apply not_elem_of_nil. }
  rewrite Et. specialize (Hy (conj E0 E1)). destruct (igot dev (de_inum e) (k_itable s)) as [[ip t']|] eqn:Eg.
  - exists s2. split_and!; [done|done|]. rewrite Hy. by exists ip, t'.
  - split; [done|]. by exists k, e.
Qed.
End Dir.

(** ** A new entry *)

Definition new_entry (name : list Z) (inum : Z) : list Z := le_bytes 2 inum ++ strncpy_bytes name DIRSIZ.

Lemma length_new_entry name inum : length (new_entry name inum) = 16%nat.
Proof. unfold new_entry. by rewrite length_app, length_le_bytes, length_strncpy_bytes. Qed.

(** The stores of [dirlink] into its local entry. *)
Lemma new_entry_eq de name inum : length de = 16%nat ->
  put_le 2 (splice de 2 (strncpy_bytes name DIRSIZ)) 0 inum = new_entry name inum.
Proof.
  intros Hl. unfold put_le, new_entry, splice at 1. simpl take. rewrite app_nil_l, length_le_bytes. f_equal.
  change (0 + 2)%nat with 2%nat. unfold splice. rewrite length_strncpy_bytes.
  rewrite (drop_ge de) by (rewrite Hl; unfold DIRSIZ; lia). rewrite app_nil_r.
  apply drop_app_length'. rewrite length_take. lia.
Qed.

Lemma de_inum_new name inum : 0 <= inum < 65536 -> de_inum (new_entry name inum) = inum.
Proof.
  intros H. unfold de_inum, get_le, slice, new_entry. rewrite drop_0, take_app_length' by (by rewrite length_le_bytes).
  rewrite le_val_le_bytes. apply Z.mod_small. done.
Qed.

Lemma de_name_new name inum : de_name (new_entry name inum) = strncpy_bytes name DIRSIZ.
Proof.
  unfold de_name, slice, new_entry. rewrite drop_app_length' by (by rewrite length_le_bytes).
  apply firstn_all2. by rewrite length_strncpy_bytes.
Qed.

Lemma strncpy_bytes_byte name n : Forall is_byte name -> Forall is_byte (strncpy_bytes name n).
Proof.
  assert (forall m, Forall is_byte (strncpy_pad m)) as Hp by (induction m; simpl; constructor; [split; lia|done]).
  revert name. induction n as [|n IH]; intros name Hn; simpl; [constructor|].
  destruct name as [|a name]; simpl; [by repeat constructor|]. apply Forall_cons in Hn as [Ha Hn].
  destruct (a =? 0); simpl; constructor; auto. split; lia.
Qed.

(** Names are compared by their first [DIRSIZ] bytes. *)
Definition name_of (n : list Z) : list Z := take DIRSIZ (cstr n).

Lemma namecmp_eq n m : Forall is_byte n -> Forall is_byte m -> namecmp n m = 0 <-> name_of n = name_of m.
Proof. apply strncmp_zero. Qed.

Lemma name_of_strncpy n : name_of (strncpy_bytes n DIRSIZ) = name_of n.
Proof. unfold name_of. rewrite cstr_strncpy_bytes. by rewrite take_take, Nat.min_id. Qed.

(** The inode number a directory gives for a name. *)
Definition dir_find (l : list (list Z)) (n : list Z) : option Z := (fun r => de_inum (snd r)) <$> list_find (same_name n) l.

Lemma dir_find_app l1 l2 n : dir_find (l1 ++ l2) n = match dir_find l1 n with Some i => Some i | None => dir_find l2 n end.
Proof.
  unfold dir_find. induction l1 as [|e l1 IH]; simpl; [done|]. destruct (decide (same_name n e)); [done|].
  destruct (list_find (same_name n) (l1 ++ l2)) as [[]|], (list_find (same_name n) l1) as [[]|]; simpl in *; done || naive_solver.
Qed.

Lemma dir_find_skip e l n : ~ same_name n e -> dir_find (e :: l) n = dir_find l n.
Proof. intros He. unfold dir_find. simpl. rewrite decide_False by done. by destruct (list_find _ l) as [[]|]. Qed.

Lemma same_name_ext n m e : Forall is_byte n -> Forall is_byte m -> Forall is_byte (de_name e) ->
  name_of n = name_of m -> same_name n e <-> same_name m e.
Proof. intros Hn Hm He Hnm. unfold same_name. rewrite !namecmp_eq by done. by rewrite Hnm. Qed.

Lemma dir_find_ext l n m : Forall is_byte n -> Forall is_byte m -> Forall (fun e => Forall is_byte (de_name e)) l ->
  name_of n = name_of m -> dir_find l n = dir_find l m.
Proof.
  intros Hn Hm Hl Hnm. induction Hl as [|e l He Hl IH]; [done|]. pose proof (same_name_ext n m e Hn Hm He Hnm) as Hs.
  destruct (decide (same_name n e)) as [H|H].
  - unfold dir_find. simpl. rewrite !decide_True by tauto. done.
  - rewrite !dir_find_skip by tauto. done.
Qed.

(** The directory after the entry is put in an empty slot or at the end. *)
Lemma dir_find_link l k name inum n :
  Forall is_byte n -> Forall is_byte name -> Forall (fun e => Forall is_byte (de_name e)) l -> 0 < inum < 65536 ->
  dir_find l name = None -> (forall e, l !! k = Some e -> empty_entry e) ->
  dir_find (take k l ++ new_entry name inum :: drop (S k) l) n =
    if decide (name_of n = name_of name) then Some inum else dir_find l n.
Proof.
  intros Hn Hname Hl Hi Hnone Hk.
  assert (dir_find l n = match dir_find (take k l) n with Some i => Some i | None => dir_find (drop (S k) l) n end) as Hsplit.
  { destruct (l !! k) as [e|] eqn:Ek.
    - rewrite <- (take_drop_middle l k e Ek) at 1. rewrite dir_find_app, dir_find_skip; [done|].
      intros [H0 _]. apply H0. by apply Hk.
    - apply lookup_ge_None in Ek. rewrite firstn_all2, drop_ge by lia. by destruct (dir_find l n). }
  rewrite dir_find_app, Hsplit. case_decide as Hnn.
  - assert (dir_find (take k l) n = None) as ->.
    { destruct (dir_find (take k l) n) eqn:E1; [|done].
      rewrite (dir_find_ext l n name), Hnone in Hsplit by done. done. }
    unfold dir_find. simpl. rewrite decide_True; [simpl; by rewrite de_inum_new by lia|].
    unfold same_name. rewrite de_inum_new, de_name_new by lia. split; [lia|].
    apply namecmp_eq; [done|by apply strncpy_bytes_byte|]. by rewrite name_of_strncpy.
  - rewrite dir_find_skip; [done|]. intros [_ H0]. apply Hnn. rewrite de_name_new in H0.
    apply namecmp_eq in H0; [|done|by apply strncpy_bytes_byte]. by rewrite name_of_strncpy in H0.
Qed.

(** The entries after [writei] put one at slot [k]. *)
Lemma dents_write sb c x c' x' k e :
  dir_ok c x -> wrote_file sb (16 * Z.of_nat k) e c x c' x' -> length e = 16%nat -> (k <= length (dents c x))%nat ->
  16 * Z.of_nat k + 16 <= MAXFILE * BSIZE ->
  dents c' x' = take k (dents c x) ++ e :: drop (S k) (dents c x).
Proof.
  intros [_ Hsz Hw _] W He Hk Hmax. rewrite length_dents in Hk. change (MAXFILE * BSIZE) with 274432 in *.
  pose proof (Z.div_mod (i_size x) 16 ltac:(lia)) as Hd. rewrite Hw in Hd.
  assert (Z.to_nat (i_size x' / 16) = Nat.max (Z.to_nat (i_size x / 16)) (S k)) as En.
  { rewrite (wf_size _ _ _ _ _ _ _ W), He. assert (Z.max (i_size x) (16 * Z.of_nat k + Z.of_nat 16) / 16 =
      Z.max (i_size x / 16) (Z.of_nat k + 1)) as ->; [|lia]. symmetry. apply (Z.div_unique _ _ _ 0); lia. }
  apply list_eq. intros j. destruct (decide (j < Z.to_nat (i_size x' / 16))%nat) as [Hj|Hj].
  2:{ rewrite !lookup_ge_None_2; [done| |rewrite length_dents; lia].
      rewrite length_app, length_take, length_cons, length_drop, length_dents. lia. }
  rewrite lookup_dents by done.
  assert (dent c' (i_addrs x') j = if decide (j = k) then e else dent c (i_addrs x) j) as ->.
  { apply list_eq. intros i. destruct (decide (i < 16)%nat) as [Hi|Hi].
    2:{ rewrite !lookup_ge_None_2; [done| |rewrite length_dent; lia]. case_decide; [lia|]. rewrite length_dent. lia. }
    unfold dent at 1. rewrite lookup_fread by done.
    rewrite (wf_bytes _ _ _ _ _ _ _ W) by (change (MAXFILE * BSIZE) with 274432; lia). unfold over. rewrite He.
    case_decide; case_decide; try lia.
    - destruct (lookup_lt_is_Some_2 e i) as [b Hb]; [lia|]. rewrite Hb. f_equal.
      apply list_lookup_total_correct. rewrite <- Hb. f_equal. lia.
    - unfold dent. by rewrite lookup_fread. }
  destruct (decide (j < k)%nat); [|destruct (decide (j = k)) as [->|]].
  - rewrite decide_False by lia. rewrite lookup_app_l, lookup_take_lt, lookup_dents by (rewrite ?length_take, ?length_dents; lia). done.
  - rewrite lookup_app_r by (rewrite length_take, length_dents; lia).
    replace (k - _)%nat with O by (rewrite length_take, length_dents; lia). done.
  - rewrite lookup_app_r by (rewrite length_take, length_dents; lia). rewrite length_take, length_dents.
    replace (j - _)%nat with (S (j - S k)) by lia. simpl. rewrite lookup_drop.
    replace (S k + (j - S k))%nat with j by lia. by rewrite lookup_dents by lia.
Qed.

Lemma fbyte_byte sb c addrs o : fs_ok sb c -> file_ok sb c addrs -> 0 <= o < MAXFILE * BSIZE -> is_byte (fbyte c addrs o).
Proof.
  intros F FI Ho. unfold fbyte. destruct (Z.eqb_spec (amap c addrs (o / BSIZE)) 0) as [|Ha]; [split; lia|].
  destruct (fi_map _ _ _ FI (o / BSIZE)) as (Hd & _); [|done|].
  { unfold BSIZE in *. split; [apply Z.div_pos; lia|]. apply Z.div_lt_upper_bound; lia. }
  apply (byte_at_range (c (amap c addrs (o / BSIZE))) (o mod BSIZE)); [|by apply Z.mod_pos_bound].
  apply F. pose proof (data_range _ _ (fo_layout _ _ F) Hd). lia.
Qed.

Lemma dents_bytes sb c x : fs_ok sb c -> file_ok sb c (i_addrs x) -> dir_ok c x ->
  Forall (fun e => Forall is_byte e) (dents c x).
Proof.
  intros F FI [_ Hsz Hw _]. change (MAXFILE * BSIZE) with 274432 in *.
  pose proof (Z.div_mod (i_size x) 16 ltac:(lia)) as Hd. rewrite Hw in Hd.
  apply Forall_lookup. intros k e Hk. pose proof (lookup_lt_Some _ _ _ Hk) as Hlt. rewrite length_dents in Hlt.
  rewrite lookup_dents in Hk by done. injection Hk as <-. apply Forall_lookup. intros i b Hb.
  pose proof (lookup_lt_Some _ _ _ Hb) as Hi. rewrite length_dent in Hi. unfold dent in Hb. rewrite lookup_fread in Hb by done.
  injection Hb as <-. apply (fbyte_byte sb); [done|done|]. change (MAXFILE * BSIZE) with 274432. lia.
Qed.

Lemma dents_names sb c x : fs_ok sb c -> file_ok sb c (i_addrs x) -> dir_ok c x ->
  Forall (fun e => Forall is_byte (de_name e)) (dents c x).
Proof.
  intros F FI HD. eapply Forall_impl; [by eapply dents_bytes|]. intros e He. by apply Forall_slice.
Qed.

(** The slot that [dirlink] uses. *)
Definition free_slot (l : list (list Z)) : nat := match list_find empty_entry l with Some (k, _) => k | None => length l end.

Lemma free_slot_le l : (free_slot l <= length l)%nat.
Proof.
  unfold free_slot. destruct (list_find empty_entry l) as [[k e]|] eqn:Ef; [|done].
  apply list_find_Some in Ef as (Hk%lookup_lt_Some & _). lia.
Qed.

Lemma free_slot_empty l e : l !! free_slot l = Some e -> empty_entry e.
Proof.
  unfold free_slot. destruct (list_find empty_entry l) as [[k e']|] eqn:Ef.
  - apply list_find_Some in Ef as (Hk & He & _). intros. simplify_eq. done.
  - intros Hk%lookup_lt_Some. lia.
Qed.

Section Link.
Context `{Lk : Linker} {LkOk : LinkerOk Lk}.
Context {E : Env} {D : Disk} {RD : ReadsBlocks D}.
Context {dev : Z} {p : nat}.

Lemma dirlink_slot_spec L bl d c sb dp x s de0 :
  at_file (dev := dev) (p := p) L bl d c sb dp x s -> room L 0 bl -> dir_ok c x -> length de0 = 16%nat ->
  wp (dirlink_slot dp de0) (fun r s' => at_file (dev := dev) (p := p) L bl d c sb dp x s' /\ io_only s s' /\
    exists de, length de = 16%nat /\ r = (16 * Z.of_nat (free_slot (dents c x)), de)) s.
Proof.
  intros H Hr Hdir Hde0. pose proof Hdir as [Hty Hsz Hw Hm]. change (MAXFILE * BSIZE) with 274432 in *.
  pose proof (Z.div_mod (i_size x) 16 ltac:(lia)) as Hd. rewrite Hw in Hd. pose proof (length_dents c x) as Hld.
  unfold dirlink_slot.
  apply (wp_loop_idx _ (fun n '(off, de) s' => exists k, n = i_size x - off /\ off = 16 * Z.of_nat k /\ off <= i_size x /\
    length de = 16%nat /\ at_file (dev := dev) (p := p) L bl d c sb dp x s' /\ io_only s s' /\
    list_find empty_entry (take k (dents c x)) = None) _ (i_size x)); [| |lia].
  2:{ exists O. split_and!; try done; lia. }
  intros n [off de] s1 (k & -> & -> & Hoff & Hde & H1 & O1 & Hnone). unfold get_inode. wp_step. wp_step.
  rewrite (at_file_x _ _ _ _ _ _ _ _ H1). destruct (Z.ltb_spec (16 * Z.of_nat k) (i_size x)) as [Hlt|Hge]; cbn [negb].
  2:{ wp_step. rewrite firstn_all2 in Hnone by lia. split_and!; [done|done|]. exists de. split; [done|].
      unfold free_slot. rewrite Hnone. f_equal. lia. }
  wp_step. eapply wp_mono; [apply (readi_dent (dev := dev) (p := p) L bl d c sb dp x s1 k); done|].
  intros r s2 (-> & H2 & O2). cbv iota beta. change (negb (16 =? sizeof_dirent)) with false. cbv iota.
  set (e := dent c (i_addrs x) k). destruct (find_step empty_entry c x k ltac:(lia) Hnone) as [Hy Hn]. fold e in Hy, Hn.
  destruct (Z.eqb_spec (de_inum e) 0) as [E0|E0]; wp_step.
  - split_and!; [done|by etrans|]. exists e. split; [apply length_dent|]. unfold free_slot. by rewrite (Hy E0).
  - unfold sizeof_dirent. exists (i_size x - (16 * Z.of_nat k + 16)). split; [lia|]. exists (S k).
    split_and!; try done; try lia; [by etrans|by apply Hn].
Qed.

(** [iput] of an inode that is not to be freed. *)
Lemma iput_drop ip s : LItable ∉ k_held s -> 
  (i_ref (k_itable s !!! ip) =? 1) && z2b (i_valid (k_itable s !!! ip)) && (i_nlink (k_itable s !!! ip) =? 0) = false ->
  iput ip s = Ok tt (set_k_itable (alter (fun x => set_i_ref (i_ref x - 1) x) ip (k_itable s)) s).
Proof.
  intros Hh Hc. unfold iput. rewrite bind_acquire by done. unfold get_inode. rewrite bind_gets. simpl. rewrite Hc.
  unfold when. rewrite bind_ret. unfold upd_inode. rewrite bind_modify.
  rewrite (release_ok LItable) by (simpl; left). simpl. rewrite remove1_cons by done. by destruct s.
Qed.

Lemma rounds_dent k : 0 <= k -> rounds (16 * k) (16 * k + 16) = 1.
Proof.
  intros Hk. unfold rounds, BSIZE. pose proof (Z.div_mod (16 * k) 1024 ltac:(lia)). pose proof (Z.mod_pos_bound (16 * k) 1024 ltac:(lia)).
  assert ((16 * k + 16 + 1024 - 1) / 1024 = (16 * k) / 1024 + 1); [|lia].
  symmetry. apply (Z.div_unique _ _ _ ((16 * k) mod 1024 + 15)); lia.
Qed.

Lemma at_file_unlocked L bl d c sb ip x s : at_file (dev := dev) (p := p) L bl d c sb ip x s -> k_held s = [].
Proof. intros H. apply (ca_locks _ _ _ _ (it_rel _ _ _ _ _ _ _ (ft_txn _ _ _ _ _ _ (af_txn _ _ _ _ _ _ _ _ H)))). Qed.

Lemma dir_find_none l n : dir_find l n = None -> list_find (same_name n) l = None.
Proof. unfold dir_find. by destruct (list_find _ _). Qed.

(** The directory file of [x] after [dirlink]. *)
Record linked (sb : superblock) (name : list Z) (inum : Z) (c : Z -> list Z) (x : inode) (c' : Z -> list Z) (x' : inode) : Prop := {
  ln_dir : dir_ok c' x';
  ln_find : forall n, Forall is_byte n ->
    dir_find (dents c' x') n = if decide (name_of n = name_of name) then Some inum else dir_find (dents c x) n;
  ln_keep : forall b, plain_block sb b -> used sb c b = true -> ~ owns c (i_addrs x) b -> b <> IBLOCK (i_inum x) sb -> c' b = c b;
}.

Lemma linked_intro sb name inum c x c' x' :
  fs_ok sb c -> file_ok sb c (i_addrs x) -> dir_ok c x -> Forall is_byte name -> 0 < inum < 65536 ->
  dir_find (dents c x) name = None -> i_size x + 16 <= MAXFILE * BSIZE ->
  wrote_file sb (16 * Z.of_nat (free_slot (dents c x))) (new_entry name inum) c x c' x' ->
  linked sb name inum c x c' x'.
Proof.
  intros F FI HD Hn Hi Hnone Hmax W. pose proof HD as [Hty Hsz Hw _]. pose proof (free_slot_le (dents c x)) as Hk.
  pose proof (length_dents c x) as Hld. change (MAXFILE * BSIZE) with 274432 in *.
  pose proof (Z.div_mod (i_size x) 16 ltac:(lia)) as Hd. rewrite Hw in Hd.
  pose proof (wf_size _ _ _ _ _ _ _ W) as Es. rewrite length_new_entry in Es. constructor.
  - constructor; [rewrite (wf_rest _ _ _ _ _ _ _ W); by destruct x|change (MAXFILE * BSIZE) with 274432; lia| |apply W].
    rewrite Es. apply Z.mod_divide; [lia|]. exists (Z.max (i_size x / 16) (Z.of_nat (free_slot (dents c x)) + 1)). lia.
  - intros n Hnb. erewrite (dents_write sb c x c' x'); [|done|exact W|apply length_new_entry|done|change (MAXFILE * BSIZE) with 274432; lia].
    apply dir_find_link; try done; [by eapply dents_names|]. intros e. apply free_slot_empty.
  - apply W.
Qed.

Lemma dirlink_new L bl d c sb dp x s name inum :
  at_file (dev := dev) (p := p) L bl d c sb dp x s -> room L 7 bl -> dir_ok c x -> length (k_itable s) = NINODE ->
  inode_place sb (i_inum x) -> dinode_ok (inode_dinode x) -> i_size x + 16 <= MAXFILE * BSIZE ->
  Forall is_byte name -> 0 < inum < 65536 -> dir_find (dents c x) name = None ->
  wpc (dirlink dp name inum) (fun r s' => r = 0 /\ ino_only dp s s' /\ exists bl' c' x', longer 7 bl bl' /\
    at_file (dev := dev) (p := p) L bl' d c' sb dp x' s' /\ linked sb name inum c x c' x') no_blocks s.
Proof.
  intros H Hr HD Hlen Hpl Hdi Hmax Hn Hi Hnone. pose proof (dir_find_none _ _ Hnone) as Hf.
  unfold dirlink. apply wpc_bind. eapply wpc_mono; [apply (dirlookup_spec (dev := dev) (p := p) L bl d c sb dp x s name); try done|..].
  { eapply room_mono; [done|lia]. }
  2:{ intros msg s' (_ & k & e & Hf' & _). congruence. }
  intros r s' (s1 & H1 & O1 & Hm). rewrite Hf in Hm. destruct Hm as [-> ->].
  apply wpc_bind. eapply wpc_mono; [apply wpc_wp, (dirlink_slot_spec L bl d c sb dp x s1); [done| |done|done]| |done].
  { eapply room_mono; [done|lia]. }
  intros r s2 (H2 & O2 & de & Hde & ->). cbv iota beta. rewrite new_entry_eq by done.
  set (k := free_slot (dents c x)) in *. pose proof (free_slot_le (dents c x)) as Hk. fold k in Hk. rewrite length_dents in Hk.
  pose proof HD as [_ Hsz Hw Hmap]. pose proof (Z.div_mod (i_size x) 16 ltac:(lia)) as Hd. rewrite Hw in Hd.
  apply wpc_bind. eapply wpc_mono; [apply (writei_spec (dev := dev) (p := p) L bl d c sb dp x s2 (SLocal (new_entry name inum))
    (16 * Z.of_nat k) sizeof_dirent (new_entry name inum)); try done; try (unfold sizeof_dirent; lia)| |done].
  { by rewrite length_new_entry. }
  { constructor. }
  { apply Forall_app. split; [apply le_bytes_is_byte|by apply strncpy_bytes_byte]. }
  { unfold sizeof_dirent. by rewrite rounds_dent by lia. }
  intros r s3 (-> & O3 & bl3 & c3 & x3 & Hl3 & H3 & W3). change (negb (sizeof_dirent =? sizeof_dirent)) with false. cbv iota.
  apply wpc_wp, wp_ret. split; [done|]. split.
  { etrans; [apply io_ino, O1|]. etrans; [apply io_ino, O2|]. done. }
  exists bl3, c3, x3. unfold sizeof_dirent in Hl3. rewrite rounds_dent in Hl3 by lia. split_and!; [done|done|].
  apply linked_intro; try done; apply H.
Qed.

(** The table after a reference is taken and dropped again. *)
Lemma igot_drop t inum ip t' : itable_ok t -> igot dev inum t = Some (ip, t') ->
  (i_ref (t' !!! ip) =? 1) && z2b (i_valid (t' !!! ip)) && (i_nlink (t' !!! ip) =? 0) = false /\
  forall j y, t !! j = Some y -> 0 < i_ref y -> alter (fun x => set_i_ref (i_ref x - 1) x) ip t' !! j = Some y.
Proof.
  intros Hu Hg. destruct (igot_some _ _ _ _ _ Hu Hg) as (x & x' & Hx & -> & _ & _ & Hcase).
  pose proof (lookup_lt_Some _ _ _ Hx) as Hlt. rewrite list_lookup_total_insert_eq by done. split.
  - destruct Hcase as [[(Hr & _) ->]|(_ & -> & -> & _)]; [|done]. simpl. by rewrite (proj2 (Z.eqb_neq _ _)) by lia.
  - intros j y Hy Hr. destruct (decide (j = ip)) as [->|Hne].
    + rewrite list_lookup_alter_eq, list_lookup_insert_eq by done. simpl. simplify_eq.
      destruct Hcase as [[_ ->]|(? & _)]; [|lia]. f_equal. simpl. rewrite Z.add_simpl_r. by destruct x.
    + by rewrite list_lookup_alter_ne, list_lookup_insert_ne.
Qed.

Lemma dirlink_dup L bl d c sb dp x s name inum :
  at_file (dev := dev) (p := p) L bl d c sb dp x s -> room L 0 bl -> dir_ok c x -> length (k_itable s) = NINODE ->
  itable_ok (k_itable s) -> 0 < i_ref x -> dir_find (dents c x) name <> None ->
  wpc (dirlink dp name inum) (fun r s' => r = -1 /\ at_file (dev := dev) (p := p) L bl d c sb dp x s' /\
    forall j y, k_itable s !! j = Some y -> 0 < i_ref y -> k_itable s' !! j = Some y)
    (fun msg _ => msg = "iget: no inodes") s.
Proof.
  intros H Hr HD Hlen Hu Hrx Hsome. unfold dirlink. apply wpc_bind.
  eapply wpc_mono; [apply (dirlookup_spec (dev := dev) (p := p) L bl d c sb dp x s name); done| |by intros msg s' [-> _]].
  intros r s' (s1 & H1 & O1 & Hm). destruct (list_find (same_name name) (dents c x)) as [[k e]|] eqn:Ef.
  2:{ exfalso. apply Hsome. unfold dir_find. by rewrite Ef. }
  destruct Hm as (ip & t' & Hg & -> & ->). destruct (igot_drop _ _ _ _ Hu Hg) as [Hc Hkeep].
  apply wpc_bind, wpc_wp. eapply wp_eq; [apply iput_drop; [|done]|].
  { change (k_held (set_k_itable t' s1)) with (k_held s1).
    rewrite (at_file_unlocked _ _ _ _ _ _ _ _ H1). apply not_elem_of_nil. }
  apply wpc_wp, wp_ret. split; [done|]. split; [|done]. destruct H1 as [T1 Hsb1 F1 Hx1 Hd1 FI1].
  constructor; [by apply ftxn_itable, ftxn_itable|done|done| |done|done].
  apply (Hkeep dp x); [|done]. by apply H.
Qed.

(** C10: the inode table never has two live entries for one inode, and [iget]
    finds the one there is.  From a table with that property [iget] takes
    another reference on the live entry of the inode, or makes a free entry its
    entry, not yet read from disk, with one reference; every other entry is
    unchanged and the property is kept.  It panics only when every entry is live
    and none is for the inode. *)
Theorem iget_unique inum s : length (k_itable s) = NINODE -> LItable ∉ k_held s -> itable_ok (k_itable s) ->
  wpc (iget dev inum)
    (fun ip s' => exists x x', k_itable s !! ip = Some x /\ s' = set_k_itable (<[ip := x']> (k_itable s)) s /\
       itable_ok (k_itable s') /\ i_dev x' = dev /\ i_inum x' = inum /\
       (entry_for dev inum x /\ x' = set_i_ref (i_ref x + 1) x \/
        i_ref x = 0 /\ i_ref x' = 1 /\ i_valid x' = 0 /\ forall j y, k_itable s !! j = Some y -> ~ entry_for dev inum y))
    (fun msg _ => msg = "iget: no inodes" /\ forall j y, k_itable s !! j = Some y -> i_ref y <> 0 /\ ~ entry_for dev inum y) s.
Proof.
  intros Hl Hh Hu. unfold wpc. rewrite iget_run by done. destruct (igot dev inum (k_itable s)) as [[ip t']|] eqn:Eg.
  - destruct (igot_some _ _ _ _ _ Hu Eg) as (x & x' & Hx & Et & Hd & Hi & Hc). exists x, x'.
    split_and!; try done; [by rewrite <- Et|]. by eapply igot_ok.
  - split; [done|]. intros j y Hy. unfold igot in Eg. destruct (list_find (entry_for dev inum) (k_itable s)) as [[? ?]|] eqn:E1; [done|].
    destruct (list_find free_entry (k_itable s)) as [[? ?]|] eqn:E2; [done|].
    rewrite list_find_None in E1, E2. split; [by apply (Forall_lookup_1 _ _ _ _ E2 Hy)|by apply (Forall_lookup_1 _ _ _ _ E1 Hy)].
Qed.

(** C5: a directory is a map from names to inodes.  [dirlookup] returns the
    entry of the name, with a reference on its inode, exactly when the map has
    one, and changes no block.  [dirlink] of a new name adds it to the map, with
    every other name as before and no block outside the directory and its inode
    changed, or the disk is full; [dirlink] of a name that is there is refused
    with -1, leaving the disk and every live inode as they were.  Names are
    compared by their first [DIRSIZ] bytes. *)
Theorem directory_map L bl d c sb dp x s name :
  at_file (dev := dev) (p := p) L bl d c sb dp x s -> room L 7 bl -> dir_ok c x -> length (k_itable s) = NINODE ->
  itable_ok (k_itable s) -> 0 < i_ref x -> Forall is_byte name ->
  wpc (dirlookup dp name)
    (fun r s' => match dir_find (dents c x) name with
       | None => r = None /\ at_file (dev := dev) (p := p) L bl d c sb dp x s'
       | Some inum => exists ip off, r = Some (ip, off) /\ 0 <= off < i_size x /\ entry_for dev inum (k_itable s' !!! ip) /\ itable_ok (k_itable s') /\
           ftxn (dev := dev) (p := p) L bl ∅ d c s'
       end)
    (fun msg _ => msg = "iget: no inodes") s /\
  (forall inum, inode_place sb (i_inum x) -> dinode_ok (inode_dinode x) -> i_size x + 16 <= MAXFILE * BSIZE ->
   0 < inum < 65536 -> dir_find (dents c x) name = None ->
   wpc (dirlink dp name inum) (fun r s' => r = 0 /\ ino_only dp s s' /\ exists bl' c' x', longer 7 bl bl' /\
     at_file (dev := dev) (p := p) L bl' d c' sb dp x' s' /\ linked sb name inum c x c' x') no_blocks s) /\
  (forall inum, dir_find (dents c x) name <> None ->
   wpc (dirlink dp name inum) (fun r s' => r = -1 /\ at_file (dev := dev) (p := p) L bl d c sb dp x s' /\
     forall j y, k_itable s !! j = Some y -> 0 < i_ref y -> k_itable s' !! j = Some y)
     (fun msg _ => msg = "iget: no inodes") s).
Proof.
  intros H Hr HD Hlen Hu Hrx Hn. assert (room L 0 bl) as Hr0 by (eapply room_mono; [done|lia]).
  split; [|split; intros; [by eapply dirlink_new|by eapply dirlink_dup]].
  eapply wpc_mono; [apply (dirlookup_spec (dev := dev) (p := p) L bl d c sb dp x s name); done| |by intros msg s' [-> _]].
  intros r s' (s1 & H1 & O1 & Hm). unfold dir_find. destruct (list_find (same_name name) (dents c x)) as [[k e]|] eqn:Ef; simpl.
  - destruct Hm as (ip & t' & Hg & -> & ->). exists ip, (16 * Z.of_nat k).
    apply list_find_Some in Ef as (Hk%lookup_lt_Some & _ & _). rewrite length_dents in Hk.
    pose proof (di_size _ _ HD). pose proof (Z.div_mod (i_size x) 16 ltac:(lia)) as Hd. rewrite (di_whole _ _ HD) in Hd.
    split_and!; [done|lia|lia| |by eapply igot_ok|apply ftxn_itable, H1].
    destruct (igot_some _ _ _ _ _ Hu Hg) as (y & y' & Hy & -> & Hd' & Hi' & Hc). simpl.
    rewrite list_lookup_total_insert_eq by (by eapply lookup_lt_Some). split_and!; [|done|done].
    destruct Hc as [[(Hry & _) ->]|(_ & -> & _)]; simpl; lia.
  - by destruct Hm as [-> ->].
Qed.
End Link.

Module DirDemo.
#[local] Instance still : Env := fun _ _ => None.
#[local] Instance perfect : Disk := disk_transfer.
#[local] Instance perfect_reads : ReadsBlocks perfect.
Proof. intros b. reflexivity. Qed.
#[local] Existing Instance kernel_sym.

(** A directory of two empty entries in block 47, alone in the inode table. *)
Definition x1 : inode := set_i_type T_DIR (set_i_size 32 FilesDemo.x1).
Definition table : list inode := x1 :: replicate 49 inode0.
Definition s2 : kernel := set_k_itable table BlocksDemo.s1.

Lemma table_ok : itable_ok table.
Proof.
  assert (forall i x, table !! i = Some x -> 0 < i_ref x -> i = O) as H.
  { intros [|i] x; [done|]. change (table !! S i) with (replicate 49 inode0 !! i). intros [-> _]%lookup_replicate Hr. by vm_compute in Hr. }
  intros i j x y Hx Hy Rx Ry _ _. by rewrite (H i x Hx Rx), (H j y Hy Ry).
Qed.

Lemma dir_at_table s : in_txn 1 O [] ∅ BlocksDemo.d1 BlocksDemo.d1 s -> k_sb s = BlocksDemo.sb1 -> l_size (k_log s) = 30 ->
  at_file (dev := 1) (p := O) 30 [] BlocksDemo.d1 BlocksDemo.d1 BlocksDemo.sb1 O x1 (set_k_itable table s).
Proof.
  intros H Hsb Hl. constructor; [|exact Hsb|apply FilesDemo.fs1|reflexivity|reflexivity|apply FilesDemo.file1].
  apply ftxn_itable. constructor; [exact H|exact Hl].
Qed.

Lemma dir_at1 : at_file (dev := 1) (p := O) 30 [] BlocksDemo.d1 BlocksDemo.d1 BlocksDemo.sb1 O x1 s2.
Proof.
  destruct BlocksDemo.s1_txn as (H & Hsb & Hl). apply dir_at_table; [exact H|exact Hsb|]. rewrite Hl. reflexivity.
Qed.

Lemma dir1 : dir_ok BlocksDemo.d1 x1.
Proof.
  constructor; [reflexivity|by split|reflexivity|]. intros bn Hbn Hlt. change (i_size x1) with 32 in Hlt. unfold BSIZE in Hlt.
  assert (bn = 0) as -> by lia. change (i_addrs x1) with (i_addrs FilesDemo.x1). by rewrite FilesDemo.amap1.
Qed.

Lemma iget_unique_witness : exists ip s', iget 1 5 s2 = Ok ip s' /\ entry_for 1 5 (k_itable s' !!! ip) /\ itable_ok (k_itable s').
Proof.
  pose proof (iget_unique (dev := 1) 5 s2 eq_refl) as H. unfold wpc in H.
  assert (LItable ∉ k_held s2) as Hh.
  { rewrite (at_file_unlocked _ _ _ _ _ _ _ _ dir_at1). apply not_elem_of_nil. }
  specialize (H Hh table_ok). destruct (iget 1 5 s2) as [ip s'|msg s'| |]; [|exfalso|destruct H|destruct H].
  - exists ip, s'. split; [reflexivity|]. destruct H as (x & x' & Hx & -> & Hok & Hd & Hi & Hc). split; [|exact Hok].
    change (k_itable (set_k_itable (<[ip := x']> (k_itable s2)) s2)) with (<[ip := x']> (k_itable s2)).
    rewrite list_lookup_total_insert_eq by (exact (lookup_lt_Some _ _ _ Hx)). split; [|split; [exact Hd|exact Hi]].
    clear Hx Hok. destruct Hc as [[(Hr & _) ->]|(_ & -> & _)]; [simpl; lia|lia].
  - destruct H as [_ H]. destruct (H 1%nat inode0 eq_refl) as [H0 _]. by apply H0.
Defined.

Lemma directory_map_witness :
  wpc (dirlookup O [97]) (fun r _ => r = None) (fun msg _ => msg = "iget: no inodes") s2 /\
  wpc (dirlink O [97] 3) (fun r s' => r = 0 /\ exists c x, dir_find (dents c x) [97] = Some 3) no_blocks s2.
Proof.
  assert (room 30 7 []) as Hr by (split; unfold LOGSIZE, MAXOPBLOCKS; simpl; lia).
  assert (Forall is_byte [97]) as Hb by (repeat constructor; lia).
  assert (dir_find (dents BlocksDemo.d1 x1) [97] = None) as Hf by (vm_compute; reflexivity).
  assert (0 < i_ref x1) as Hx by (vm_compute; reflexivity).
  destruct (directory_map 30 [] BlocksDemo.d1 BlocksDemo.d1 BlocksDemo.sb1 O x1 s2 [97] dir_at1 Hr dir1 eq_refl table_ok Hx Hb) as (H1 & H2 & _).
  rewrite Hf in H1. split.
  - eapply wpc_mono; [exact H1|intros r s' [-> _]; reflexivity|intros msg s' Hm; exact Hm].
  - clear H1. eapply wpc_mono; [apply (H2 3)| |intros msg s' Hm; exact Hm]; clear H2.
    + by split.
    + constructor; try (split; vm_compute; [discriminate|reflexivity]); [reflexivity|]. repeat constructor; lia.
    + change (MAXFILE * BSIZE) with 274432. change (i_size x1) with 32. lia.
    + lia.
    + exact Hf.
    + intros r s' (-> & _ & bl & c & x & _ & _ & Hln). split; [reflexivity|]. exists c, x.
      rewrite (ln_find _ _ _ _ _ _ _ Hln) by exact Hb. rewrite decide_True by reflexivity. reflexivity.
Defined.
End DirDemo.
