(* ===== verification/UserLib.v ===== *)
(** * The user library: user/ulib.c, user/printf.c and the system calls

    A user program is a computation over a world [W] that it changes by system
    calls only; [Sys] is what the kernel offers it.  [exit] and a successful
    [exec] do not return.  [fork child] starts [child] as a new process: the
    code that a C program runs when [fork] gives 0.  Buffers that a call reads
    from or stores to are lists of bytes; a string is the bytes before its
    terminator, and every read past the end of a string is NUL. *)

From S2P Require Import Prelude Bytes Params CString.

Record ustat := mk_ustat { st_dev : Z; st_ino : Z; st_type : Z; st_nlink : Z; st_size : Z }.
Record upstat := mk_upstat { up_pid : Z; up_state : Z; up_size : Z; up_ppid : Z; up_name : list Z }.

Class Sys (W : Type) : Type := {
  exit : forall {A}, Z -> M W A;
  fork : M W unit -> M W Z;
  wait : M W (Z * Z);                       (* pid, exit status *)
  wait2 : M W (Z * Z * Z);                  (* pid, exit status, cpu time *)
  exec : list Z -> list (list Z) -> M W Z;
  write : Z -> list Z -> M W Z;
  read : Z -> Z -> M W (Z * list Z);        (* result, bytes stored *)
  open : list Z -> Z -> M W Z;
  close : Z -> M W Z;
  dup : Z -> M W Z;
  pipe : M W (Z * Z * Z);                   (* result, the two descriptors *)
  fstat : Z -> M W (Z * ustat);
  mknod : list Z -> Z -> Z -> M W Z;
  unlink : list Z -> M W Z;
  link : list Z -> list Z -> M W Z;
  mkdir : list Z -> M W Z;
  chdir : list Z -> M W Z;
  kill : Z -> M W Z;
  sleep : Z -> M W Z;
  uptime : M W Z;
  getprocs : M W (Z * list upstat);
  setpriority : Z -> M W Z;
  getpid : M W Z;
  sbrk : Z -> M W Z;                        (* the old end of the memory *)
}.

(** What a program may rely on when it reads a file [fd] to the end and prints:
    a read takes a non-empty prefix of what is left ([inp]), at most as long as
    asked, and nothing only at the end; a write to descriptor 1 adds to what was
    printed ([out]). *)
Class Stream {W : Type} (S : Sys W) (fd : Z) (inp out : W -> list Z) : Prop := {
  stream_read : forall n w, 0 <= n ->
    wp (read fd n) (fun r w' => inp w = r.2 ++ inp w' /\ r.1 = Z.of_nat (length r.2) /\ r.1 <= n /\
      (r.2 = [] -> n = 0 \/ inp w = []) /\ out w' = out w) w;
  stream_write : forall bs w, wp (write 1 bs) (fun _ w' => out w' = out w ++ bs /\ inp w' = inp w) w;
}.

(** ** ulib.c *)

Module Ulib.

(** The bytes [strcpy] stores. *)
Fixpoint strcpy_bytes (t : list Z) : list Z :=
  match t with
  | [] => [0]
  | c :: t' => if c =? 0 then [0] else c :: strcpy_bytes t'
  end.
Definition strcpy (s t : list Z) : list Z := splice s 0 (strcpy_bytes t).

Fixpoint strcmp (p q : list Z) : Z :=
  match p with
  | [] => u8 0 - u8 (hd0 q)
  | a :: p' => if negb (a =? 0) && (a =? hd0 q) then strcmp p' (tail q) else u8 a - u8 (hd0 q)
  end.

Fixpoint strlen (s : list Z) : Z :=
  match s with
  | [] => 0
  | c :: s' => if c =? 0 then 0 else 1 + strlen s'
  end.

Fixpoint memset_loop (k : nat) (cdst i c : Z) (m : gmap Z Z) : gmap Z Z :=
  match k with
  | O => m
  | S k' => memset_loop k' cdst (i + 1) c (<[cdst + i := u8 c]> m)
  end.
Definition memset (m : gmap Z Z) (dst c n : Z) : gmap Z Z := memset_loop (Z.to_nat n) dst 0 c m.

(** The index of the first [c]; none for the terminator. *)
Fixpoint strchr (s : list Z) (c : Z) : option nat :=
  match s with
  | [] => None
  | a :: s' => if a =? 0 then None else if a =? c then Some O else S <$> strchr s' c
  end.

Fixpoint atoi_loop (s : list Z) (n : Z) : Z :=
  match s with
  | [] => n
  | c :: s' => if (48 <=? c) && (c <=? 57) then atoi_loop s' (i32 (n * 10 + c - 48)) else n
  end.
Definition atoi (s : list Z) : Z := atoi_loop s 0.

Definition memmove (m : gmap Z Z) (dst src n : Z) : gmap Z Z :=
  if src >? dst then copy_forward (Z.to_nat n) dst src m
  else copy_backward (Z.to_nat n) (dst + n) (src + n) m.

Fixpoint memcmp_loop (k : nat) (p1 p2 : Z) (m : gmap Z Z) : Z :=
  match k with
  | O => 0
  | S k' => if negb (ldb m p1 =? ldb m p2) then ldb m p1 - ldb m p2 else memcmp_loop k' (p1 + 1) (p2 + 1) m
  end.
Definition memcmp (m : gmap Z Z) (s1 s2 n : Z) : Z := memcmp_loop (Z.to_nat n) s1 s2 m.

Definition memcpy (m : gmap Z Z) (dst src n : Z) : gmap Z Z := memmove m dst src (i32 n).

Section Calls.
Context {W : Type} `{S : Sys W}.

(** The string read into [buf], which has [max] bytes. *)
Definition gets (buf : list Z) (max : Z) : M W (list Z) :=
  let* (i, buf) := loop (fun '(i, buf) =>
    if negb (i + 1 <? max) then ret (inr (i, buf)) else
    let* (cc, b) := read 0 1 in
    if cc <? 1 then ret (inr (i, buf)) else
    let c := hd0 b in
    let buf := <[Z.to_nat i := c]> buf in
    if (c =? 10) || (c =? 13) then ret (inr (i + 1, buf)) else ret (inl (i + 1, buf))) (0, buf) in
  ret (<[Z.to_nat i := 0]> buf).

Definition stat (n : list Z) : M W (Z * ustat) :=
  fd <- open n O_RDONLY ;;
  if fd <? 0 then ret (-1, mk_ustat 0 0 0 0 0) else
  r <- fstat fd ;;
  close fd ;;
  ret r.
End Calls.
End Ulib.

(** ** printf.c *)

Inductive uarg := AInt (x : Z) | AStr (s : option (list Z)).

Module Uprintf.
Definition digits : list Z := str "0123456789ABCDEF".

Definition arg_int (a : option uarg) : Z := match a with Some (AInt x) => x | _ => 0 end.
Definition arg_str (a : option uarg) : list Z := match a with Some (AStr (Some s)) => s | _ => str "(null)" end.

(** The digits of [x], least significant first. *)
Fixpoint digit_loop (fuel : nat) (x base : Z) : list Z :=
  match fuel with
  | O => []
  | S f => digits !!! Z.to_nat (x mod base) :: (if x / base =? 0 then [] else digit_loop f (x / base) base)
  end.

Definition printint_chars (xx base sgn : Z) : list Z :=
  let neg := z2b sgn && (xx <? 0) in
  let x := if neg then u32 (- xx) else u32 xx in
  rev (digit_loop 32 x base ++ (if neg then [45] else [])).

Definition printptr_chars (x : Z) : list Z :=
  (fun i => digits !!! Z.to_nat (Z.shiftr (u64 (Z.shiftl x (4 * Z.of_nat i))) 60)) <$> seq 0 16.

Section Printf.
Context {W : Type} `{S : Sys W}.

Definition putc (fd c : Z) : M W unit := write fd [u8 c] ;; ret tt.

Definition printint (fd xx base sgn : Z) : M W unit := for_all (printint_chars xx base sgn) (putc fd).

Definition printptr (fd x : Z) : M W unit :=
  putc fd 48 ;; putc fd 120 ;; for_all (printptr_chars x) (putc fd).

(** [pct] is the variable [state]: a '%' has just been read. *)
Fixpoint vprintf_loop (fd : Z) (fmt : list Z) (pct : bool) (ap : list uarg) : M W unit :=
  match fmt with
  | [] => ret tt
  | ch :: fmt' =>
      if ch =? 0 then ret tt else
      let c := Z.land ch 255 in
      if negb pct then
        if c =? 37 then vprintf_loop fd fmt' true ap else putc fd c ;; vprintf_loop fd fmt' false ap
      else if c =? 100 then printint fd (i32 (arg_int (head ap))) 10 1 ;; vprintf_loop fd fmt' false (tail ap)
      else if c =? 108 then printint fd (i32 (arg_int (head ap))) 10 0 ;; vprintf_loop fd fmt' false (tail ap)
      else if c =? 120 then printint fd (i32 (arg_int (head ap))) 16 0 ;; vprintf_loop fd fmt' false (tail ap)
      else if c =? 112 then printptr fd (u64 (arg_int (head ap))) ;; vprintf_loop fd fmt' false (tail ap)
      else if c =? 115 then for_all (cstr (arg_str (head ap))) (putc fd) ;; vprintf_loop fd fmt' false (tail ap)
      else if c =? 99 then putc fd (arg_int (head ap)) ;; vprintf_loop fd fmt' false (tail ap)
      else if c =? 37 then putc fd c ;; vprintf_loop fd fmt' false ap
      else putc fd 37 ;; putc fd c ;; vprintf_loop fd fmt' false ap
  end.

Definition vprintf (fd : Z) (fmt : list Z) (ap : list uarg) : M W unit := vprintf_loop fd fmt false ap.
Definition fprintf (fd : Z) (fmt : list Z) (ap : list uarg) : M W unit := vprintf fd fmt ap.
Definition printf (fmt : list Z) (ap : list uarg) : M W unit := vprintf 1 fmt ap.
End Printf.
End Uprintf.

(** A machine with one input and one output: reads deliver at most seven bytes. *)
Module OneFile.
Definition world : Type := list Z * list Z.

#[export] Instance sys : Sys world := {|
  exit := fun _ _ => panic "exit";
  fork := fun _ => ret (-1);
  wait := ret (-1, 0);
  wait2 := ret (-1, 0, 0);
  exec := fun _ _ => ret (-1);
  write := fun fd bs => modify (fun '(i, o) => (i, if fd =? 1 then o ++ bs else o)) ;; ret (Z.of_nat (length bs));
  read := fun _ n => i <- gets fst ;;
    let bs := take (Z.to_nat (Z.min n 7)) i in
    modify (fun '(i, o) => (drop (length bs) i, o)) ;;
    ret (Z.of_nat (length bs), bs);
  open := fun _ _ => ret (-1);
  close := fun _ => ret 0;
  dup := fun _ => ret (-1);
  pipe := ret (-1, 0, 0);
  fstat := fun _ => ret (-1, mk_ustat 0 0 0 0 0);
  mknod := fun _ _ _ => ret (-1);
  unlink := fun _ => ret (-1);
  link := fun _ _ => ret (-1);
  mkdir := fun _ => ret (-1);
  chdir := fun _ => ret (-1);
  kill := fun _ => ret (-1);
  sleep := fun _ => ret 0;
  uptime := ret 0;
  getprocs := ret (0, []);
  setpriority := fun _ => ret 0;
  getpid := ret 1;
  sbrk := fun _ => ret (-1);
|}.

#[export] Instance stream : Stream sys 0 fst snd.
Proof.
  split.
  - intros n [i o] Hn. unfold wp. simpl. set (bs := take _ i).
    assert (length bs <= Z.to_nat (Z.min n 7))%nat by (unfold bs; rewrite length_take; lia).
    split_and!; [|done|lia| |done].
    + unfold bs. rewrite length_take. destruct (decide (Z.to_nat (Z.min n 7) <= length i)%nat).
      * by rewrite Nat.min_l, take_drop by done.
      * rewrite Nat.min_r, drop_all, take_ge by lia. by rewrite app_nil_r.
    + unfold bs. intros He%(f_equal length). rewrite length_take in He. simpl in He.
      destruct i; [by right|]. left. simpl in He. lia.
  - intros bs [i o]. done.
Qed.
End OneFile.
