(* ===== verification/Grep.v ===== *)
(** * user/grep.c: the pattern matcher and the filter

    The matcher is Kernighan and Pike's; a pattern denotes a regular expression
    ([compile]) with the usual language semantics, and [match_] decides whether
    the text is in the language.  [grep] reads a file through a buffer of 1024
    bytes and writes the lines that match. *)

From S2P Require Import Prelude Bytes Params CString UserLib.

Definition c_star : Z := 42.
Definition c_dot : Z := 46.
Definition c_dollar : Z := 36.
Definition c_caret : Z := 94.
Definition c_nl : Z := 10.

(** ** The matcher *)

(** The loop of [matchstar], for what the rest of the pattern matches. *)
Fixpoint matchstar_loop (here : list Z -> bool) (c : Z) (text : list Z) : bool :=
  if here text then true else
  match text with
  | [] => false
  | t :: text' => if negb (t =? 0) && ((t =? c) || (c =? c_dot)) then matchstar_loop here c text' else false
  end.

Fixpoint matchhere (re text : list Z) {struct re} : bool :=
  match re with
  | [] => true
  | r0 :: re1 =>
      if r0 =? 0 then true else
      let one :=
        if (r0 =? c_dollar) && (hd0 re1 =? 0) then hd0 text =? 0
        else if negb (hd0 text =? 0) && ((r0 =? c_dot) || (r0 =? hd0 text)) then matchhere re1 (tail text)
        else false in
      match re1 with
      | r1 :: re2 => if r1 =? c_star then matchstar_loop (matchhere re2) r0 text else one
      | [] => one
      end
  end.

Definition matchstar (c : Z) (re text : list Z) : bool := matchstar_loop (matchhere re) c text.

Fixpoint match_loop (re text : list Z) : bool :=
  if matchhere re text then true else
  match text with
  | [] => false
  | t :: text' => if negb (t =? 0) then match_loop re text' else false
  end.

Definition match_ (re text : list Z) : bool :=
  if hd0 re =? c_caret then matchhere (tail re) text else match_loop re text.

(** ** The filter *)

Definition bufsize : nat := 1024.

Section Grep.
Context {W : Type} `{S : Sys W}.

(** The lines of [buf] from [p]: where the unfinished one starts, and the buffer. *)
Definition grep_lines (pattern : list Z) (p : nat) (buf : list Z) : M W (nat * list Z) :=
  loop (fun '(p, buf) =>
    match Ulib.strchr (drop p buf) c_nl with
    | None => ret (inr (p, buf))
    | Some k =>
        let q := (p + k)%nat in
        let buf := <[q := 0]> buf in
        if match_ pattern (drop p buf) then
          let buf := <[q := c_nl]> buf in
          write 1 (slice buf p (q + 1 - p)) ;;
          ret (inl ((q + 1)%nat, buf))
        else ret (inl ((q + 1)%nat, buf))
    end) (p, buf).

Definition grep (pattern : list Z) (fd : Z) (buf : list Z) : M W (list Z) :=
  loop (fun '(m, buf) =>
    let* (n, bytes) := read fd (Z.of_nat bufsize - m - 1) in
    let buf := splice buf (Z.to_nat m) bytes in
    if negb (n >? 0) then ret (inr buf) else
    let m := m + n in
    let buf := <[Z.to_nat m := 0]> buf in
    let* (p, buf) := grep_lines pattern 0 buf in
    if m >? 0 then
      let m := m - Z.of_nat p in
      ret (inl (m, splice buf 0 (slice buf p (Z.to_nat m))))
    else ret (inl (m, buf))) (0, buf).

Fixpoint grep_files (pattern : list Z) (files : list (list Z)) (buf : list Z) : M W unit :=
  match files with
  | [] => ret tt
  | f :: files' =>
      fd <- open f 0 ;;
      if fd <? 0 then
        Uprintf.printf (str "grep: cannot open %s" ++ [10]) [AStr (Some f)] ;;
        exit 1
      else
        buf <- grep pattern fd buf ;;
        close fd ;;
        grep_files pattern files' buf
  end.

Definition grep_main (argv : list (list Z)) : M W unit :=
  let buf := replicate bufsize 0 in
  match argv with
  | _ :: pattern :: files =>
      match files with
      | [] => grep pattern 0 buf ;; exit 0
      | _ => grep_files pattern files buf ;; exit 0
      end
  | _ =>
      Uprintf.fprintf 2 (str "usage: grep pattern [file ...]" ++ [10]) [] ;;
      exit 1
  end.
End Grep.

(** ** Regular expressions *)

Inductive rexp :=
  | Eps
  | Chr (f : Z -> bool)
  | Cat (r1 r2 : rexp)
  | Star (f : Z -> bool).

Fixpoint lang (r : rexp) (s : list Z) : Prop :=
  match r with
  | Eps => s = []
  | Chr f => exists c, s = [c] /\ f c = true
  | Cat r1 r2 => exists s1 s2, s = s1 ++ s2 /\ lang r1 s1 /\ lang r2 s2
  | Star f => Forall (fun c => f c = true) s
  end.

Definition any (_ : Z) : bool := true.

(** What one character of a pattern stands for. *)
Definition class_of (r c : Z) : bool := (r =? c_dot) || (r =? c).

(** The meaning of a pattern after its anchor: [x*] repeats, [$] at the end
    asks for the end of the text, which otherwise may go on. *)
Fixpoint compile_here (re : list Z) : rexp :=
  match re with
  | [] => Star any
  | r0 :: re1 =>
      match re1 with
      | [] => if r0 =? c_dollar then Eps else Cat (Chr (class_of r0)) (compile_here re1)
      | r1 :: re2 =>
          if r1 =? c_star then Cat (Star (class_of r0)) (compile_here re2)
          else Cat (Chr (class_of r0)) (compile_here re1)
      end
  end.

Definition compile (re : list Z) : rexp :=
  match re with
  | r0 :: re1 => if r0 =? c_caret then compile_here re1 else Cat (Star any) (compile_here re)
  | [] => Star any
  end.

Definition nonul (s : list Z) : Prop := Forall (fun c => c <> 0) s.

Lemma cstr_nonul s : nonul (cstr s).
Proof. induction s as [|c s IH]; simpl; [constructor|]. destruct (Z.eqb_spec c 0); by constructor. Qed.

Lemma star_lang (h : list Z -> bool) (P : list Z -> Prop) c s :
  (forall t, nonul t -> h t = true <-> P t) -> nonul s ->
  matchstar_loop h c s = true <-> exists s1 s2, s = s1 ++ s2 /\ Forall (fun x => class_of c x = true) s1 /\ P s2.
Proof.
  intros Hh Hs. induction Hs as [|x s Hx Hs IH]; simpl.
  - specialize (Hh [] ltac:(constructor)). destruct (h []).
    + split; [|done]. intros _. exists [], []. split_and!; [done|constructor|by apply Hh].
    + split; [done|]. intros (s1 & s2 & [-> ->]%eq_sym%app_nil & _ & HP). by apply Hh in HP.
  - pose proof (Hh (x :: s) ltac:(by constructor)) as Hxs. destruct (h (x :: s)).
    + split; [|done]. intros _. exists [], (x :: s). split_and!; [done|constructor|by apply Hxs].
    + rewrite (proj2 (Z.eqb_neq x 0) Hx). cbn [negb andb].
      replace ((x =? c) || (c =? c_dot)) with (class_of c x) by (unfold class_of; by rewrite orb_comm, (Z.eqb_sym x)).
      split.
      * destruct (class_of c x) eqn:E; [|done]. intros (s1 & s2 & -> & H1 & H2)%IH. exists (x :: s1), s2. by split_and!; [|constructor|].
      * intros ([|y s1] & s2 & He & H1 & H2); simplify_eq/=; [by apply Hxs in H2|].
        inversion_clear H1 as [|? ? E H1']. rewrite E. apply IH. by exists s1, s2.
Qed.

Lemma lang_any s : lang (Star any) s.
Proof. apply Forall_true. done. Qed.

(** The case of a single character. *)
Lemma one_lang r0 re1 s :
  (forall t, nonul t -> matchhere re1 t = true <-> lang (compile_here re1) t) -> nonul s ->
  (if negb (hd0 s =? 0) && ((r0 =? c_dot) || (r0 =? hd0 s)) then matchhere re1 (tail s) else false) = true <->
  lang (Cat (Chr (class_of r0)) (compile_here re1)) s.
Proof.
  intros IH [|x s' Hx Hs]; cbn [hd0 tail].
  - split; [done|]. intros (s1 & s2 & [-> ->]%eq_sym%app_nil & (? & ? & _) & _). done.
  - rewrite (proj2 (Z.eqb_neq x 0) Hx). cbn [negb andb]. fold (class_of r0 x). split.
    + destruct (class_of r0 x) eqn:E; [|done]. intros Hm%IH; [|done]. exists [x], s'. split_and!; [done|by exists x|done].
    + intros (? & s2 & He & (y & -> & E) & Hl). simplify_eq/=. rewrite E. by apply IH.
Qed.

Lemma matchhere_lang re s : nonul re -> nonul s -> matchhere re s = true <-> lang (compile_here re) s.
Proof.
  remember (length re) as n eqn:Hn. revert re s Hn. induction n as [n IH] using lt_wf_ind. intros [|r0 re1] s -> Hre Hs.
  - split; [intros _; apply lang_any|done].
  - inversion_clear Hre as [|? ? H0 Hre1]. cbn [matchhere compile_here]. rewrite (proj2 (Z.eqb_neq r0 0) H0).
    assert (forall t, nonul t -> matchhere re1 t = true <-> lang (compile_here re1) t) as IH1.
    { intros t Ht. apply (IH (length re1)); simpl; done || lia. }
    pose proof (one_lang r0 re1 s IH1 Hs) as Hone. destruct re1 as [|r1 re2]; cbn [hd0] in *.
    + rewrite andb_true_r. destruct (r0 =? c_dollar); [|done]. simpl. destruct Hs as [|x s Hx _]; [done|].
      simpl. split; [|done]. intros He%Z.eqb_eq. done.
    + inversion_clear Hre1 as [|? ? H1 Hre2]. rewrite (proj2 (Z.eqb_neq r1 0) H1), andb_false_r.
      destruct (r1 =? c_star); [|done]. apply star_lang; [|done].
      intros t Ht. apply (IH (length re2)); simpl; done || lia.
Qed.

Lemma match_loop_lang re s : nonul re -> nonul s -> match_loop re s = true <-> lang (Cat (Star any) (compile_here re)) s.
Proof.
  intros Hre Hs. induction Hs as [|x s Hx Hs IH]; simpl.
  - pose proof (matchhere_lang re [] Hre ltac:(constructor)) as Hm. destruct (matchhere re []).
    + split; [|done]. intros _. exists [], []. split_and!; [done|constructor|by apply Hm].
    + split; [done|]. intros (s1 & s2 & [-> ->]%eq_sym%app_nil & _ & Hl). by apply Hm in Hl.
  - pose proof (matchhere_lang re (x :: s) Hre ltac:(by constructor)) as Hm. destruct (matchhere re (x :: s)).
    + split; [|done]. intros _. exists [], (x :: s). split_and!; [done|constructor|by apply Hm].
    + rewrite (proj2 (Z.eqb_neq x 0) Hx). cbn [negb]. rewrite IH. split.
      * intros (s1 & s2 & -> & H1 & H2). exists (x :: s1), s2. by split_and!; [|constructor|].
      * intros ([|y s1] & s2 & He & H1 & H2); simplify_eq/=; [by apply Hm in H2|].
        inversion_clear H1. by exists s1, s2.
Qed.

(** Only the bytes before the terminator count. *)
Lemma matchstar_cstr h h' c s :
  (forall t, h t = h' (cstr t)) -> matchstar_loop h c s = matchstar_loop h' c (cstr s).
Proof.
  intros Hh. induction s as [|x s IH].
  - simpl. by rewrite Hh.
  - cbn [matchstar_loop]. rewrite Hh. cbn [cstr]. destruct (x =? 0) eqn:E; simpl; [done|]. by rewrite E, IH.
Qed.

Lemma hd0_cstr s : hd0 (cstr s) = hd0 s.
Proof. destruct s as [|x s]; simpl; [done|]. destruct (Z.eqb_spec x 0); by simpl. Qed.

Lemma tail_cstr s : hd0 s <> 0 -> cstr (tail s) = tail (cstr s).
Proof. destruct s as [|x s]; simpl; [done|]. intros. by destruct (Z.eqb_spec x 0). Qed.

Lemma matchhere_cstr re s : matchhere re s = matchhere (cstr re) (cstr s).
Proof.
  remember (length re) as n eqn:Hn. revert re s Hn. induction n as [n IH] using lt_wf_ind. intros [|r0 re1] s ->; [done|].
  cbn [matchhere cstr]. destruct (r0 =? 0) eqn:E0; [done|]. cbn [matchhere]. rewrite E0, !hd0_cstr.
  assert (forall t, matchhere re1 t = matchhere (cstr re1) (cstr t)) as IH1 by (intros t; apply (IH (length re1)); simpl; lia).
  assert (negb (hd0 s =? 0) && ((r0 =? c_dot) || (r0 =? hd0 s)) = true -> matchhere re1 (tail s) = matchhere (cstr re1) (tail (cstr s))) as Ht.
  { intros [Hb _]%andb_prop. rewrite IH1, tail_cstr; [done|]. intros He. by rewrite He in Hb. }
  destruct re1 as [|r1 re2]; cbn [cstr hd0].
  - destruct ((r0 =? c_dollar) && _); [done|]. destruct (negb _ && _); [|done]. by rewrite Ht.
  - cbn [cstr hd0] in Ht. destruct (Z.eqb_spec r1 0) as [->|N1].
    + change (0 =? c_star) with false. change (0 =? 0) with true. destruct ((r0 =? c_dollar) && _); [done|].
      destruct (negb _ && _); [|done]. by rewrite Ht.
    + cbn [hd0]. destruct (r1 =? c_star); [apply matchstar_cstr; intros t; apply (IH (length re2)); simpl; lia|].
      destruct ((r0 =? c_dollar) && _); [done|]. destruct (negb _ && _); [|done]. by rewrite Ht.
Qed.

Lemma match_loop_cstr re s : match_loop re s = match_loop (cstr re) (cstr s).
Proof.
  induction s as [|x s IH]; cbn [match_loop]; rewrite matchhere_cstr; [done|].
  cbn [cstr]. destruct (x =? 0) eqn:E; simpl; [done|]. by rewrite E, IH.
Qed.

Lemma match_lang (re text : list Z) : match_ re text = true <-> lang (compile (cstr re)) (cstr text).
Proof.
  pose proof (cstr_nonul text) as Ht.
  assert (match_loop [] (cstr text) = true <-> lang (Star any) (cstr text)) as Hnil.
  { rewrite match_loop_lang by (done || constructor). split; [intros _; apply lang_any|].
    intros _. exists [], (cstr text). split_and!; [done|constructor|apply lang_any]. }
  unfold match_. destruct re as [|r0 re1]; cbn [hd0 tail cstr].
  - change (0 =? c_caret) with false. by rewrite match_loop_cstr.
  - destruct (r0 =? 0) eqn:E0; cbn [compile].
    + apply Z.eqb_eq in E0 as ->. change (0 =? c_caret) with false. by rewrite match_loop_cstr.
    + destruct (r0 =? c_caret); [by rewrite matchhere_cstr, matchhere_lang by (done || apply cstr_nonul)|].
      rewrite match_loop_cstr. cbn [cstr]. rewrite E0. apply match_loop_lang; [|done].
      constructor; [by apply Z.eqb_neq|apply cstr_nonul].
Qed.

(** C25: the matcher decides the language of the pattern.  For every pattern and
    text, [match_] accepts exactly when the text is in the language of the
    regular expression the pattern denotes: [.] is any character, [x*] any
    number of [x], [^] and [$] anchor the match at the ends of the text, and
    without them the match may be anywhere. *)
Theorem match_correct (re text : list Z) : match_ re text = true <-> lang (compile (cstr re)) (cstr text).
Proof. apply match_lang. Qed.

(** ** The filter *)

(** The newline-terminated lines of [s], the first one continuing [cur]. *)
Fixpoint lines (cur s : list Z) : list (list Z) :=
  match s with
  | [] => []
  | c :: s' => if c =? c_nl then cur :: lines [] s' else lines (cur ++ [c]) s'
  end.

(** What [grep] prints for some lines. *)
Definition hits (re : list Z) (ls : list (list Z)) : list Z :=
  concat ((fun l => l ++ [c_nl]) <$> filter (fun l => match_ re l = true) ls).

Definition short (l : list Z) : Prop := (length l < bufsize - 1)%nat.

(** The lines before the first one that does not fit the buffer. *)
Fixpoint fitting (ls : list (list Z)) : list (list Z) :=
  match ls with
  | [] => []
  | l :: ls' => if decide (short l) then l :: fitting ls' else []
  end.

Lemma fitting_app ls ls' : Forall short ls -> fitting (ls ++ ls') = ls ++ fitting ls'.
Proof. induction 1 as [|l ls Hl _ IH]; simpl; [done|]. by rewrite decide_True, IH. Qed.

Lemma lines_pending cur l s : c_nl ∉ l -> lines cur (l ++ s) = lines (cur ++ l) s.
Proof.
  revert cur. induction l as [|c l IH]; intros cur; [by rewrite app_nil_r|]. rewrite not_elem_of_cons. intros [Hc Hl]. simpl.
  rewrite (proj2 (Z.eqb_neq c c_nl)) by congruence. rewrite IH by done. by rewrite <- (assoc_L (++)).
Qed.

Lemma lines_cur cur s : lines cur s = [] \/ exists l ls, lines cur s = (cur ++ l) :: ls.
Proof.
  revert cur. induction s as [|c s IH]; intros cur; [by left|]. simpl. destruct (c =? c_nl).
  - right. exists [], (lines [] s). by rewrite app_nil_r.
  - destruct (IH (cur ++ [c])) as [?|(l & ls & E)]; [by left|]. right. exists (c :: l), ls. by rewrite E, <- (assoc_L (++)).
Qed.

Lemma hits_app re l1 l2 : hits re (l1 ++ l2) = hits re l1 ++ hits re l2.
Proof. unfold hits. by rewrite filter_app, fmap_app, concat_app. Qed.

(** The first newline before the terminator. *)
Lemma strchr_data d junk : nonul d ->
  match Ulib.strchr (d ++ 0 :: junk) c_nl with
  | None => c_nl ∉ d
  | Some k => exists l d', d = l ++ c_nl :: d' /\ length l = k /\ c_nl ∉ l
  end.
Proof.
  intros Hd. induction Hd as [|c d Hc Hd IH]; simpl; [apply not_elem_of_nil|].
  rewrite (proj2 (Z.eqb_neq c 0) Hc). destruct (Z.eqb_spec c c_nl) as [->|Hn].
  - exists [], d. split_and!; [done|done|apply not_elem_of_nil].
  - destruct (Ulib.strchr _ _) as [k|]; simpl.
    + destruct IH as (l & d' & -> & Hl & Hk). exists (c :: l), d'. split_and!; [done|simpl; lia|].
      rewrite not_elem_of_cons. split; [congruence|done].
    + rewrite not_elem_of_cons. split; [congruence|done].
Qed.

Lemma match_data re l junk : nonul l -> match_ re (l ++ 0 :: junk) = match_ re l.
Proof.
  intros Hl. apply eq_iff_eq_true. rewrite !match_lang.
  replace (cstr (l ++ 0 :: junk)) with (cstr l); [done|].
  induction Hl as [|c l Hc _ IH]; simpl; [done|]. by rewrite (proj2 (Z.eqb_neq c 0) Hc), IH.
Qed.

Section Filter.
Context {W : Type} `{S : Sys W} (fd : Z) (inp out : W -> list Z) `{!Stream S fd inp out} (re : list Z).

(** From [p], the buffer holds [d] and a terminator. *)
Definition holds (buf : list Z) (p : nat) (d junk : list Z) : Prop :=
  drop p buf = d ++ 0 :: junk /\ nonul d /\ length buf = bufsize.

Lemma holds_next buf p l d junk x : holds buf p (l ++ c_nl :: d) junk ->
  holds (<[(p + length l)%nat := x]> buf) (p + length l + 1) d junk /\
  drop p (<[(p + length l)%nat := x]> buf) = l ++ x :: d ++ 0 :: junk.
Proof.
  intros (E & Hn & Hl). apply Forall_app in Hn as [_ Hn]. inversion_clear Hn as [|? ? _ Hd].
  rewrite <- (assoc_L (++)) in E.
  assert (drop p (<[(p + length l)%nat := x]> buf) = l ++ x :: d ++ 0 :: junk) as E'.
  { replace (drop p _) with (<[length l := x]> (drop p buf)).
    - rewrite E. by rewrite insert_app_r_alt, Nat.sub_diag by lia.
    - apply list_eq. intros i. rewrite lookup_drop. destruct (decide (i = length l)) as [->|Hi].
      + assert (p + length l < length buf)%nat by (apply (f_equal length) in E; rewrite length_drop, length_app in E; simpl in E; lia).
        rewrite !list_lookup_insert_eq by (rewrite ?length_drop; lia). done.
      + rewrite !list_lookup_insert_ne by lia. by rewrite lookup_drop. }
  split; [|done]. split_and!; [|done|by rewrite length_insert].
  replace (p + length l + 1)%nat with (p + (length l + 1))%nat by lia. rewrite <- drop_drop, E', <- drop_drop.
  by rewrite drop_app_length.
Qed.

Lemma grep_lines_spec p buf d junk w : holds buf p d junk ->
  wp (grep_lines re p buf) (fun r w' => exists d' ls, holds r.2 r.1 d' junk /\ (c_nl ∉ d') /\ (r.1 + length d' = p + length d)%nat /\
    (exists l, d = l ++ d') /\ (forall X, lines [] (d ++ X) = ls ++ lines [] (d' ++ X)) /\ Forall short ls /\
    out w' = out w ++ hits re ls /\ inp w' = inp w) w.
Proof.
  intros H. unfold grep_lines.
  apply (wp_loop_idx _ (fun k r w1 => exists d' ls, k = Z.of_nat (length d') /\ holds r.2 r.1 d' junk /\ (r.1 + length d' = p + length d)%nat /\
    (exists l, d = l ++ d') /\ (forall X, lines [] (d ++ X) = ls ++ lines [] (d' ++ X)) /\ Forall short ls /\
    out w1 = out w ++ hits re ls /\ inp w1 = inp w) _ (Z.of_nat (length d))).
  - clear H. intros k [p' buf'] w1 (d' & ls & -> & H & Hp & [l0 ->] & Hls & Hsh & Ho & Hi). cbn [fst snd] in *.
    pose proof H as (E & Hn & Hb). rewrite E. pose proof (strchr_data d' junk Hn) as Hc.
    destruct (Ulib.strchr (d' ++ 0 :: junk) c_nl) as [k|].
    + destruct Hc as (l & d2 & -> & <- & Hl). destruct (holds_next buf' p' l d2 junk 0 H) as [H0 E0].
      rewrite E0, match_data by (by apply Forall_app in Hn as [? _]). rewrite list_insert_insert_eq.
      destruct (holds_next buf' p' l d2 junk c_nl H) as [H1 E1].
      assert (forall X, lines [] ((l0 ++ l ++ c_nl :: d2) ++ X) = (ls ++ [l]) ++ lines [] (d2 ++ X)) as HX.
      { intros X. rewrite Hls, <- (assoc_L (++) ls). f_equal. rewrite <- (assoc_L (++) l). simpl. rewrite lines_pending by done. done. }
      assert (Forall short (ls ++ [l])) as Hsh'.
      { apply Forall_app. split; [done|]. constructor; [|constructor]. unfold short.
        apply (f_equal length) in E. rewrite length_drop, !length_app in E. simpl in E. rewrite Hb in E. lia. }
      assert (hits re (ls ++ [l]) = hits re ls ++ (if match_ re l then l ++ [c_nl] else [])) as Hh.
      { rewrite hits_app. f_equal. unfold hits. rewrite filter_cons, filter_nil. destruct (match_ re l); simpl; by rewrite ?app_nil_r. }
      assert ((p' + length l + 1 + length d2 = p' + length (l ++ c_nl :: d2))%nat /\ exists l1, l0 ++ l ++ c_nl :: d2 = l1 ++ d2) as [Hlen Hpre].
      { rewrite length_app. simpl. split; [lia|]. exists (l0 ++ l ++ [c_nl]). by rewrite <- !(assoc_L (++)). }
      destruct (match_ re l).
      * apply wp_bind. eapply wp_mono; [apply stream_write|]. intros r w2 (Ho2 & Hi2). apply wp_ret.
        exists (Z.of_nat (length d2)). split; [rewrite length_app; simpl; lia|]. exists d2, (ls ++ [l]).
        split_and!; try done; [cbn [fst]; lia| |congruence]. rewrite Hh, Ho2, Ho, (assoc_L (++)). f_equal. unfold slice.
        replace (p' + length l + 1 - p')%nat with (length (l ++ [c_nl])) by (rewrite length_app; simpl; lia).
        rewrite E1. change (l ++ c_nl :: d2 ++ 0 :: junk) with (l ++ [c_nl] ++ d2 ++ 0 :: junk). rewrite (assoc_L (++) l). by rewrite take_app_length.
      * apply wp_ret. exists (Z.of_nat (length d2)). split; [rewrite length_app; simpl; lia|]. exists d2, (ls ++ [l]).
        split_and!; try done; [cbn [fst]; lia|]. by rewrite Hh, app_nil_r.
    + apply wp_ret. exists d', ls. split_and!; try done. by exists l0.
  - exists d, []. split_and!; try done; [by exists []|]. by rewrite app_nil_r.
  - destruct H as (E & _ & Hb). apply (f_equal length) in E. rewrite length_drop, length_app in E. simpl in E. unfold bufsize in *. lia.
Qed.

(** Between reads the buffer starts with the unfinished line. *)
Definition pending (buf : list Z) (m : Z) (d : list Z) : Prop :=
  m = Z.of_nat (length d) /\ (length d < bufsize)%nat /\ take (length d) buf = d /\ nonul d /\ (c_nl ∉ d) /\ length buf = bufsize.

Lemma pending_read buf m d bs : pending buf m d -> nonul bs -> (length d + length bs < bufsize)%nat ->
  holds (<[Z.to_nat (m + Z.of_nat (length bs)) := 0]> (splice buf (Z.to_nat m) bs)) 0 (d ++ bs)
    (drop (length d + length bs + 1) buf).
Proof.
  intros (-> & Hd & Et & Hn & _ & Hb) Hbs Hl. rewrite <- Nat2Z.inj_add, !Nat2Z.id. unfold holds. rewrite drop_0.
  split_and!; [|by apply Forall_app|rewrite length_insert, length_splice; lia].
  unfold splice. rewrite Et, (assoc_L (++)), insert_app_r_alt by (rewrite length_app; lia). f_equal.
  rewrite length_app, Nat.sub_diag.
  destruct (drop (length d + length bs) buf) as [|x t] eqn:E.
  - apply (f_equal length) in E. rewrite length_drop in E. simpl in E. lia.
  - rewrite <- drop_drop, E. done.
Qed.

Lemma holds_pending buf p d junk : holds buf p d junk -> c_nl ∉ d ->
  pending (splice buf 0 (slice buf p (length d))) (Z.of_nat (length d)) d.
Proof.
  intros (E & Hn & Hb) Hc. pose proof (f_equal length E) as El. rewrite length_drop, length_app in El. simpl in El.
  assert (slice buf p (length d) = d) as -> by (unfold slice; by rewrite E, take_app_length).
  unfold pending. split_and!; try done; [lia| |rewrite length_splice; lia].
  unfold splice. rewrite take_0. simpl. by rewrite take_app_length.
Qed.

Lemma grep_spec buf w : length buf = bufsize -> nonul (inp w) -> Z.of_nat (length (inp w)) < 2 ^ 64 ->
  wp (grep re fd buf) (fun buf' w' => length buf' = bufsize /\ out w' = out w ++ hits re (fitting (lines [] (inp w)))) w.
Proof.
  intros Hb Hn Hlen. unfold grep. set (all := lines [] (inp w)) in *.
  apply (wp_loop_idx _ (fun k r w1 => exists d ls, k = Z.of_nat (length (inp w1)) /\ pending r.2 r.1 d /\ nonul (inp w1) /\
    all = ls ++ lines [] (d ++ inp w1) /\ Forall short ls /\ out w1 = out w ++ hits re ls) _ (Z.of_nat (length (inp w)))); [| |done].
  - clear Hn Hlen Hb. intros k [m b] w1 (d & ls & -> & Hp & Hn & Ha & Hsh & Ho). cbn [fst snd] in *.
    pose proof Hp as (-> & Hd & _ & _ & Hc & Hb). apply wp_bind.
    eapply wp_mono; [apply (stream_read (fd := fd)); unfold bufsize in *; lia|].
    intros [n bs] w2 (Hi & Hr & Hle & He & Ho2). cbn [fst snd] in *. subst n.
    rewrite Hi in Ha, Hn |- *. apply Forall_app in Hn as [Hbs Hn2].
    destruct (Z.gtb_spec (Z.of_nat (length bs)) 0) as [Hpos|Hz]; cbn [negb].
    + apply wp_bind. eapply wp_mono; [apply grep_lines_spec, (pending_read _ _ _ _ Hp Hbs); unfold bufsize in *; lia|].
      intros [p b2] w3 (d2 & ls2 & H2 & Hc2 & Hl2 & [l0 E0] & HX & Hsh2 & Ho3 & Hi3). cbn [fst snd] in *.
      destruct (Z.gtb_spec (Z.of_nat (length d) + Z.of_nat (length bs)) 0) as [_|?]; [|lia].
      apply wp_ret. exists (Z.of_nat (length (inp w2))). split; [rewrite length_app; lia|].
      exists d2, (ls ++ ls2). cbn [fst snd]. rewrite length_app in Hl2.
      replace (Z.of_nat (length d) + Z.of_nat (length bs) - Z.of_nat p) with (Z.of_nat (length d2)) by lia. rewrite Nat2Z.id.
      rewrite Hi3. split_and!; [done|by eapply holds_pending|done| |by apply Forall_app|].
      * by rewrite Ha, (assoc_L (++) d), HX, (assoc_L (++)).
      * by rewrite Ho3, Ho2, Ho, hits_app, (assoc_L (++)).
    + apply wp_ret. assert (bs = []) as -> by (by apply nil_length_inv; lia).
      split; [rewrite length_splice; simpl; unfold bufsize in *; lia|]. rewrite Ho2, Ho. f_equal.
      rewrite Ha, lines_pending, fitting_app by done. simpl in *.
      destruct (lines_cur d (inp w2)) as [->|(l & ls2 & E)]; [by rewrite app_nil_r|]. rewrite E. simpl.
      destruct (He eq_refl) as [Hz'|He']; [|by rewrite <- Hi, He' in E].
      rewrite decide_False; [by rewrite app_nil_r|]. unfold short. rewrite length_app. lia.
  - exists [], []. split_and!; try done; [|by rewrite app_nil_r]. unfold pending, bufsize. cbn [fst snd length].
    split_and!; try done; [lia|constructor|apply not_elem_of_nil].
Qed.
End Filter.

(** C26: [grep] prints the lines that match.  On a file without NUL bytes it reads
    to the end whatever the sizes of the reads, and prints, in order, every
    newline-terminated line the pattern matches, with its newline, up to the
    first line of 1023 bytes or more, at which it stops; a last line without a
    newline is not printed. *)
Theorem grep_filters {W} (S : Sys W) fd inp out `{!Stream S fd inp out} re buf (w : W) :
  length buf = bufsize -> nonul (inp w) -> Z.of_nat (length (inp w)) < 2 ^ 64 ->
  wp (grep re fd buf) (fun buf' w' => length buf' = bufsize /\ out w' = out w ++ hits re (fitting (lines [] (inp w)))) w.
Proof. apply (grep_spec fd inp out re). Qed.

Module GrepDemo.
Import OneFile.

Definition text : list Z := str "ab" ++ [10] ++ str "cd" ++ [10] ++ str "xaby" ++ [10] ++ str "ab".

Lemma grep_filters_witness :
  wp (grep (str "a.*") 0 (replicate bufsize 0))
    (fun _ w' => snd w' = str "ab" ++ [10] ++ str "xaby" ++ [10]) (text, []).
Proof.
  eapply wp_mono; [apply (grep_filters sys 0 fst snd)|].
  - reflexivity.
  - apply Forall_forall. intros c Hc Hz. subst c. revert Hc. apply (bool_decide_unpack _). vm_compute. exact I.
  - reflexivity.
  - intros buf' w' [_ ->]. reflexivity.
Defined.
End GrepDemo.
