(* ===== verification/UserProgs.v ===== *)
(** * The small user programs

    cat, echo, wc, ls, kill, ln, mkdir, rm, sleep, uptime, zombie, init, ps,
    pexec, time, time1, stressfs and forktest: each [main] takes the argument
    vector.  A [for] loop over the arguments is a recursion on them. *)

From S2P Require Import Prelude Bytes Params CString UserLib.
Import Uprintf.

Definition nl : list Z := [10].

(** ** Pure parts *)

(** [strchr(" \r\t\n\v", c)] of wc.c; it is not found for NUL either. *)
Definition blank (c : Z) : bool := match Ulib.strchr [32; 13; 9; 10; 11] c with Some _ => true | None => false end.

Record counts := mk_counts { c_l : Z; c_w : Z; c_c : Z; c_inword : bool }.

Definition wc_char (k : counts) (ch : Z) : counts :=
  let l := if ch =? 10 then i32 (c_l k + 1) else c_l k in
  let c := i32 (c_c k + 1) in
  if blank ch then mk_counts l (c_w k) c false
  else if negb (c_inword k) then mk_counts l (i32 (c_w k + 1)) c true
  else mk_counts l (c_w k) c true.

(** The part of a path after its last slash. *)
Definition after_slash (path : list Z) : list Z :=
  foldl (fun p c => if c =? 47 then [] else p ++ [c]) [] path.

Definition fmtname (path : list Z) : list Z :=
  let p := after_slash (cstr path) in
  if (DIRSIZ <=? length p)%nat then p else p ++ replicate (DIRSIZ - length p) 32.

(** The table [states] of ps.c, by the numbers of [enum procstate]; the entries
    for UNUSED and USED are null pointers. *)
Definition states (s : Z) : option (list Z) :=
  if s =? 2 then Some (str "sleeping") else if s =? 3 then Some (str "runnable")
  else if s =? 4 then Some (str "running ") else if s =? 5 then Some (str "zombie  ") else None.

(** Unsigned division of the machine, which gives all ones for a divisor of 0. *)
Definition divu (a b : Z) : Z := if b =? 0 then 2 ^ 32 - 1 else a / b.

Section Programs.
Context {W : Type} `{kernel : Sys W}.

(** ** cat.c *)

Definition cat (fd : Z) (buf : list Z) : M W (list Z) :=
  let* (n, buf) := loop (fun buf =>
    let* (n, bytes) := read fd 512 in
    let buf := splice buf 0 bytes in
    if negb (n >? 0) then ret (inr (n, buf)) else
    r <- write 1 (take (Z.to_nat n) buf) ;;
    if negb (r =? n) then fprintf 2 (str "cat: write error" ++ nl) [] ;; exit 1
    else ret (inl buf)) buf in
  if n <? 0 then fprintf 2 (str "cat: read error" ++ nl) [] ;; exit 1
  else ret buf.

Fixpoint cat_files (args : list (list Z)) (buf : list Z) : M W unit :=
  match args with
  | [] => ret tt
  | a :: args' =>
      fd <- open a 0 ;;
      if fd <? 0 then fprintf 2 (str "cat: cannot open %s" ++ nl) [AStr (Some a)] ;; exit 1
      else buf <- cat fd buf ;; close fd ;; cat_files args' buf
  end.

Definition cat_main (argv : list (list Z)) : M W unit :=
  let buf := replicate 512 0 in
  if (length argv <=? 1)%nat then cat 0 buf ;; exit 0
  else cat_files (tail argv) buf ;; exit 0.

(** ** echo.c *)

Fixpoint echo_args (args : list (list Z)) : M W unit :=
  match args with
  | [] => ret tt
  | a :: args' =>
      write 1 (take (Z.to_nat (Ulib.strlen a)) a) ;;
      (if (0 <? length args')%nat then write 1 [32] else write 1 nl) ;;
      echo_args args'
  end.

Definition echo_main (argv : list (list Z)) : M W unit := echo_args (tail argv) ;; exit 0.

(** ** wc.c *)

Definition wc (fd : Z) (name buf : list Z) : M W (list Z) :=
  let* (n, k, buf) := loop (fun '(k, buf) =>
    let* (n, bytes) := read fd 512 in
    let buf := splice buf 0 bytes in
    if negb (n >? 0) then ret (inr (n, k, buf)) else
    ret (inl (foldl wc_char k (take (Z.to_nat n) buf), buf))) (mk_counts 0 0 0 false, buf) in
  if n <? 0 then printf (str "wc: read error" ++ nl) [] ;; exit 1 else
  printf (str "%d %d %d %s" ++ nl) [AInt (c_l k); AInt (c_w k); AInt (c_c k); AStr (Some name)] ;;
  ret buf.

Fixpoint wc_files (args : list (list Z)) (buf : list Z) : M W unit :=
  match args with
  | [] => ret tt
  | a :: args' =>
      fd <- open a 0 ;;
      if fd <? 0 then printf (str "wc: cannot open %s" ++ nl) [AStr (Some a)] ;; exit 1
      else buf <- wc fd a buf ;; close fd ;; wc_files args' buf
  end.

Definition wc_main (argv : list (list Z)) : M W unit :=
  let buf := replicate 512 0 in
  if (length argv <=? 1)%nat then wc 0 [] buf ;; exit 0
  else wc_files (tail argv) buf ;; exit 0.

(** ** ls.c *)

Definition ls_entries (fd : Z) (path : list Z) : M W unit :=
  loop (fun _ : unit =>
    let* (r, de) := read fd 16 in
    if negb (r =? 16) then ret (inr tt) else
    if get_le 2 de 0 =? 0 then ret (inl tt) else
    let buf := path ++ [47] ++ cstr (slice de 2 DIRSIZ) in
    let* (r, st) := Ulib.stat buf in
    if r <? 0 then printf (str "ls: cannot stat %s" ++ nl) [AStr (Some buf)] ;; ret (inl tt) else
    printf (str "%s %d %d %d" ++ nl) [AStr (Some (fmtname buf)); AInt (st_type st); AInt (st_ino st); AInt (st_size st)] ;;
    ret (inl tt)) tt.

Definition ls (path : list Z) : M W unit :=
  fd <- open path 0 ;;
  if fd <? 0 then fprintf 2 (str "ls: cannot open %s" ++ nl) [AStr (Some path)] else
  let* (r, st) := fstat fd in
  if r <? 0 then
    fprintf 2 (str "ls: cannot stat %s" ++ nl) [AStr (Some path)] ;;
    close fd ;;
    ret tt
  else
    (if st_type st =? T_FILE then
       printf (str "%s %d %d %l" ++ nl) [AStr (Some (fmtname path)); AInt (st_type st); AInt (st_ino st); AInt (st_size st)]
     else if st_type st =? T_DIR then
       if Ulib.strlen path + 1 + Z.of_nat DIRSIZ + 1 >? 512 then printf (str "ls: path too long" ++ nl) []
       else ls_entries fd (cstr path)
     else ret tt) ;;
    close fd ;;
    ret tt.

Definition ls_main (argv : list (list Z)) : M W unit :=
  if (length argv <? 2)%nat then ls (str ".") ;; exit 0
  else for_all (tail argv) ls ;; exit 0.

(** ** kill.c, ln.c, mkdir.c, rm.c, sleep.c, uptime.c *)

Definition kill_main (argv : list (list Z)) : M W unit :=
  if (length argv <? 2)%nat then fprintf 2 (str "usage: kill pid..." ++ nl) [] ;; exit 1 else
  for_all (tail argv) (fun a => kill (Ulib.atoi a) ;; ret tt) ;;
  exit 0.

Definition ln_main (argv : list (list Z)) : M W unit :=
  match argv with
  | [_; a1; a2] =>
      r <- link a1 a2 ;;
      when (r <? 0) (fprintf 2 (str "link %s %s: failed" ++ nl) [AStr (Some a1); AStr (Some a2)]) ;;
      exit 0
  | _ => fprintf 2 (str "Usage: ln old new" ++ nl) [] ;; exit 1
  end.

Fixpoint mkdir_args (args : list (list Z)) : M W unit :=
  match args with
  | [] => ret tt
  | a :: args' =>
      r <- mkdir a ;;
      if r <? 0 then fprintf 2 (str "mkdir: %s failed to create" ++ nl) [AStr (Some a)]
      else mkdir_args args'
  end.

Definition mkdir_main (argv : list (list Z)) : M W unit :=
  if (length argv <? 2)%nat then fprintf 2 (str "Usage: mkdir files..." ++ nl) [] ;; exit 1 else
  mkdir_args (tail argv) ;;
  exit 0.

Fixpoint rm_args (args : list (list Z)) : M W unit :=
  match args with
  | [] => ret tt
  | a :: args' =>
      r <- unlink a ;;
      if r <? 0 then fprintf 2 (str "rm: %s failed to delete" ++ nl) [AStr (Some a)]
      else rm_args args'
  end.

Definition rm_main (argv : list (list Z)) : M W unit :=
  if (length argv <? 2)%nat then fprintf 2 (str "Usage: rm files..." ++ nl) [] ;; exit 1 else
  rm_args (tail argv) ;;
  exit 0.

Definition sleep_main (argv : list (list Z)) : M W unit :=
  match argv with
  | [_; a] => sleep (Ulib.atoi a) ;; exit 0
  | _ => fprintf 2 (str "usage: sleep <ticks>" ++ nl) [] ;; exit 1
  end.

Definition uptime_main : M W unit :=
  ticks <- uptime ;;
  printf (str "%d clock ticks" ++ nl) [AInt (i32 ticks)] ;;
  exit 0.

(** ** zombie.c, init.c *)

Definition zombie_main : M W unit :=
  pid <- fork (exit 0) ;;
  when (pid >? 0) (sleep 5 ;; ret tt) ;;
  exit 0.

Definition init_wait (pid : Z) : M W unit :=
  loop (fun _ : unit =>
    let* (wpid, _) := wait in
    if wpid =? pid then ret (inr tt)
    else if wpid <? 0 then printf (str "init: wait returned an error" ++ nl) [] ;; exit 1
    else ret (inl tt)) tt.

Definition init_main : M W unit :=
  fd <- open (str "console") O_RDWR ;;
  when (fd <? 0)
    (mknod (str "console") CONSOLE 0 ;;
     open (str "console") O_RDWR ;;
     ret tt) ;;
  dup 0 ;;
  dup 0 ;;
  loop (fun _ : unit =>
    printf (str "init: starting sh" ++ nl) [] ;;
    pid <- fork
      (exec (str "sh") [str "sh"] ;;
       printf (str "init: exec sh failed" ++ nl) [] ;;
       exit 1) ;;
    if pid <? 0 then printf (str "init: fork failed" ++ nl) [] ;; exit 1 else
    init_wait pid ;;
    ret (inl tt)) tt.

(** ** ps.c, pexec.c *)

Definition ps_main : M W unit :=
  let* (nprocs, uproc) := getprocs in
  if nprocs <? 0 then exit (-1) else
  printf (str "pid" ++ [9] ++ str "state" ++ [9; 9] ++ str "size" ++ [9] ++ str "ppid" ++ [9] ++ str "name" ++ nl) [] ;;
  for_all (take (Z.to_nat nprocs) uproc) (fun u =>
    printf (str "%d" ++ [9] ++ str "%s" ++ [9] ++ str "%l" ++ [9] ++ str "%d" ++ [9] ++ str "%s" ++ nl)
      [AInt (up_pid u); AStr (states (up_state u)); AInt (up_size u); AInt (up_ppid u); AStr (Some (up_name u))]) ;;
  exit 0.

Definition MAXARGS : nat := 16.

(** The vector [newargv] has [MAXARGS] entries, one of them for the null
    pointer; storing past it is undefined. *)
Definition pexec_main (argv : list (list Z)) : M W unit :=
  match argv with
  | _ :: prio :: newargv0 :: args =>
      setpriority (Ulib.atoi prio) ;;
      if (MAXARGS <=? length (newargv0 :: args))%nat then panic "newargv overflow" else
      fork (exec newargv0 (newargv0 :: args) ;; wait ;; exit 0) ;;
      wait ;;
      exit 0
  | _ => printf (str "Usage: pexec <priority> <comm> [args...]" ++ nl) [] ;; exit (-1)
  end.

(** ** time.c, time1.c *)

Definition time_main (argv : list (list Z)) : M W unit :=
  match argv with
  | _ :: a1 :: args =>
      start <- uptime ;;
      pid <- fork
        (exec a1 (a1 :: args) ;;
         printf (str "Executing child process" ++ nl) [] ;;
         exit 1) ;;
      if pid =? -1 then printf (str "ERROR: no process created" ++ nl) [] ;; exit 1 else
      let* (wait_pid, _, cputime) := wait2 in
      finish <- uptime ;;
      if wait_pid <? 0 then printf (str "Child process didn't return" ++ nl) [] ;; exit 1 else
      fprintf 1 (str "elapsed time: %d ticks, cpu time: %d ticks, %d%% CPU" ++ nl)
        [AInt (u32 (finish - start)); AInt cputime; AInt (divu (u32 (cputime * 100)) (u32 (finish - start)))] ;;
      exit 0
  | _ => printf (str "Missing arguments" ++ nl) [] ;; exit 1
  end.

Definition time1_main (argv : list (list Z)) : M W unit :=
  match argv with
  | _ :: a1 :: args =>
      start <- uptime ;;
      pid <- fork
        (exec a1 (a1 :: args) ;;
         printf (str "Child process executing" ++ nl) [] ;;
         exit 1) ;;
      if pid =? -1 then printf (str "Error: no child process created" ++ nl) [] ;; exit 1 else
      let* (_, status) := wait in
      finish <- uptime ;;
      (if status =? 0 then printf (str "Time elapsed: %d ticks" ++ nl) [AInt (u32 (finish - start))]
       else printf (str "Error: invalid arguments" ++ nl) []) ;;
      exit 0
  | _ => printf (str "Missing arguments" ++ nl) [] ;; exit 1
  end.

(** ** stressfs.c *)

(** What every process does once it has its number [i]. *)
Definition stress_io (i : Z) : M W unit :=
  printf (str "write %d" ++ nl) [AInt i] ;;
  let path := str "stressfs" ++ [48 + i] in
  let data := replicate 512 97 in
  fd <- open path (Z.lor O_CREATE O_RDWR) ;;
  for_all (seq 0 20) (fun _ => write fd data ;; ret tt) ;;
  close fd ;;
  printf (str "read" ++ nl) [] ;;
  fd <- open path O_RDONLY ;;
  for_all (seq 0 20) (fun _ => read fd 512 ;; ret tt) ;;
  close fd ;;
  wait ;;
  exit 0.

(** [k] rounds of forking are left: the child goes on, the parent leaves the
    loop, and a process whose fork fails goes on as well. *)
Fixpoint stress_fork (k : nat) : M W unit :=
  match k with
  | O => stress_io 4
  | S k' =>
      pid <- fork (stress_fork k') ;;
      if pid >? 0 then stress_io (4 - Z.of_nat k) else stress_fork k'
  end.

Definition stressfs_main : M W unit :=
  printf (str "stressfs starting" ++ nl) [] ;;
  stress_fork 4.

(** ** forktest.c *)

Definition forktest_N : Z := 1000.

Definition print (s : list Z) : M W unit := write 1 (take (Z.to_nat (Ulib.strlen s)) s) ;; ret tt.

Definition forktest : M W unit :=
  print (str "fork test" ++ nl) ;;
  n <- loop (fun n =>
    if negb (n <? forktest_N) then ret (inr n) else
    pid <- fork (exit 0) ;;
    if pid <? 0 then ret (inr n) else ret (inl (n + 1))) 0 ;;
  if n =? forktest_N then print (str "fork claimed to work N times!" ++ nl) ;; exit 1 else
  loop (fun n =>
    if negb (n >? 0) then ret (inr tt) else
    let* (r, _) := wait in
    if r <? 0 then print (str "wait stopped early" ++ nl) ;; exit 1 else ret (inl (n - 1))) n ;;
  let* (r, _) := wait in
  if negb (r =? -1) then print (str "wait got too many" ++ nl) ;; exit 1 else
  print (str "fork test OK" ++ nl).

Definition forktest_main : M W unit := forktest ;; exit 0.
End Programs.
