(* ===== verification/Grind.v ===== *)
(** * user/grind.c: random system calls

    Two processes pick system calls with a random number generator, for ever.
    The generator is Park and Miller's, computed without a product that needs
    more than 31 bits; its period is every value it can take. *)

From Stdlib Require Import Zpow_facts.
From S2P Require Import Prelude Bytes Params CString UserLib UserProgs.
Import Uprintf.

(** ** The generator *)

(** The result and the new value of the context. *)
Definition do_rand (ctx : Z) : Z * Z :=
  let x := ctx mod 2147483646 + 1 in
  let hi := x ÷ 127773 in
  let lo := Z.rem x 127773 in
  let x := 16807 * lo - 2836 * hi in
  let x := if x <? 0 then x + 2147483647 else x in
  let x := x - 1 in
  (i32 x, u64 x).

Definition rand (rand_next : Z) : Z * Z := do_rand rand_next.

(** ** The system calls *)

Section Grind.
Context {W : Type} `{kernel : Sys W}.

Abbreviation rw := (Z.lor O_CREATE O_RDWR).

Definition quit {A} (msg : list Z) (status : Z) : M W A := printf (msg ++ nl) [] ;; exit status.

Definition fquit {A} (msg : list Z) (status : Z) : M W A := fprintf 2 (msg ++ nl) [] ;; exit status.

(** [fork], the code of the child, and the check of the parent. *)
Definition spawn (child : M W unit) : M W Z :=
  pid <- fork child ;;
  if pid <? 0 then quit (str "grind: fork failed") 1 else ret pid.

(** Two forks in a row: four processes go on with [k]. *)
Definition fork2 (k : M W unit) : M W unit :=
  fork (fork k ;; k) ;;
  fork k ;;
  k.

Definition pipe_child (fd0 fd1 : Z) : M W unit :=
  fork2 (
    r <- write fd1 (str "x") ;;
    when (negb (r =? 1)) (printf (str "grind: pipe write failed" ++ nl) []) ;;
    let* (r, _) := read fd0 1 in
    when (negb (r =? 1)) (printf (str "grind: pipe read failed" ++ nl) []) ;;
    exit 0).

Definition dir_child : M W unit :=
  unlink (str "a") ;;
  mkdir (str "a") ;;
  chdir (str "a") ;;
  unlink (str "../a") ;;
  open (str "x") rw ;;
  unlink (str "x") ;;
  exit 0.

(** A new file can be made and has the size and a number it should have. *)
Definition check_file : M W unit :=
  unlink (str "c") ;;
  fd1 <- open (str "c") rw ;;
  if fd1 <? 0 then quit (str "grind: create c failed") 1 else
  r <- write fd1 (str "x") ;;
  if negb (r =? 1) then quit (str "grind: write c failed") 1 else
  let* (r, st) := fstat fd1 in
  if negb (r =? 0) then quit (str "grind: fstat failed") 1 else
  if negb (st_size st =? 1) then
    printf (str "grind: fstat reports wrong size %d" ++ nl) [AInt (i32 (st_size st))] ;; exit 1 else
  if st_ino st >? 200 then
    printf (str "grind: fstat reports crazy i-number %d" ++ nl) [AInt (st_ino st)] ;; exit 1 else
  close fd1 ;;
  unlink (str "c") ;;
  ret tt.

Definition echo_child (aa0 aa1 bb0 bb1 : Z) : M W unit :=
  close bb0 ;;
  close bb1 ;;
  close aa0 ;;
  close 1 ;;
  r <- dup aa1 ;;
  if negb (r =? 1) then fquit (str "grind: dup failed") 1 else
  close aa1 ;;
  exec (str "grindir/../echo") [str "echo"; str "hi"] ;;
  fquit (str "grind: echo: not found") 2.

Definition cat_child (aa0 aa1 bb0 bb1 : Z) : M W unit :=
  close aa1 ;;
  close bb0 ;;
  close 0 ;;
  r <- dup aa0 ;;
  if negb (r =? 0) then fquit (str "grind: dup failed") 4 else
  close aa0 ;;
  close 1 ;;
  r <- dup bb1 ;;
  if negb (r =? 1) then fquit (str "grind: dup failed") 5 else
  close bb1 ;;
  exec (str "/cat") [str "cat"] ;;
  fquit (str "grind: cat: not found") 6.

(** echo hi | cat *)
Definition echo_cat : M W unit :=
  let* (r, aa0, aa1) := pipe in
  if r <? 0 then fquit (str "grind: pipe failed") 1 else
  let* (r, bb0, bb1) := pipe in
  if r <? 0 then fquit (str "grind: pipe failed") 1 else
  pid1 <- fork (echo_child aa0 aa1 bb0 bb1) ;;
  if pid1 <? 0 then fquit (str "grind: fork failed") 3 else
  pid2 <- fork (cat_child aa0 aa1 bb0 bb1) ;;
  if pid2 <? 0 then fquit (str "grind: fork failed") 7 else
  close aa0 ;;
  close aa1 ;;
  close bb1 ;;
  let* (_, b0) := read bb0 1 in
  let* (_, b1) := read bb0 1 in
  let* (_, b2) := read bb0 1 in
  let buf := splice (splice (splice [0; 0; 0; 0] 0 b0) 1 b1) 2 b2 in
  close bb0 ;;
  let* (_, st1) := wait in
  let* (_, st2) := wait in
  if negb (st1 =? 0) || negb (st2 =? 0) || negb (Ulib.strcmp buf (str "hi" ++ nl) =? 0) then
    printf (str "grind: exec pipeline failed %d %d " ++ [34] ++ str "%s" ++ [34] ++ nl) [AInt st1; AInt st2; AStr (Some buf)] ;; exit 1
  else ret tt.

(** ** The loop *)

(** The variables that a round may change. *)
Record gstate := mk_gstate { g_fd : Z; g_buf : list Z }.

Definition go_op (break0 what : Z) (st : gstate) : M W gstate :=
  let keep (m : M W unit) : M W gstate := m ;; ret st in
  if what =? 1 then keep (fd <- open (str "grindir/../a") rw ;; close fd ;; ret tt)
  else if what =? 2 then keep (fd <- open (str "grindir/../grindir/../b") rw ;; close fd ;; ret tt)
  else if what =? 3 then keep (unlink (str "grindir/../a") ;; ret tt)
  else if what =? 4 then keep (
    r <- chdir (str "grindir") ;;
    if negb (r =? 0) then quit (str "grind: chdir grindir failed") 1 else
    unlink (str "../b") ;;
    chdir (str "/") ;;
    ret tt)
  else if what =? 5 then close (g_fd st) ;; fd <- open (str "/grindir/../a") rw ;; ret (mk_gstate fd (g_buf st))
  else if what =? 6 then close (g_fd st) ;; fd <- open (str "/./grindir/./../b") rw ;; ret (mk_gstate fd (g_buf st))
  else if what =? 7 then keep (write (g_fd st) (g_buf st) ;; ret tt)
  else if what =? 8 then let* (_, bs) := read (g_fd st) 999 in ret (mk_gstate (g_fd st) (splice (g_buf st) 0 bs))
  else if what =? 9 then keep (
    mkdir (str "grindir/../a") ;;
    fd <- open (str "a/../a/./a") rw ;;
    close fd ;;
    unlink (str "a/a") ;;
    ret tt)
  else if what =? 10 then keep (
    mkdir (str "/../b") ;;
    fd <- open (str "grindir/../b/b") rw ;;
    close fd ;;
    unlink (str "b/b") ;;
    ret tt)
  else if what =? 11 then keep (unlink (str "b") ;; link (str "../grindir/./../a") (str "../b") ;; ret tt)
  else if what =? 12 then keep (unlink (str "../grindir/../a") ;; link (str ".././b") (str "/grindir/../a") ;; ret tt)
  else if what =? 13 then keep (spawn (exit 0) ;; wait ;; ret tt)
  else if what =? 14 then keep (spawn (fork2 (exit 0)) ;; wait ;; ret tt)
  else if what =? 15 then keep (sbrk 6011 ;; ret tt)
  else if what =? 16 then keep (
    b <- sbrk 0 ;;
    when (b >? break0) (b <- sbrk 0 ;; sbrk (i32 (- (b - break0))) ;; ret tt))
  else if what =? 17 then keep (
    pid <- spawn (fd <- open (str "a") rw ;; close fd ;; exit 0) ;;
    r <- chdir (str "../grindir/..") ;;
    if negb (r =? 0) then quit (str "grind: chdir failed") 1 else
    kill pid ;;
    wait ;;
    ret tt)
  else if what =? 18 then keep (spawn (pid <- getpid ;; kill pid ;; exit 0) ;; wait ;; ret tt)
  else if what =? 19 then keep (
    let* (r, fd0, fd1) := pipe in
    if r <? 0 then quit (str "grind: pipe failed") 1 else
    spawn (pipe_child fd0 fd1) ;;
    close fd0 ;;
    close fd1 ;;
    wait ;;
    ret tt)
  else if what =? 20 then keep (spawn dir_child ;; wait ;; ret tt)
  else if what =? 21 then keep check_file
  else if what =? 22 then keep echo_cat
  else ret st.

Definition go (which_child rand_next : Z) : M W unit :=
  break0 <- sbrk 0 ;;
  mkdir (str "grindir") ;;
  r <- chdir (str "grindir") ;;
  if negb (r =? 0) then quit (str "grind: chdir grindir failed") 1 else
  chdir (str "/") ;;
  loop (fun '(iters, rand_next, st) =>
    let iters := u64 (iters + 1) in
    when (iters mod 500 =? 0) (write 1 (if z2b which_child then str "B" else str "A") ;; ret tt) ;;
    let '(r, rand_next) := rand rand_next in
    st <- go_op break0 (Z.rem r 23) st ;;
    ret (inl (iters, rand_next, st))) (0, rand_next, mk_gstate (-1) (replicate 999 0)).

(** [wait(&st)] with [st] set to -1 before. *)
Definition wait_status : M W Z := let* (r, st) := wait in ret (if r <? 0 then -1 else st).

Definition iter : M W unit :=
  unlink (str "a") ;;
  unlink (str "b") ;;
  pid1 <- spawn (go 0 31 ;; exit 0) ;;
  pid2 <- spawn (go 1 7177 ;; exit 0) ;;
  st1 <- wait_status ;;
  when (negb (st1 =? 0)) (kill pid1 ;; kill pid2 ;; ret tt) ;;
  wait_status ;;
  exit 0.

Definition grind_main : M W unit :=
  loop (fun _ : unit =>
    pid <- fork (iter ;; exit 0) ;;
    when (pid >? 0) (wait ;; ret tt) ;;
    sleep 20 ;;
    ret (inl tt)) tt.
End Grind.

(** ** The generator has full period *)

Abbreviation RM := 2147483647 (only parsing).
Abbreviation RA := 16807 (only parsing).

Definition next (ctx : Z) : Z := (do_rand ctx).2.

(** Schrage's decomposition of the product. *)
Lemma schrage x : 1 <= x <= RM - 1 -> let t := RA * (x mod 127773) - 2836 * (x / 127773) in
  - 2 ^ 31 < t < 2 ^ 31 /\ (if t <? 0 then t + RM else t) = (RA * x) mod RM.
Proof.
  intros Hx t. pose proof (Z.mod_pos_bound x 127773 ltac:(lia)) as Hlo. assert (0 <= x / 127773 < 16808) as Hhi by (split; [apply Z.div_pos|apply Z.div_lt_upper_bound]; lia).
  pose proof (Z.div_mod x 127773 ltac:(lia)) as E. unfold t in *. clear t. split; [lia|]. destruct (Z.ltb_spec (RA * (x mod 127773) - 2836 * (x / 127773)) 0).
  - apply Z.mod_unique with (x / 127773 - 1); lia.
  - apply Z.mod_unique with (x / 127773); lia.
Qed.

(** No number below the square root divides the modulus. *)
Fixpoint no_divisor (k : nat) (d : Z) : bool :=
  match k with
  | O => true
  | S k => negb (RM mod d =? 0) && no_divisor k (d + 1)
  end.

Lemma no_divisor_spec k d e : 0 < d -> no_divisor k d = true -> d <= e < d + Z.of_nat k -> ~ (e | RM).
Proof.
  revert d. induction k as [|k IH]; intros d Hd0 H He; [lia|]. cbn in H. apply andb_prop in H as [H1 H2]. destruct (decide (e = d)) as [->|]; [|apply (IH (d + 1)); [lia|done|lia]].
  intros Hd%Z.mod_divide; [|lia]. rewrite Hd in H1. done.
Qed.

Lemma modulus_coprime x : 1 <= x <= RM - 1 -> Z.gcd RM x = 1.
Proof.
  intros Hx. pose proof (Z.gcd_nonneg RM x) as Hg. destruct (Z.gcd_divide_l RM x) as [u Hu]. pose proof (Z.divide_pos_le (Z.gcd RM x) x ltac:(lia) (Z.gcd_divide_r RM x)) as Hle.
  set (g := Z.gcd RM x) in *. destruct (decide (g = 1)) as [|Hg1]; [done|exfalso].
  assert (no_divisor (Z.to_nat 46340) 2 = true) as Hno by (by vm_compute). assert (g <> 0) by (intros E; rewrite E in Hu; lia). assert (0 < u) by nia. assert (u <> 1) by (intros ->; lia).
  destruct (decide (g <= 46341)) as [Hl|Hl]; [apply (no_divisor_spec _ 2 g ltac:(lia) Hno); [lia|by exists u]|].
  apply (no_divisor_spec _ 2 u ltac:(lia) Hno); [nia|]. exists g. lia.
Qed.

Lemma next_step ctx : 0 <= ctx < RM - 1 -> next ctx + 1 = (RA * (ctx + 1)) mod RM /\ 0 <= next ctx < RM - 1.
Proof.
  intros Hc. unfold next, do_rand. rewrite Z.mod_small by lia. rewrite Z.quot_div_nonneg, Z.rem_mod_nonneg by lia.
  destruct (schrage (ctx + 1) ltac:(lia)) as [_ ->]. set (y := (RA * (ctx + 1)) mod RM). pose proof (Z.mod_pos_bound (RA * (ctx + 1)) RM ltac:(lia)) as Hy. fold y in Hy.
  assert (y <> 0) as H0.
  { intros H0. apply Z.mod_divide in H0; [|lia]. apply Z.gauss in H0; [|by apply modulus_coprime]. apply Z.divide_pos_le in H0; lia. }
  cbn [snd]. rewrite u64_small by lia. lia.
Qed.

Lemma next_iter k ctx : 0 <= ctx < RM - 1 -> Nat.iter k next ctx + 1 = (RA ^ Z.of_nat k * (ctx + 1)) mod RM /\ 0 <= Nat.iter k next ctx < RM - 1.
Proof.
  intros Hc. induction k as [|k [IH1 IH2]].
  - change (Nat.iter 0 next ctx) with ctx. rewrite Z.mul_1_l, Z.mod_small by lia. lia.
  - change (Nat.iter (S k) next ctx) with (next (Nat.iter k next ctx)). destruct (next_step _ IH2) as [E Hr]. split; [|done].
    by rewrite E, IH1, Z.mul_mod_idemp_r, Z.mul_assoc, Nat2Z.inj_succ, Z.pow_succ_r by lia.
Qed.

(** The exponents that give 1 are closed under remainders and common divisors. *)
Definition unit_exp (e : Z) : Prop := RA ^ e mod RM = 1.

Lemma unit_add e f : 0 <= e -> 0 <= f -> unit_exp e -> (unit_exp (e + f) <-> unit_exp f).
Proof. intros He Hf H. unfold unit_exp in *. rewrite Z.pow_add_r, Z.mul_mod, H, Z.mul_1_l, Z.mod_mod by lia. done. Qed.

Lemma unit_mul e k : 0 <= e -> 0 <= k -> unit_exp e -> unit_exp (e * k).
Proof.
  intros He Hk H. revert k Hk. apply natlike_ind; [by rewrite Z.mul_0_r|]. intros k Hk IH. rewrite Z.mul_succ_r, Z.add_comm. apply unit_add; [done|nia|done|done].
Qed.

Lemma unit_mod e f : 0 <= e -> 0 < f -> unit_exp e -> unit_exp f -> unit_exp (e mod f).
Proof.
  intros He Hf H1 H2. rewrite (Z.div_mod e f) in H1 by lia. assert (0 <= e / f) by (apply Z.div_pos; lia). pose proof (Z.mod_pos_bound e f Hf).
  eapply unit_add; [| |by apply (unit_mul f (e / f)); [lia|done|]|exact H1]; nia.
Qed.

Lemma unit_gcd f : 0 <= f -> forall e, 0 <= e -> unit_exp e -> unit_exp f -> unit_exp (Z.gcd e f).
Proof.
  intros Hf. pattern f. apply Z_lt_induction; [|done]. clear f Hf. intros f IH e He H1 H2. destruct (decide (f <= 0)).
  - assert (f < 0 \/ f = 0) as [Hf| ->] by lia; [|by rewrite Z.gcd_0_r, Z.abs_eq].
    exfalso. unfold unit_exp in H2. by rewrite Z.pow_neg_r in H2.
  - rewrite Z.gcd_comm, <- Z.gcd_mod by lia. rewrite Z.gcd_comm. pose proof (Z.mod_pos_bound e f ltac:(lia)). apply IH; [lia|lia|done|apply unit_mod; [lia|lia|done|done]].
Qed.

(** The order of the multiplier divides RM - 1; its prime factors rule out every
    proper divisor. *)
Definition factors : list Z := [2; 3; 3; 7; 11; 31; 151; 331].

Lemma factors_product : foldr Z.mul 1 factors = RM - 1.
Proof. done. Qed.

Lemma factor_pos q : q ∈ factors -> 0 < q.
Proof. unfold factors. set_solver by lia. Qed.

Lemma coprime_mul e a b : Z.gcd e a = 1 -> Z.gcd e b = 1 -> Z.gcd e (a * b) = 1.
Proof.
  intros Ha Hb. pose proof (Z.gcd_divide_l e (a * b)) as He. pose proof (Z.gcd_divide_r e (a * b)) as Hab. pose proof (Z.gcd_nonneg e (a * b)) as Hp. set (d := Z.gcd e (a * b)) in *.
  assert (Z.gcd d a = 1) as Hda.
  { apply Z.divide_1_r_nonneg; [apply Z.gcd_nonneg|]. rewrite <- Ha. apply Z.gcd_greatest; [etrans; [apply Z.gcd_divide_l|done]|apply Z.gcd_divide_r]. }
  apply Z.divide_1_r_nonneg; [done|]. rewrite <- Hb. apply Z.gcd_greatest; [done|by apply (Z.gauss _ a)].
Qed.

Lemma factor_prime q e : q ∈ factors -> ~ (q | e) -> Z.gcd e q = 1.
Proof.
  intros Hq Hd. assert (forallb (fun q => forallb (fun r => Z.gcd (Z.of_nat r) q =? 1) (seq 1 (Z.to_nat q - 1))) factors = true) as H by (by vm_compute).
  pose proof (factor_pos q Hq) as Hpos.
  rewrite forallb_forall in H. specialize (H q (proj1 (list_elem_of_In _ _) Hq)). rewrite forallb_forall in H.
  rewrite Z.gcd_comm, <- Z.gcd_mod by lia. pose proof (Z.mod_pos_bound e q Hpos). assert (e mod q <> 0) by (intros E; apply Hd, Z.mod_divide; [lia|done]).
  specialize (H (Z.to_nat (e mod q))). rewrite Z2Nat.id, Z.eqb_eq in H by lia. apply H, in_seq. lia.
Qed.

Lemma proper_divisor g : 0 < g < RM - 1 -> (g | RM - 1) -> exists q, q ∈ factors /\ (g | (RM - 1) / q).
Proof.
  intros Hg [e He]. assert (1 < e) as He1 by nia. destruct (decide (Exists (fun q => e mod q = 0) factors)) as [[q [Hq Hm]]%Exists_exists|Hno].
  - pose proof (factor_pos q Hq). apply Z.mod_divide in Hm as [f Hf]; [|lia]. exists q. split; [done|]. exists f. rewrite He, Hf. replace (f * q * g) with (f * g * q) by lia. by rewrite Z.div_mul by lia.
  - exfalso. assert (forall l, (forall q, q ∈ l -> Z.gcd e q = 1) -> Z.gcd e (foldr Z.mul 1 l) = 1) as Hl.
    { induction l as [|q l IH]; intros H; [apply Z.gcd_1_r|]. cbn [foldr]. apply coprime_mul; [apply H; by left|apply IH; intros; apply H; by right]. }
    assert (Z.gcd e (RM - 1) = 1) as H1.
    { rewrite <- factors_product. apply Hl. intros q Hq. apply factor_prime; [done|]. intros Hd. apply Hno, Exists_exists. exists q. split; [done|]. apply Z.mod_divide; [pose proof (factor_pos q Hq); lia|done]. }
    rewrite He in H1. rewrite Z.gcd_mul_diag_l in H1 by lia. lia.
Qed.

Lemma multiplier_order k : 0 < k -> (unit_exp k <-> (RM - 1 | k)).
Proof.
  intros Hk. assert (forall e, 0 <= e -> unit_exp e <-> Zpow_mod RA e RM = 1) as Hc by (intros e He; unfold unit_exp; by rewrite Zpow_mod_correct).
  assert (unit_exp (RM - 1)) as HN by (apply Hc; [lia|by vm_compute]). split.
  - intros H. pose proof (unit_gcd (RM - 1) ltac:(lia) k ltac:(lia) H HN) as Hg. pose proof (Z.gcd_divide_r k (RM - 1)) as Hd. pose proof (Z.gcd_divide_l k (RM - 1)) as Hdk. pose proof (Z.gcd_nonneg k (RM - 1)).
    set (g := Z.gcd k (RM - 1)) in *. pose proof (Z.divide_pos_le g (RM - 1) ltac:(lia) Hd). assert (g <> 0) by (intros E; rewrite E in Hd; by apply Z.divide_0_l in Hd).
    destruct (decide (g = RM - 1)) as [E|Hne]; [by rewrite <- E|exfalso]. destruct (proper_divisor g ltac:(lia) Hd) as (q & Hq & f & Hf).
    assert (forallb (fun q => negb (Zpow_mod RA ((RM - 1) / q) RM =? 1) && (0 <? (RM - 1) / q)) factors = true) as Hn by (by vm_compute). rewrite forallb_forall in Hn.
    specialize (Hn q (proj1 (list_elem_of_In _ _) Hq)). apply andb_prop in Hn as [Hn Hp]. apply negb_true_iff, Z.eqb_neq in Hn. apply Hn, Hc; [lia|]. rewrite Hf, Z.mul_comm. apply unit_mul; [lia|nia|done].
  - intros [f ->]. rewrite Z.mul_comm. apply unit_mul; [lia|nia|done].
Qed.

Lemma iter_fixed k ctx : 0 <= ctx < RM - 1 -> (Nat.iter k next ctx = ctx <-> unit_exp (Z.of_nat k)).
Proof.
  intros Hc. destruct (next_iter k ctx Hc) as [E _]. set (p := RA ^ Z.of_nat k) in *. unfold unit_exp. fold p.
  transitivity ((RM | (ctx + 1) * (p - 1))).
  - rewrite <- Z.mod_divide by lia. replace ((ctx + 1) * (p - 1)) with (p * (ctx + 1) - (ctx + 1)) by lia. rewrite Zminus_mod, <- E, (Z.mod_small (ctx + 1)) by lia.
    destruct (next_iter k ctx Hc) as [_ Hr]. split; [intros ->; by rewrite Z.sub_diag|]. intros H%Z.mod_divide; [|lia]. destruct H as [j Hj]. nia.
  - rewrite <- Z.mod_divide by lia. rewrite Z.mod_divide by lia. split.
    + intros H%Z.gauss; [|apply modulus_coprime; lia]. destruct H as [j Hj]. replace p with (1 + j * RM) by lia. by rewrite Z.mod_add by lia.
    + intros H. apply Z.divide_mul_r. exists (p / RM). pose proof (Z.div_mod p RM ltac:(lia)). lia.
Qed.

(** C40: the random number generator of grind computes what its comment says: from
    the context it makes x in [1, 2^31 - 2] and returns 7^5 x mod (2^31 - 1),
    less 1, with no intermediate value outside 31 bits and a sign; the result is
    also the new context.  The multiplier generates the whole group of units:
    from every context in range the sequence returns after 2^31 - 2 steps and
    not before. *)
Theorem do_rand_correct ctx : 0 <= ctx < 2 ^ 64 ->
  let x := ctx mod (2 ^ 31 - 2) + 1 in
  let t := 16807 * (x mod 127773) - 2836 * (x / 127773) in
  let y := (7 ^ 5 * x) mod (2 ^ 31 - 1) in
  - 2 ^ 31 < t < 2 ^ 31 /\ do_rand ctx = (y - 1, y - 1) /\ 0 <= y - 1 <= 2 ^ 31 - 3 /\
  (ctx <= 2 ^ 31 - 3 -> forall k, (0 < k)%nat -> Nat.iter k (fun c => (do_rand c).2) ctx = ctx <-> (2 ^ 31 - 2 | Z.of_nat k)).
Proof.
  intros Hctx x t y. change (2 ^ 31 - 2) with (RM - 1) in *. change (2 ^ 31 - 1) with RM in *. pose proof (Z.mod_pos_bound ctx (RM - 1) ltac:(lia)) as Hm.
  destruct (schrage x ltac:(unfold x; lia)) as [Ht E]. fold t in Ht, E. change (16807 * x) with (7 ^ 5 * x) in E. fold y in E. destruct (next_step (ctx mod (RM - 1)) ltac:(lia)) as [En Hr]. fold x in En. change (16807 * x) with (7 ^ 5 * x) in En. fold y in En.
  split; [done|]. split; [|split; [lia|]].
  - unfold do_rand. change 2147483646 with (RM - 1). fold x. rewrite Z.quot_div_nonneg, Z.rem_mod_nonneg by (unfold x; lia). fold t. rewrite E, u64_small, i32_small by lia. done.
  - intros Hc k Hk. rewrite (iter_fixed k ctx ltac:(lia)). apply multiplier_order. lia.
Qed.

Lemma do_rand_correct_witness : do_rand 31 = (537823, 537823) /\ (Nat.iter 5 (fun c => (do_rand c).2) 31 = 31 <-> (2 ^ 31 - 2 | 5)).
Proof.
  split.
  - rewrite (proj1 (proj2 (do_rand_correct 31 ltac:(lia)))). reflexivity.
  - apply (do_rand_correct 31 ltac:(lia)); lia.
Defined.
