(* ===== verification/Umalloc.v ===== *)
(** * user/umalloc.c: the memory allocator of user programs

    Kernighan and Ritchie's allocator: a circular list of free blocks, sorted by
    address, that starts at the static header [base].  A header is two words, at
    [a] the pointer and at [a + 8] the size in headers; the memory is a map of
    words, in which the program's own data lives too.  The process grows by
    [sbrk]; [room] says whether the kernel has the memory. *)

From S2P Require Import Prelude Bytes.

Record uheap := mk_uheap { u_mem : gmap Z Z; u_freep : Z; u_sz : Z }.

Definition ldw (m : gmap Z Z) (a : Z) : Z := default 0 (m !! a).

(** The process image: where [base] is, and the kernel's answer to a request of
    [n] more bytes for a process of [sz] bytes. *)
Class Image := {
  base : Z;
  room : Z -> Z -> bool;
}.

(** The image is not at address 0, and a process is at most 4 GB. *)
Class ImageOk `{Image} : Prop := {
  base_pos : 0 < base;
  room_limit : forall sz n, room sz n = true -> sz + n <= 2 ^ 32;
}.

Section Umalloc.
Context `{Image}.

Definition ptr_of (a : Z) : M uheap Z := gets (fun s => ldw (u_mem s) a).
Definition size_of (a : Z) : M uheap Z := gets (fun s => ldw (u_mem s) (a + 8)).
Definition set_word (x v : Z) (s : uheap) : uheap := mk_uheap (<[x := v]> (u_mem s)) (u_freep s) (u_sz s).
Definition set_ptr (a v : Z) : M uheap unit := modify (set_word a v).
Definition set_size (a v : Z) : M uheap unit := modify (set_word (a + 8) v).
Definition set_freep (p : Z) : M uheap unit := modify (fun s => mk_uheap (u_mem s) p (u_sz s)).

(** The header after which the block at [bp] belongs. *)
Definition free_place (bp : Z) : M uheap Z :=
  f <- gets u_freep ;;
  loop (fun p =>
    nx <- ptr_of p ;;
    if (bp >? p) && (bp <? nx) then ret (inr p)
    else if (p >=? nx) && ((bp >? p) || (bp <? nx)) then ret (inr p)
    else ret (inl nx)) f.

(** The block at [bp] takes in the free block that follows it. *)
Definition free_right (bp p : Z) : M uheap unit :=
  sz <- size_of bp ;;
  nx <- ptr_of p ;;
  if bp + 16 * sz =? nx then
    nsz <- size_of nx ;;
    set_size bp (u32 (sz + nsz)) ;;
    nn <- ptr_of nx ;;
    set_ptr bp nn
  else set_ptr bp nx.

(** The free block at [p] takes in the one at [bp], or points to it. *)
Definition free_left (bp p : Z) : M uheap unit :=
  psz <- size_of p ;;
  if p + 16 * psz =? bp then
    bsz <- size_of bp ;;
    set_size p (u32 (psz + bsz)) ;;
    bn <- ptr_of bp ;;
    set_ptr p bn
  else set_ptr p bp.

Definition free (ap : Z) : M uheap unit :=
  let bp := ap - 16 in
  p <- free_place bp ;;
  free_right bp p ;;
  free_left bp p ;;
  set_freep p.

Definition sbrk (n : Z) : M uheap Z :=
  sz <- gets u_sz ;;
  if room sz n then modify (fun s => mk_uheap (u_mem s) (u_freep s) (sz + n)) ;; ret sz
  else ret (-1).

Definition morecore (nu : Z) : M uheap Z :=
  let nu := if nu <? 4096 then 4096 else nu in
  p <- sbrk (i32 (nu * 16)) ;;
  if p =? -1 then ret 0 else
  set_size p nu ;;
  free (p + 16) ;;
  gets u_freep.

Definition nunits (nbytes : Z) : Z := u32 ((nbytes + 16 - 1) / 16 + 1).

(** Takes [n] headers from the block at [p], which is large enough. *)
Definition carve (n prevp p sz : Z) : M uheap Z :=
  if sz =? n then
    nx <- ptr_of p ;;
    set_ptr prevp nx ;;
    ret p
  else
    set_size p (u32 (sz - n)) ;;
    let p := p + 16 * u32 (sz - n) in
    set_size p n ;;
    ret p.

Definition malloc (nbytes : Z) : M uheap Z :=
  let n := nunits nbytes in
  f <- gets u_freep ;;
  prevp <- (if f =? 0 then
              set_ptr base base ;;
              set_freep base ;;
              set_size base 0 ;;
              ret base
            else ret f) ;;
  p <- ptr_of prevp ;;
  loop (fun '(prevp, p) =>
    sz <- size_of p ;;
    if sz >=? n then
      p <- carve n prevp p sz ;;
      set_freep prevp ;;
      ret (inr (p + 16))
    else
      f <- gets u_freep ;;
      if p =? f then
        p <- morecore n ;;
        if p =? 0 then ret (inr 0) else
        nx <- ptr_of p ;;
        ret (inl (p, nx))
      else
        nx <- ptr_of p ;;
        ret (inl (p, nx))) (prevp, p).
End Umalloc.

(** ** Chains of free blocks *)

Lemma ldw_insert m x v y : ldw (<[x := v]> m) y = if decide (x = y) then v else ldw m y.
Proof. unfold ldw. case_decide; subst; [by rewrite lookup_insert_eq|by rewrite lookup_insert_ne]. Qed.

Definition hd_addr (L : list (Z * Z)) (e : Z) : Z := match L with [] => e | (a, _) :: _ => a end.

(** The headers of [L], each pointing to the next and the last one to [e]. *)
Fixpoint seg (m : gmap Z Z) (L : list (Z * Z)) (e : Z) : Prop :=
  match L with
  | [] => True
  | (a, s) :: L' => ldw m a = hd_addr L' e /\ ldw m (a + 8) = s /\ seg m L' e
  end.

Lemma seg_app m L1 L2 e : seg m (L1 ++ L2) e <-> seg m L1 (hd_addr L2 e) /\ seg m L2 e.
Proof.
  induction L1 as [|[a s] L1 IH]; simpl; [naive_solver|]. rewrite IH.
  replace (hd_addr (L1 ++ L2) e) with (hd_addr L1 (hd_addr L2 e)) by (by destruct L1 as [|[] ?]). naive_solver.
Qed.

Lemma seg_insert m L e x v :
  (forall b, b ∈ L -> x <> b.1 /\ x <> b.1 + 8) -> seg m L e -> seg (<[x := v]> m) L e.
Proof.
  induction L as [|[a s] L IH]; simpl; [done|]. intros Hx (H1 & H2 & H3). rewrite !ldw_insert.
  destruct (Hx (a, s) ltac:(by left)) as [N1 N2]. simpl in *. rewrite !decide_False by done.
  split_and!; [done|done|]. apply IH; [|done]. intros b Hb. apply Hx. by right.
Qed.

(** The header at position [k]. *)
Lemma seg_lookup m L e k a s : seg m L e -> L !! k = Some (a, s) ->
  ldw m (a + 8) = s /\ ldw m a = hd_addr (drop (S k) L) e.
Proof.
  intros Hs Hk. rewrite <- (take_drop_middle L k (a, s) Hk) in Hs. apply seg_app in Hs as [_ (H1 & H2 & _)]. done.
Qed.

(** Blocks in order of address, no two adjacent. *)
Fixpoint spaced (lo : Z) (L : list (Z * Z)) : Prop :=
  match L with
  | [] => True
  | (a, s) :: L' => lo < a /\ 0 <= s /\ spaced (a + 16 * s) L'
  end.

Fixpoint end_of (lo : Z) (L : list (Z * Z)) : Z :=
  match L with
  | [] => lo
  | (a, s) :: L' => end_of (a + 16 * s) L'
  end.

Lemma spaced_app lo L1 L2 : spaced lo (L1 ++ L2) <-> spaced lo L1 /\ spaced (end_of lo L1) L2.
Proof. revert lo. induction L1 as [|[a s] L1 IH]; intros lo; simpl; [naive_solver|]. rewrite IH. naive_solver. Qed.

Lemma spaced_mono lo lo' L : spaced lo L -> lo' <= lo -> spaced lo' L.
Proof. destruct L as [|[a s] L]; simpl; [done|]. intros (? & ? & ?) ?. split_and!; [lia|done|done]. Qed.

Lemma end_of_ge lo L : spaced lo L -> lo <= end_of lo L.
Proof. revert lo. induction L as [|[a s] L IH]; intros lo; simpl; [lia|]. intros (? & ? & ?%IH). lia. Qed.

Lemma spaced_in lo L b : spaced lo L -> b ∈ L -> lo < b.1 /\ 0 <= b.2 /\ b.1 + 16 * b.2 <= end_of lo L.
Proof.
  revert lo. induction L as [|[a s] L IH]; intros lo; simpl; [by intros _ ?%elem_of_nil|].
  intros (H1 & H2 & H3) [->|Hb]%elem_of_cons; simpl; [pose proof (end_of_ge _ _ H3); lia|].
  destruct (IH _ H3 Hb). lia.
Qed.

Lemma spaced_length lo L : spaced lo L -> Z.of_nat (length L) <= end_of lo L - lo.
Proof. revert lo. induction L as [|[a s] L IH]; intros lo; simpl; [lia|]. intros (? & ? & ?%IH). lia. Qed.

(** The place of a block between the free ones. *)
Lemma spaced_split lo L bp s : spaced lo L -> lo <= bp -> 1 <= s ->
  (forall b, b ∈ L -> 1 <= b.2 /\ (bp + 16 * s <= b.1 \/ b.1 + 16 * b.2 <= bp)) ->
  exists L1 L2, L = L1 ++ L2 /\ end_of lo L1 <= bp /\ spaced (bp + 16 * s - 1) L2.
Proof.
  revert lo. induction L as [|[a t] L IH]; intros lo Hs Hlo H1 Hd; simpl in Hs.
  - exists [], []. done.
  - destruct Hs as (Ha & Ht & Hs). destruct (Hd (a, t) ltac:(by left)) as [Ht1 [Hr|Hl]]; simpl in *.
    + exists [], ((a, t) :: L). simpl. split_and!; [done|done|lia|done|done].
    + destruct (IH (a + 16 * t)) as (L1 & L2 & -> & He & Hs2); [done|lia|done| |].
      { intros b Hb. apply Hd. by right. }
      exists ((a, t) :: L1), L2. done.
Qed.

Lemma spaced_lt lo L i j a s b t : spaced lo L -> L !! i = Some (a, s) -> L !! j = Some (b, t) -> (i < j)%nat -> a + 16 * s < b /\ 0 <= s.
Proof.
  intros Hs Hi Hj Hij. rewrite <- (take_drop_middle L i (a, s) Hi) in Hs. apply spaced_app in Hs as [_ (_ & H0 & Hs)].
  split; [|done]. apply (spaced_in _ _ (b, t) Hs), list_elem_of_lookup. exists (j - S i)%nat. rewrite lookup_drop.
  by replace (S i + (j - S i))%nat with j by lia.
Qed.

(** Steps from position [k] to position [j] of a ring of [n] headers. *)
Definition dist (n k j : nat) : Z := if decide (k <= j)%nat then Z.of_nat j - Z.of_nat k else Z.of_nat j + Z.of_nat n - Z.of_nat k.

(** The header after position [k] of the ring. *)
Lemma ring_next m L k a s e t : seg m L e -> L !! k = Some (a, s) -> L !! O = Some (e, t) ->
  exists k' s', L !! k' = Some (ldw m a, s') /\ ((S k < length L /\ k' = S k) \/ (S k = length L /\ k' = O))%nat.
Proof.
  intros Hs Hk H0. destruct (seg_lookup _ _ _ _ _ _ Hs Hk) as [_ ->]. pose proof (lookup_lt_Some _ _ _ Hk).
  destruct (decide (S k < length L)%nat) as [Hl|Hl].
  - destruct (lookup_lt_is_Some_2 L (S k) Hl) as [[b u] Hb]. exists (S k), u. rewrite (drop_S _ _ _ Hb). auto.
  - exists O, t. rewrite drop_ge by lia. simpl. split; [done|]. right. lia.
Qed.

(** ** The invariant *)

Section Allocator.
Context {Im : Image} {ImOk : ImageOk}.

Definition ring (blks : list (Z * Z)) : list (Z * Z) := (base, 0) :: blks.

(** [A] gives the size in headers of every block in use, [blks] is the free
    list: they are disjoint, between [base] and the end of the process, and
    their headers hold their sizes. *)
Record heap_inv (A : gmap Z Z) (blks : list (Z * Z)) (st : uheap) : Prop := {
  hi_seg : seg (u_mem st) (ring blks) base;
  hi_spaced : spaced (base - 1) (ring blks);
  hi_blks : forall b, b ∈ blks -> base + 16 <= b.1 /\ 1 <= b.2 /\ b.1 + 16 * b.2 <= u_sz st;
  hi_live : forall a s, A !! a = Some s -> base + 16 <= a /\ 1 <= s /\ a + 16 * s <= u_sz st /\ ldw (u_mem st) (a + 8) = s;
  hi_apart : forall a s a' s', A !! a = Some s -> A !! a' = Some s' -> a <> a' -> a + 16 * s <= a' \/ a' + 16 * s' <= a;
  hi_free : forall a s b, A !! a = Some s -> b ∈ blks -> a + 16 * s <= b.1 \/ b.1 + 16 * b.2 <= a;
  hi_freep : exists k s, ring blks !! k = Some (u_freep st, s);
  hi_sz : base + 16 <= u_sz st <= 2 ^ 32;
}.

(** The words of the blocks in use are as they were. *)
Definition keeps (A : gmap Z Z) (st st' : uheap) : Prop :=
  forall a s x, A !! a = Some s -> a <= x < a + 16 * s -> ldw (u_mem st') x = ldw (u_mem st) x.

Lemma free_place_spec blks st P p sp B2 bp s :
  seg (u_mem st) (ring blks) base -> spaced (base - 1) (ring blks) -> (exists k t, ring blks !! k = Some (u_freep st, t)) ->
  ring blks = P ++ (p, sp) :: B2 -> p < bp -> 1 <= s -> spaced (bp + 16 * s - 1) B2 -> Z.of_nat (length blks) < 2 ^ 32 ->
  wp (free_place bp) (fun r st' => r = p /\ st' = st) st.
Proof.
  intros Hseg Hsp (k0 & t0 & Hk0) E Hp Hs HB2 Hlen. unfold free_place. apply wp_bind, wp_gets.
  set (L := ring blks) in *. set (j := length P).
  assert (L !! j = Some (p, sp)) as Hj by (rewrite E; by apply list_lookup_middle).
  assert (forall k a t, L !! k = Some (a, t) -> (j < k)%nat -> bp < a) as Hafter.
  { intros k a t Hk Hjk. rewrite E, lookup_app_r in Hk by (unfold j in *; lia).
    destruct (k - length P)%nat as [|i] eqn:Ei; [unfold j in *; lia|]. simpl in Hk.
    apply list_elem_of_lookup_2 in Hk. pose proof (spaced_in _ _ _ HB2 Hk) as Hb. simpl in Hb. lia. }
  apply (wp_loop_idx _ (fun d a st' => st' = st /\ exists k t, L !! k = Some (a, t) /\ d = dist (length L) k j) _ (dist (length L) k0 j)).
  - intros d a st' (-> & k & t & Hk & ->). apply wp_bind, wp_gets.
    destruct (ring_next _ _ _ _ _ _ 0 Hseg Hk eq_refl) as (k' & t' & Hk' & Hnext). set (nx := ldw (u_mem st) a) in *.
    pose proof (lookup_lt_Some _ _ _ Hk) as Hkl. pose proof (lookup_lt_Some _ _ _ Hj) as Hjl.
    pose proof (spaced_in _ _ _ Hsp (list_elem_of_lookup_2 _ _ _ Hk)) as Ha. simpl in Ha.
    pose proof (spaced_in _ _ _ Hsp (list_elem_of_lookup_2 _ _ _ Hj)) as Hpb. simpl in Hpb.
    assert (k' = O -> nx = base) as Hnx0 by (intros ->; unfold L in Hk'; simpl in Hk'; congruence).
    assert ((S k < length L)%nat -> a < nx) as Hup.
    { intros Hl. destruct Hnext as [[_ ->]|[? _]]; [|lia]. destruct (spaced_lt _ _ _ _ _ _ _ _ Hsp Hk Hk'); lia. }
    destruct (decide (k = j)) as [->|Hkj].
    + assert (a = p) as -> by congruence. destruct (Z.gtb_spec bp p) as [_|?]; [|lia]. cbn [andb orb].
      destruct Hnext as [[Hl ->]|[Hl ->]].
      * pose proof (Hafter _ _ _ Hk' ltac:(lia)). destruct (Z.ltb_spec bp nx); [done|lia].
      * rewrite Hnx0 by done. destruct (Z.ltb_spec bp base); [lia|]. destruct (Z.geb_spec p base); [done|lia].
    + assert (((bp >? a) && (bp <? nx) = false) /\ ((a >=? nx) && ((bp >? a) || (bp <? nx)) = false)) as [-> ->].
      { destruct (decide (k < j)%nat) as [Hlt|Hgt].
        - assert (a < nx <= p) as [H1 H2].
          { destruct Hnext as [[Hl ->]|[Hl ->]]; [|lia]. split; [apply Hup; lia|]. destruct (decide (S k = j)) as [<-|?]; [replace nx with p by congruence; lia|].
            destruct (spaced_lt _ _ _ _ _ _ _ _ Hsp Hk' Hj); lia. }
          destruct (Z.gtb_spec bp a), (Z.ltb_spec bp nx), (Z.geb_spec a nx); simpl; split; done || lia.
        - pose proof (Hafter _ _ _ Hk ltac:(lia)) as Hb.
          destruct (Z.gtb_spec bp a) as [?|_]; [lia|]. cbn [andb orb]. split; [done|].
          destruct Hnext as [[Hl ->]|[Hl ->]]; [specialize (Hup Hl); destruct (Z.geb_spec a nx); [lia|done]|].
          rewrite Hnx0 by done. destruct (Z.ltb_spec bp base); [lia|]. by rewrite andb_false_r. }
      apply wp_ret. eexists. split; [|split; [done|]; exists k', t'; split; [done|reflexivity]].
      unfold dist. destruct Hnext as [[? ->]|[? ->]]; repeat case_decide; lia.
  - split; [done|]. by exists k0, t0.
  - pose proof (lookup_lt_Some _ _ _ Hk0). pose proof (lookup_lt_Some _ _ _ Hj).
    unfold dist, L, ring in *. cbn [length] in *. case_decide; lia.
Qed.

(** Memory changes only in the headers at [p] and [q]. *)
Definition headers_only (p q : Z) (st st' : uheap) : Prop :=
  u_freep st' = u_freep st /\ u_sz st' = u_sz st /\
  forall x, x <> p -> x <> p + 8 -> x <> q -> x <> q + 8 -> ldw (u_mem st') x = ldw (u_mem st) x.

Definition clear_of (L : list (Z * Z)) (x : Z) : Prop := forall b, b ∈ L -> b.1 + 16 <= x \/ x + 16 <= b.1.

Lemma seg_headers L e p q st st' : seg (u_mem st) L e -> headers_only p q st st' -> clear_of L p -> clear_of L q ->
  seg (u_mem st') L e.
Proof.
  intros Hs (_ & _ & Hx) Hp Hq. induction L as [|[a s] L IH]; [done|]. destruct Hs as (H1 & H2 & H3).
  destruct (Hp (a, s) ltac:(by left)), (Hq (a, s) ltac:(by left)); simpl in *;
    (split_and!; [rewrite Hx by lia; done|rewrite Hx by lia; done|]; apply IH; [done|intros b Hb; apply Hp; by right|intros b Hb; apply Hq; by right]).
Qed.

Lemma free_right_spec st p B2 bp s hi :
  ldw (u_mem st) p = hd_addr B2 base -> ldw (u_mem st) (bp + 8) = s -> 1 <= s -> base < bp -> seg (u_mem st) B2 base ->
  spaced (bp + 16 * s - 1) B2 -> (forall b, b ∈ B2 -> 1 <= b.2 /\ b.1 + 16 * b.2 <= hi) -> bp + 16 * s <= hi -> 0 < bp -> hi <= 2 ^ 32 ->
  wp (free_right bp p) (fun _ st' => headers_only bp bp st st' /\ exists s' B3, s <= s' /\
    seg (u_mem st') ((bp, s') :: B3) base /\ spaced (bp - 1) ((bp, s') :: B3) /\ (forall b, b ∈ B3 -> b ∈ B2) /\ bp + 16 * s' <= hi /\
    forall a t, 1 <= t -> (a + 16 * t <= bp \/ bp + 16 * s <= a) -> (forall b, b ∈ B2 -> a + 16 * t <= b.1 \/ b.1 + 16 * b.2 <= a) ->
      a + 16 * t <= bp \/ bp + 16 * s' <= a) st.
Proof.
  intros Hp Hs H1 Hb Hseg Hsp HB2 Hhi H0 Hhi2. unfold free_right, size_of, ptr_of. do 2 apply wp_bind, wp_gets. rewrite Hp, Hs.
  assert (clear_of B2 bp) as Hcl.
  { intros [a t] Hin. pose proof (spaced_in _ _ _ Hsp Hin). simpl in *. lia. }
  destruct (Z.eqb_spec (bp + 16 * s) (hd_addr B2 base)) as [He|He].
  - destruct B2 as [|[nx sn] B3]; simpl in He; [lia|]. subst nx. destruct Hseg as (Hn1 & Hn2 & Hseg).
    destruct (HB2 (_, sn) ltac:(by left)) as [Hsn Hend]. simpl in Hsn, Hend.
    apply wp_bind, wp_gets. cbn [hd_addr]. rewrite Hn2, u32_small by lia. apply wp_bind, wp_modify, wp_bind, wp_gets, wp_modify.
    set (st' := set_word _ _ _). assert (headers_only bp bp st st') as Ho.
    { split_and!; [done|done|]. intros x ? ? _ _. unfold st'. simpl. by rewrite !ldw_insert, !decide_False by lia. }
    split; [done|]. exists (s + sn), B3. assert (clear_of B3 bp) as Hc3 by (intros b Hin; apply Hcl; by right).
    destruct Hsp as (_ & _ & Hsp3).
    split_and!; [lia| | | |lia|].
    + split_and!; [| |by eapply seg_headers].
      * unfold st'. simpl. rewrite ldw_insert, decide_True by done. rewrite ldw_insert, decide_False by lia. done.
      * unfold st'. simpl. rewrite !ldw_insert, decide_False, decide_True by lia. done.
    + simpl. split_and!; [lia|lia|]. replace (bp + 16 * (s + sn)) with (bp + 16 * s + 16 * sn) by lia. done.
    + intros b Hin. by right.
    + intros a t Ht Ha Hd. specialize (Hd _ ltac:(by left)). simpl in Hd. lia.
  - apply wp_modify. set (st' := set_word _ _ _). assert (headers_only bp bp st st') as Ho.
    { split_and!; [done|done|]. intros x ? ? _ _. unfold st'. simpl. by rewrite !ldw_insert, !decide_False by lia. }
    split; [done|]. exists s, B2. split_and!; [lia| | |done|lia|].
    + split_and!; [| |by eapply seg_headers].
      * unfold st'. simpl. by rewrite ldw_insert, decide_True.
      * unfold st'. simpl. by rewrite ldw_insert, decide_False by lia.
    + simpl. split_and!; [lia|lia|]. destruct B2 as [|[a t] B2]; [done|]. simpl in *. split_and!; [lia|lia|]. by destruct Hsp as (_ & _ & ?).
    + intros a t _ Ha _. done.
Qed.

Lemma free_left_spec st p sp bp s B3 P hi :
  seg (u_mem st) (P ++ [(p, sp)]) (ldw (u_mem st) p) -> seg (u_mem st) ((bp, s) :: B3) base ->
  clear_of P p -> clear_of B3 p -> p + 16 <= bp -> 0 <= sp -> p + 16 * sp <= bp -> 1 <= s -> bp + 16 * s <= hi -> hi <= 2 ^ 32 -> 0 < p ->
  let X := if p + 16 * sp =? bp then (p, sp + s) :: B3 else (p, sp) :: (bp, s) :: B3 in
  wp (free_left bp p) (fun _ st' => headers_only p p st st' /\ seg (u_mem st') (P ++ X) base) st.
Proof.
  intros HP Hb Hcp Hc3 Hpb Hsp Hle Hs Hhi Hhi2 H0. unfold free_left, size_of, ptr_of. apply wp_bind, wp_gets.
  apply seg_app in HP as [HP (_ & Hps & _)]. rewrite Hps. simpl in HP.
  pose proof Hb as (Hb1 & Hb2 & Hb3). destruct (Z.eqb_spec (p + 16 * sp) bp) as [He|He].
  - apply wp_bind, wp_gets. rewrite Hb2, u32_small by lia. apply wp_bind, wp_modify, wp_bind, wp_gets, wp_modify.
    set (st' := set_word _ _ _). assert (headers_only p p st st') as Ho.
    { split_and!; [done|done|]. intros x ? ? _ _. unfold st'. simpl. by rewrite !ldw_insert, !decide_False by lia. }
    split; [done|]. apply seg_app. split; [by eapply seg_headers|].
    split_and!; [unfold st'; simpl; rewrite !ldw_insert; repeat case_decide; done || lia..|by eapply seg_headers].
  - apply wp_modify. set (st' := set_word _ _ _). assert (headers_only p p st st') as Ho.
    { split_and!; [done|done|]. intros x ? ? _ _. unfold st'. simpl. by rewrite !ldw_insert, !decide_False by lia. }
    split; [done|]. apply seg_app. split; [by eapply seg_headers|].
    split_and!; [unfold st'; simpl; by rewrite ldw_insert, decide_True|unfold st'; simpl; rewrite ldw_insert, decide_False by lia; done|].
    eapply seg_headers; [done|done| |]; intros b [->|Hin]%elem_of_cons; simpl; try lia; by apply Hc3.
Qed.

Lemma ring_clear A blks st i j a s b t : heap_inv A blks st -> ring blks !! i = Some (a, s) -> ring blks !! j = Some (b, t) ->
  (i < j)%nat -> a + 16 <= b.
Proof.
  intros HI Hi Hj Hij. destruct (spaced_lt _ _ _ _ _ _ _ _ (hi_spaced _ _ _ HI) Hi Hj Hij) as [Hlt Hs].
  destruct j as [|j]; [lia|]. destruct (hi_blks _ _ _ HI (b, t)) as (Hb & _); [apply (list_elem_of_lookup_2 _ j), Hj|].
  destruct i as [|i]; [simpl in Hi; simplify_eq/=; lia|].
  destruct (hi_blks _ _ _ HI (a, s)) as (_ & H1 & _); [apply (list_elem_of_lookup_2 _ i), Hi|]. simpl in *. lia.
Qed.

Lemma ring_length A blks st : heap_inv A blks st -> Z.of_nat (length blks) < 2 ^ 32.
Proof.
  intros HI. pose proof (spaced_length _ _ (hi_spaced _ _ _ HI)) as Hlen. simpl in Hlen. pose proof (hi_sz _ _ _ HI).
  assert (end_of (base + 16 * 0) blks <= u_sz st); [|pose proof base_pos; lia].
  destruct (last blks) as [[a t]|] eqn:El; [|apply last_None in El as ->; simpl; lia].
  apply last_Some in El as [l' ->]. destruct (hi_blks _ _ _ HI (a, t)) as (_ & _ & Hlast); [set_solver|].
  clear -Hlast. generalize (base + 16 * 0). induction l' as [|[c d] l' IH]; intros lo; simpl in *; [done|apply IH].
Qed.

(** A block in use lies away from the headers of the ring. *)
Lemma live_clear A blks st a s : heap_inv A blks st -> A !! a = Some s ->
  forall b, b ∈ ring blks -> b.1 + 16 <= a \/ a + 16 * s <= b.1.
Proof.
  intros HI Ha b [->|Hb]%elem_of_cons; simpl.
  - destruct (hi_live _ _ _ HI _ _ Ha). lia.
  - destruct (hi_free _ _ _ HI _ _ _ Ha Hb), (hi_blks _ _ _ HI _ Hb); lia.
Qed.

(** Where a block in use would go in the ring. *)
Lemma ring_place A blks st bp s : heap_inv A blks st -> A !! bp = Some s ->
  exists P p sp B2, ring blks = P ++ (p, sp) :: B2 /\ base <= p /\ p + 16 <= bp /\ 0 <= sp /\ p + 16 * sp <= bp /\
    spaced (bp + 16 * s - 1) B2 /\ (forall b, b ∈ B2 -> b ∈ blks) /\ (P = [] -> (p, sp) = (base, 0)) /\ (P <> [] -> (p, sp) ∈ blks).
Proof.
  intros HI Hl. pose proof (hi_spaced _ _ _ HI) as (_ & _ & Hsp). destruct (hi_live _ _ _ HI _ _ Hl) as (Hb & Hs & _).
  destruct (spaced_split _ blks bp s Hsp) as (B1 & B2 & EB & He & HB2); [lia|done| |].
  { intros b Hb'. split; [by apply (hi_blks _ _ _ HI)|]. by apply (hi_free _ _ _ HI _ _ _ Hl). }
  assert (spaced (base - 1) (ring B1)) as Hsp1 by (subst; apply spaced_app in Hsp as [? _]; unfold ring; simpl; split_and!; [lia|lia|done]).
  destruct (exists_last (l := ring B1)) as (P & [p sp] & EP); [done|]. exists P, p, sp, B2.
  assert ((p, sp) ∈ ring B1) as Hin by (rewrite EP; set_solver).
  pose proof (spaced_in _ _ _ Hsp1 Hin) as Hp. cbn [fst snd ring end_of] in Hp.
  assert (P <> [] -> (p, sp) ∈ blks) as HP.
  { destruct P as [|q P]; [done|]. intros _. injection EP as _ ->. subst blks. set_solver. }
  split_and!; try lia; try done.
  - subst blks. unfold ring in *. change ((base, 0) :: B1 ++ B2) with (((base, 0) :: B1) ++ B2). by rewrite EP, <- (assoc_L (++)).
  - destruct P as [|q P]; [injection EP; lia|]. destruct (hi_blks _ _ _ HI _ (HP ltac:(done))). simpl in *. lia.
  - subst blks. set_solver.
  - intros ->. by injection EP as -> -> _.
Qed.

(** The ring after the block has been put in its place. *)
Lemma ring_insert A blks st bp s s' P p sp B2 B3 :
  heap_inv A blks st -> A !! bp = Some s -> ring blks = P ++ (p, sp) :: B2 -> base <= p -> p + 16 <= bp -> 0 <= sp -> p + 16 * sp <= bp ->
  (P = [] -> (p, sp) = (base, 0)) -> (P <> [] -> (p, sp) ∈ blks) -> s <= s' -> spaced (bp - 1) ((bp, s') :: B3) ->
  (forall b, b ∈ B3 -> b ∈ blks) ->
  let X := if p + 16 * sp =? bp then (p, sp + s') :: B3 else (p, sp) :: (bp, s') :: B3 in
  exists blks', P ++ X = ring blks' /\ spaced (base - 1) (ring blks') /\ (exists b, b ∈ blks' /\ s <= b.2) /\
    forall b, b ∈ blks' -> b ∈ blks \/ b = (bp, s') \/ (b = (p, sp + s') /\ p + 16 * sp = bp /\ (p, sp) ∈ blks).
Proof.
  intros HI Hl E Hbp Hpb Hsp Hle HP0 HP1 Hss (_ & Hs' & H3) HB3 X. pose proof (hi_spaced _ _ _ HI) as HL. rewrite E in HL.
  apply spaced_app in HL as [HLP (HLp & _ & _)].
  assert (spaced (base - 1) (P ++ X)) as HS.
  { apply spaced_app. split; [done|]. unfold X. destruct (Z.eqb_spec (p + 16 * sp) bp); simpl; split_and!; try done; try lia.
    replace (p + 16 * (sp + s')) with (bp + 16 * s') by lia. done. }
  destruct P as [|q P].
  - specialize (HP0 eq_refl). injection HP0 as -> ->. unfold X in *. destruct (Z.eqb_spec (base + 16 * 0) bp); [lia|].
    exists ((bp, s') :: B3). split_and!; [done|done|exists (bp, s'); split; [by left|done]|].
    intros b [->|Hb]%elem_of_cons; [auto|left; auto].
  - unfold ring in E. injection E as <- E. exists (P ++ X). specialize (HP1 ltac:(done)). split_and!; [done|done| |].
    + unfold X. destruct (p + 16 * sp =? bp); [exists (p, sp + s')|exists (bp, s')]; (split; [set_solver|simpl; lia]).
    + assert (forall b, b ∈ P -> b ∈ blks) as HP by (subst blks; set_solver).
      intros b [Hb|Hb]%elem_of_app; [left; auto|]. unfold X in Hb. destruct (Z.eqb_spec (p + 16 * sp) bp) as [Heq|_]; [|set_solver].
      apply elem_of_cons in Hb as [->|Hb]; auto.
Qed.

(** Removing a block from those in use. *)
Lemma heap_inv_freed A blks st bp s s' p sp blks' st' k t :
  heap_inv A blks st -> A !! bp = Some s -> seg (u_mem st') (ring blks') base -> spaced (base - 1) (ring blks') ->
  (forall b, b ∈ blks' -> b ∈ blks \/ b = (bp, s') \/ (b = (p, sp + s') /\ p + 16 * sp = bp /\ (p, sp) ∈ blks)) ->
  s <= s' -> bp + 16 * s' <= u_sz st -> (p, sp) ∈ ring blks -> p + 16 <= bp -> u_sz st' = u_sz st -> 
  (forall a u, 1 <= u -> (a + 16 * u <= bp \/ bp + 16 * s <= a) -> (forall b, b ∈ blks -> a + 16 * u <= b.1 \/ b.1 + 16 * b.2 <= a) ->
      a + 16 * u <= bp \/ bp + 16 * s' <= a) ->
  (forall x, x <> bp -> x <> bp + 8 -> x <> p -> x <> p + 8 -> ldw (u_mem st') x = ldw (u_mem st) x) ->
  ring blks' !! k = Some (u_freep st', t) ->
  heap_inv (delete bp A) blks' st' /\ keeps (delete bp A) st st'.
Proof.
  intros HI Hl Hseg Hsp Hb' Hss Hend Hp Hpb Hsz Hap Hx Hf. destruct (hi_live _ _ _ HI _ _ Hl) as (Hbp & Hs & _ & _).
  assert (keeps (delete bp A) st st') as Hk.
  { intros a u x [Hne Ha]%lookup_delete_Some Hr. pose proof (live_clear _ _ _ _ _ HI Ha _ Hp). simpl in *.
    pose proof (hi_apart _ _ _ HI _ _ _ _ Ha Hl ltac:(done)). destruct (hi_live _ _ _ HI _ _ Ha). apply Hx; lia. }
  split; [|done]. constructor; [done|done| | | | |by exists k, t|rewrite Hsz; apply HI].
  - intros b [Hb|[->|(-> & He & Hb)]]%Hb'; rewrite Hsz; [by apply HI|simpl; lia|].
    destruct (hi_blks _ _ _ HI _ Hb). simpl in *. lia.
  - intros a u Ha. pose proof Ha as [Hne Ha']%lookup_delete_Some. destruct (hi_live _ _ _ HI _ _ Ha') as (H1 & H2 & H3 & H4).
    rewrite Hsz, (Hk _ _ (a + 8) Ha) by lia. done.
  - intros a u a' u' [_ Ha]%lookup_delete_Some [_ Ha']%lookup_delete_Some. by apply (hi_apart _ _ _ HI).
  - intros a u b [Hne Ha]%lookup_delete_Some Hb. destruct (hi_live _ _ _ HI _ _ Ha) as (H1 & H2 & _).
    destruct (Hap a u H2) as [?|?].
    { pose proof (hi_apart _ _ _ HI _ _ _ _ Ha Hl ltac:(done)). lia. }
    { intros b0 Hb0. by apply (hi_free _ _ _ HI _ _ _ Ha). }
    1,2: destruct (Hb' _ Hb) as [Hb0|[->|(-> & He & Hb0)]]; simpl; [by apply (hi_free _ _ _ HI _ _ _ Ha)|lia|];
      pose proof (hi_free _ _ _ HI _ _ _ Ha Hb0); simpl in *; lia.
Qed.

Lemma free_spec A blks st bp s : heap_inv A blks st -> A !! bp = Some s ->
  wp (free (bp + 16)) (fun _ st' => u_sz st' = u_sz st /\ keeps (delete bp A) st st' /\ exists blks', heap_inv (delete bp A) blks' st' /\
    exists b, b ∈ blks' /\ s <= b.2) st.
Proof.
  intros HI Hl. destruct (ring_place _ _ _ _ _ HI Hl) as (P & p & sp & B2 & E & Hbp & Hpb & Hsp & Hle & HB2 & Hin2 & HP0 & HP1).
  destruct (hi_live _ _ _ HI _ _ Hl) as (Hbb & Hs & Hend & Hsz). pose proof (hi_sz _ _ _ HI) as Hlim. pose proof base_pos as Hb0.
  pose proof (hi_seg _ _ _ HI) as Hseg. assert ((p, sp) ∈ ring blks) as Hpin by (rewrite E; set_solver).
  assert (forall b, b ∈ P -> b.1 + 16 <= p) as HPp.
  { intros b [i Hi]%list_elem_of_lookup. pose proof (lookup_lt_Some _ _ _ Hi). destruct b as [a t].
    eapply (ring_clear _ _ _ i (length P)); [done|by rewrite E, lookup_app_l|by rewrite E, list_lookup_middle|done]. }
  unfold free. replace (bp + 16 - 16) with bp by lia. apply wp_bind. eapply wp_mono.
  { eapply (free_place_spec blks st P p sp B2 bp s); try done; [by apply HI|by apply HI|lia|]. by eapply ring_length. }
  intros ? ? [-> ->]. rewrite E in Hseg. apply seg_app in Hseg as [HsP (Hp1 & Hp2 & HsB)]. apply wp_bind. eapply wp_mono.
  { apply (free_right_spec st p B2 bp s (u_sz st)); try done; try lia. intros b Hb%Hin2. by apply HI. }
  intros [] st1 (Ho1 & s' & B3 & Hss & Hseg1 & Hsp1 & Hin3 & Hend1 & Hap). apply wp_bind.
  assert (clear_of (P ++ [(p, sp)]) bp) as Hcb.
  { intros b [Hb|Hb]%elem_of_app; [pose proof (HPp _ Hb); lia|]. apply list_elem_of_singleton in Hb as ->. simpl. lia. }
  assert (clear_of P p) as HcP by (intros b Hb; left; by apply HPp).
  assert (clear_of B3 p) as Hc3.
  { intros b Hb. pose proof (spaced_in _ _ _ HB2 (Hin3 _ Hb)). lia. }
  assert (seg (u_mem st1) (P ++ [(p, sp)]) (hd_addr B2 base)) as HsP1.
  { eapply seg_headers; [|done..]. apply seg_app. split; [exact HsP|]. split_and!; done. }
  assert (ldw (u_mem st1) p = hd_addr B2 base) as Hp1' by (apply seg_app in HsP1 as [_ (? & _)]; done).
  eapply wp_mono.
  { apply (free_left_spec st1 p sp bp s' B3 P (u_sz st)); try done; try lia. by rewrite Hp1'. }
  intros [] st2 (Ho2 & Hseg2). apply wp_modify. cbn [u_sz].
  destruct (ring_insert A blks st bp s s' P p sp B2 B3 HI Hl E) as (blks' & E' & HS' & Hbig & Hb'); try done; [auto|].
  rewrite E' in Hseg2. destruct Ho1 as (_ & Hz1 & Hm1), Ho2 as (_ & Hz2 & Hm2).
  destruct (heap_inv_freed A blks st bp s s' p sp blks' (mk_uheap (u_mem st2) p (u_sz st2)) (length P)
    (if p + 16 * sp =? bp then sp + s' else sp)) as [HI' Hk]; try done; cbn [u_sz u_mem u_freep].
  - congruence.
  - intros a u Hu Ha Hd. apply Hap; auto.
  - intros x ? ? ? ?. rewrite Hm2, Hm1 by done. done.
  - rewrite <- E', lookup_app_r, Nat.sub_diag by done. destruct (p + 16 * sp =? bp); reflexivity.
  - split_and!; [congruence|done|]. exists blks'. done.
Qed.

(** Taking a block of size [n] from the end of the free block [(p, sz)]. *)
Lemma heap_inv_taken A blks st p sz n blks' st' k t : let r := p + 16 * (sz - n) in
  heap_inv A blks st -> (p, sz) ∈ blks -> 1 <= n <= sz -> seg (u_mem st') (ring blks') base -> spaced (base - 1) (ring blks') ->
  (forall b, b ∈ blks' -> (b ∈ blks /\ (b.1 + 16 * b.2 <= p \/ p + 16 * sz <= b.1)) \/ (b = (p, sz - n) /\ n < sz)) ->
  u_sz st' = u_sz st -> keeps A st st' -> ldw (u_mem st') (r + 8) = n -> ring blks' !! k = Some (u_freep st', t) ->
  A !! r = None /\ heap_inv (<[r := n]> A) blks' st'.
Proof.
  intros r HI Hp Hn Hseg Hsp Hb' Hsz Hk Hr Hf. destruct (hi_blks _ _ _ HI _ Hp) as (Hpb & Hsz1 & Hpe). simpl in *.
  assert (forall a u, A !! a = Some u -> 1 <= u /\ (a + 16 * u <= p \/ p + 16 * sz <= a)) as Hap.
  { intros a u Ha. split; [by apply (hi_live _ _ _ HI _ _ Ha)|]. apply (hi_free _ _ _ HI _ _ _ Ha Hp). }
  split; [destruct (A !! r) as [u|] eqn:Er; [|done]; destruct (Hap _ _ Er); unfold r in *; lia|].
  constructor; [done|done| | | | |by exists k, t|rewrite Hsz; apply HI].
  - intros b [[Hb _]|[-> ?]]%Hb'; rewrite Hsz; [by apply HI|]. simpl. lia.
  - intros a u [[<- <-]|[Hne Ha]]%lookup_insert_Some; [unfold r in *; split_and!; done || lia|].
    destruct (hi_live _ _ _ HI _ _ Ha) as (H1 & H2 & H3 & H4). rewrite Hsz, (Hk _ _ (a + 8) Ha) by lia. done.
  - intros a u a' u' [[<- <-]|[Hne Ha]]%lookup_insert_Some [[<- <-]|[Hne' Ha']]%lookup_insert_Some Hd.
    + done.
    + destruct (Hap _ _ Ha'). unfold r. lia.
    + destruct (Hap _ _ Ha). unfold r. lia.
    + by apply (hi_apart _ _ _ HI a u a' u').
  - intros a u b [[<- <-]|[Hne Ha]]%lookup_insert_Some [[Hb Hd]|[-> ?]]%Hb'; simpl.
    + unfold r. lia.
    + unfold r. lia.
    + by apply (hi_free _ _ _ HI a u b).
    + destruct (Hap _ _ Ha). lia.
Qed.

Lemma blks_apart A blks st i j b c : heap_inv A blks st -> blks !! i = Some b -> blks !! j = Some c -> i <> j ->
  b.1 + 16 * b.2 <= c.1 \/ c.1 + 16 * c.2 <= b.1.
Proof.
  intros HI Hi Hj Hij. destruct b as [a s], c as [b t]. simpl. pose proof (hi_spaced _ _ _ HI) as (_ & _ & Hsp).
  destruct (decide (i < j)%nat); [destruct (spaced_lt _ _ _ _ _ _ _ _ Hsp Hi Hj)|destruct (spaced_lt _ _ _ _ _ _ _ _ Hsp Hj Hi)]; lia.
Qed.

Lemma header_frame A blks st b x v : heap_inv A blks st -> b ∈ ring blks -> x = b.1 \/ x = b.1 + 8 ->
  keeps A st (set_word x v st).
Proof.
  intros HI Hb Hx a s y Ha Hy. simpl. rewrite ldw_insert. case_decide; [|done].
  pose proof (live_clear _ _ _ _ _ HI Ha _ Hb). lia.
Qed.

(** The whole block is taken. *)
Lemma take_all_spec A blks st k prevp t p n : heap_inv A blks st -> ring blks !! k = Some (prevp, t) -> blks !! k = Some (p, n) ->
  let st' := mk_uheap (<[prevp := ldw (u_mem st) p]> (u_mem st)) prevp (u_sz st) in
  keeps A st st' /\ A !! p = None /\ heap_inv (<[p := n]> A) (delete k blks) st'.
Proof.
  intros HI Hk Hp st'. pose proof (lookup_lt_Some _ _ _ Hp) as Hkl.
  assert (Hring : ring blks = take k (ring blks) ++ (prevp, t) :: (p, n) :: drop (S k) blks).
  { rewrite <- (take_drop_middle _ _ _ Hk) at 1. f_equal. f_equal. unfold ring. simpl. by apply drop_S. }
  assert (ring (delete k blks) = take k (ring blks) ++ (prevp, t) :: drop (S k) blks) as E'.
  { rewrite delete_take_drop. destruct k as [|k]; [by injection Hk as <- <-|]. change (blks !! k = Some (prevp, t)) in Hk.
    rewrite (take_S_r _ _ _ Hk), <- (assoc_L (++)). done. }
  assert (keeps A st st') as Hkeep.
  { apply (header_frame _ _ _ (prevp, t) prevp _ HI); [by eapply list_elem_of_lookup_2|by left]. }
  split; [done|]. destruct (hi_blks _ _ _ HI (p, n)) as (_ & Hn1 & _); [by eapply list_elem_of_lookup_2|].
  pose proof (hi_seg _ _ _ HI) as Hseg. pose proof (hi_spaced _ _ _ HI) as Hsp. rewrite Hring in Hseg, Hsp. simpl in Hn1.
  replace p with (p + 16 * (n - n)) at 1 2 by lia.
  apply (heap_inv_taken A blks st p n n (delete k blks) st' k t HI); [by eapply list_elem_of_lookup_2|lia| | | |done|done| |].
  - rewrite E'. apply seg_app in Hseg as [HsP (_ & Ht & Hp1 & _ & HsB)]. apply seg_app. simpl.
    assert (forall i a s, ring blks !! i = Some (a, s) -> i <> k -> prevp <> a /\ prevp <> a + 8) as Hfar.
    { intros i a s Hi Hik. destruct (decide (i < k)%nat).
      - pose proof (ring_clear _ _ _ _ _ _ _ _ _ HI Hi Hk). lia.
      - pose proof (ring_clear _ _ _ _ _ _ _ _ _ HI Hk Hi). lia. }
    split_and!.
    + apply seg_insert; [|done]. intros [a s] [i Hi]%list_elem_of_lookup. apply lookup_take_Some in Hi as [Hi Hik]. apply (Hfar i a s Hi). lia.
    + rewrite ldw_insert, decide_True by done. done.
    + rewrite ldw_insert, decide_False by lia. done.
    + apply seg_insert; [|done]. intros [a s] [i Hi]%list_elem_of_lookup. rewrite lookup_drop in Hi. apply (Hfar (S (S k + i)) a s Hi). lia.
  - rewrite E'. apply spaced_app in Hsp as [HsP (H1 & H2 & H3 & H4 & H5)]. apply spaced_app. simpl. split_and!; [done|done|done|].
    eapply spaced_mono; [done|lia].
  - intros b [i Hi]%list_elem_of_lookup. left. destruct (decide (i < k)%nat).
    + rewrite list_lookup_delete_lt in Hi by done. split; [by eapply list_elem_of_lookup_2|]. apply (blks_apart _ _ _ i k b (p, n) HI); done || lia.
    + rewrite list_lookup_delete_ge in Hi by lia. split; [by eapply list_elem_of_lookup_2|]. apply (blks_apart _ _ _ (S i) k b (p, n) HI); done || lia.
  - replace (p + 16 * (n - n) + 8) with (p + 8) by lia. apply seg_app in Hseg as [_ (_ & _ & _ & Hn & _)]. simpl.
    rewrite ldw_insert, decide_False; [done|]. pose proof (ring_clear _ _ _ k (S k) _ _ _ _ HI Hk Hp). lia.
  - rewrite E', lookup_app_r; rewrite length_take; [|lia]. rewrite Nat.min_l by (unfold ring; simpl; lia). by rewrite Nat.sub_diag.
Qed.

(** The end of the block is taken. *)
Lemma take_end_spec A blks st k prevp t p sz n : heap_inv A blks st -> ring blks !! k = Some (prevp, t) -> blks !! k = Some (p, sz) -> 1 <= n < sz ->
  let r := p + 16 * (sz - n) in
  let st' := mk_uheap (<[r + 8 := n]> (<[p + 8 := sz - n]> (u_mem st))) prevp (u_sz st) in
  keeps A st st' /\ A !! r = None /\ heap_inv (<[r := n]> A) (<[k := (p, sz - n)]> blks) st'.
Proof.
  intros HI Hk Hp Hn r st'. pose proof (lookup_lt_Some _ _ _ Hp) as Hkl. pose proof (list_elem_of_lookup_2 _ _ _ Hp) as Hin.
  assert (Hring : ring blks = take (S k) (ring blks) ++ (p, sz) :: drop (S k) blks).
  { change (drop (S k) blks) with (drop (S (S k)) (ring blks)). symmetry. by apply take_drop_middle. }
  assert (ring (<[k := (p, sz - n)]> blks) = take (S k) (ring blks) ++ (p, sz - n) :: drop (S k) blks) as E'.
  { rewrite insert_take_drop by done. done. }
  assert (keeps A st st') as Hkeep.
  { intros a s y Ha Hy. simpl. rewrite !ldw_insert. destruct (hi_free _ _ _ HI _ _ _ Ha Hin); simpl in *; unfold r in *; rewrite !decide_False by lia; done. }
  split; [done|]. pose proof (hi_seg _ _ _ HI) as Hseg. pose proof (hi_spaced _ _ _ HI) as Hsp. rewrite Hring in Hseg, Hsp.
  apply (heap_inv_taken A blks st p sz n _ st' k t HI Hin); [lia| | | |done|done| |].
  - rewrite E'. apply seg_app in Hseg as [HsP (Hp1 & Hp2 & HsB)]. simpl in HsP.
    assert (forall L e, seg (u_mem st) L e -> (forall b, b ∈ L -> b.1 + 16 <= p \/ p + 16 * sz <= b.1) -> seg (u_mem st') L e) as Hfr.
    { intros L e HL Hb. simpl. apply seg_insert; [|apply seg_insert; [|done]]; intros b Hbin; specialize (Hb b Hbin); unfold r; lia. }
    apply seg_app. split; [|split; [|split]].
    + apply Hfr; [done|]. intros [a s] [i Hi]%list_elem_of_lookup. apply lookup_take_Some in Hi as [Hi Hik]. left.
      apply (ring_clear _ _ _ i (S k) a s p sz HI Hi Hp). lia.
    + simpl. rewrite !ldw_insert, !decide_False by (unfold r; lia). done.
    + simpl. rewrite ldw_insert, decide_False by (unfold r; lia). rewrite ldw_insert, decide_True by done. done.
    + apply Hfr; [done|]. intros b Hb. right. apply spaced_app in Hsp as [_ (_ & _ & Hs2)]. pose proof (spaced_in _ _ b Hs2 Hb). lia.
  - rewrite E'. apply spaced_app in Hsp as [HsP (H1 & H2 & H3)]. apply spaced_app. split; [done|]. split; [done|split; [lia|]].
    eapply spaced_mono; [done|lia].
  - intros b [i Hi]%list_elem_of_lookup. destruct (decide (i = k)) as [->|Hik].
    + rewrite list_lookup_insert_eq in Hi by done. injection Hi as <-. right. split; [done|lia].
    + rewrite list_lookup_insert_ne in Hi by done. left. split; [by eapply list_elem_of_lookup_2|].
      apply (blks_apart _ _ _ i k b (p, sz) HI); done.
  - simpl. by rewrite ldw_insert, decide_True.
  - destruct k as [|k]; [done|]. unfold ring in *. simpl in *. by rewrite list_lookup_insert_ne by lia.
Qed.

(** A block beyond the end of the process, in use. *)
Lemma heap_inv_grow A blks st nu : heap_inv A blks st -> 1 <= nu -> u_sz st + 16 * nu <= 2 ^ 32 ->
  let p := u_sz st in let st' := set_word (p + 8) nu (mk_uheap (u_mem st) (u_freep st) (p + 16 * nu)) in
  A !! p = None /\ keeps A st st' /\ heap_inv (<[p := nu]> A) blks st'.
Proof.
  intros HI Hnu Hlim p st'. assert (keeps A st st') as Hk.
  { intros a s x Ha Hx. destruct (hi_live _ _ _ HI _ _ Ha) as (_ & _ & ? & _). simpl. rewrite ldw_insert, decide_False; [done|]. unfold p. lia. }
  assert (A !! p = None) as Hp.
  { destruct (A !! p) eqn:E; [|done]. destruct (hi_live _ _ _ HI _ _ E) as (_ & ? & ? & _). unfold p in *. lia. }
  split_and!; [done|done|]. constructor; cbn [st' set_word u_mem u_sz u_freep].
  - apply seg_insert; [|by apply HI]. intros b [->|Hb]%elem_of_cons; simpl; [pose proof (hi_sz _ _ _ HI); unfold p; lia|].
    destruct (hi_blks _ _ _ HI _ Hb). unfold p. lia.
  - apply HI.
  - intros b Hb. destruct (hi_blks _ _ _ HI _ Hb). unfold p. lia.
  - intros a s [[<- <-]|[Hne Ha]]%lookup_insert_Some.
    + rewrite ldw_insert, decide_True by done. pose proof (hi_sz _ _ _ HI). unfold p. lia.
    + destruct (hi_live _ _ _ HI _ _ Ha) as (? & ? & ? & <-). rewrite ldw_insert, decide_False by (unfold p; lia). unfold p. lia.
  - intros a s a' s' [[<- <-]|[Hne Ha]]%lookup_insert_Some [[<- <-]|[Hne' Ha']]%lookup_insert_Some Hd; [done| | |by apply (hi_apart _ _ _ HI a s a' s')].
    + destruct (hi_live _ _ _ HI _ _ Ha'). unfold p. lia.
    + destruct (hi_live _ _ _ HI _ _ Ha). unfold p. lia.
  - intros a s b [[<- <-]|[Hne Ha]]%lookup_insert_Some Hb; [|by apply (hi_free _ _ _ HI a s b)].
    destruct (hi_blks _ _ _ HI _ Hb). unfold p. lia.
  - apply HI.
  - pose proof (hi_sz _ _ _ HI). unfold p. lia.
Qed.

Lemma keeps_trans A st1 st2 st3 : keeps A st1 st2 -> keeps A st2 st3 -> keeps A st1 st3.
Proof. intros H1 H2 a s x Ha Hx. by rewrite (H2 a s x), (H1 a s x). Qed.

Lemma morecore_spec A blks st nu : heap_inv A blks st -> 1 <= nu < 2 ^ 27 ->
  wp (morecore nu) (fun r st' => (r = 0 /\ st' = st) \/ (r = u_freep st' /\ keeps A st st' /\
    exists blks', heap_inv A blks' st' /\ exists b, b ∈ blks' /\ nu <= b.2)) st.
Proof.
  intros HI Hnu. unfold morecore, sbrk. set (nu' := if nu <? 4096 then 4096 else nu).
  assert (nu <= nu' < 2 ^ 27) as Hnu' by (unfold nu'; destruct (Z.ltb_spec nu 4096); lia).
  rewrite i32_small by lia. apply wp_bind, wp_bind, wp_gets. destruct (room (u_sz st) (nu' * 16)) eqn:Er.
  - apply room_limit in Er. apply wp_bind, wp_modify, wp_ret. pose proof (hi_sz _ _ _ HI). pose proof base_pos.
    destruct (Z.eqb_spec (u_sz st) (-1)); [lia|]. apply wp_bind, wp_modify, wp_bind.
    destruct (heap_inv_grow A blks st nu' HI) as (Hn & Hk & HI1); [lia|lia|]. replace (nu' * 16) with (16 * nu') by lia.
    eapply wp_mono; [apply (free_spec _ _ _ _ nu' HI1), lookup_insert_eq|].
    intros [] st' (_ & Hk' & blks' & HI' & b & Hb & Hs). rewrite delete_insert_id in Hk', HI' by done.
    apply wp_gets. right. split_and!; [done|by eapply keeps_trans|]. exists blks'. split; [done|]. exists b. split; [done|lia].
  - apply wp_ret, wp_ret. auto.
Qed.

Lemma dist_next n k j k' : (k < n)%nat -> (j < n)%nat -> k <> j ->
  ((S k < n /\ k' = S k) \/ (S k = n /\ k' = O))%nat -> dist n k' j = dist n k j - 1 /\ 0 <= dist n k' j.
Proof. unfold dist. intros. repeat case_decide; lia. Qed.

Lemma dist_bound n k j : (k < n)%nat -> (j < n)%nat -> 0 <= dist n k j < Z.of_nat n.
Proof. unfold dist. intros. case_decide; lia. Qed.

(** Going round from the header after [i], every header comes before [i]. *)
Lemma dist_round n i j k : (i < n)%nat -> (j < n)%nat -> ((S i < n /\ k = S i) \/ (S i = n /\ k = O))%nat -> dist n k j <= dist n k i.
Proof. unfold dist. intros. repeat case_decide; lia. Qed.

Lemma carve_spec A blks st k prevp t p sz n : heap_inv A blks st -> ring blks !! k = Some (prevp, t) -> blks !! k = Some (p, sz) -> 1 <= n <= sz ->
  wp (p' <- carve n prevp p sz ;; set_freep prevp ;; ret (inr (A := Z * Z) (p' + 16)))
    (fun r st' => exists a, r = inr (a + 16) /\ A !! a = None /\ keeps A st st' /\ exists blks', heap_inv (<[a := n]> A) blks' st') st.
Proof.
  intros HI Hk Hp Hn. unfold carve. apply wp_bind. pose proof (hi_sz _ _ _ HI). pose proof base_pos.
  destruct (hi_blks _ _ _ HI (p, sz)) as (? & ? & ?); [by eapply list_elem_of_lookup_2|]. simpl in *. destruct (Z.eqb_spec sz n) as [->|Hne].
  - apply wp_bind, wp_gets, wp_bind, wp_modify, wp_ret, wp_bind, wp_modify, wp_ret.
    destruct (take_all_spec _ _ _ _ _ _ _ _ HI Hk Hp) as (T1 & T2 & T3). exists p. split_and!; try done. by eexists.
  - rewrite u32_small by lia. apply wp_bind, wp_modify, wp_bind, wp_modify, wp_ret, wp_bind, wp_modify, wp_ret.
    destruct (take_end_spec _ _ _ _ _ _ _ _ n HI Hk Hp) as (T1 & T2 & T3); [lia|]. eexists. split_and!; try done. by eexists.
Qed.

Lemma ring_inj A blks st i j a s t : heap_inv A blks st -> ring blks !! i = Some (a, s) -> ring blks !! j = Some (a, t) -> i = j.
Proof.
  intros HI Hi Hj. destruct (decide (i < j)%nat); [pose proof (ring_clear _ _ _ _ _ _ _ _ _ HI Hi Hj); lia|].
  destruct (decide (j < i)%nat); [pose proof (ring_clear _ _ _ _ _ _ _ _ _ HI Hj Hi); lia|lia].
Qed.

(** The search stands before position [k] of the ring: either it has yet to
    reach the header at which it started, or a large enough block comes first. *)
Definition searching (A : gmap Z Z) (n : Z) (st0 : uheap) (d : Z) (pp : Z * Z) (st : uheap) : Prop :=
  exists blks i0 t0 k0 t k s i, heap_inv A blks st /\ keeps A st0 st /\ ring blks !! k0 = Some (pp.1, t0) /\
    ((S k0 < length (ring blks) /\ k = S k0) \/ (S k0 = length (ring blks) /\ k = O))%nat /\
    ring blks !! k = Some (pp.2, s) /\ ring blks !! i = Some (u_freep st, t) /\ i0 = length (ring blks) /\
    (d = dist i0 k i + 2 ^ 33 \/ exists j b u, ring blks !! j = Some (b, u) /\ n <= u /\ d = dist i0 k j /\ dist i0 k j <= dist i0 k i).

Lemma searching_start A n st0 blks st i t f : heap_inv A blks st -> keeps A st0 st -> ring blks !! i = Some (f, t) -> f = u_freep st ->
  (exists d, d < 2 ^ 34 /\ searching A n st0 d (f, ldw (u_mem st) f) st) /\
  ((exists b, b ∈ blks /\ n <= b.2) -> exists d, 0 <= d < 2 ^ 33 /\ searching A n st0 d (f, ldw (u_mem st) f) st).
Proof.
  intros HI Hk Hi ->. destruct (ring_next _ _ _ _ _ _ 0 (hi_seg _ _ _ HI) Hi eq_refl) as (k & s & Hs & Hn).
  pose proof (lookup_lt_Some _ _ _ Hi). pose proof (lookup_lt_Some _ _ _ Hs). pose proof (ring_length _ _ _ HI).
  assert (Z.of_nat (length (ring blks)) <= 2 ^ 32) as Hl by (unfold ring; simpl; lia). split.
  - exists (dist (length (ring blks)) k i + 2 ^ 33). pose proof (dist_bound (length (ring blks)) k i). split; [lia|].
    exists blks, (length (ring blks)), t, i, t, k, s, i. split_and!; auto.
  - intros ([b u] & [j Hj]%list_elem_of_lookup & Hu). assert (ring blks !! S j = Some (b, u)) as Hj' by done.
    pose proof (lookup_lt_Some _ _ _ Hj'). exists (dist (length (ring blks)) k (S j)). pose proof (dist_bound (length (ring blks)) k (S j)). split; [lia|].
    exists blks, (length (ring blks)), t, i, t, k, s, i. split_and!; auto. right. exists (S j), b, u. split_and!; auto. by apply dist_round.
Qed.

Definition malloc_post (A : gmap Z Z) (n : Z) (st0 : uheap) (r : Z) (st : uheap) : Prop :=
  keeps A st0 st /\ ((r = 0 /\ exists blks, heap_inv A blks st) \/
    exists a blks, r = a + 16 /\ A !! a = None /\ heap_inv (<[a := n]> A) blks st).

Lemma malloc_loop_spec A blks st0 st n : heap_inv A blks st -> keeps A st0 st -> 1 <= n < 2 ^ 27 ->
  wp (loop (fun '(prevp, p) =>
    sz <- size_of p ;;
    if sz >=? n then
      p <- carve n prevp p sz ;;
      set_freep prevp ;;
      ret (inr (p + 16))
    else
      f <- gets u_freep ;;
      if p =? f then
        p <- morecore n ;;
        if p =? 0 then ret (inr 0) else
        nx <- ptr_of p ;;
        ret (inl (p, nx))
      else
        nx <- ptr_of p ;;
        ret (inl (p, nx))) (u_freep st, ldw (u_mem st) (u_freep st))) (malloc_post A n st0) st.
Proof.
  intros HI Hk Hn. destruct (hi_freep _ _ _ HI) as (i & t & Hi).
  destruct (searching_start A n st0 blks st i t _ HI Hk Hi eq_refl) as [(d & Hd & Hs) _].
  apply (wp_loop_idx _ (searching A n st0) _ d); [|done|lia]. clear -Hn ImOk.
  intros d [prevp p] st (blks & len & t0 & k0 & t & k & s & i & HI & Hk & Hk0 & Hnext & Hp & Hi & -> & Hd). cbn [fst snd] in *.
  apply wp_bind, wp_gets. destruct (seg_lookup _ _ _ _ _ _ (hi_seg _ _ _ HI) Hp) as [-> _].
  pose proof (lookup_lt_Some _ _ _ Hp) as Hkl. pose proof (lookup_lt_Some _ _ _ Hi) as Hil. pose proof (ring_length _ _ _ HI).
  destruct (Z.geb_spec s n) as [Hge|Hlt].
  - destruct Hnext as [[_ ->]|[_ ->]]; [|unfold ring in Hp; simpl in Hp; simplify_eq; lia]. change (blks !! k0 = Some (p, s)) in Hp.
    eapply wp_mono; [apply (carve_spec A blks st k0 prevp t0 p s n HI Hk0 Hp); lia|].
    intros r st' (a & -> & Ha & Hk' & blks' & HI'). split; [by eapply keeps_trans|]. right. by exists a, blks'.
  - apply wp_bind, wp_gets. destruct (Z.eqb_spec p (u_freep st)) as [->|Hne].
    + pose proof (ring_inj _ _ _ _ _ _ _ _ HI Hp Hi) as ->. destruct Hd as [->|(j & b & u & Hj & Hu & _ & Hle)].
      2:{ exfalso. pose proof (dist_bound _ i j Hil (lookup_lt_Some _ _ _ Hj)). assert (j = i) as ->; [|simplify_eq; lia].
          unfold dist in *. repeat case_decide; lia. }
      apply wp_bind. eapply wp_mono; [by apply (morecore_spec A blks st n)|].
      intros r st' [[-> ->]|(-> & Hk' & blks' & HI' & Hbig)].
      * apply wp_ret. split; [done|]. left. split; [done|]. by exists blks.
      * destruct (hi_freep _ _ _ HI') as (i' & t' & Hi').
        pose proof (spaced_in _ _ _ (hi_spaced _ _ _ HI') (list_elem_of_lookup_2 _ _ _ Hi')) as Hf. pose proof base_pos. cbn [fst snd] in Hf.
        destruct (Z.eqb_spec (u_freep st') 0); [lia|]. apply wp_bind, wp_gets, wp_ret.
        destruct (searching_start A n st0 blks' st' i' t' _ HI' ltac:(by eapply keeps_trans) Hi' eq_refl) as [_ (d' & Hd' & Hs')]; [done|].
        pose proof (dist_bound _ i i Hil Hil). exists d'. split; [lia|done].
    + apply wp_bind, wp_gets, wp_ret. destruct (ring_next _ _ _ _ _ _ 0 (hi_seg _ _ _ HI) Hp eq_refl) as (k' & s' & Hs' & Hn').
      assert (k <> i) as Hki by congruence. pose proof (dist_next _ k i k' Hkl Hil Hki Hn') as [Ei Hi0].
      destruct Hd as [->|(j & b & u & Hj & Hu & -> & Hle)].
      * exists (dist (length (ring blks)) k' i + 2 ^ 33). split; [lia|]. exists blks, (length (ring blks)), s, k, t, k', s', i. split_and!; auto.
      * assert (k <> j) as Hkj by (intros ->; simplify_eq; lia).
        pose proof (dist_next _ k j k' Hkl (lookup_lt_Some _ _ _ Hj) Hkj Hn') as [Ej Hj0].
        exists (dist (length (ring blks)) k' j). split; [lia|]. exists blks, (length (ring blks)), s, k, t, k', s', i.
        split_and!; auto. right. exists j, b, u. split_and!; auto. lia.
Qed.

(** The heap of a program: in use are the blocks [A].  Before the first call of
    [malloc] there is no free list. *)
Definition heap_ok (A : gmap Z Z) (st : uheap) : Prop :=
  (exists blks, heap_inv A blks st) \/ (A = ∅ /\ u_freep st = 0 /\ base + 16 <= u_sz st <= 2 ^ 32).

Lemma heap_inv_start st : base + 16 <= u_sz st <= 2 ^ 32 ->
  heap_inv ∅ [] (mk_uheap (<[base + 8 := 0]> (<[base := base]> (u_mem st))) base (u_sz st)).
Proof.
  intros Hsz. constructor; simpl; try done.
  - rewrite !ldw_insert. split_and!; [rewrite decide_False, decide_True by lia; done|by rewrite decide_True|done].
  - split_and!; [lia|lia|done].
  - by intros b ?%elem_of_nil.
  - exists O, 0. done.
Qed.

Lemma malloc_spec A st nbytes : heap_ok A st -> 0 <= nbytes < 2 ^ 31 - 32 ->
  wp (malloc nbytes) (malloc_post A ((nbytes + 15) / 16 + 1) st) st.
Proof.
  intros Hok Hn. assert (1 <= (nbytes + 15) / 16 + 1 < 2 ^ 27) as Hu by dlia.
  unfold malloc, nunits. replace (nbytes + 16 - 1) with (nbytes + 15) by lia. rewrite u32_small by lia.
  apply wp_bind, wp_gets. destruct Hok as [(blks & HI)|(-> & Hf & Hsz)].
  - destruct (hi_freep _ _ _ HI) as (i & t & Hi). pose proof base_pos.
    pose proof (spaced_in _ _ _ (hi_spaced _ _ _ HI) (list_elem_of_lookup_2 _ _ _ Hi)) as Hf. cbn [fst snd] in Hf.
    destruct (Z.eqb_spec (u_freep st) 0); [lia|]. apply wp_bind, wp_ret, wp_bind, wp_gets. by apply (malloc_loop_spec A blks).
  - rewrite Hf. change (0 =? 0) with true. apply wp_bind, wp_bind, wp_modify, wp_bind, wp_modify, wp_bind, wp_modify, wp_ret, wp_bind, wp_gets.
    apply (malloc_loop_spec ∅ [] st _ _ (heap_inv_start st Hsz)); [|done]. intros a s x Ha. by apply lookup_empty_Some in Ha.
Qed.

(** The program may store in its blocks. *)
Lemma heap_ok_store A st a n x v : heap_ok A st -> A !! a = Some n -> a + 16 <= x < a + 16 * n -> heap_ok A (set_word x v st).
Proof.
  intros [(blks & HI)|(-> & _)] Ha Hx; [|by apply lookup_empty_Some in Ha]. left. exists blks. constructor; simpl; try apply HI.
  - change (seg (<[x := v]> (u_mem st)) (ring blks) base). apply seg_insert; [|by apply HI].
    intros b Hb. destruct (live_clear _ _ _ _ _ HI Ha _ Hb); lia.
  - intros a' s Ha'. destruct (hi_live _ _ _ HI _ _ Ha') as (H1 & H2 & H3 & H4). split_and!; [done|done|done|].
    rewrite ldw_insert, decide_False; [done|]. destruct (decide (a' = a)) as [->|Hne]; [lia|].
    destruct (hi_apart _ _ _ HI _ _ _ _ Ha' Ha Hne); lia.
Qed.

(** C24: the user heap is safe.  [malloc] terminates and returns a new block with
    room for the bytes asked for, disjoint from every block in use, or 0 when
    the process cannot grow; [free] of a block in use gives it back; both keep
    every word of the other blocks and the invariant of the allocator, a sorted
    free list without adjacent blocks whose blocks are disjoint from those in
    use, and so does the program when it stores inside its blocks.  This needs
    requests below 2^31 - 32 bytes: [morecore] passes the size to [sbrk] as an
    [int]. *)
Theorem user_heap_safe A st : heap_ok A st ->
  (forall nbytes, 0 <= nbytes < 2 ^ 31 - 32 ->
   wp (malloc nbytes) (fun r st' => keeps A st st' /\
     ((r = 0 /\ heap_ok A st') \/
      exists a n, r = a + 16 /\ nbytes <= 16 * (n - 1) /\ A !! a = None /\ heap_ok (<[a := n]> A) st')) st) /\
  (forall a n, A !! a = Some n ->
   wp (free (a + 16)) (fun _ st' => keeps (delete a A) st st' /\ heap_ok (delete a A) st') st) /\
  (forall a n x v, A !! a = Some n -> a + 16 <= x < a + 16 * n -> heap_ok A (set_word x v st)).
Proof.
  intros Hok. split_and!.
  - intros nbytes Hn. eapply wp_mono; [by apply (malloc_spec A)|]. intros r st' [Hk Hr]. split; [done|].
    destruct Hr as [[-> Hr]|(a & blks & -> & Ha & HI)]; [left; split; [done|by left]|right].
    exists a, ((nbytes + 15) / 16 + 1). split_and!; [done|dlia|done|]. left. by exists blks.
  - intros a n Ha. destruct Hok as [(blks & HI)|(-> & _)]; [|by apply lookup_empty_Some in Ha].
    eapply wp_mono; [by apply (free_spec A blks st a n)|]. intros [] st' (_ & Hk & blks' & HI' & _). split; [done|]. left. by exists blks'.
  - intros. by eapply heap_ok_store.
Qed.
End Allocator.

Module HeapDemo.
#[local] Instance image : Image := {| base := 4096; room := fun sz n => sz + n <=? 2 ^ 27 |}.
#[local] Instance image_ok : ImageOk.
Proof. split; [done|]. intros sz n Hr. cbn in Hr. apply Z.leb_le in Hr. lia. Qed.

Definition st0 : uheap := mk_uheap ∅ 0 8192.

Lemma user_heap_safe_witness : heap_ok ∅ st0 /\
  wp (malloc 100) (fun r st' => keeps ∅ st0 st' /\
     ((r = 0 /\ heap_ok ∅ st') \/
      exists a n, r = a + 16 /\ 100 <= 16 * (n - 1) /\ (∅ : gmap Z Z) !! a = None /\ heap_ok (<[a := n]> ∅) st')) st0 /\
  match malloc 100 st0 with Ok r _ => r = 8192 + 16 * (4096 - 8) + 16 | _ => False end.
Proof.
  assert (heap_ok ∅ st0) as Hok by (right; split_and!; done).
  split; [exact Hok|]. split; [|vm_compute; reflexivity].
  apply (user_heap_safe ∅ st0 Hok). split; [discriminate|reflexivity].
Defined.
End HeapDemo.
