(* ===== verification/Shell.v ===== *)
(** * user/sh.c: the shell

    The parser walks over the line buffer with the position [ps] and allocates
    command nodes; a pointer to a node is its index in the store, pointers into
    the buffer are positions.  [parseexec] fills in the node it allocated first
    while later nodes already point to it, so the store is shared state.  A
    syntax error is the outcome [Panic], which [parsecmd] reports.  The recursion
    of the parser is on fuel, which [parsecmd] chooses from the length of the
    line.  The constructors do not look at the result of [malloc]: the model is
    of a shell that has the memory for its nodes. *)

From S2P Require Import Prelude Bytes Params CString UserLib.

Definition MAXARGS : nat := 10.

Inductive node :=
  | NExec (argv eargv : list (option nat))
  | NRedir (cmd file efile : nat) (mode fd : Z)
  | NPipe (left right : nat)
  | NList (left right : nat)
  | NBack (cmd : nat).

Record pstate := mk_pstate { ps : nat; nodes : list node }.

Definition P := M pstate.
Definition get_ps : P nat := gets ps.
Definition set_ps (i : nat) : P unit := modify (fun st => mk_pstate i (nodes st)).

(** ** Constructors *)

(** [malloc], [memset] and the assignments to the fields. *)
Definition alloc (c : node) : P nat :=
  i <- gets (fun st => length (nodes st)) ;;
  modify (fun st => mk_pstate (ps st) (nodes st ++ [c])) ;;
  ret i.

Definition execcmd : P nat := alloc (NExec (replicate MAXARGS None) (replicate MAXARGS None)).
Definition redircmd (subcmd file efile : nat) (mode fd : Z) : P nat := alloc (NRedir subcmd file efile mode fd).
Definition pipecmd (left right : nat) : P nat := alloc (NPipe left right).
Definition listcmd (left right : nat) : P nat := alloc (NList left right).
Definition backcmd (subcmd : nat) : P nat := alloc (NBack subcmd).

(** [cmd->argv[i] = q; cmd->eargv[i] = eq] *)
Definition set_arg (cmd i : nat) (q eq : option nat) : P unit :=
  modify (fun st => mk_pstate (ps st)
    (alter (fun c => match c with NExec a e => NExec (<[i := q]> a) (<[i := eq]> e) | _ => c end) cmd (nodes st))).

(** ** Tokens *)

Definition whitespace : list Z := [32; 9; 13; 10; 11].
Definition symbols : list Z := str "<|>&;()".

Definition in_set (l : list Z) (c : Z) : bool := match Ulib.strchr l c with Some _ => true | None => false end.

Section Parser.
(** The line buffer and its length. *)
Context (buf : list Z) (es : nat).

Definition at_ (i : nat) : Z := default 0 (buf !! i).

(** [while(s < es && f( *s)) s++], with [k] characters left. *)
Fixpoint skip (f : Z -> bool) (k s : nat) : nat :=
  match k with
  | O => s
  | S k' => if f (at_ s) then skip f k' (S s) else s
  end.

Definition skip_ws (s : nat) : nat := skip (in_set whitespace) (es - s) s.

(** The kind of the token, where it starts and where it ends. *)
Definition gettoken : P (Z * nat * nat) :=
  s <- get_ps ;;
  let s := skip_ws s in
  let q := s in
  let c := at_ s in
  let '(t, s) :=
    if c =? 0 then (c, s)
    else if in_set (str "|();&<") c then (c, S s)
    else if c =? 62 then if at_ (S s) =? 62 then (43, S (S s)) else (c, S s)
    else (97, skip (fun c => negb (in_set whitespace c) && negb (in_set symbols c)) (es - s) s) in
  set_ps (skip_ws s) ;;
  ret (t, q, s).

Definition peek (toks : list Z) : P bool :=
  s <- get_ps ;;
  let s := skip_ws s in
  set_ps s ;;
  ret (negb (at_ s =? 0) && in_set toks (at_ s)).

(** ** The grammar *)

Definition parseredirs (cmd : nat) : P nat :=
  loop (fun cmd =>
    b <- peek (str "<>") ;;
    if negb b then ret (inr cmd) else
    let* (tok, _, _) := gettoken in
    let* (t, q, eq) := gettoken in
    if negb (t =? 97) then panic "missing file for redirection" else
    cmd <- (if tok =? 60 then redircmd cmd q eq O_RDONLY 0
            else if tok =? 62 then redircmd cmd q eq (Z.lor (Z.lor O_WRONLY O_CREATE) O_TRUNC) 1
            else if tok =? 43 then redircmd cmd q eq (Z.lor O_WRONLY O_CREATE) 1
            else ret cmd) ;;
    ret (inl cmd)) cmd.

(** The arguments of a simple command: their number and the command around
    which the redirections are wrapped. *)
Definition parseargs (cmd r : nat) : P (nat * nat) :=
  loop (fun '(argc, r) =>
    b <- peek (str "|)&;") ;;
    if b then ret (inr (argc, r)) else
    let* (tok, q, eq) := gettoken in
    if tok =? 0 then ret (inr (argc, r)) else
    if negb (tok =? 97) then panic "syntax" else
    set_arg cmd argc (Some q) (Some eq) ;;
    if (MAXARGS <=? S argc)%nat then panic "too many args" else
    r <- parseredirs r ;;
    ret (inl (S argc, r))) (O, r).

Fixpoint parseline (n : nat) : P nat :=
  match n with
  | O => diverge
  | S n' =>
      cmd <- parsepipe n' ;;
      cmd <- loop (fun cmd =>
        b <- peek (str "&") ;;
        if negb b then ret (inr cmd) else
        gettoken ;;
        cmd <- backcmd cmd ;;
        ret (inl cmd)) cmd ;;
      b <- peek (str ";") ;;
      if b then
        gettoken ;;
        r <- parseline n' ;;
        listcmd cmd r
      else ret cmd
  end
with parsepipe (n : nat) : P nat :=
  match n with
  | O => diverge
  | S n' =>
      cmd <- parseexec n' ;;
      b <- peek (str "|") ;;
      if b then
        gettoken ;;
        r <- parsepipe n' ;;
        pipecmd cmd r
      else ret cmd
  end
with parseblock (n : nat) : P nat :=
  match n with
  | O => diverge
  | S n' =>
      b <- peek (str "(") ;;
      if negb b then panic "parseblock" else
      gettoken ;;
      cmd <- parseline n' ;;
      b <- peek (str ")") ;;
      if negb b then panic "syntax - missing )" else
      gettoken ;;
      parseredirs cmd
  end
with parseexec (n : nat) : P nat :=
  match n with
  | O => diverge
  | S n' =>
      b <- peek (str "(") ;;
      if b then parseblock n' else
      cmd <- execcmd ;;
      r <- parseredirs cmd ;;
      let* (argc, r) := parseargs cmd r in
      set_arg cmd argc None None ;;
      ret r
  end.
End Parser.

(** The loop over the arguments of a simple command. *)
Fixpoint nul_args (argv eargv : list (option nat)) (buf : list Z) : list Z :=
  match argv, eargv with
  | Some _ :: argv', Some e :: eargv' => nul_args argv' eargv' (<[e := 0]> buf)
  | _, _ => buf
  end.

(** NUL-terminates the strings of the command [c], by recursion on fuel. *)
Fixpoint nulterminate (n : nat) (ns : list node) (c : nat) (buf : list Z) : list Z :=
  match n with
  | O => buf
  | S n' =>
      match ns !! c with
      | None => buf
      | Some (NExec argv eargv) => nul_args argv eargv buf
      | Some (NRedir c' _ efile _ _) => <[efile := 0]> (nulterminate n' ns c' buf)
      | Some (NPipe l r) => nulterminate n' ns r (nulterminate n' ns l buf)
      | Some (NList l r) => nulterminate n' ns r (nulterminate n' ns l buf)
      | Some (NBack c') => nulterminate n' ns c' buf
      end
  end.

(** Enough for every nesting a line of that length can have. *)
Definition parse_fuel (es : nat) : nat := 4 * es + 4.

(** The parser on a whole line, up to the check that nothing is left. *)
Definition parse_line (buf : list Z) : P nat :=
  let es := Z.to_nat (Ulib.strlen buf) in
  cmd <- parseline buf es (parse_fuel es) ;;
  peek buf es [] ;;
  ret cmd.

(** ** Running commands *)

Section Run.
Context {W : Type} `{kernel : Sys W}.
Import Uprintf.

Definition sh_panic {A} (s : list Z) : M W A :=
  fprintf 2 (str "%s" ++ [10]) [AStr (Some s)] ;;
  exit 1.

(** [child] runs in the new process, where [fork1] is 0. *)
Definition fork1 (child : M W unit) : M W Z :=
  pid <- fork child ;;
  if pid =? -1 then sh_panic (str "fork") else ret pid.

Definition string_at (buf : list Z) (q : nat) : list Z := cstr (drop q buf).

Fixpoint args_of (buf : list Z) (argv : list (option nat)) : list (list Z) :=
  match argv with
  | Some q :: argv' => string_at buf q :: args_of buf argv'
  | _ => []
  end.

Fixpoint runcmd (n : nat) (ns : list node) (buf : list Z) (c : nat) : M W unit :=
  match n with
  | O => diverge
  | S n' =>
      match ns !! c with
      | None => exit 1
      | Some (NExec argv _) =>
          match args_of buf argv with
          | [] => exit 1
          | a0 :: _ as args =>
              exec a0 args ;;
              fprintf 2 (str "exec %s failed" ++ [10]) [AStr (Some a0)] ;;
              exit 0
          end
      | Some (NRedir c' file _ mode fd) =>
          close fd ;;
          r <- open (string_at buf file) mode ;;
          if r <? 0 then
            fprintf 2 (str "open %s failed" ++ [10]) [AStr (Some (string_at buf file))] ;;
            exit 1
          else
            runcmd n' ns buf c' ;;
            exit 0
      | Some (NList l r) =>
          fork1 (runcmd n' ns buf l) ;;
          wait ;;
          runcmd n' ns buf r ;;
          exit 0
      | Some (NPipe l r) =>
          let* (e, p0, p1) := pipe in
          if e <? 0 then sh_panic (str "pipe") else
          fork1 (close 1 ;; dup p1 ;; close p0 ;; close p1 ;; runcmd n' ns buf l) ;;
          fork1 (close 0 ;; dup p0 ;; close p0 ;; close p1 ;; runcmd n' ns buf r) ;;
          close p0 ;;
          close p1 ;;
          wait ;;
          wait ;;
          exit 0
      | Some (NBack c') =>
          fork1 (runcmd n' ns buf c') ;;
          exit 0
      end
  end.

(** The command, the node store and the terminated buffer. *)
Definition parsecmd (buf : list Z) : M W (nat * list node * list Z) :=
  match parse_line buf (mk_pstate 0 []) with
  | Ok cmd st =>
      if negb (ps st =? Z.to_nat (Ulib.strlen buf))%nat then
        fprintf 2 (str "leftovers: %s" ++ [10]) [AStr (Some (drop (ps st) buf))] ;;
        sh_panic (str "syntax")
      else ret (cmd, nodes st, nulterminate (length (nodes st)) (nodes st) cmd buf)
  | Panic msg _ => sh_panic (str msg)
  | _ => diverge
  end.

Definition getcmd (nbuf : Z) : M W (Z * list Z) :=
  fprintf 2 (str "$ ") [] ;;
  buf <- Ulib.gets (replicate (Z.to_nat nbuf) 0) nbuf ;;
  ret (if hd0 buf =? 0 then -1 else 0, buf).

Definition sh_main : M W unit :=
  loop (fun _ : unit =>
    fd <- open (str "console") O_RDWR ;;
    if negb (fd >=? 0) then ret (inr tt) else
    if fd >=? 3 then close fd ;; ret (inr tt) else ret (inl tt)) tt ;;
  loop (fun _ : unit =>
    let* (r, buf) := getcmd 100 in
    if negb (r >=? 0) then ret (inr tt) else
    if (at_ buf 0 =? 99) && (at_ buf 1 =? 100) && (at_ buf 2 =? 32) then
      let buf := <[Z.to_nat (Ulib.strlen buf - 1) := 0]> buf in
      r <- chdir (string_at buf 3) ;;
      when (r <? 0) (fprintf 2 (str "cannot cd %s" ++ [10]) [AStr (Some (string_at buf 3))]) ;;
      ret (inl tt)
    else
      fork1 (let* (cmd, ns, buf) := parsecmd buf in runcmd (length ns) ns buf cmd) ;;
      wait ;;
      ret (inl tt)) tt ;;
  exit 0.
End Run.
