(* ===== verification/ShellTotal.v ===== *)
(** * The shell's parser terminates

    On every line the parser returns or reports a syntax error: positions only
    move forward, every loop consumes a token, and the fuel [parsecmd] gives the
    mutual recursion is enough. *)

From S2P Require Import Prelude Bytes Params CString UserLib Shell.

Lemma in_set_existsb l c : Forall (fun x => x <> 0) l -> in_set l c = existsb (Z.eqb c) l.
Proof.
  unfold in_set. induction 1 as [|x l Hx _ IH]; simpl; [done|]. rewrite (proj2 (Z.eqb_neq x 0) Hx), (Z.eqb_sym x).
  destruct (c =? x); [done|]. simpl. rewrite <- IH. by destruct (Ulib.strchr l c).
Qed.

Lemma symbols_split c : in_set symbols c = in_set (str "|();&<") c || (c =? 62).
Proof.
  unfold symbols. rewrite !in_set_existsb by (repeat constructor; done).
  change (str "<|>&;()") with [60; 124; 62; 38; 59; 40; 41]. change (str "|();&<") with [124; 40; 41; 59; 38; 60]. cbn [existsb].
  destruct (c =? 60), (c =? 124), (c =? 62), (c =? 38), (c =? 59), (c =? 40), (c =? 41); reflexivity.
Qed.

Section Lines.
Context (buf : list Z) (es : nat).
Hypothesis Hes : at_ buf es = 0.
Hypothesis Hnz : forall i, (i < es)%nat -> at_ buf i <> 0.

(** [skip] stops at the first character that is not in the set. *)
Lemma skip_range f k i : (i <= skip buf f k i <= i + k)%nat.
Proof. revert i. induction k as [|k IH]; intros i; simpl; [lia|]. destruct (f _); [specialize (IH (S i)); lia|lia]. Qed.

Lemma skip_all f k i j : (i <= j < skip buf f k i)%nat -> f (at_ buf j) = true.
Proof.
  revert i. induction k as [|k IH]; intros i; simpl; [lia|]. destruct (f (at_ buf i)) eqn:E; [|lia].
  intros Hj. destruct (decide (j = i)) as [->|]; [done|]. apply (IH (S i)). lia.
Qed.

Lemma skip_stop f k i : skip buf f k i = (i + k)%nat \/ f (at_ buf (skip buf f k i)) = false.
Proof.
  revert i. induction k as [|k IH]; intros i; simpl; [left; lia|]. destruct (f (at_ buf i)) eqn:E; [|by right].
  destruct (IH (S i)) as [->|?]; [left; lia|by right].
Qed.

Lemma skip_ws_range i : (i <= es)%nat -> (i <= skip_ws buf es i <= es)%nat.
Proof. intros. unfold skip_ws. pose proof (skip_range (in_set whitespace) (es - i) i). lia. Qed.

Lemma skip_ws_stop i : (i <= es)%nat -> in_set whitespace (at_ buf (skip_ws buf es i)) = false.
Proof.
  intros Hi. unfold skip_ws. destruct (skip_stop (in_set whitespace) (es - i) i) as [E|E]; [|done].
  replace (i + (es - i))%nat with es in E by lia. by rewrite E, Hes.
Qed.

Lemma skip_ws_id i : in_set whitespace (at_ buf i) = false -> skip_ws buf es i = i.
Proof. intros E. unfold skip_ws. destruct (es - i)%nat; simpl; [done|]. by rewrite E. Qed.

Lemma peek_run toks st : peek buf es toks st =
  let j := skip_ws buf es (ps st) in
  Ok (negb (at_ buf j =? 0) && in_set toks (at_ buf j)) (mk_pstate j (nodes st)).
Proof. done. Qed.

(** A token that is not the end of the line takes at least one character. *)
Lemma gettoken_run st : (ps st <= es)%nat -> exists t q e j,
  gettoken buf es st = Ok (t, q, e) (mk_pstate j (nodes st)) /\ q = skip_ws buf es (ps st) /\ (q <= e <= j)%nat /\ (j <= es)%nat /\
  (at_ buf q <> 0 -> t <> 0 /\ (q < e)%nat) /\ (at_ buf q = 0 -> t = 0).
Proof.
  intros Hi. unfold gettoken, get_ps. rewrite bind_gets. set (q := skip_ws buf es (ps st)). pose proof (skip_ws_range _ Hi) as Hq. fold q in Hq.
  assert (at_ buf q <> 0 -> (q < es)%nat) as Hlt by (intros Hn; destruct (decide (q = es)) as [E|]; [by rewrite E in Hn|lia]).
  assert (forall t e, (q <= e <= es)%nat -> (at_ buf q <> 0 -> t <> 0 /\ (q < e)%nat) -> (at_ buf q = 0 -> t = 0) ->
    exists t' q' e' j, bind (set_ps (skip_ws buf es e)) (fun _ => ret (t, q, e)) st = Ok (t', q', e') (mk_pstate j (nodes st)) /\
      q' = q /\ (q' <= e' <= j)%nat /\ (j <= es)%nat /\ (at_ buf q' <> 0 -> t' <> 0 /\ (q' < e')%nat) /\ (at_ buf q' = 0 -> t' = 0)) as Hdone.
  { intros t e He H1 H2. exists t, q, e, (skip_ws buf es e). pose proof (skip_ws_range e). split_and!; try done; lia. }
  destruct (Z.eqb_spec (at_ buf q) 0) as [E0|E0]; [by apply Hdone; [lia|..]|]. specialize (Hlt E0).
  destruct (in_set (str "|();&<") (at_ buf q)) eqn:Esym; [apply Hdone; [lia|split; [done|lia]|done]|].
  destruct (Z.eqb_spec (at_ buf q) 62) as [E62|E62].
  - destruct (Z.eqb_spec (at_ buf (S q)) 62) as [E'|E'].
    + apply Hdone; [|split; [done|lia]|done]. split; [lia|]. destruct (decide (S q = es)) as [E|]; [by rewrite E, Hes in E'|lia].
    + apply Hdone; [lia|split; [done|lia]|done].
  - set (f := fun c => negb (in_set whitespace c) && negb (in_set symbols c)).
    pose proof (skip_range f (es - q) q) as Hr. apply Hdone; [lia| |done]. split; [done|].
    destruct (es - q)%nat as [|k] eqn:Ek; [lia|]. simpl.
    pose proof (skip_ws_stop _ Hi) as Hw. fold q in Hw. unfold f at 1.
    rewrite Hw, symbols_split, Esym, (proj2 (Z.eqb_neq _ _) E62). simpl. pose proof (skip_range f k (S q)). lia.
Qed.

(** After a successful [peek] the next token is not the end of the line. *)
Lemma peek_gettoken toks st b st1 : (ps st <= es)%nat -> peek buf es toks st = Ok b st1 ->
  (ps st <= ps st1 <= es)%nat /\ exists t q e j, gettoken buf es st1 = Ok (t, q, e) (mk_pstate j (nodes st1)) /\ (ps st1 <= j <= es)%nat /\
    (b = true -> (ps st1 < j)%nat) /\ (t <> 0 -> (ps st1 < j)%nat).
Proof.
  intros Hi. rewrite peek_run. intros E. injection E as <- <-. cbn [ps nodes]. pose proof (skip_ws_range _ Hi) as Hr. split; [done|].
  destruct (gettoken_run (mk_pstate (skip_ws buf es (ps st)) (nodes st))) as (t & q & e & j & E & Hq & H1 & H2 & H3 & H4); cbn [ps nodes] in *; [lia|].
  rewrite skip_ws_id in Hq by (by apply skip_ws_stop). exists t, q, e, j. subst q. split_and!; [done|lia|lia| |].
  - intros [Hb _]%andb_prop. destruct H3; [|lia]. intros E0. by rewrite E0 in Hb.
  - intros Ht. destruct (decide (at_ buf (skip_ws buf es (ps st)) = 0)) as [E0|E0]; [by specialize (H4 E0)|]. destruct (H3 E0). lia.
Qed.

Hypothesis Hlen : Z.of_nat es < 2 ^ 63.

Definition forward (i : nat) (st : pstate) : Prop := (i <= ps st <= es)%nat.
Definition any_error (_ : string) (_ : pstate) : Prop := True.

Lemma total_ok {A} (m : P A) st a st' (Q : A -> pstate -> Prop) : m st = Ok a st' -> Q a st' -> wpc m Q any_error st.
Proof. unfold wpc. by intros ->. Qed.

Lemma total_peek toks st Q : (ps st <= es)%nat ->
  (forall b st1, forward (ps st) st1 -> (forall t q e j, gettoken buf es st1 = Ok (t, q, e) (mk_pstate j (nodes st1)) -> (ps st1 <= j <= es)%nat /\
      (b = true -> (ps st1 < j)%nat) /\ (t <> 0 -> (ps st1 < j)%nat)) -> Q b st1) ->
  wpc (peek buf es toks) Q any_error st.
Proof.
  intros Hi HQ. destruct (peek buf es toks st) as [b st1| | |] eqn:E; [|done..].
  destruct (peek_gettoken toks st b st1 Hi E) as (Hf & t & q & e & j & Eg & Hr). eapply total_ok; [done|]. apply HQ; [done|].
  intros t' q' e' j' Eg'. rewrite Eg in Eg'. injection Eg' as <- <- <- <-. done.
Qed.

Lemma total_gettoken st Q : (ps st <= es)%nat ->
  (forall t q e j, gettoken buf es st = Ok (t, q, e) (mk_pstate j (nodes st)) -> (ps st <= j <= es)%nat -> Q (t, q, e) (mk_pstate j (nodes st))) ->
  wpc (gettoken buf es) Q any_error st.
Proof.
  intros Hi HQ. destruct (gettoken_run st Hi) as (t & q & e & j & E & -> & H1 & H2 & _). eapply total_ok; [done|].
  apply HQ; [done|]. pose proof (skip_ws_range _ Hi). lia.
Qed.

Lemma total_alloc c st Q : (forall r ns, Q r (mk_pstate (ps st) ns)) -> wpc (alloc c) Q any_error st.
Proof. intros HQ. eapply total_ok; [reflexivity|apply HQ]. Qed.

Lemma parseredirs_total c st : (ps st <= es)%nat -> wpc (parseredirs buf es c) (fun _ => forward (ps st)) any_error st.
Proof.
  intros Hi. apply (wpc_loop _ (fun k _ st1 => k = Z.of_nat (es - ps st1) /\ forward (ps st) st1) _ _ (Z.of_nat (es - ps st))); [|by split|lia].
  intros k c1 st1 (-> & Hf). unfold forward in *. apply wpc_bind, total_peek; [lia|]. intros b st2 Hf2 Hg. unfold forward in *.
  destruct b; cbn [negb]; [|by apply wpc_wp, wp_ret; lia]. apply wpc_bind, total_gettoken; [lia|].
  intros t q e j E Hj. destruct (Hg _ _ _ _ E) as (_ & Hlt & _). specialize (Hlt eq_refl). apply wpc_bind, total_gettoken; [cbn; lia|].
  cbn [ps nodes]. intros t2 q2 e2 j2 _ Hj2. destruct (t2 =? 97); cbn [negb]; [|done].
  assert (forall (c : nat) ns, wpc (ret (inl (B := nat) c)) (fun r st' => match r with inl _ => exists m, 0 <= m < Z.of_nat (es - ps st1) /\
    m = Z.of_nat (es - ps st') /\ (ps st <= ps st' <= es)%nat | inr _ => (ps st <= ps st' <= es)%nat end) any_error (mk_pstate j2 ns)) as Hend.
  { intros c' ns. apply wpc_wp, wp_ret. exists (Z.of_nat (es - j2)). cbn. lia. }
  apply wpc_bind. destruct (t =? 60); [by apply total_alloc|]. destruct (t =? 62); [by apply total_alloc|]. destruct (t =? 43); [by apply total_alloc|].
  apply wpc_wp, wp_ret, Hend.
Qed.

Lemma parseargs_total c r st : (ps st <= es)%nat -> wpc (parseargs buf es c r) (fun _ => forward (ps st)) any_error st.
Proof.
  intros Hi. apply (wpc_loop _ (fun k _ st1 => k = Z.of_nat (es - ps st1) /\ forward (ps st) st1) _ _ (Z.of_nat (es - ps st))); [|by split|lia].
  intros k [argc r1] st1 (-> & Hf). unfold forward in *. apply wpc_bind, total_peek; [lia|]. intros b st2 Hf2 Hg. unfold forward in *.
  destruct b; [by apply wpc_wp, wp_ret; lia|]. apply wpc_bind, total_gettoken; [lia|].
  intros t q e j E Hj. destruct (Hg _ _ _ _ E) as (_ & _ & Hlt). destruct (Z.eqb_spec t 0) as [->|Ht]; [by apply wpc_wp, wp_ret; cbn; lia|].
  specialize (Hlt Ht). destruct (t =? 97); cbn [negb]; [|done]. apply wpc_bind. eapply total_ok; [reflexivity|]. cbn [ps nodes].
  destruct (MAXARGS <=? S argc)%nat; [done|]. apply wpc_bind. eapply wpc_mono; [apply parseredirs_total; cbn; lia| |done].
  cbn [ps]. intros r2 st3 Hf3. unfold forward in *. apply wpc_wp, wp_ret. exists (Z.of_nat (es - ps st3)). lia.
Qed.

Lemma parse_total n :
  (forall st, (ps st <= es)%nat -> (4 * (es - ps st) + 4 <= n)%nat -> wpc (parseline buf es n) (fun _ => forward (ps st)) any_error st) /\
  (forall st, (ps st <= es)%nat -> (4 * (es - ps st) + 3 <= n)%nat -> wpc (parsepipe buf es n) (fun _ => forward (ps st)) any_error st) /\
  (forall st, (ps st <= es)%nat -> (4 * (es - ps st) + 1 <= n)%nat -> wpc (parseblock buf es n) (fun _ => forward (ps st)) any_error st) /\
  (forall st, (ps st <= es)%nat -> (4 * (es - ps st) + 2 <= n)%nat -> wpc (parseexec buf es n) (fun _ => forward (ps st)) any_error st).
Proof.
  induction n as [|n (IHl & IHp & IHb & IHe)]; [split_and!; intros; lia|]. split_and!; intros st Hi Hn; cbn [parseline parsepipe parseblock parseexec].
  - apply wpc_bind. eapply wpc_mono; [apply IHp; lia| |done]. intros c st1 Hf1. unfold forward in Hf1. apply wpc_bind. eapply wpc_mono.
    + apply (wpc_loop _ (fun k _ st2 => k = Z.of_nat (es - ps st2) /\ forward (ps st) st2) (fun _ => forward (ps st)) any_error (Z.of_nat (es - ps st1))); [|by split|lia].
      intros k c1 st2 (-> & Hf2). unfold forward in *. apply wpc_bind, total_peek; [lia|]. intros b st3 Hf3 Hg. unfold forward in *.
      destruct b; cbn [negb]; [|by apply wpc_wp, wp_ret; lia]. apply wpc_bind, total_gettoken; [lia|].
      intros t q e j E Hj. destruct (Hg _ _ _ _ E) as (_ & Hlt & _). specialize (Hlt eq_refl). apply wpc_bind, total_alloc. cbn [ps nodes].
      intros r ns. apply wpc_wp, wp_ret. exists (Z.of_nat (es - j)). cbn. lia.
    + intros c2 st2 Hf2. unfold forward in *. apply wpc_bind, total_peek; [lia|]. intros b st3 Hf3 Hg. unfold forward in *.
      destruct b; [|by apply wpc_wp, wp_ret; lia]. apply wpc_bind, total_gettoken; [lia|]. intros t q e j E Hj.
      destruct (Hg _ _ _ _ E) as (_ & Hlt & _). specialize (Hlt eq_refl). apply wpc_bind. eapply wpc_mono; [apply IHl; cbn; lia| |done].
      cbn [ps]. intros r st4 Hf4. unfold forward in *. apply total_alloc. cbn. lia.
    + done.
  - apply wpc_bind. eapply wpc_mono; [apply IHe; lia| |done]. intros c st1 Hf1. unfold forward in *. apply wpc_bind, total_peek; [lia|].
    intros b st3 Hf3 Hg. unfold forward in *. destruct b; [|by apply wpc_wp, wp_ret; lia]. apply wpc_bind, total_gettoken; [lia|]. intros t q e j E Hj.
    destruct (Hg _ _ _ _ E) as (_ & Hlt & _). specialize (Hlt eq_refl). apply wpc_bind. eapply wpc_mono; [apply IHp; cbn; lia| |done].
    cbn [ps]. intros r st4 Hf4. unfold forward in *. apply total_alloc. cbn. lia.
  - apply wpc_bind, total_peek; [lia|]. intros b st1 Hf1 Hg. unfold forward in *. destruct b; cbn [negb]; [|done]. apply wpc_bind, total_gettoken; [lia|].
    intros t q e j E Hj. destruct (Hg _ _ _ _ E) as (_ & Hlt & _). specialize (Hlt eq_refl). apply wpc_bind. eapply wpc_mono; [apply IHl; cbn; lia| |done].
    cbn [ps]. intros c st2 Hf2. unfold forward in *. apply wpc_bind, total_peek; [lia|]. intros b st3 Hf3 _. unfold forward in *. destruct b; cbn [negb]; [|done].
    apply wpc_bind, total_gettoken; [lia|]. intros t2 q2 e2 j2 _ Hj2. eapply wpc_mono; [apply parseredirs_total; cbn; lia| |done].
    cbn [ps]. unfold forward. intros. lia.
  - apply wpc_bind, total_peek; [lia|]. intros b st1 Hf1 Hg. unfold forward in *. destruct b.
    + eapply wpc_mono; [apply IHb; lia| |done]. unfold forward. intros. lia.
    + apply wpc_bind, total_alloc. intros c ns. apply wpc_bind. eapply wpc_mono; [apply parseredirs_total; cbn; lia| |done]. cbn [ps].
      intros r st2 Hf2. unfold forward in *. apply wpc_bind. eapply wpc_mono; [apply parseargs_total; cbn; lia| |done].
      intros [argc r2] st3 Hf3. unfold forward in *. apply wpc_bind. eapply total_ok; [reflexivity|]. apply wpc_wp, wp_ret. cbn. lia.
Qed.
End Lines.

(** The length of the line: the first NUL. *)
Lemma strlen_at buf : let es := Z.to_nat (Ulib.strlen buf) in
  at_ buf es = 0 /\ (forall i, (i < es)%nat -> at_ buf i <> 0) /\ (es <= length buf)%nat /\ 0 <= Ulib.strlen buf.
Proof.
  unfold at_. induction buf as [|c buf IH]; simpl; [split_and!; [done|lia|lia|lia]|]. destruct (Z.eqb_spec c 0) as [->|Hc].
  - simpl. split_and!; [done|lia|lia|lia].
  - destruct IH as (H1 & H2 & H3 & H4). replace (Z.to_nat (1 + Ulib.strlen buf)) with (S (Z.to_nat (Ulib.strlen buf))) by lia.
    split_and!; [done| |simpl; lia|lia]. intros [|i] Hi; simpl; [done|]. apply H2. lia.
Qed.

(** C23: the shell's parser terminates on every line: it returns a command or
    stops with a syntax error, and never runs out of the fuel that stands for
    the C stack, however the parentheses nest. *)
Theorem sh_parse_terminates (buf : list Z) : Z.of_nat (length buf) < 2 ^ 63 ->
  wpc (parse_line buf) (fun _ st => (ps st <= Z.to_nat (Ulib.strlen buf))%nat) any_error (mk_pstate 0 []).
Proof.
  intros Hl. unfold parse_line. set (es := Z.to_nat (Ulib.strlen buf)). destruct (strlen_at buf) as (H1 & H2 & H3 & _). fold es in H1, H2, H3.
  destruct (parse_total buf es H1 ltac:(lia) (parse_fuel es)) as (Hp & _). apply wpc_bind.
  eapply wpc_mono; [apply Hp; cbn; unfold parse_fuel; lia| |done]. intros c st [_ Hst]. apply wpc_bind.
  apply total_peek; [done|done|]. intros b st1 [_ Hst1] _. by apply wpc_wp, wp_ret.
Qed.

Module TotalDemo.
(** A line that is not a command. *)
Definition line : list Z := str "((ls | wc > )) & ; x" ++ [10; 0].

Lemma sh_parse_terminates_witness : Z.of_nat (length line) < 2 ^ 63 /\
  wpc (parse_line line) (fun _ st => (ps st <= Z.to_nat (Ulib.strlen line))%nat) any_error (mk_pstate 0 []).
Proof. split; [reflexivity|]. apply (sh_parse_terminates line). reflexivity. Defined.
End TotalDemo.
