(* ===== verification/ShellParse.v ===== *)
(** * The shell's parser accepts the grammar

    The grammar as data ([line], [pipeline], [simple]), its tokens, and the tree
    of commands it stands for; a text spells the tokens with any white space
    between them.  Parsing the text gives nodes that represent the tree, and
    after [nulterminate] the strings of the nodes are the words of the text. *)

From S2P Require Import Prelude Bytes Params CString UserLib Shell ShellTotal.

(** ** Tokens *)

Inductive token := TSym (c : Z) | TApp | TWord (w : list Z).

Definition word_char (c : Z) : bool := negb (c =? 0) && negb (in_set whitespace c) && negb (in_set symbols c).

Definition spell (t : token) : list Z := match t with TSym c => [c] | TApp => [62; 62] | TWord w => w end.
Definition code (t : token) : Z := match t with TSym c => c | TApp => 43 | TWord _ => 97 end.
Definition first (t : token) : Z := hd0 (spell t).

(** The token is not continued by the text after it. *)
Definition ends (t : token) (s : list Z) : Prop :=
  match t with
  | TSym c => c = 62 -> hd0 s <> 62
  | TApp => True
  | TWord _ => word_char (hd0 s) = false
  end.

Definition token_ok (t : token) : Prop :=
  match t with
  | TSym c => in_set symbols c = true
  | TApp => True
  | TWord w => w <> [] /\ Forall (fun c => word_char c = true) w
  end.

(** The texts of a list of tokens. *)
Inductive spelled : list token -> list Z -> Prop :=
  | spelled_nil : spelled [] []
  | spelled_ws c ts s : in_set whitespace c = true -> spelled ts s -> spelled ts (c :: s)
  | spelled_tok t ts s : ends t s -> spelled ts s -> spelled (t :: ts) (spell t ++ s).

(** ** The grammar *)

Inductive rkind := RIn | ROut | RApp.
Record redir := mk_redir { r_kind : rkind; r_file : list Z }.

Inductive line :=
  | LOne (p : pipeline) (bg : nat)
  | LSeq (p : pipeline) (bg : nat) (l : line)
with pipeline :=
  | POne (e : simple)
  | PPipe (e : simple) (p : pipeline)
with simple :=
  | XBlock (l : line) (rs : list redir)
  | XCmd (rs : list redir) (args : list (list Z * list redir)).

Scheme line_rec' := Induction for line Sort Prop
with pipeline_rec' := Induction for pipeline Sort Prop
with simple_rec' := Induction for simple Sort Prop.
Combined Scheme grammar_ind from line_rec', pipeline_rec', simple_rec'.

Definition redir_toks (r : redir) : list token :=
  [match r_kind r with RIn => TSym 60 | ROut => TSym 62 | RApp => TApp end; TWord (r_file r)].
Definition redirs_toks (rs : list redir) : list token := concat (redir_toks <$> rs).
Definition args_toks (args : list (list Z * list redir)) : list token :=
  concat ((fun '(w, rs) => TWord w :: redirs_toks rs) <$> args).

Fixpoint line_toks (l : line) : list token :=
  match l with
  | LOne p bg => pipeline_toks p ++ replicate bg (TSym 38)
  | LSeq p bg l => pipeline_toks p ++ replicate bg (TSym 38) ++ TSym 59 :: line_toks l
  end
with pipeline_toks (p : pipeline) : list token :=
  match p with
  | POne e => simple_toks e
  | PPipe e p => simple_toks e ++ TSym 124 :: pipeline_toks p
  end
with simple_toks (e : simple) : list token :=
  match e with
  | XBlock l rs => TSym 40 :: line_toks l ++ TSym 41 :: redirs_toks rs
  | XCmd rs args => redirs_toks rs ++ args_toks args
  end.

(** At most nine arguments: [argv] holds the null pointer too. *)
Fixpoint line_ok (l : line) : Prop :=
  match l with
  | LOne p _ => pipeline_ok p
  | LSeq p _ l => pipeline_ok p /\ line_ok l
  end
with pipeline_ok (p : pipeline) : Prop :=
  match p with
  | POne e => simple_ok e
  | PPipe e p => simple_ok e /\ pipeline_ok p
  end
with simple_ok (e : simple) : Prop :=
  match e with
  | XBlock l _ => line_ok l
  | XCmd _ args => (length args < MAXARGS)%nat
  end.

(** The commands a line stands for. *)
Inductive tree :=
  | TExec (argv : list (list Z))
  | TRedir (t : tree) (file : list Z) (mode fd : Z)
  | TPipe (l r : tree)
  | TList (l r : tree)
  | TBack (t : tree).

Definition r_mode (k : rkind) : Z :=
  match k with RIn => O_RDONLY | ROut => Z.lor (Z.lor O_WRONLY O_CREATE) O_TRUNC | RApp => Z.lor O_WRONLY O_CREATE end.
Definition r_fd (k : rkind) : Z := match k with RIn => 0 | _ => 1 end.
Definition wrap (t : tree) (r : redir) : tree := TRedir t (r_file r) (r_mode (r_kind r)) (r_fd (r_kind r)).

Fixpoint line_tree (l : line) : tree :=
  match l with
  | LOne p bg => Nat.iter bg TBack (pipeline_tree p)
  | LSeq p bg l => TList (Nat.iter bg TBack (pipeline_tree p)) (line_tree l)
  end
with pipeline_tree (p : pipeline) : tree :=
  match p with
  | POne e => simple_tree e
  | PPipe e p => TPipe (simple_tree e) (pipeline_tree p)
  end
with simple_tree (e : simple) : tree :=
  match e with
  | XBlock l rs => foldl wrap (line_tree l) rs
  | XCmd rs args => foldl wrap (TExec args.*1) (rs ++ concat args.*2)
  end.

(** Does the text go on with one of the characters [toks]? *)
Definition starts (ts : list token) (toks : list Z) : bool :=
  match ts with [] => false | t :: _ => in_set toks (first t) end.

(** ** Reading tokens *)

Section Lex.
Context (buf : list Z) (es : nat).
Hypothesis Hes : at_ buf es = 0.
Hypothesis Hnz : forall i, (i < es)%nat -> at_ buf i <> 0.
Hypothesis Hlen : Z.of_nat es < 2 ^ 63.

(** The token [t] is in the buffer from [i] to [j]. *)
Definition spells (t : token) (i j : nat) : Prop :=
  (i < j <= es)%nat /\ (j = i + length (spell t))%nat /\ (forall k c, spell t !! k = Some c -> at_ buf (i + k) = c) /\ token_ok t /\
  ends t [at_ buf j].

Inductive lexes : list token -> nat -> Prop :=
  | lexes_nil : lexes [] es
  | lexes_ws i ts : (i < es)%nat -> in_set whitespace (at_ buf i) = true -> lexes ts (S i) -> lexes ts i
  | lexes_tok t ts i j : spells t i j -> lexes ts j -> lexes (t :: ts) i.

Lemma lexes_le ts i : lexes ts i -> (i <= es)%nat.
Proof. induction 1 as [|i ts ? ? ? ?|t ts i j [? _] ? ?]; lia. Qed.

Lemma spells_first t i j : spells t i j -> at_ buf i = first t /\ at_ buf i <> 0 /\ in_set whitespace (at_ buf i) = false.
Proof.
  intros (Hij & Ej & Hc & Hok & _). assert (at_ buf i = first t) as E.
  { unfold first. destruct (spell t) as [|c s] eqn:Es; [simpl in Ej; lia|]. rewrite <- (Nat.add_0_r i) at 1. by apply Hc. }
  split; [done|]. split; [apply Hnz; lia|]. rewrite E. destruct t as [c| |w]; unfold first; cbn [spell hd0 token_ok] in *.
  - rewrite in_set_existsb in Hok by (repeat constructor; done). apply existsb_exists in Hok as (x & Hx & ->%Z.eqb_eq).
    cbn in Hx. repeat (destruct Hx as [<-|Hx]; [reflexivity|]). done.
  - reflexivity.
  - destruct Hok as [Hw Hf]. destruct w as [|c w]; [done|]. inversion_clear Hf as [|? ? Hwc _]. simpl.
    unfold word_char in Hwc. by destruct (in_set whitespace c); [rewrite andb_false_r in Hwc|].
Qed.

Lemma lexes_skip ts i : lexes ts i -> lexes ts (skip_ws buf es i) /\ (i <= skip_ws buf es i <= es)%nat.
Proof.
  intros H. induction H as [|i ts Hi Hw H [IH1 IH2]|t ts i j Hs H IH].
  - rewrite skip_ws_id by (by rewrite Hes). split; [constructor|lia].
  - assert (skip_ws buf es i = skip_ws buf es (S i)) as ->.
    { unfold skip_ws. replace (es - i)%nat with (S (es - S i)) by lia. simpl. by rewrite Hw. }
    split; [done|lia].
  - destruct (spells_first _ _ _ Hs) as (_ & _ & Hw). rewrite skip_ws_id by done. pose proof Hs as [? _]. split; [by econstructor|lia].
Qed.

Lemma peek_tok ts toks st : lexes ts (ps st) ->
  exists j, peek buf es toks st = Ok (starts ts toks) (mk_pstate j (nodes st)) /\ lexes ts j /\ (ps st <= j)%nat.
Proof.
  intros H. destruct (lexes_skip _ _ H) as [Hs Hr]. exists (skip_ws buf es (ps st)). rewrite peek_run.
  assert (in_set whitespace (at_ buf (skip_ws buf es (ps st))) = false) as Hw by (apply skip_ws_stop; [done|lia]).
  split; [|split; [done|lia]]. cbv zeta. f_equal. set (q := skip_ws buf es (ps st)) in *. clearbody q.
  destruct Hs as [|i ts' Hi Hw' _|t ts' i j Hsp _]; [by rewrite Hes|by rewrite Hw in Hw'|].
  destruct (spells_first _ _ _ Hsp) as (Ef & Hn & _). unfold starts. rewrite <- Ef. by rewrite (proj2 (Z.eqb_neq _ _) Hn).
Qed.

Lemma skip_exact f k i e : (forall x, (i <= x < e)%nat -> f (at_ buf x) = true) -> (i <= e <= i + k)%nat ->
  e = (i + k)%nat \/ f (at_ buf e) = false -> skip buf f k i = e.
Proof.
  revert i. induction k as [|k IH]; intros i Hf Hr He; simpl; [lia|]. destruct (decide (i = e)) as [->|].
  - destruct He as [?|He]; [lia|]. by rewrite He.
  - rewrite (Hf i) by lia. apply IH; [intros x Hx; apply Hf; lia|lia|]. destruct He; [left; lia|by right].
Qed.

(** The scan of the token at [q]. *)
Lemma scan_tok t q e : spells t q e ->
  (if at_ buf q =? 0 then (at_ buf q, q)
   else if in_set (str "|();&<") (at_ buf q) then (at_ buf q, S q)
   else if at_ buf q =? 62 then if at_ buf (S q) =? 62 then (43, S (S q)) else (at_ buf q, S q)
   else (97, skip buf (fun c => negb (in_set whitespace c) && negb (in_set symbols c)) (es - q) q)) = (code t, e).
Proof.
  intros Hs. destruct (spells_first _ _ _ Hs) as (Ef & Hn & _). rewrite (proj2 (Z.eqb_neq _ _) Hn).
  destruct Hs as (Hqe & Ee & Hc & Hok & Hend). destruct t as [c| |w]; cbn [code spell length] in *.
  - unfold first in Ef. cbn in Ef. rewrite Ef. cbn [token_ok] in Hok. rewrite symbols_split in Hok.
    destruct (in_set (str "|();&<") c); [f_equal; lia|]. cbn [orb] in Hok. rewrite Hok. apply Z.eqb_eq in Hok as ->.
    specialize (Hend eq_refl). cbn in Hend. replace e with (S q) in * by lia. rewrite (proj2 (Z.eqb_neq _ _) Hend). done.
  - assert (at_ buf q = 62) as E0 by (rewrite <- (Nat.add_0_r q); by apply (Hc O)). rewrite E0.
    assert (at_ buf (S q) = 62) as E1 by (replace (S q) with (q + 1)%nat by lia; by apply (Hc 1%nat)). rewrite E1. cbn. f_equal. lia.
  - destruct Hok as [Hw Hf]. assert (forall x, (q <= x < e)%nat -> word_char (at_ buf x) = true) as Hwc.
    { intros x Hx. destruct (lookup_lt_is_Some_2 w (x - q)) as [c Hcx]; [lia|]. pose proof (Hc _ _ Hcx) as Ec. replace (q + (x - q))%nat with x in Ec by lia.
      rewrite Ec. eapply Forall_lookup_1 in Hf; done. }
    assert (forall c, word_char c = true -> in_set symbols c = false /\ negb (in_set whitespace c) && negb (in_set symbols c) = true) as Hsym.
    { intros c. unfold word_char. destruct (c =? 0), (in_set whitespace c), (in_set symbols c); done. }
    destruct (Hsym _ (Hwc q ltac:(lia))) as [Hs0 _]. rewrite symbols_split in Hs0. apply orb_false_elim in Hs0 as [-> ->]. f_equal.
    apply skip_exact; [intros x Hx; by apply Hsym, Hwc|lia|]. cbn in Hend. unfold word_char in Hend.
    destruct (Z.eqb_spec (at_ buf e) 0) as [E0|_]; [left|right; done].
    destruct (decide (e < es)%nat) as [Hlt|]; [by apply Hnz in Hlt|lia].
Qed.

Lemma gettoken_tok t ts st : lexes (t :: ts) (ps st) ->
  exists q e j, gettoken buf es st = Ok (code t, q, e) (mk_pstate j (nodes st)) /\ spells t q e /\ lexes ts j /\ (ps st < j)%nat.
Proof.
  intros H. destruct (lexes_skip _ _ H) as [Hs Hr]. unfold gettoken, get_ps. rewrite bind_gets.
  assert (in_set whitespace (at_ buf (skip_ws buf es (ps st))) = false) as Hw by (apply skip_ws_stop; [done|lia]).
  set (q := skip_ws buf es (ps st)) in *. remember (t :: ts) as l eqn:El. clearbody q.
  destruct Hs as [|i ts' Hi Hw' _|t' ts' i j Hsp Hts]; [done|by rewrite Hw in Hw'|]. injection El as -> ->.
  exists i, j, (skip_ws buf es j). destruct (lexes_skip _ _ Hts) as [Hs2 Hr2]. pose proof Hsp as [Hij _].
  split_and!; [|done|done|lia]. cbv zeta. by rewrite (scan_tok t i j Hsp).
Qed.

Lemma gettoken_end st : lexes [] (ps st) -> exists q e j, gettoken buf es st = Ok (0, q, e) (mk_pstate j (nodes st)) /\ lexes [] j /\ (ps st <= j)%nat.
Proof.
  intros H. destruct (lexes_skip _ _ H) as [Hs Hr]. unfold gettoken, get_ps. rewrite bind_gets.
  assert (in_set whitespace (at_ buf (skip_ws buf es (ps st))) = false) as Hw by (apply skip_ws_stop; [done|lia]).
  set (q := skip_ws buf es (ps st)) in *. remember [] as l eqn:El. clearbody q.
  destruct Hs as [|i ts' Hi Hw' _|]; [|by rewrite Hw in Hw'|done]. exists es, es, (skip_ws buf es es). cbv zeta. rewrite Hes. cbn.
  rewrite skip_ws_id by (by rewrite Hes). split_and!; [done|constructor|lia].
Qed.

Lemma lexes_ok t ts i : lexes (t :: ts) i -> token_ok t /\ (i < es)%nat.
Proof.
  remember (t :: ts) as l eqn:El. induction 1 as [|i ts' Hi _ _ IH|t' ts' i j Hs _ _]; [done|split; [by apply IH|lia]|].
  injection El as -> ->. destruct Hs as (? & _ & _ & ? & _). split; [done|lia].
Qed.

Lemma lexes_all_ok ts i : lexes ts i -> Forall token_ok ts.
Proof. induction 1 as [|i ts ? ? ? ?|t ts i j (_ & _ & _ & ? & _) _ IH]; by try constructor. Qed.

Lemma lexes_length ts i : lexes ts i -> (length ts <= es - i)%nat.
Proof. induction 1 as [|i ts ? ? ? ?|t ts i j [? _] H ?]; simpl; lia. Qed.

(** ** Trees in the store *)

(** [r] is [c] with the redirections [rs] around it. *)
Inductive wraps (ns : list node) (c : nat) : list redir -> nat -> Prop :=
  | wraps_nil : wraps ns c [] c
  | wraps_snoc rs r r' q e k w : wraps ns c rs r -> ns !! r' = Some (NRedir r q e (r_mode k) (r_fd k)) -> (r < r')%nat ->
      spells (TWord w) q e -> wraps ns c (rs ++ [mk_redir k w]) r'.

Inductive rep (ns : list node) : nat -> tree -> Prop :=
  | rep_exec c qes ws a e : ns !! c = Some (NExec ((Some ∘ fst <$> qes) ++ None :: a) ((Some ∘ snd <$> qes) ++ None :: e)) ->
      Forall2 (fun qe w => spells (TWord w) qe.1 qe.2) qes ws -> rep ns c (TExec ws)
  | rep_redir c c' q e w m fd t : ns !! c = Some (NRedir c' q e m fd) -> (c' < c)%nat -> spells (TWord w) q e ->
      rep ns c' t -> rep ns c (TRedir t w m fd)
  | rep_pipe c l r tl tr : ns !! c = Some (NPipe l r) -> (l < c)%nat -> (r < c)%nat -> rep ns l tl -> rep ns r tr -> rep ns c (TPipe tl tr)
  | rep_list c l r tl tr : ns !! c = Some (NList l r) -> (l < c)%nat -> (r < c)%nat -> rep ns l tl -> rep ns r tr -> rep ns c (TList tl tr)
  | rep_back c c' t : ns !! c = Some (NBack c') -> (c' < c)%nat -> rep ns c' t -> rep ns c (TBack t).

Lemma rep_mono ns ns' c t : rep ns c t -> ns `prefix_of` ns' -> rep ns' c t.
Proof.
  intros H Hp. induction H; [eapply rep_exec|eapply rep_redir|eapply rep_pipe|eapply rep_list|eapply rep_back]; eauto using prefix_lookup_Some.
Qed.

Lemma rep_lt ns c t : rep ns c t -> (c < length ns)%nat.
Proof. destruct 1; by eapply lookup_lt_Some. Qed.

Lemma wraps_mono ns ns' c rs r : wraps ns c rs r -> (forall i x q e m fd, ns !! i = Some (NRedir x q e m fd) -> ns' !! i = Some (NRedir x q e m fd)) ->
  wraps ns' c rs r.
Proof. intros H Hk. induction H; econstructor; eauto. Qed.

Lemma wraps_app ns c rs r rs' r' : wraps ns c rs r -> wraps ns r rs' r' -> wraps ns c (rs ++ rs') r'.
Proof. intros H H'. induction H'; [by rewrite app_nil_r|]. rewrite (assoc_L (++)). econstructor; eauto. Qed.

Lemma wraps_rep ns c rs r t : wraps ns c rs r -> rep ns c t -> rep ns r (foldl wrap t rs).
Proof. intros H Ht. induction H as [|rs r r' q e k w H IH Hr Hlt Hs]; [done|]. rewrite foldl_app. simpl. by eapply rep_redir. Qed.

Lemma wraps_lt ns c rs r : wraps ns c rs r -> (c < length ns)%nat -> (r < length ns)%nat.
Proof. destruct 1; [done|]. intros _. by eapply lookup_lt_Some. Qed.

Lemma alloc_run x st : alloc x st = Ok (length (nodes st)) (mk_pstate (ps st) (nodes st ++ [x])).
Proof. done. Qed.

(** Redirections. *)
Lemma parseredirs_tok rs ts c st : lexes (redirs_toks rs ++ ts) (ps st) -> starts ts (str "<>") = false -> (c < length (nodes st))%nat ->
  wp (parseredirs buf es c) (fun r st' => lexes ts (ps st') /\ (ps st <= ps st')%nat /\ nodes st `prefix_of` nodes st' /\ wraps (nodes st') c rs r) st.
Proof.
  intros Hl Hf Hc. apply (wp_loop_idx _ (fun k c1 st1 => exists done rem, rs = done ++ rem /\ k = Z.of_nat (length rem) /\
    lexes (redirs_toks rem ++ ts) (ps st1) /\ (ps st <= ps st1)%nat /\ nodes st `prefix_of` nodes st1 /\ wraps (nodes st1) c done c1) _ (Z.of_nat (length rs))).
  - clear Hl. intros k c1 st1 (done & rem & -> & -> & Hl & Hi & Hp & Hw). apply wp_bind.
    destruct (peek_tok _ (str "<>") st1 Hl) as (j & E & Hl1 & Hj). eapply wp_eq; [done|]. destruct rem as [|[k w] rem].
    + cbn in Hl1. change (starts (redirs_toks [] ++ ts) (str "<>")) with (starts ts (str "<>")). rewrite Hf. apply wp_ret. rewrite app_nil_r.
      split_and!; [done|cbn; lia|done|done].
    + assert (starts (redirs_toks (mk_redir k w :: rem) ++ ts) (str "<>") = true) as -> by (by destruct k). cbn [negb].
      destruct (gettoken_tok _ _ (mk_pstate j (nodes st1)) Hl1) as (q1 & e1 & j1 & E1 & _ & Hl2 & Hj1). apply wp_bind. eapply wp_eq; [done|].
      destruct (gettoken_tok (TWord w) _ (mk_pstate j1 (nodes st1)) Hl2) as (q & e & j2 & E2 & Hs & Hl3 & Hj2). apply wp_bind. eapply wp_eq; [done|].
      cbn [ps nodes] in *. change (negb (code (TWord w) =? 97)) with false. cbv iota.
      assert (c1 < length (nodes st1))%nat as Hc1 by (eapply wraps_lt; [done|]; apply prefix_length in Hp; lia).
      apply wp_bind, (wp_eq _ _ _ (length (nodes st1)) (mk_pstate j2 (nodes st1 ++ [NRedir c1 q e (r_mode k) (r_fd k)]))); [by destruct k|].
      apply wp_ret. exists (Z.of_nat (length rem)). split; [simpl; lia|]. exists (done ++ [mk_redir k w]), rem. cbn [ps nodes].
      split_and!; [by rewrite <- (assoc_L (++))|done|done|lia|by apply prefix_app_r|].
      apply (wraps_snoc _ _ _ c1 _ q e); [|by rewrite lookup_app_r, Nat.sub_diag|done|done].
      eapply wraps_mono; [done|]. intros. by apply lookup_app_l_Some.
  - exists [], rs. split_and!; try done. constructor.
  - pose proof (lexes_length _ _ Hl) as Hn. rewrite length_app in Hn. assert (length rs <= length (redirs_toks rs))%nat; [|lia].
    clear. unfold redirs_toks. induction rs as [|r rs IH]; csimpl; lia.
Qed.

Definition follow (ts : list token) (toks : list Z) : Prop := ts = [] \/ starts ts toks = true.

Lemma follow_not ts toks toks' : follow ts toks -> forallb (fun c => negb (in_set toks' c)) toks = true -> Forall (fun c => c <> 0) toks -> starts ts toks' = false.
Proof.
  intros [->|Hs] Hd Hn; [done|]. destruct ts as [|t ts]; [done|]. unfold starts in *. rewrite in_set_existsb in Hs by done.
  apply existsb_exists in Hs as (x & Hx & ->%Z.eqb_eq). rewrite forallb_forall in Hd. specialize (Hd _ Hx). by destruct (in_set toks' x).
Qed.

Lemma starts_word w ts toks : token_ok (TWord w) -> forallb (in_set symbols) toks = true -> Forall (fun c => c <> 0) toks ->
  starts (TWord w :: ts) toks = false.
Proof.
  intros [Hw Hf] Hs Hn. destruct w as [|c w]; [done|]. inversion_clear Hf as [|? ? Hc _]. unfold starts, first. cbn [spell hd0].
  destruct (in_set toks c) eqn:E; [|done]. rewrite in_set_existsb in E by done. apply existsb_exists in E as (x & Hx & ->%Z.eqb_eq).
  rewrite forallb_forall in Hs. unfold word_char in Hc. by rewrite (Hs _ Hx), andb_false_r in Hc.
Qed.

(** The node of a simple command with the arguments [qes]. *)
Definition exec_node (qes : list (nat * nat)) : node :=
  NExec ((Some ∘ fst <$> qes) ++ replicate (MAXARGS - length qes) None) ((Some ∘ snd <$> qes) ++ replicate (MAXARGS - length qes) None).

Lemma exec_node_arg qes q e i : (length qes < MAXARGS)%nat -> i = length qes ->
  (match exec_node qes with NExec a b => NExec (<[i := Some q]> a) (<[i := Some e]> b) | _ => exec_node qes end) = exec_node (qes ++ [(q, e)]).
Proof.
  intros Hl ->. unfold exec_node. rewrite !fmap_app, length_app. cbn [length fmap list_fmap compose fst snd].
  replace (MAXARGS - length qes)%nat with (S (MAXARGS - (length qes + 1))) by lia. cbn [replicate].
  rewrite !insert_app_r_alt by (rewrite length_fmap; lia). rewrite !length_fmap, Nat.sub_diag. by rewrite <- !(assoc_L (++)).
Qed.

Lemma exec_node_end qes i : (length qes < MAXARGS)%nat -> i = length qes ->
  (match exec_node qes with NExec a b => NExec (<[i := None]> a) (<[i := None]> b) | _ => exec_node qes end) = exec_node qes.
Proof.
  intros Hl ->. unfold exec_node. replace (MAXARGS - length qes)%nat with (S (MAXARGS - (length qes + 1))) by lia. cbn [replicate].
  rewrite !insert_app_r_alt by (rewrite length_fmap; lia). by rewrite !length_fmap, Nat.sub_diag.
Qed.

Lemma set_arg_run c i q e st x : nodes st !! c = Some x ->
  set_arg c i q e st = Ok tt (mk_pstate (ps st) (<[c := match x with NExec a b => NExec (<[i := q]> a) (<[i := e]> b) | _ => x end]> (nodes st))).
Proof.
  intros Hx. unfold set_arg, modify. do 2 f_equal. apply list_eq. intros j. destruct (decide (j = c)) as [->|Hj].
  - rewrite list_lookup_alter_eq, Hx, list_lookup_insert_eq by (by eapply lookup_lt_Some). by destruct x.
  - by rewrite list_lookup_alter_ne, list_lookup_insert_ne.
Qed.

(** The store while the simple command at [c] is being parsed. *)
Definition filling (ns : list node) (c : nat) (rs : list redir) (dn : list (list Z * list redir)) (qes : list (nat * nat)) (r : nat) (ns' : list node) : Prop :=
  ns' !! c = Some (exec_node qes) /\ Forall2 (fun qe w => spells (TWord w) qe.1 qe.2) qes dn.*1 /\ ns `prefix_of` ns' /\ (length ns <= c)%nat /\
  wraps ns' c (rs ++ concat dn.*2) r.

Lemma filling_set ns c rs dn qes r ns' x : filling ns c rs dn qes r ns' -> ns `prefix_of` <[c := exec_node x]> ns' /\ wraps (<[c := exec_node x]> ns') c (rs ++ concat dn.*2) r.
Proof.
  intros (Hc & _ & [t ->] & Hl & Hw). split.
  - rewrite insert_app_r_alt by done. by exists (<[c - length ns := exec_node x]> t)%nat.
  - eapply wraps_mono; [done|]. intros i y q e m fd Hi. destruct (decide (i = c)) as [->|]; [by rewrite Hc in Hi|by rewrite list_lookup_insert_ne].
Qed.

Lemma parseargs_tok ns rs args ts c r st : lexes (args_toks args ++ ts) (ps st) -> follow ts (str "|)&;") -> (length args < MAXARGS)%nat ->
  filling ns c rs [] [] r (nodes st) ->
  wp (parseargs buf es c r) (fun res st' => lexes ts (ps st') /\ (ps st <= ps st')%nat /\ res.1 = length args /\
    exists qes, filling ns c rs args qes res.2 (nodes st')) st.
Proof.
  intros Hl Hf Hn Hr. apply (wp_loop_idx _ (fun k res st1 => exists dn rem qes, args = dn ++ rem /\ k = Z.of_nat (length rem) /\ res.1 = length dn /\
    lexes (args_toks rem ++ ts) (ps st1) /\ (ps st <= ps st1)%nat /\ filling ns c rs dn qes res.2 (nodes st1)) _ (Z.of_nat (length args))).
  - clear Hl Hr. intros k [argc r1] st1 (dn & rem & qes & -> & -> & Hargc & Hl & Hi & Hfill). cbn [fst snd] in *. subst argc. apply wp_bind.
    destruct (peek_tok _ (str "|)&;") st1 Hl) as (j & E & Hl1 & Hj). eapply wp_eq; [done|]. destruct rem as [|[w rs'] rem].
    + change (args_toks [] ++ ts) with ts in *. rewrite app_nil_r in *. destruct Hf as [->|Hf].
      * cbn [starts]. destruct (gettoken_end (mk_pstate j (nodes st1)) Hl1) as (q & e & j1 & E1 & Hl2 & Hj1). apply wp_bind. eapply wp_eq; [done|].
        cbn [ps nodes] in *. change (0 =? 0) with true. apply wp_ret. split_and!; [done|cbn; lia|done|by exists qes].
      * rewrite Hf. apply wp_ret. split_and!; [done|cbn; lia|done|by exists qes].
    + change (args_toks ((w, rs') :: rem) ++ ts) with ((TWord w :: redirs_toks rs' ++ args_toks rem) ++ ts) in *. cbn [app] in *. rewrite <- (assoc_L (++)) in Hl1.
      rewrite starts_word by (by (eapply lexes_ok) || (repeat constructor; done) || done).
      destruct (gettoken_tok _ _ (mk_pstate j (nodes st1)) Hl1) as (q & e & j1 & E1 & Hs & Hl2 & Hj1). apply wp_bind. eapply wp_eq; [done|].
      cbn [ps nodes code] in *. change (97 =? 0) with false. change (negb (97 =? 97)) with false. cbv iota.
      pose proof Hfill as (Hc & HF & Hp & Hcl & Hw). pose proof (Forall2_length _ _ _ HF) as Hlq. rewrite length_fmap in Hlq.
      rewrite length_app in Hn. cbn [length] in Hn.
      apply wp_bind. eapply wp_eq; [by apply (set_arg_run c _ _ _ (mk_pstate j1 (nodes st1)) _ Hc)|]. cbn [ps nodes]. rewrite exec_node_arg by lia.
      destruct (Nat.leb_spec MAXARGS (S (length dn))) as [?|_]; [lia|].
      destruct (filling_set _ _ _ _ _ _ _ (qes ++ [(q, e)]) Hfill) as [Hp' Hw']. set (ns1 := <[c := exec_node (qes ++ [(q, e)])]> (nodes st1)) in *.
      assert (ns1 !! c = Some (exec_node (qes ++ [(q, e)]))) as Hc' by (apply list_lookup_insert_eq; by eapply lookup_lt_Some).
      apply wp_bind. eapply wp_mono.
      { apply (parseredirs_tok rs' (args_toks rem ++ ts) r1 (mk_pstate j1 ns1)); [done| |].
        - destruct rem as [|[w2 rs2] rem]; [by eapply follow_not; [done|reflexivity|repeat constructor; done]|].
          apply (starts_word w2); [|done|repeat constructor; done].
          apply lexes_all_ok in Hl2. rewrite !Forall_app in Hl2. destruct Hl2 as (_ & Ha & _). by inversion Ha.
        - eapply wraps_lt; [done|]. by eapply lookup_lt_Some. }
      intros r2 st2 (Hl3 & Hj3 & Hp3 & Hw3). apply wp_ret. exists (Z.of_nat (length rem)). cbn [length]. split; [lia|].
      exists (dn ++ [(w, rs')]), rem, (qes ++ [(q, e)]). cbn [fst snd ps nodes] in *.
      split_and!; [by rewrite <- (assoc_L (++))|done|rewrite length_app; simpl; lia|done|lia|].
      unfold filling. rewrite !fmap_app, concat_app. cbn [fmap list_fmap fst snd concat]. rewrite app_nil_r, (assoc_L (++)). split_and!.
      * by eapply prefix_lookup_Some.
      * apply Forall2_app; [done|]. by apply Forall2_cons.
      * by etrans.
      * done.
      * eapply wraps_app; [|done]. eapply wraps_mono; [done|]. intros. by eapply prefix_lookup_Some.
  - exists [], args, []. split_and!; done.
  - unfold MAXARGS in Hn. lia.
Qed.

(** A parser has read the tokens of [t] and stands before [ts]. *)
Definition parsed (st : pstate) (ts : list token) (t : tree) (r : nat) (st' : pstate) : Prop :=
  lexes ts (ps st') /\ (ps st <= ps st')%nat /\ nodes st `prefix_of` nodes st' /\ rep (nodes st') r t.

Lemma parsed_skip st ts t r st1 j : parsed st ts t r st1 -> lexes ts j -> (ps st1 <= j)%nat -> parsed st ts t r (mk_pstate j (nodes st1)).
Proof. intros (H1 & H2 & H3 & H4) Hl Hj. split_and!; [done|cbn; lia|done|done]. Qed.

Lemma wp_peek {A} ts toks st (k : bool -> P A) Q : lexes ts (ps st) ->
  (forall j, lexes ts j -> (ps st <= j)%nat -> wp (k (starts ts toks)) Q (mk_pstate j (nodes st))) -> wp (bind (peek buf es toks) k) Q st.
Proof. intros Hl HQ. destruct (peek_tok _ toks st Hl) as (j & E & Hl1 & Hj). apply wp_bind. eapply wp_eq; [done|]. by apply HQ. Qed.

Lemma wp_tok {A} t ts st (k : Z * nat * nat -> P A) Q : lexes (t :: ts) (ps st) ->
  (forall q e j, spells t q e -> lexes ts j -> (ps st < j <= es)%nat -> wp (k (code t, q, e)) Q (mk_pstate j (nodes st))) -> wp (bind (gettoken buf es) k) Q st.
Proof. intros Hl HQ. destruct (gettoken_tok _ _ st Hl) as (q & e & j & E & Hs & Hl1 & Hj). apply wp_bind. eapply wp_eq; [done|].
  apply HQ; [done|done|]. split; [done|by eapply lexes_le]. Qed.

Lemma follow_weaken ts toks toks' : follow ts toks -> forallb (in_set toks') toks = true -> Forall (fun c => c <> 0) toks -> follow ts toks'.
Proof.
  intros [->|Hs] Hd Hn; [by left|right]. destruct ts as [|t ts]; [done|]. unfold starts in *. rewrite in_set_existsb in Hs by done.
  apply existsb_exists in Hs as (x & Hx & ->%Z.eqb_eq). rewrite forallb_forall in Hd. by apply Hd.
Qed.

Lemma background_tok bg ts c t st0 st : lexes (replicate bg (TSym 38) ++ ts) (ps st) -> starts ts (str "&") = false ->
  parsed st0 (replicate bg (TSym 38) ++ ts) t c st ->
  wp (loop (fun cmd =>
        b <- peek buf es (str "&") ;;
        if negb b then ret (inr cmd) else
        gettoken buf es ;;
        cmd <- backcmd cmd ;;
        ret (inl cmd)) c) (fun r st' => parsed st0 ts (Nat.iter bg TBack t) r st') st.
Proof.
  intros Hl Hf Hp. apply (wp_loop_idx _ (fun k c1 st1 => exists i j, (i + j = bg)%nat /\ k = Z.of_nat j /\
    parsed st0 (replicate j (TSym 38) ++ ts) (Nat.iter i TBack t) c1 st1) _ (Z.of_nat bg)).
  - clear Hl Hp. intros k c1 st1 (i & j & Hij & -> & Hp). apply wp_bind. pose proof Hp as (Hl & _).
    destruct (peek_tok _ (str "&") st1 Hl) as (p & E & Hl1 & Hj). eapply wp_eq; [done|]. destruct j as [|j].
    + cbn [replicate app] in *. rewrite Hf. cbn [negb]. apply wp_ret. replace bg with i by lia. by apply parsed_skip.
    + change (starts (replicate (S j) (TSym 38) ++ ts) (str "&")) with true. cbn [negb].
      destruct (gettoken_tok _ _ (mk_pstate p (nodes st1)) Hl1) as (q & e & j1 & E1 & _ & Hl2 & Hj1). apply wp_bind. eapply wp_eq; [done|].
      apply wp_bind. eapply wp_eq; [apply alloc_run|]. apply wp_ret. exists (Z.of_nat j). split; [lia|]. exists (S i), j. split_and!; [lia|done|].
      destruct Hp as (_ & Hi & Hpre & Hr). cbn [ps nodes] in *. split_and!; cbn [ps nodes]; [done|lia|by apply prefix_app_r|].
      cbn [Nat.iter]. eapply rep_back; [by rewrite lookup_app_r, Nat.sub_diag|by eapply rep_lt|]. eapply rep_mono; [done|by apply prefix_app_r].
  - exists O, bg. done.
  - pose proof (lexes_length _ _ Hl) as Hn. rewrite length_app, length_replicate in Hn. lia.
Qed.

Lemma starts_cmd rs args ts : Forall token_ok (redirs_toks rs ++ args_toks args) -> follow ts (str "|)&;") ->
  starts (redirs_toks rs ++ args_toks args ++ ts) (str "(") = false.
Proof.
  intros Hok Hf. destruct rs as [|[k w] rs]; [|by destruct k]. destruct args as [|[w rs'] args].
  - change (starts ts (str "(") = false). eapply follow_not; [done|reflexivity|repeat constructor; done].
  - apply (starts_word w); [by inversion Hok|done|repeat constructor; done].
Qed.

Lemma simple_cmd n rs args ts st : (length args < MAXARGS)%nat -> lexes ((redirs_toks rs ++ args_toks args) ++ ts) (ps st) -> follow ts (str "|)&;") ->
  wp (parseexec buf es (S n)) (parsed st ts (foldl wrap (TExec args.*1) (rs ++ concat args.*2))) st.
Proof.
  intros Hn Hl Hf. cbn [parseexec]. apply wp_bind. pose proof (lexes_all_ok _ _ Hl) as Hok. apply Forall_app in Hok as [Hok _].
  destruct (peek_tok _ (str "(") st Hl) as (j & E & Hl1 & Hj). eapply wp_eq; [done|]. rewrite <- (assoc_L (++)) in Hl1 |- *. rewrite starts_cmd by done.
  apply wp_bind. eapply wp_eq; [apply alloc_run|]. cbn [ps nodes]. set (c := length (nodes st)).
  set (ns1 := nodes st ++ [exec_node []]). change (nodes st ++ _) with ns1. apply wp_bind. eapply wp_mono.
  { apply (parseredirs_tok rs (args_toks args ++ ts) c (mk_pstate j ns1)); [done| |unfold c, ns1; cbn; rewrite length_app; simpl; lia].
    destruct args as [|[w rs'] args]; [eapply follow_not; [done|reflexivity|repeat constructor; done]|].
    apply (starts_word w); [|done|repeat constructor; done]. apply Forall_app in Hok as [_ Ha]. by inversion Ha. }
  cbn [ps nodes]. intros r st1 (Hl2 & Hj2 & Hp2 & Hw2). apply wp_bind. eapply wp_mono.
  { apply (parseargs_tok (nodes st) rs args ts c r st1); [done|done|done|]. split_and!.
    - eapply prefix_lookup_Some; [|done]. by apply list_lookup_middle.
    - constructor.
    - etrans; [|done]. by apply prefix_app_r.
    - done.
    - cbn. by rewrite app_nil_r. }
  intros [argc r2] st2 (Hl3 & Hj3 & Hargc & qes & Hfill). cbn [fst snd] in *. subst argc. pose proof Hfill as (Hc & HF & Hp3 & _ & Hw3).
  pose proof (Forall2_length _ _ _ HF) as Hlq. rewrite length_fmap in Hlq.
  apply wp_bind. eapply wp_eq; [by apply (set_arg_run c _ _ _ st2 _ Hc)|]. rewrite exec_node_end by lia.
  rewrite list_insert_id by done. apply wp_ret. cbn [ps nodes]. split_and!; cbn [ps nodes]; [done|lia|done|]. eapply wraps_rep; [done|].
  unfold exec_node in Hc. replace (MAXARGS - length qes)%nat with (S (MAXARGS - length qes - 1)) in Hc by lia. by eapply rep_exec.
Qed.

(** Two commands, one parsed after the other, under a new node. *)
Lemma parsed_pair st st1 ts1 t1 c j ts t2 r st2 x : parsed st ts1 t1 c st1 -> (ps st1 <= j)%nat -> parsed (mk_pstate j (nodes st1)) ts t2 r st2 ->
  let ns := nodes st2 ++ [x] in
  rep ns c t1 /\ rep ns r t2 /\ (c < length (nodes st2))%nat /\ (r < length (nodes st2))%nat /\ nodes st `prefix_of` ns /\ (ps st <= ps st2)%nat /\
  ns !! length (nodes st2) = Some x.
Proof.
  intros (_ & H1 & H2 & H3) Hj (H4 & H5 & H6 & H7) ns. cbn [ps nodes] in *.
  assert (nodes st2 `prefix_of` ns) as Hpre by (by apply prefix_app_r). pose proof (prefix_length _ _ H6). pose proof (rep_lt _ _ _ H3).
  split_and!; [eapply rep_mono; [done|by etrans]|by eapply rep_mono|lia|by eapply rep_lt|etrans; [done|by etrans]|lia|].
  unfold ns. by rewrite lookup_app_r, Nat.sub_diag.
Qed.

Definition line_spec (l : line) : Prop := forall n ts st, line_ok l -> lexes (line_toks l ++ ts) (ps st) -> follow ts (str ")") ->
  (4 * (es - ps st) + 4 <= n)%nat -> wp (parseline buf es n) (parsed st ts (line_tree l)) st.
Definition pipeline_spec (p : pipeline) : Prop := forall n ts st, pipeline_ok p -> lexes (pipeline_toks p ++ ts) (ps st) -> follow ts (str "&;)") ->
  (4 * (es - ps st) + 3 <= n)%nat -> wp (parsepipe buf es n) (parsed st ts (pipeline_tree p)) st.
Definition simple_spec (e : simple) : Prop := forall n ts st, simple_ok e -> lexes (simple_toks e ++ ts) (ps st) -> follow ts (str "|)&;") ->
  (4 * (es - ps st) + 2 <= n)%nat -> wp (parseexec buf es n) (parsed st ts (simple_tree e)) st.

Lemma follow_bg bg ts : follow ts (str ";)") -> follow (replicate bg (TSym 38) ++ ts) (str "&;)").
Proof. intros Hf. destruct bg; cbn; [|by right]. eapply follow_weaken; [done|reflexivity|repeat constructor; done]. Qed.

(** A pipeline and its [&]s. *)
Lemma jobs_spec n p bg ts st (k : nat -> P nat) Q : pipeline_spec p -> pipeline_ok p -> lexes (pipeline_toks p ++ replicate bg (TSym 38) ++ ts) (ps st) ->
  follow ts (str ";)") -> (4 * (es - ps st) + 3 <= n)%nat ->
  (forall c st1, parsed st ts (Nat.iter bg TBack (pipeline_tree p)) c st1 -> wp (k c) Q st1) ->
  wp (cmd <- parsepipe buf es n ;; cmd <- loop (fun cmd =>
        b <- peek buf es (str "&") ;;
        if negb b then ret (inr cmd) else
        gettoken buf es ;;
        cmd <- backcmd cmd ;;
        ret (inl cmd)) cmd ;; k cmd) Q st.
Proof.
  intros IH Hok Hl Hf Hn HQ. apply wp_bind. eapply wp_mono; [by apply (IH n _ st Hok Hl (follow_bg _ _ Hf))|]. intros c st1 Hp.
  apply wp_bind. eapply wp_mono; [|by apply HQ]. pose proof Hp as (Hl1 & _).
  apply background_tok; [done|eapply follow_not; [done|reflexivity|repeat constructor; done]|done].
Qed.

Lemma line_one p bg : pipeline_spec p -> line_spec (LOne p bg).
Proof.
  intros IH [|n] ts st Hok Hl Hf Hn; [lia|]. cbn [line_ok line_toks line_tree parseline] in *. rewrite <- (assoc_L (++)) in Hl.
  apply (jobs_spec n p bg ts); [done|done|done|eapply follow_weaken; [done|reflexivity|repeat constructor; done]|lia|].
  intros c st1 Hp. pose proof Hp as (Hl1 & _). apply (wp_peek ts); [done|]. intros j Hl2 Hj.
  rewrite (follow_not ts (str ")") (str ";")) by (done || (repeat constructor; done)). apply wp_ret. by apply parsed_skip.
Qed.

Lemma line_seq p bg l : pipeline_spec p -> line_spec l -> line_spec (LSeq p bg l).
Proof.
  intros IHp IHl [|n] ts st [Hokp Hokl] Hl Hf Hn; [lia|]. cbn [line_toks line_tree parseline] in *. rewrite <- !(assoc_L (++)) in Hl. cbn [app] in Hl.
  apply (jobs_spec n p bg (TSym 59 :: line_toks l ++ ts)); [done|done|done|by right|lia|].
  intros c st1 Hp. pose proof Hp as (Hl1 & Hle & _). apply (wp_peek _ _ _ _ _ Hl1). intros j Hl2 Hj.
  change (starts (TSym 59 :: line_toks l ++ ts) (str ";")) with true. cbv iota.
  eapply wp_tok; [exact Hl2|]. intros q e j2 Hs Hl3 [Hj2 Hj2']. cbn [ps nodes] in *. apply wp_bind. eapply wp_mono; [apply (IHl n ts); [done|done|done|cbn; lia]|].
  intros r st2 Hp2. apply (wp_eq _ _ _ _ _ (alloc_run _ _)).
  destruct (parsed_pair _ _ _ _ _ j2 _ _ _ _ (NList c r) Hp ltac:(lia) Hp2) as (R1 & R2 & L1 & L2 & Hpre & Hps & Hx).
  split_and!; cbn [ps nodes]; [apply Hp2|done|done|]. by eapply rep_list.
Qed.

Lemma pipeline_one e : simple_spec e -> pipeline_spec (POne e).
Proof.
  intros IH [|n] ts st Hok Hl Hf Hn; [lia|]. cbn [pipeline_ok pipeline_toks pipeline_tree parsepipe] in *. apply wp_bind.
  eapply wp_mono; [apply (IH n ts st Hok Hl); [eapply follow_weaken; [done|reflexivity|repeat constructor; done]|lia]|].
  intros c st1 Hp. pose proof Hp as (Hl1 & _). apply (wp_peek ts); [done|]. intros j Hl2 Hj.
  rewrite (follow_not ts (str "&;)") (str "|")) by (done || (repeat constructor; done)). apply wp_ret. by apply parsed_skip.
Qed.

Lemma pipeline_pipe e p : simple_spec e -> pipeline_spec p -> pipeline_spec (PPipe e p).
Proof.
  intros IHe IHp [|n] ts st [Hoke Hokp] Hl Hf Hn; [lia|]. cbn [pipeline_toks pipeline_tree parsepipe] in *. rewrite <- !(assoc_L (++)) in Hl. cbn [app] in Hl.
  apply wp_bind. eapply wp_mono; [apply (IHe n _ st Hoke Hl); [by right|lia]|].
  intros c st1 Hp. pose proof Hp as (Hl1 & Hle & _). apply (wp_peek _ _ _ _ _ Hl1). intros j Hl2 Hj.
  change (starts (TSym 124 :: pipeline_toks p ++ ts) (str "|")) with true. cbv iota.
  eapply wp_tok; [exact Hl2|]. intros q x j2 Hs Hl3 [Hj2 Hj2']. cbn [ps nodes] in *. apply wp_bind. eapply wp_mono; [apply (IHp n ts); [done|done|done|cbn; lia]|].
  intros r st2 Hp2. apply (wp_eq _ _ _ _ _ (alloc_run _ _)).
  destruct (parsed_pair _ _ _ _ _ j2 _ _ _ _ (NPipe c r) Hp ltac:(lia) Hp2) as (R1 & R2 & L1 & L2 & Hpre & Hps & Hx).
  split_and!; cbn [ps nodes]; [apply Hp2|done|done|]. by eapply rep_pipe.
Qed.

Lemma simple_block l rs : line_spec l -> simple_spec (XBlock l rs).
Proof.
  intros IH [|[|n]] ts st Hok Hl Hf Hn; [lia|lia|]. cbn [simple_ok simple_toks simple_tree parseexec] in *. cbn [app] in Hl. rewrite <- (assoc_L (++)) in Hl. cbn [app] in Hl.
  apply (wp_peek _ _ _ _ _ Hl). intros j Hl1 Hj. change (starts (TSym 40 :: _) (str "(")) with true. cbv iota. cbn [parseblock].
  apply (wp_peek _ _ (mk_pstate j (nodes st)) _ _ Hl1). intros j1 Hl2 Hj1. change (negb (starts (TSym 40 :: _) (str "("))) with false. cbv iota.
  eapply wp_tok; [exact Hl2|]. intros q x j2 Hs Hl3 [Hj2 Hj2']. cbn [ps nodes] in *. apply wp_bind.
  eapply wp_mono; [apply (IH n _ (mk_pstate j2 (nodes st)) Hok Hl3); [by right|cbn; lia]|]. intros c st1 (Hl4 & Hle & Hpre & Hr). cbn [ps nodes] in *.
  apply (wp_peek _ _ _ _ _ Hl4). intros j3 Hl5 Hj3. change (negb (starts (TSym 41 :: _) (str ")"))) with false. cbv iota.
  eapply wp_tok; [exact Hl5|]. intros q2 x2 j4 Hs2 Hl6 [Hj4 Hj4']. cbn [ps nodes] in *.
  eapply wp_mono; [apply (parseredirs_tok rs ts c (mk_pstate j4 (nodes st1)) Hl6); [|by eapply rep_lt]|].
  { eapply follow_not; [done|reflexivity|repeat constructor; done]. }
  cbn [ps nodes]. intros r st2 (Hl7 & Hle2 & Hpre2 & Hw). split_and!; [done|lia|by etrans|]. eapply wraps_rep; [done|]. by eapply rep_mono.
Qed.

Lemma parse_grammar : (forall l, line_spec l) /\ (forall p, pipeline_spec p) /\ (forall e, simple_spec e).
Proof.
  apply grammar_ind; auto using line_one, line_seq, pipeline_one, pipeline_pipe, simple_block.
  intros rs args [|n] ts st Hok Hl Hf Hn; [lia|]. by apply simple_cmd.
Qed.

(** ** Terminating the strings *)

(** Only characters outside words have been overwritten, with NUL. *)
Definition nulled (b : list Z) : Prop :=
  length b = length buf /\ forall i, at_ b i = at_ buf i \/ (at_ b i = 0 /\ word_char (at_ buf i) = false).

(** Everything that is NUL in [b] is NUL in [b']. *)
Definition nul_le (b b' : list Z) : Prop := forall i, at_ b i = 0 -> at_ b' i = 0.

Lemma at_insert b e i : (e < length b)%nat -> at_ (<[e := 0]> b) i = if decide (e = i) then 0 else at_ b i.
Proof. intros He. unfold at_. case_decide; [subst; by rewrite list_lookup_insert_eq|by rewrite list_lookup_insert_ne]. Qed.

Hypothesis Hbuf : (es < length buf)%nat.

Lemma nulled_insert b q e w : nulled b -> spells (TWord w) q e ->
  nulled (<[e := 0]> b) /\ nul_le b (<[e := 0]> b) /\ at_ (<[e := 0]> b) e = 0.
Proof.
  intros [Hl Hb] (Hqe & _ & _ & _ & He). assert (e < length b)%nat by lia. split_and!.
  - split; [by rewrite length_insert|]. intros i. rewrite at_insert by done. case_decide; [subst; right; by split|apply Hb].
  - intros i Hi. rewrite at_insert by done. by case_decide.
  - rewrite at_insert, decide_True by done. done.
Qed.

Lemma cstr_at b q w : (forall k c, w !! k = Some c -> at_ b (q + k) = c /\ c <> 0) -> at_ b (q + length w) = 0 -> cstr (drop q b) = w.
Proof.
  revert q. induction w as [|c w IH]; intros q Hw He; cbn [length] in *.
  - rewrite Nat.add_0_r in He. unfold at_ in He. destruct (b !! q) as [x|] eqn:E; cbn in He.
    + rewrite (drop_S _ _ _ E). by subst x.
    + apply lookup_ge_None in E. by rewrite drop_ge.
  - destruct (Hw O c eq_refl) as [Hc Hn]. rewrite Nat.add_0_r in Hc. unfold at_ in Hc. destruct (b !! q) as [x|] eqn:E; cbn in Hc; [|done].
    subst x. rewrite (drop_S _ _ _ E). simpl. rewrite (proj2 (Z.eqb_neq c 0) Hn). f_equal. apply IH.
    + intros k c' Hk. replace (S q + k)%nat with (q + S k)%nat by lia. by apply Hw.
    + by replace (S q + length w)%nat with (q + S (length w))%nat by lia.
Qed.

Lemma word_read b q e w : nulled b -> spells (TWord w) q e -> at_ b e = 0 -> string_at b q = w.
Proof.
  intros [_ Hb] (Hqe & He & Hc & [_ Hf] & _) Hz. cbn [spell] in *. unfold string_at. apply cstr_at; [|by rewrite <- He].
  intros k c Hk. pose proof (Hc _ _ Hk) as Ec. pose proof (Forall_lookup_1 _ _ _ _ Hf Hk) as Hwc. cbn in Hwc.
  destruct (Hb (q + k)%nat) as [E|[_ Hw]]; [|by rewrite Ec, Hwc in Hw]. split; [congruence|]. intros ->. by vm_compute in Hwc.
Qed.

(** Reading a tree back from the store and the buffer, as [runcmd] does. *)
Fixpoint load (n : nat) (ns : list node) (b : list Z) (c : nat) : option tree :=
  match n with
  | O => None
  | S n' =>
      match ns !! c with
      | None => None
      | Some (NExec argv _) => Some (TExec (args_of b argv))
      | Some (NRedir c' file _ mode fd) => t ← load n' ns b c'; Some (TRedir t (string_at b file) mode fd)
      | Some (NPipe l r) => tl ← load n' ns b l; tr ← load n' ns b r; Some (TPipe tl tr)
      | Some (NList l r) => tl ← load n' ns b l; tr ← load n' ns b r; Some (TList tl tr)
      | Some (NBack c') => t ← load n' ns b c'; Some (TBack t)
      end
  end.

Definition readable (n : nat) (ns : list node) (c : nat) (t : tree) (b : list Z) : Prop :=
  nulled b /\ forall b', nulled b' -> nul_le b b' -> load n ns b' c = Some t.

Lemma args_terminated qes ws a e b : Forall2 (fun qe w => spells (TWord w) qe.1 qe.2) qes ws -> nulled b ->
  let b1 := nul_args ((Some ∘ fst <$> qes) ++ None :: a) ((Some ∘ snd <$> qes) ++ None :: e) b in
  nulled b1 /\ nul_le b b1 /\ forall b', nulled b' -> nul_le b1 b' -> args_of b' ((Some ∘ fst <$> qes) ++ None :: a) = ws.
Proof.
  intros HF. revert b. induction HF as [|[q x] w qes ws Hs HF IH]; intros b Hb; [split_and!; [done|by intros i|done]|].
  cbn in Hs. destruct (nulled_insert _ _ _ _ Hb Hs) as (H1 & H2 & H3). destruct (IH _ H1) as (H4 & H5 & H6). cbn.
  split_and!; [done|intros i Hi; by apply H5, H2|]. intros b' Hb' Hle. f_equal; [|by apply H6]. eapply word_read; [done|done|]. by apply Hle, H5.
Qed.

Lemma terminated ns c t : rep ns c t -> forall n b, (c < n)%nat -> nulled b ->
  readable n ns c t (nulterminate n ns c b) /\ nul_le b (nulterminate n ns c b).
Proof.
  intros H. induction H as [c qes ws a e Hc HF|c c' q e w m fd t Hc Hlt Hs _ IH|c l r tl tr Hc Hl Hr _ IHl _ IHr|c l r tl tr Hc Hl Hr _ IHl _ IHr|c c' t Hc Hlt _ IH];
    intros [|n] b Hn Hb; try lia; cbn [nulterminate load]; unfold readable; cbn [load]; rewrite Hc.
  - destruct (args_terminated _ _ a e b HF Hb) as (H1 & H2 & H3). split_and!; [done| |done]. intros b' Hb' Hle. f_equal. f_equal. by apply H3.
  - destruct (IH n b ltac:(lia) Hb) as [[H1 H2] H3]. destruct (nulled_insert _ _ _ _ H1 Hs) as (H4 & H5 & H6).
    split_and!; [done| |intros i Hi; by apply H5, H3]. intros b' Hb' Hle. rewrite H2; [|done|intros i Hi; by apply Hle, H5]. cbn.
    by rewrite (word_read b' q e w) by (done || by apply Hle).
  - destruct (IHl n b ltac:(lia) Hb) as [[H1 H2] H3]. destruct (IHr n _ ltac:(lia) H1) as [[H4 H5] H6].
    split_and!; [done| |intros i Hi; by apply H6, H3]. intros b' Hb' Hle. rewrite H2, H5; try done. intros i Hi. by apply Hle, H6.
  - destruct (IHl n b ltac:(lia) Hb) as [[H1 H2] H3]. destruct (IHr n _ ltac:(lia) H1) as [[H4 H5] H6].
    split_and!; [done| |intros i Hi; by apply H6, H3]. intros b' Hb' Hle. rewrite H2, H5; try done. intros i Hi. by apply Hle, H6.
  - destruct (IH n b ltac:(lia) Hb) as [[H1 H2] H3]. split_and!; [done| |done]. intros b' Hb' Hle. by rewrite H2.
Qed.
End Lex.

(** ** Texts *)

Lemma ws_nonzero c : in_set whitespace c = true -> c <> 0.
Proof. intros H ->. by vm_compute in H. Qed.

Lemma spell_nonzero t : token_ok t -> Forall (fun c => c <> 0) (spell t).
Proof.
  destruct t as [c| |w]; cbn.
  - intros H. repeat constructor. intros ->. by vm_compute in H.
  - intros _. by repeat constructor.
  - intros [_ Hf]. eapply Forall_impl; [done|]. cbn. intros c Hc ->. by vm_compute in Hc.
Qed.

Lemma spelled_nonzero ts s : spelled ts s -> Forall token_ok ts -> Forall (fun c => c <> 0) s.
Proof.
  induction 1 as [|c ts s Hc _ IH|t ts s _ _ IH]; intros Hok; [done|constructor; [by apply ws_nonzero|by apply IH]|].
  inversion_clear Hok. apply Forall_app. split; [by apply spell_nonzero|by apply IH].
Qed.

Lemma spelled_lexes ts s : spelled ts s -> forall pre junk, Forall token_ok ts -> lexes (pre ++ s ++ 0 :: junk) (length (pre ++ s)) ts (length pre).
Proof.
  assert (forall pre (x : list Z), at_ (pre ++ x) (length pre) = hd0 x) as Hat.
  { intros pre [|c x]; unfold at_; [by rewrite lookup_ge_None_2 by (rewrite length_app; simpl; lia)|by rewrite list_lookup_middle]. }
  induction 1 as [|c ts s Hc _ IH|t ts s He _ IH]; intros pre junk Hok.
  - rewrite app_nil_r. constructor.
  - specialize (IH (pre ++ [c]) junk Hok). replace (length (pre ++ [c])) with (S (length pre)) in IH by (rewrite length_app; simpl; lia).
    rewrite <- !(assoc_L (++)) in IH. cbn [app] in IH. apply lexes_ws; [rewrite length_app; simpl; lia| |done]. by rewrite Hat.
  - inversion_clear Hok as [|? ? Ht Hok']. specialize (IH (pre ++ spell t) junk Hok'). rewrite <- (assoc_L (++) (spell t)).
    rewrite <- (assoc_L (++) pre _ (s ++ _)), <- (assoc_L (++) pre _ s) in IH.
    eapply lexes_tok; [|exact IH]. pose proof (spell_nonzero _ Ht) as Hnz. unfold spells. rewrite !length_app.
    assert (0 < length (spell t))%nat by (destruct t as [| |[|]]; [simpl; lia..|by destruct Ht|simpl; lia]).
    split_and!; [lia|lia|lia| |done|].
    + intros k c Hk. unfold at_. rewrite lookup_app_r by lia. replace (length pre + k - length pre)%nat with k by lia.
      rewrite lookup_app_l by (by eapply lookup_lt_Some). by rewrite Hk.
    + rewrite <- length_app, (assoc_L (++)), Hat. destruct t; cbn in *; destruct s; done.
Qed.

(** C22: parsing inverts the grammar.  For every command line of the grammar, with
    simple commands, redirections, pipes, lists, background jobs and nested
    blocks, and every text that spells its tokens with any white space, the
    parser reads the whole text, and after [nulterminate] the nodes it built,
    read with the strings in the buffer as [runcmd] reads them, are the tree of
    commands the line stands for. *)
Theorem sh_parse_roundtrip (l : line) (s junk : list Z) :
  line_ok l -> Forall token_ok (line_toks l) -> spelled (line_toks l) s -> Z.of_nat (length s) < 2 ^ 63 ->
  let buf := s ++ 0 :: junk in
  wp (parse_line buf) (fun c st => ps st = length s /\
    load (length (nodes st)) (nodes st) (nulterminate (length (nodes st)) (nodes st) c buf) c = Some (line_tree l)) (mk_pstate 0 []).
Proof.
  intros Hok Htok Hsp Hlen buf. pose proof (spelled_nonzero _ _ Hsp Htok) as Hnz.
  assert (Ulib.strlen buf = Z.of_nat (length s)) as Hes.
  { unfold buf. clear -Hnz. induction Hnz as [|c s Hc _ IH]; [done|]. cbn [app Ulib.strlen]. rewrite (proj2 (Z.eqb_neq c 0) Hc), IH. simpl. lia. }
  destruct (strlen_at buf) as (H1 & H2 & H3 & _). unfold parse_line. rewrite Hes in *. rewrite Nat2Z.id in *. set (es := length s) in *.
  pose proof (spelled_lexes _ _ Hsp [] junk Htok) as Hl. cbn [app length] in Hl. fold buf es in Hl. rewrite <- (app_nil_r (line_toks l)) in Hl.
  destruct (parse_grammar buf es H1 H2 Hlen) as (Hline & _). apply wp_bind.
  eapply wp_mono; [apply (Hline l (parse_fuel es) [] (mk_pstate 0 []) Hok Hl); [by left|unfold parse_fuel; cbn; lia]|].
  intros c st (Hl1 & _ & _ & Hr). destruct (peek_tok buf es H1 H2 [] [] st Hl1) as (j & E & Hl2 & _). apply wp_bind. eapply wp_eq; [done|]. apply wp_ret. cbn [ps nodes].
  split.
  - rewrite peek_run in E. injection E as _ <-. destruct (lexes_skip buf es H1 H2 [] _ Hl1) as [Hend _].
    pose proof (skip_ws_stop buf es H1 (ps st) (lexes_le _ _ _ _ Hl1)) as Hw. remember (skip_ws buf es (ps st)) as p eqn:Ep. clear Ep.
    remember [] as l0 eqn:El. destruct Hend as [|i ts Hi Hw' _|]; [done|by rewrite Hw in Hw'|done].
  - assert (es < length buf)%nat as Hb by (unfold buf, es; rewrite length_app; simpl; lia).
    destruct (terminated buf es Hb _ _ _ Hr (length (nodes st)) buf) as [[Hn Hload] _]; [by eapply rep_lt|split; [done|by left]|].
    apply Hload; [done|]. by intros i.
Qed.

Module ParseDemo.
(** [(ls -l | wc >out) & ; echo hi] with a space after every token. *)
Definition cmd_line : line :=
  LSeq (POne (XBlock (LOne (PPipe (XCmd [] [(str "ls", []); (str "-l", [])]) (POne (XCmd [] [(str "wc", [mk_redir ROut (str "out")])]))) 0) []) ) 1
    (LOne (POne (XCmd [] [(str "echo", []); (str "hi", [])])) 0).
Definition text : list Z := concat ((fun t => spell t ++ [32]) <$> line_toks cmd_line).

Lemma spelled_text : spelled (line_toks cmd_line) text.
Proof.
  unfold text. generalize (line_toks cmd_line). intros ts. induction ts as [|t ts IH]; [constructor|]. cbn. rewrite <- (assoc_L (++)).
  constructor; [by destruct t|]. by constructor.
Qed.

Lemma cmd_tokens : Forall token_ok (line_toks cmd_line).
Proof. vm_compute line_toks. repeat constructor; done. Qed.

Lemma sh_parse_roundtrip_witness :
  wp (parse_line (text ++ [0])) (fun c st => ps st = length text /\
    load (length (nodes st)) (nodes st) (nulterminate (length (nodes st)) (nodes st) c (text ++ [0])) c =
      Some (TList (TBack (TPipe (TExec [str "ls"; str "-l"]) (TRedir (TExec [str "wc"]) (str "out") 1537 1))) (TExec [str "echo"; str "hi"]))) (mk_pstate 0 []).
Proof.
  apply (sh_parse_roundtrip cmd_line text []).
  - vm_compute. repeat split; lia.
  - exact cmd_tokens.
  - exact spelled_text.
  - reflexivity.
Defined.
End ParseDemo.
