(* ===== verification/Mkfs.v ===== *)
(** * mkfs/mkfs.c: the program that makes the file-system image

    The state is the image, a map of blocks with the number of blocks the image
    file has, and the next free inode and block.  The host's files are an
    argument: a name with the pieces [read] returns, or none when the file
    cannot be opened.  The host is little-endian, as the target is. *)

From stdpp Require Import functions.
From S2P Require Import Prelude Bytes Params CString Spinlock State Fs.

Record mkst := mk_mkst { fs_img : Z -> list Z; img_len : Z; freeinode : Z; freeblock : Z }.

Definition zero_block : list Z := replicate (Z.to_nat BSIZE) 0.

(** ** Layout *)

Definition NINODES : Z := 200.
Definition nbitmap : Z := FSSIZE / (BSIZE * 8) + 1.
Definition ninodeblocks : Z := NINODES / IPB + 1.
Definition nlog : Z := LOGSIZE.
Definition nmeta : Z := 2 + nlog + ninodeblocks + nbitmap.
Definition nblocks : Z := FSSIZE - nmeta.

Definition xshort (x : Z) : Z := le_val (le_bytes 2 x).
Definition xint (x : Z) : Z := le_val (le_bytes 4 x).

Definition mksb : superblock :=
  mk_superblock FSMAGIC (xint FSSIZE) (xint nblocks) (xint NINODES) (xint nlog) (xint 2) (xint (2 + nlog)) (xint (2 + nlog + ninodeblocks)).

Definition sb_bytes (sb : superblock) : list Z :=
  concat (le_bytes 4 <$> [sb_magic sb; sb_size sb; sb_nblocks sb; sb_ninodes sb; sb_nlog sb; sb_logstart sb; sb_inodestart sb; sb_bmapstart sb]).

(** ** Sectors and inodes *)

Definition die {A} (s : string) : M mkst A := panic s.
Definition assert (b : bool) : M mkst unit := if b then ret tt else panic "assert".

Definition wsect (sec : Z) (buf : list Z) : M mkst unit :=
  modify (fun st => mk_mkst (<[sec := buf]> (fs_img st)) (Z.max (img_len st) (sec + 1)) (freeinode st) (freeblock st)).

Definition rsect (sec : Z) : M mkst (list Z) :=
  len <- gets img_len ;;
  if sec <? len then gets (fun st => fs_img st sec) else die "read".

Definition winode (inum : Z) (ip : dinode) : M mkst unit :=
  let bn := IBLOCK inum mksb in
  buf <- rsect bn ;;
  wsect bn (enc_dinode buf (dinode_off inum) ip).

Definition rinode (inum : Z) : M mkst dinode :=
  let bn := IBLOCK inum mksb in
  buf <- rsect bn ;;
  ret (dec_dinode buf (dinode_off inum)).

Definition ialloc (type : Z) : M mkst Z :=
  inum <- gets freeinode ;;
  modify (fun st => mk_mkst (fs_img st) (img_len st) (u32 (inum + 1)) (freeblock st)) ;;
  winode inum (mk_dinode (xshort type) 0 0 (xshort 1) (xint 0) (replicate 13 0)) ;;
  ret inum.

(** ** The bitmap *)

Fixpoint mark_loop (k : nat) (i : Z) (buf : list Z) : list Z :=
  match k with
  | O => buf
  | S k' => mark_loop k' (i + 1) (<[Z.to_nat (i / 8) := u8 (Z.lor (buf !!! Z.to_nat (i / 8)) (Z.shiftl 1 (i mod 8)))]> buf)
  end.

Definition balloc (used : Z) : M mkst unit :=
  assert (used <? BSIZE * 8) ;;
  wsect (sb_bmapstart mksb) (mark_loop (Z.to_nat used) 0 zero_block).

(** ** Appending to a file *)

(** [freeblock++] *)
Definition next_block : M mkst Z :=
  b <- gets freeblock ;;
  modify (fun st => mk_mkst (fs_img st) (img_len st) (freeinode st) (u32 (b + 1))) ;;
  ret b.

Definition set_addr (din : dinode) (k a : Z) : dinode :=
  mk_dinode (d_type din) (d_major din) (d_minor din) (d_nlink din) (d_size din) (<[Z.to_nat k := a]> (d_addrs din)).

(** The block of the file at index [fbn], allocated if need be. *)
Definition file_block (fbn : Z) (din : dinode) : M mkst (dinode * Z) :=
  if fbn <? NDIRECT then
    din <- (if xint (d_addrs din !!! Z.to_nat fbn) =? 0 then b <- next_block ;; ret (set_addr din fbn (xint b)) else ret din) ;;
    ret (din, xint (d_addrs din !!! Z.to_nat fbn))
  else
    din <- (if xint (d_addrs din !!! Z.to_nat NDIRECT) =? 0 then b <- next_block ;; ret (set_addr din NDIRECT (xint b)) else ret din) ;;
    let ib := xint (d_addrs din !!! Z.to_nat NDIRECT) in
    let o := Z.to_nat (4 * (fbn - NDIRECT)) in
    indirect <- rsect ib ;;
    indirect <- (if get_le 4 indirect o =? 0 then
                   b <- next_block ;;
                   let indirect := put_le 4 indirect o (xint b) in
                   wsect ib indirect ;;
                   ret indirect
                 else ret indirect) ;;
    ret (din, xint (get_le 4 indirect o)).

(** The first [n1] bytes of [p] at [off], which lie in one block. *)
Definition append_block (off n1 : Z) (p : list Z) (din : dinode) : M mkst dinode :=
  let fbn := off / BSIZE in
  let* (din, x) := file_block fbn din in
  buf <- rsect x ;;
  wsect x (splice buf (Z.to_nat (off - fbn * BSIZE)) (take (Z.to_nat n1) p)) ;;
  ret din.

Definition iappend (inum : Z) (p : list Z) : M mkst unit :=
  din <- rinode inum ;;
  let off := xint (d_size din) in
  let* (off, din) := loop (fun '(off, p, din) =>
    if negb (0 <? Z.of_nat (length p)) then ret (inr (off, din)) else
    let fbn := off / BSIZE in
    assert (fbn <? MAXFILE) ;;
    let n1 := Z.min (Z.of_nat (length p)) ((fbn + 1) * BSIZE - off) in
    din <- append_block off n1 p din ;;
    ret (inl (u32 (off + n1), drop (Z.to_nat n1) p, din))) (off, p, din) in
  winode inum (mk_dinode (d_type din) (d_major din) (d_minor din) (d_nlink din) (xint off) (d_addrs din)).

(** ** main *)

(** A directory entry. *)
Definition mkde (inum : Z) (name : list Z) : list Z := le_bytes 2 (xshort inum) ++ name.

(** The name in the image of the host file [arg]; none if the assertion on the
    slash fails. *)
Definition shortname (arg : list Z) : option (list Z) :=
  let s := if strncmp arg (str "user/") 5 =? 0 then drop 5 arg else arg in
  if existsb (Z.eqb 47) s then None else Some (if hd0 s =? 95 then tail s else s).

Definition host_file : Type := list Z * option (list (list Z)).

Definition add_file (rootino : Z) (f : host_file) : M mkst unit :=
  let '(arg, content) := f in
  match shortname arg, content with
  | None, _ => panic "assert"
  | _, None => die "open"
  | Some name, Some pieces =>
      inum <- ialloc T_FILE ;;
      iappend rootino (mkde inum (strncpy_bytes name DIRSIZ)) ;;
      for_all pieces (iappend inum)
  end.

Definition mkfs_main (files : list host_file) : M mkst unit :=
  modify (fun st => mk_mkst (fs_img st) (img_len st) (freeinode st) nmeta) ;;
  for_all (seq 0 (Z.to_nat FSSIZE)) (fun i => wsect (Z.of_nat i) zero_block) ;;
  wsect 1 (splice zero_block 0 (sb_bytes mksb)) ;;
  rootino <- ialloc T_DIR ;;
  assert (rootino =? ROOTINO) ;;
  iappend rootino (mkde rootino (str "." ++ replicate 13 0)) ;;
  iappend rootino (mkde rootino (str ".." ++ replicate 12 0)) ;;
  for_all files (add_file rootino) ;;
  din <- rinode rootino ;;
  let off := (xint (d_size din) / BSIZE + 1) * BSIZE in
  winode rootino (mk_dinode (d_type din) (d_major din) (d_minor din) (d_nlink din) (xint off) (d_addrs din)) ;;
  used <- gets freeblock ;;
  balloc used.

(** The image file is empty when [mkfs] starts. *)
Definition mkst0 : mkst := mk_mkst (fun _ => []) 0 1 0.
