(* ===== verification/MkfsProofs.v ===== *)
(** * The image of mkfs is a file system the kernel accepts

    While [mkfs] runs the bitmap on the image is empty; [virtual] is the image
    with the bitmap it will write at the end.  In that view taking the next free
    block is what [balloc] of the kernel does, so the lemmas on growing and
    writing files apply. *)

From stdpp Require Import functions.
From S2P Require Import Prelude Bytes Params CString Spinlock State Kalloc Vm Sched SchedProofs Bio Lru BioProofs BlockCache CacheSpec Log LogProofs LogSpace Fs FsPure IoCopy FsBlocks FileMap FsFiles FsDir Mkfs.

#[local] Opaque put_le get_le.

(** ** The bitmap *)

Lemma mark_loop_bits k i buf : block_ok buf -> 0 <= i -> i + Z.of_nat k <= BPB ->
  block_ok (mark_loop k i buf) /\
  forall j, 0 <= j < BPB -> bit_of (mark_loop k i buf) j = ((i <=? j) && (j <? i + Z.of_nat k)) || bit_of buf j.
Proof.
  revert i buf. induction k as [|k IH]; intros i buf Hb Hi Hk.
  - split; [done|]. intros j Hj. cbn [mark_loop]. change (Z.of_nat 0) with 0. rewrite Z.add_0_r.
    destruct (Z.leb_spec i j), (Z.ltb_spec j i); done || lia.
  - cbn [mark_loop]. change (<[_ := _]> buf) with (set_bit i buf). destruct (IH (i + 1) (set_bit i buf)) as [H1 H2]; [by apply set_bit_ok|lia|lia|].
    split; [done|]. intros j Hj. rewrite H2, bit_of_set by (done || lia).
    destruct (Z.leb_spec (i + 1) j), (Z.ltb_spec j (i + 1 + Z.of_nat k)), (Z.leb_spec i j), (Z.ltb_spec j (i + Z.of_nat (S k))), (Z.eqb_spec j i); simpl; done || lia.
Qed.

Definition marks (n : Z) : list Z := mark_loop (Z.to_nat n) 0 zero_block.

Lemma bit_of_zero j : 0 <= j < BPB -> bit_of zero_block j = false.
Proof.
  intros Hj. unfold bit_of, byte_at, zero_block. change BPB with 8192 in Hj. rewrite lookup_total_replicate_2 by (unfold BSIZE; dlia). apply Z.testbit_0_l.
Qed.

Lemma marks_bits n : 0 <= n <= BPB -> block_ok (marks n) /\ forall j, 0 <= j < BPB -> bit_of (marks n) j = (j <? n).
Proof.
  intros Hn. destruct (mark_loop_bits (Z.to_nat n) 0 zero_block zeros_ok) as [H1 H2]; [done|lia|]. split; [done|].
  intros j Hj. unfold marks. rewrite H2, bit_of_zero, orb_false_r by done. rewrite Z2Nat.id by lia. destruct (Z.leb_spec 0 j); [done|lia].
Qed.

(** ** The view with the bitmap *)

Definition virtual (st : mkst) : Z -> list Z := <[45 := marks (freeblock st)]> (fs_img st).

Lemma mk_layout : layout mksb.
Proof. constructor; vm_compute; [reflexivity|discriminate|split; [discriminate|reflexivity]]. Qed.

Lemma mk_BBLOCK b : 0 <= b < 1000 -> BBLOCK b mksb = 45 /\ b mod BPB = b.
Proof.
  intros Hb. change BPB with 8192. rewrite Z.mod_small by lia. split; [|done]. unfold BBLOCK. change BPB with 8192.
  rewrite Z.div_small by lia. reflexivity.
Qed.

Record ok (st : mkst) : Prop := {
  ok_len : img_len st = 1000;
  ok_free : 46 <= freeblock st <= 1000;
  ok_blocks : forall b, 0 <= b < 1000 -> b <> 45 -> block_ok (fs_img st b);
  ok_zero : forall b, freeblock st <= b < 1000 -> fs_img st b = zeros;
}.

Lemma used_virtual img n b : 0 <= n <= 1000 -> 0 <= b < 1000 -> used mksb (<[45 := marks n]> img) b = (b <? n).
Proof.
  intros Hn Hb. destruct (mk_BBLOCK b Hb) as [E1 E2]. unfold used. rewrite E1, E2, fn_lookup_insert. apply marks_bits; change BPB with 8192; lia.
Qed.

Lemma ok_fs st : ok st -> fs_ok mksb (virtual st).
Proof.
  intros [Hl Hf Hb Hz]. constructor; [apply mk_layout| |].
  - intros b Hr. change (sb_size mksb) with 1000 in Hr. unfold virtual. destruct (decide (b = 45)) as [->|Hne].
    + rewrite fn_lookup_insert. apply marks_bits. change BPB with 8192. lia.
    + rewrite fn_lookup_insert_ne by done. by apply Hb.
  - intros b Hr. change (dstart mksb) with 46 in Hr. unfold virtual. rewrite used_virtual by lia. apply Z.ltb_lt. lia.
Qed.

(** Taking the next block is an allocation. *)
Lemma next_allocated st : ok st -> freeblock st < 1000 ->
  let st' := mk_mkst (fs_img st) (img_len st) (freeinode st) (freeblock st + 1) in
  ok st' /\ allocated mksb (virtual st) (freeblock st) (virtual st').
Proof.
  intros Hok Hlt st'. pose proof Hok as [Hl Hf Hb Hz]. assert (ok st') as Hok'.
  { constructor; [done|cbn; lia|done|]. cbn. intros b Hr. apply Hz. lia. }
  split; [done|]. constructor.
  - split; [change (dstart mksb) with 46|change (sb_size mksb) with 1000]; lia.
  - unfold virtual. rewrite used_virtual by lia. apply Z.ltb_ge. lia.
  - unfold virtual. rewrite fn_lookup_insert_ne by lia. apply Hz. lia.
  - intros x Hx Hne. unfold virtual. assert (x <> 45).
    { intros ->. destruct Hx as [[_ Hx]|[Hx _]]; [by vm_compute in Hx|]. vm_compute in Hx. by apply Hx. }
    by rewrite !fn_lookup_insert_ne by done.
  - intros x Hx. change (sb_size mksb) with 1000 in Hx. unfold virtual. rewrite !used_virtual by (cbn; lia). cbn.
    destruct (Z.ltb_spec x (freeblock st + 1)), (Z.eqb_spec x (freeblock st)), (Z.ltb_spec x (freeblock st)); simpl; done || lia.
  - by apply ok_fs.
Qed.

Lemma virtual_wsect st sec v b : sec <> 45 ->
  virtual (mk_mkst (<[sec := v]> (fs_img st)) (img_len st) (freeinode st) (freeblock st)) b = <[sec := v]> (virtual st) b.
Proof.
  intros Hne. unfold virtual. cbn.
  destruct (decide (b = 45)) as [->|]; [by rewrite fn_lookup_insert, fn_lookup_insert_ne, fn_lookup_insert by done|].
  rewrite (fn_lookup_insert_ne _ 45) by done. destruct (decide (b = sec)) as [->|]; [by rewrite !fn_lookup_insert|by rewrite !fn_lookup_insert_ne].
Qed.

(** Only the contents of the blocks matter. *)
Section Ext.
Context (sb : superblock) (c c' : Z -> list Z) (E : forall b, c' b = c b).

Lemma used_ext b : used sb c' b = used sb c b.
Proof. unfold used. by rewrite E. Qed.
Lemma amap_same addrs bn : amap c' addrs bn = amap c addrs bn.
Proof. by apply amap_ext. Qed.
Lemma fbyte_ext addrs o : fbyte c' addrs o = fbyte c addrs o.
Proof. unfold fbyte. by rewrite amap_same, E. Qed.
Lemma owns_ext addrs b : owns c' addrs b <-> owns c addrs b.
Proof. unfold owns. by setoid_rewrite amap_same. Qed.
Lemma fs_ok_ext : fs_ok sb c -> fs_ok sb c'.
Proof. intros [H1 H2 H3]. constructor; [done|intros; rewrite E; auto|intros; rewrite used_ext; auto]. Qed.
Lemma file_ok_ext addrs : file_ok sb c addrs -> file_ok sb c' addrs.
Proof.
  intros [H1 H2 H3 H4]. constructor; [done|intros Hi; rewrite used_ext; auto|..].
  - intros bn Hb. rewrite amap_same, used_ext. auto.
  - intros bn bn' Hb Hb'. rewrite !amap_same. auto.
Qed.
Lemma written_ext off bs c0 addrs0 addrs : written sb off bs c0 addrs0 c addrs -> written sb off bs c0 addrs0 c' addrs.
Proof.
  intros H. constructor; [apply fs_ok_ext, H|apply file_ok_ext, H|..].
  - intros o Ho. rewrite fbyte_ext. by apply (wr_byte _ _ _ _ _ _ _ H).
  - intros bn Hbn H0. rewrite amap_same. by apply (wr_map _ _ _ _ _ _ _ H).
  - intros b Hb%owns_ext. by apply (wr_owns _ _ _ _ _ _ _ H).
  - intros b Hb Hu. rewrite used_ext. by apply (wr_used _ _ _ _ _ _ _ H).
  - intros b Hp Hu Hn. rewrite E. by apply (wr_keep _ _ _ _ _ _ _ H).
Qed.
End Ext.

(** ** Blocks of a file *)

Lemma xint_small x : 0 <= x < 2 ^ 32 -> xint x = x.
Proof. intros Hx. unfold xint. rewrite le_val_le_bytes. by apply Z.mod_small. Qed.

Definition is_addr (a : Z) : Prop := 0 <= a < 2 ^ 32.

Lemma addr_total l k : Forall is_addr l -> (k < length l)%nat -> is_addr (l !!! k).
Proof. intros Hl Hk. destruct (lookup_lt_is_Some_2 l k Hk) as [a Ha]. rewrite (list_lookup_total_correct _ _ _ Ha). by eapply Forall_lookup_1. Qed.

Definition with_addrs (din : dinode) (addrs : list Z) : dinode :=
  mk_dinode (d_type din) (d_major din) (d_minor din) (d_nlink din) (d_size din) addrs.

Definition set_img (sec : Z) (v : list Z) (st : mkst) : mkst := mk_mkst (<[sec := v]> (fs_img st)) (img_len st) (freeinode st) (freeblock st).
Definition bump (st : mkst) : mkst := mk_mkst (fs_img st) (img_len st) (freeinode st) (freeblock st + 1).

Lemma wsect_run sec v st : ok st -> 0 <= sec < 1000 -> wsect sec v st = Ok tt (set_img sec v st).
Proof. intros Hok Hs. unfold wsect, modify, set_img. rewrite (ok_len _ Hok). do 2 f_equal. lia. Qed.

Lemma rsect_run sec st : ok st -> sec < 1000 -> rsect sec st = Ok (fs_img st sec) st.
Proof. intros Hok Hs. unfold rsect. rewrite bind_gets, (ok_len _ Hok). by rewrite (proj2 (Z.ltb_lt _ _) Hs). Qed.

Lemma rsect_full sec st : img_len st = 1000 -> 1000 <= sec -> rsect sec st = Panic "read" st.
Proof. intros Hl Hs. unfold rsect. rewrite bind_gets, Hl. by rewrite (proj2 (Z.ltb_ge _ _) Hs). Qed.

Lemma next_run st : ok st -> next_block st = Ok (freeblock st) (bump st).
Proof.
  intros Hok. unfold next_block. rewrite bind_gets, bind_modify. unfold ret, bump. do 2 f_equal. apply u32_small. pose proof (ok_free _ Hok). lia.
Qed.

Lemma ok_set_img sec v st : ok st -> 0 <= sec < freeblock st -> sec <> 45 -> block_ok v -> ok (set_img sec v st).
Proof.
  intros [H1 H2 H3 H4] Hs Hne Hv. constructor; cbn; [done|done| |].
  - intros b Hb Hb45. destruct (decide (b = sec)) as [->|]; [by rewrite fn_lookup_insert|]. rewrite fn_lookup_insert_ne by done. by apply H3.
  - intros b Hb. rewrite fn_lookup_insert_ne by lia. by apply H4.
Qed.

Lemma virtual_at st b : b <> 45 -> virtual st b = fs_img st b.
Proof. intros Hb. unfold virtual. by rewrite fn_lookup_insert_ne. Qed.

Lemma mk_data st b : ok st -> data mksb b -> used mksb (virtual st) b = true -> 46 <= b < freeblock st.
Proof.
  intros Hok [Hb1 Hb2] Hu. change (dstart mksb) with 46 in Hb1. change (sb_size mksb) with 1000 in Hb2. pose proof (ok_free _ Hok).
  unfold virtual in Hu. rewrite used_virtual in Hu by lia. apply Z.ltb_lt in Hu. lia.
Qed.

Lemma wpc_run {A} (m : M mkst A) st a st' (Q : A -> mkst -> Prop) C : m st = Ok a st' -> Q a st' -> wpc m Q C st.
Proof. unfold wpc. by intros ->. Qed.

(** Reading a block beyond the disk: [b] blocks are needed. *)
Definition exceeds (b : Z) (msg : string) (_ : mkst) : Prop := msg = "read" /\ 1000 < b.

(** The blocks that are missing for index [fbn]. *)
Definition missing (c : Z -> list Z) (addrs : list Z) (fbn : Z) : Z :=
  (if amap c addrs fbn =? 0 then 1 else 0) + (if (NDIRECT <=? fbn) && (ind addrs =? 0) then 1 else 0).

(** Either the number handed out is beyond the disk, or the file has grown. *)
Definition got_block (fbn : Z) (din : dinode) (st : mkst) (r : dinode * Z) (st' : mkst) : Prop :=
  img_len st' = 1000 /\ freeinode st' = freeinode st /\ freeblock st' <= freeblock st + missing (virtual st) (d_addrs din) fbn /\
  (1000 <= r.2 < freeblock st' \/ (ok st' /\ exists addrs', r.1 = with_addrs din addrs' /\ Forall is_addr addrs' /\
     grown mksb (virtual st) (d_addrs din) (virtual st') addrs' /\ amap (virtual st') addrs' fbn = r.2 /\ r.2 <> 0)).

Lemma with_addrs_id din : with_addrs din (d_addrs din) = din.
Proof. by destruct din. Qed.

Lemma direct_block fbn din st : ok st -> file_ok mksb (virtual st) (d_addrs din) -> Forall is_addr (d_addrs din) -> 0 <= fbn < NDIRECT ->
  wpc (file_block fbn din) (got_block fbn din st) (exceeds (freeblock st + missing (virtual st) (d_addrs din) fbn)) st.
Proof.
  intros Hok FI Ha Hf. pose proof (fi_len _ _ _ FI) as Hl. unfold file_block. rewrite (proj2 (Z.ltb_lt fbn NDIRECT)) by lia. unfold NDIRECT in Hf.
  pose proof (addr_total _ (Z.to_nat fbn) Ha ltac:(lia)) as Hr. rewrite xint_small by done. apply wpc_bind.
  assert (forall c addrs, amap c addrs fbn = addrs !!! Z.to_nat fbn) as Em by (intros; unfold amap, NDIRECT; destruct (Z.ltb_spec fbn 12); [done|lia]).
  assert (missing (virtual st) (d_addrs din) fbn = if d_addrs din !!! Z.to_nat fbn =? 0 then 1 else 0) as Hmis.
  { unfold missing. rewrite Em, (proj2 (Z.leb_gt NDIRECT fbn)) by (unfold NDIRECT; lia). cbn [andb]. lia. }
  destruct (Z.eqb_spec (d_addrs din !!! Z.to_nat fbn) 0) as [E0|E0].
  - apply wpc_bind. eapply wpc_run; [by apply next_run|]. apply wpc_wp, wp_ret, wpc_wp, wp_ret. pose proof (ok_free _ Hok). unfold set_addr. cbn [d_addrs].
    rewrite list_lookup_total_insert_eq by lia. rewrite !(xint_small (freeblock st)) by lia.
    split_and!; [apply Hok|done|rewrite Hmis; cbn; lia|]. destruct (decide (freeblock st < 1000)) as [Hlt|]; [|left; cbn; lia]. right.
    destruct (next_allocated st Hok Hlt) as [Hok' A]. split; [done|]. exists (<[Z.to_nat fbn := freeblock st]> (d_addrs din)).
    destruct (grown_direct mksb _ _ _ _ (ok_fs _ Hok) FI A fbn ltac:(unfold NDIRECT; lia) E0) as [Hg Hm]. split_and!; [done| |done|done|cbn; lia].
    apply Forall_insert; [done|]. unfold is_addr. lia.
  - apply wpc_wp, wp_ret, wpc_wp, wp_ret. split_and!; [apply Hok|done|rewrite Hmis; lia|]. right. split; [done|]. exists (d_addrs din). cbn [fst snd]. rewrite xint_small by done.
    split_and!; [by rewrite with_addrs_id|done|apply written_nil_refl; [by apply ok_fs|done]|apply Em|done].
Qed.

Lemma entry_block fbn din st : ok st -> file_ok mksb (virtual st) (d_addrs din) -> Forall is_addr (d_addrs din) -> ind (d_addrs din) <> 0 -> NDIRECT <= fbn < MAXFILE ->
  let o := Z.to_nat (4 * (fbn - NDIRECT)) in
  wpc (indirect <- rsect (ind (d_addrs din)) ;;
       indirect <- (if get_le 4 indirect o =? 0 then
                      b <- next_block ;;
                      let indirect := put_le 4 indirect o (xint b) in
                      wsect (ind (d_addrs din)) indirect ;;
                      ret indirect
                    else ret indirect) ;;
       ret (din, xint (get_le 4 indirect o))) (got_block fbn din st) (exceeds (freeblock st + missing (virtual st) (d_addrs din) fbn)) st.
Proof.
  intros Hok FI Ha Hi Hf o. destruct (fi_ind _ _ _ FI Hi) as [Hd Hu]. pose proof (mk_data _ _ Hok Hd Hu) as Hr. set (ib := ind (d_addrs din)) in *.
  pose proof (ok_free _ Hok) as Hfr. apply wpc_bind. eapply wpc_run; [apply rsect_run; [done|lia]|].
  assert (amap (virtual st) (d_addrs din) fbn = get_le 4 (fs_img st ib) o) as Em.
  { unfold amap. fold ib o. rewrite (proj2 (Z.ltb_ge fbn NDIRECT)) by lia. rewrite (proj2 (Z.eqb_neq _ _) Hi). rewrite virtual_at by lia. done. }
  assert (block_ok (fs_img st ib)) as Hbk by (apply Hok; lia). apply wpc_bind.
  assert (o + 4 <= length (fs_img st ib))%nat as Hol.
  { rewrite (proj1 Hbk). unfold o, MAXFILE, NINDIRECT, NDIRECT, BSIZE in *. change (1024 / 4) with 256 in *. lia. }
  destruct (Z.eqb_spec (get_le 4 (fs_img st ib) o) 0) as [E0|E0].
  - apply wpc_bind. eapply wpc_run; [by apply next_run|]. rewrite xint_small by lia. cbv zeta. set (v := put_le 4 _ _ _).
    assert (get_le 4 v o = freeblock st) as Ev.
    { unfold v. rewrite get_put_le_same by done. apply Z.mod_small. lia. }
    assert (wsect ib v (bump st) = Ok tt (set_img ib v (bump st))) as Ew.
    { unfold wsect, modify, set_img. cbn. rewrite (ok_len _ Hok). do 2 f_equal. lia. }
    apply wpc_bind. eapply wpc_run; [exact Ew|]. apply wpc_wp, wp_ret, wpc_wp, wp_ret. rewrite Ev, xint_small by lia.
    split_and!; [apply Hok|done|unfold missing; rewrite Em, E0; cbn; case_match; lia|]. destruct (decide (freeblock st < 1000)) as [Hlt|]; [|left; cbn; lia]. right.
    destruct (next_allocated st Hok Hlt) as [Hok' A]. destruct (grown_entry mksb _ _ _ _ (ok_fs _ Hok) FI A fbn Hi Hf) as [Hg Hm]; [by rewrite Em|].
    fold ib o in Hg, Hm. change (mk_mkst _ _ _ _) with (bump st) in Hok', Hg, Hm. assert (virtual (bump st) ib = fs_img st ib) as Ei by (by rewrite virtual_at by lia).
    rewrite Ei in Hg, Hm. fold v in Hg, Hm. assert (forall b, virtual (set_img ib v (bump st)) b = <[ib := v]> (virtual (bump st)) b) as Ex by (intros b; apply virtual_wsect; lia).
    assert (block_ok v) as Hv.
    { split; [unfold v; rewrite length_put_le by done; apply Hbk|]. apply put_le_is_byte, Hbk. }
    split; [apply ok_set_img; [done|cbn; lia|lia|done]|]. exists (d_addrs din). cbn [fst snd].
    split_and!; [by rewrite with_addrs_id|done|by eapply written_ext| |lia]. rewrite (amap_same _ _ Ex). done.
  - apply wpc_wp, wp_ret, wpc_wp, wp_ret. split_and!; [apply Hok|done|unfold missing; repeat case_match; lia|]. right. split; [done|]. exists (d_addrs din). cbn [fst snd]. rewrite <- Em in E0 |- *.
    destruct (fi_map _ _ _ FI fbn ltac:(unfold NDIRECT in *; lia) E0) as (Hd2 & Hu2 & _). pose proof (mk_data _ _ Hok Hd2 Hu2). rewrite xint_small by lia.
    split_and!; [by rewrite with_addrs_id|done|apply written_nil_refl; [by apply ok_fs|done]|done|done].
Qed.

Lemma got_block_trans fbn din din1 st st1 r st2 addrs1 : grown mksb (virtual st) (d_addrs din) (virtual st1) addrs1 -> freeinode st1 = freeinode st ->
  din1 = with_addrs din addrs1 -> freeblock st1 + missing (virtual st1) addrs1 fbn <= freeblock st + missing (virtual st) (d_addrs din) fbn ->
  got_block fbn din1 st1 r st2 -> got_block fbn din st r st2.
Proof.
  intros Hg Hfi -> Hfb (H1 & H2 & Hb & H3). cbn [with_addrs d_addrs] in Hb. split_and!; [done|congruence|lia|]. destruct H3 as [?|(Hok & addrs2 & E & Ha & Hg2 & Hm & Hn)]; [by left|right].
  split; [done|]. exists addrs2. split_and!; [done|done|exact (grown_trans _ _ _ _ _ _ _ Hg Hg2)|done|done].
Qed.

Lemma file_block_spec fbn din st : ok st -> file_ok mksb (virtual st) (d_addrs din) -> Forall is_addr (d_addrs din) -> 0 <= fbn < MAXFILE ->
  wpc (file_block fbn din) (got_block fbn din st) (exceeds (freeblock st + missing (virtual st) (d_addrs din) fbn)) st.
Proof.
  intros Hok FI Ha Hf. destruct (decide (fbn < NDIRECT)) as [Hd|Hd]; [apply direct_block; done || lia|].
  pose proof (fi_len _ _ _ FI) as Hl. unfold file_block. rewrite (proj2 (Z.ltb_ge fbn NDIRECT)) by lia.
  assert (forall addrs, Forall is_addr addrs -> length addrs = 13%nat -> xint (addrs !!! Z.to_nat NDIRECT) = ind addrs) as Hxi.
  { intros addrs Haddr Hlen. apply xint_small, (addr_total _ _ Haddr). rewrite Hlen. unfold NDIRECT. lia. }
  rewrite Hxi by done. apply wpc_bind. destruct (Z.eqb_spec (ind (d_addrs din)) 0) as [E0|E0].
  - apply wpc_bind. eapply wpc_run; [by apply next_run|]. apply wpc_wp, wp_ret. pose proof (ok_free _ Hok). rewrite (xint_small (freeblock st)) by lia.
    set (addrs1 := <[Z.to_nat NDIRECT := freeblock st]> (d_addrs din)). change (set_addr din NDIRECT (freeblock st)) with (with_addrs din addrs1).
    assert (Forall is_addr addrs1) as Ha1 by (apply Forall_insert; [done|unfold is_addr; lia]).
    cbn [with_addrs d_addrs]. rewrite Hxi by (done || by unfold addrs1; rewrite length_insert).
    assert (missing (virtual st) (d_addrs din) fbn = 2) as Hmis.
    { unfold missing, amap. rewrite E0, (proj2 (Z.ltb_ge fbn NDIRECT)), (proj2 (Z.leb_le NDIRECT fbn)) by lia. done. }
    assert (ind addrs1 = freeblock st) as Hi by (unfold ind, addrs1; apply list_lookup_total_insert_eq; rewrite Hl; unfold NDIRECT; lia).
    assert (missing (virtual (bump st)) addrs1 fbn <= 1) as Hmis1.
    { unfold missing. rewrite Hi, (proj2 (Z.eqb_neq (freeblock st) 0)), andb_false_r by lia. case_match; lia. }
    destruct (decide (freeblock st < 1000)) as [Hlt|Hge].
    + destruct (next_allocated st Hok Hlt) as [Hok' A]. destruct (grown_ind mksb _ _ _ _ (ok_fs _ Hok) FI A E0) as (Hg & _ & _). fold addrs1 in Hg.
      change (mk_mkst _ _ _ _) with (bump st) in Hok', Hg. eapply wpc_mono; [apply (entry_block fbn (with_addrs din addrs1) (bump st)); try done| |].
      * apply Hg.
      * cbn [with_addrs d_addrs]. lia.
      * lia.
      * intros r st2 Hgot. eapply got_block_trans; try done. rewrite Hmis. cbn [bump freeblock]. lia.
      * intros msg st2 [-> Hx]. split; [done|]. cbn [bump freeblock with_addrs d_addrs] in Hx. lia.
    + rewrite Hi, Hmis. apply wpc_bind. unfold wpc. rewrite rsect_full; [split; [done|lia]|apply Hok|lia].
  - apply wpc_wp, wp_ret. rewrite Hxi by done. apply entry_block; try done. lia.
Qed.

(** The blocks of a file of [size] bytes, the indirect block included. *)
Definition cost (size : Z) : Z := (size + (BSIZE - 1)) / BSIZE + (if NDIRECT * BSIZE <? size then 1 else 0).

Lemma cost_mono a b : a <= b -> cost a <= cost b.
Proof. intros H. unfold cost. change (NDIRECT * BSIZE) with 12288. unfold BSIZE. destruct (Z.ltb_spec 12288 a), (Z.ltb_spec 12288 b); dlia. Qed.

(** Appending takes no more than the larger file needs. *)
Lemma missing_cost c addrs off n : mapped c addrs off -> 0 <= off -> 0 < n -> off mod BSIZE + n <= BSIZE ->
  missing c addrs (off / BSIZE) <= cost (off + n) - cost off.
Proof.
  intros Hm Ho Hn Hb. unfold missing, cost. change (NDIRECT * BSIZE) with 12288. unfold BSIZE, NDIRECT in *.
  assert (12 <= off / 1024 -> (off mod 1024 <> 0 \/ off / 1024 <> 12) -> ind addrs <> 0) as Hi.
  { intros H12 Hx E. destruct (Hm 12); [lia|unfold BSIZE; dlia|]. unfold amap, NDIRECT. rewrite E. done. }
  assert (off mod 1024 <> 0 -> amap c addrs (off / 1024) <> 0) as Ha by (intros Hx; apply Hm; unfold BSIZE; dlia).
  destruct (Z.eqb_spec (amap c addrs (off / 1024)) 0), (Z.leb_spec 12 (off / 1024)), (Z.eqb_spec (ind addrs) 0), (Z.ltb_spec 12288 (off + n)), (Z.ltb_spec 12288 off); cbn [andb]; dlia.
Qed.

(** One block's worth of bytes. *)
Lemma append_block_spec off p din st : ok st -> file_ok mksb (virtual st) (d_addrs din) -> Forall is_addr (d_addrs din) -> 0 <= off < MAXFILE * BSIZE ->
  Forall is_byte p -> mapped (virtual st) (d_addrs din) off -> 0 < Z.of_nat (length p) ->
  let n1 := Z.min (Z.of_nat (length p)) ((off / BSIZE + 1) * BSIZE - off) in
  wpc (append_block off n1 p din)
    (fun din' st' => ok st' /\ freeinode st' = freeinode st /\ freeblock st' <= freeblock st + (cost (off + n1) - cost off) /\ exists addrs', din' = with_addrs din addrs' /\ Forall is_addr addrs' /\
       written mksb off (take (Z.to_nat n1) p) (virtual st) (d_addrs din) (virtual st') addrs' /\ mapped (virtual st') addrs' (off + n1)) (exceeds (freeblock st + (cost (off + n1) - cost off))) st.
Proof.
  intros Hok FI Ha Hoff Hp Hmap Hpos n1. change (MAXFILE * BSIZE) with 274432 in *. pose proof (Z.div_mod off BSIZE ltac:(done)) as Hdm.
  pose proof (Z.mod_pos_bound off BSIZE ltac:(done)) as Hmb. assert (0 <= off / BSIZE < MAXFILE) as Hfb by (change MAXFILE with 268; unfold BSIZE in *; lia).
  pose proof (missing_cost _ _ off n1 Hmap ltac:(lia) ltac:(unfold n1, BSIZE in *; lia) ltac:(unfold n1, BSIZE in *; lia)) as Hmis.
  apply wpc_bind. eapply wpc_mono; [by apply file_block_spec| |intros msg st2 [-> Hx]; split; [done|lia]]. intros [din2 x] st2 (Hl2 & Hfi & Hfb2 & Hx). cbn [fst snd] in Hx.
  apply wpc_bind. destruct Hx as [Hx|(Hok2 & addrs2 & -> & Ha2 & Hg & Hm & Hn0)]; [unfold wpc; rewrite rsect_full by (done || lia); split; [done|lia]|].
  pose proof (wr_file _ _ _ _ _ _ _ Hg) as FI2. destruct (fi_map _ _ _ FI2 (off / BSIZE) Hfb) as (Hd & Hu & _); [by rewrite Hm|]. rewrite Hm in Hd, Hu.
  pose proof (mk_data _ _ Hok2 Hd Hu) as Hxr. pose proof (ok_free _ Hok2). eapply wpc_run; [apply rsect_run; [done|lia]|].
  set (bs := take (Z.to_nat n1) p). assert (Z.of_nat (length bs) = n1) as Hbl by (unfold bs, n1; rewrite length_take; unfold BSIZE in *; lia).
  assert (Forall is_byte bs) as Hbs by (by apply Forall_take). replace (off - off / BSIZE * BSIZE) with (off mod BSIZE) by lia.
  assert (block_ok (fs_img st2 x)) as Hbk by (apply Hok2; lia). set (v := splice _ _ bs).
  assert (block_ok v) as Hv.
  { split; [unfold v; rewrite length_splice; [apply Hbk|rewrite (proj1 Hbk)]|apply Forall_splice; [apply Hbk|done]]. unfold n1, BSIZE in *. lia. }
  apply wpc_bind. eapply wpc_run; [apply wsect_run; [done|lia]|]. apply wpc_wp, wp_ret.
  assert (forall b, virtual (set_img x v st2) b = <[x := v]> (virtual st2) b) as Ex by (intros b; apply virtual_wsect; lia).
  pose proof (written_block mksb (virtual st2) addrs2 off bs (ok_fs _ Hok2) FI2 Hoff Hbs ltac:(unfold n1, BSIZE in *; lia)) as Hw. cbv zeta in Hw.
  rewrite Hm in Hw. specialize (Hw Hn0). rewrite virtual_at in Hw by lia. fold v in Hw.
  split_and!; [apply ok_set_img; done || lia|done|cbn [set_img freeblock]; lia|]. exists addrs2. split_and!; [done|done|by eapply written_ext; [|eapply written_grown]|].
  intros bn Hb1 Hb2. rewrite (amap_same _ _ Ex). rewrite (wr_map _ _ _ _ _ _ _ Hw).
  - destruct (decide (bn = off / BSIZE)) as [->|]; [by rewrite Hm|]. rewrite (wr_map _ _ _ _ _ _ _ Hg); [apply Hmap; [done|]| |apply Hmap; [done|]]; unfold n1, MAXFILE, BSIZE in *; lia.
  - unfold n1 in Hb2. unfold BSIZE in *. lia.
  - destruct (decide (bn = off / BSIZE)) as [->|]; [by rewrite Hm|]. rewrite (wr_map _ _ _ _ _ _ _ Hg); [apply Hmap; [done|]| |apply Hmap; [done|]]; unfold n1, MAXFILE, BSIZE in *; lia.
Qed.

Lemma append_loop off0 p0 din0 st0 : ok st0 -> file_ok mksb (virtual st0) (d_addrs din0) -> Forall is_addr (d_addrs din0) -> 0 <= off0 <= MAXFILE * BSIZE ->
  Forall is_byte p0 -> mapped (virtual st0) (d_addrs din0) off0 -> Z.of_nat (length p0) < 2 ^ 63 ->
  wpc (loop (fun '(off, p, din) =>
    if negb (0 <? Z.of_nat (length p)) then ret (inr (off, din)) else
    let fbn := off / BSIZE in
    assert (fbn <? MAXFILE) ;;
    let n1 := Z.min (Z.of_nat (length p)) ((fbn + 1) * BSIZE - off) in
    din <- append_block off n1 p din ;;
    ret (inl (u32 (off + n1), drop (Z.to_nat n1) p, din))) (off0, p0, din0))
    (fun r st' => ok st' /\ freeinode st' = freeinode st0 /\ freeblock st' <= freeblock st0 + (cost (off0 + Z.of_nat (length p0)) - cost off0) /\ off0 + Z.of_nat (length p0) <= MAXFILE * BSIZE /\
       exists addrs', r = (off0 + Z.of_nat (length p0), with_addrs din0 addrs') /\ Forall is_addr addrs' /\
       written mksb off0 p0 (virtual st0) (d_addrs din0) (virtual st') addrs' /\ mapped (virtual st') addrs' (off0 + Z.of_nat (length p0)))
    (fun _ _ => 1000 < freeblock st0 + (cost (off0 + Z.of_nat (length p0)) - cost off0) \/ MAXFILE * BSIZE < off0 + Z.of_nat (length p0)) st0.
Proof.
  intros Hok FI Ha Hoff Hp Hmap Hlen. change (MAXFILE * BSIZE) with 274432 in *.
  apply (wpc_loop _ (fun k s st => let '(off, p, din) := s in k = Z.of_nat (length p) /\ ok st /\ freeinode st = freeinode st0 /\ freeblock st <= freeblock st0 + (cost off - cost off0) /\ exists bs addrs, p0 = bs ++ p /\
    off = off0 + Z.of_nat (length bs) /\ off <= 274432 /\ din = with_addrs din0 addrs /\ Forall is_addr addrs /\
    written mksb off0 bs (virtual st0) (d_addrs din0) (virtual st) addrs /\ mapped (virtual st) addrs off) _ _ (Z.of_nat (length p0))); [| |lia].
  - clear Hok FI Ha Hmap Hlen. intros k [[off p] din] st (-> & Hok & Hfi & Hfb0 & bs & addrs & -> & -> & Hmax & -> & Ha & Hw & Hmap).
    set (off := off0 + Z.of_nat (length bs)) in *. rewrite length_app. destruct (Z.ltb_spec 0 (Z.of_nat (length p))) as [Hpos|Hz]; cbn [negb].
    + unfold assert. destruct (Z.ltb_spec (off / BSIZE) MAXFILE) as [Hfb|]; [|right; change MAXFILE with 268 in *; unfold BSIZE in *; dlia]. apply wpc_bind, wpc_wp, wp_ret. cbv zeta. apply wpc_bind.
      apply Forall_app in Hp as [_ Hp]. assert (off < MAXFILE * BSIZE) as Hlt by (change MAXFILE with 268 in *; unfold BSIZE in *; dlia).
      eapply wpc_mono; [apply (append_block_spec off p (with_addrs din0 addrs) st Hok); [apply Hw|done|lia|done|done|done]| |].
      2:{ set (n1 := Z.min _ _). intros msg st' [-> Hx]. left. pose proof (cost_mono (off + n1) (off0 + Z.of_nat (length bs + length p)) ltac:(unfold n1; lia)). lia. }
      set (n1 := Z.min _ _). intros din' st' (Hok' & Hfi' & Hfb' & addrs' & -> & Ha' & Hw' & Hmap'). apply wpc_wp, wp_ret.
      assert (0 < n1 <= Z.of_nat (length p) /\ off + n1 <= 274432) as Hn1.
      { pose proof (Z.div_mod off BSIZE ltac:(done)). pose proof (Z.mod_pos_bound off BSIZE ltac:(done)). change MAXFILE with 268 in *. unfold n1, BSIZE in *. lia. }
      exists (Z.of_nat (length p) - n1). split; [lia|]. rewrite length_drop. rewrite u32_small by lia. split_and!; [lia|done|congruence|lia|].
      exists (bs ++ take (Z.to_nat n1) p), addrs'. assert (Z.of_nat (length (take (Z.to_nat n1) p)) = n1) as Htl by (rewrite length_take; lia).
      rewrite length_app. split_and!; try done; try lia.
      * by rewrite <- (assoc_L (++)), take_drop.
      * eapply written_trans; [exact Hw|exact Hw'].
    + apply wpc_wp, wp_ret. assert (p = []) as -> by (by apply nil_length_inv; lia). rewrite app_nil_r. change (length []) with 0%nat. rewrite Nat.add_0_r. fold off. split_and!; [done|done|lia|lia|].
      exists addrs. split_and!; done.
  - split_and!; try done; [lia|]. exists [], (d_addrs din0). cbn [length]. rewrite Z.add_0_r. split_and!; try done; [lia|by rewrite with_addrs_id|].
    apply (written_nil mksb off0), written_nil_refl; [by apply ok_fs|done].
Qed.

(** ** Inodes and their files *)

Definition dinode_at (c : Z -> list Z) (inum : Z) : dinode := dec_dinode (c (IBLOCK inum mksb)) (dinode_off inum).

Lemma mk_IBLOCK inum : 0 <= inum < 208 -> IBLOCK inum mksb = inum / 16 + 32 /\ 32 <= IBLOCK inum mksb < 45.
Proof.
  intros Hi. unfold IBLOCK. change IPB with 16. change (sb_inodestart mksb) with 32. rewrite u32_small by dlia. split; [done|dlia].
Qed.

(** An inode of type [t] whose file holds the bytes [d] and zeros after them. *)
Record has_file (c : Z -> list Z) (di : dinode) (t : Z) (d : list Z) : Prop := {
  hf_di : dinode_ok di;
  hf_type : d_type di = t /\ d_major di = 0 /\ d_minor di = 0 /\ d_nlink di = if t =? 0 then 0 else 1;
  hf_size : d_size di = Z.of_nat (length d) /\ d_size di <= MAXFILE * BSIZE;
  hf_file : file_ok mksb c (d_addrs di);
  hf_mapped : mapped c (d_addrs di) (d_size di);
  hf_bytes : forall o, 0 <= o < MAXFILE * BSIZE -> fbyte c (d_addrs di) o = default 0 (d !! Z.to_nat o);
}.

(** A file depends on its own blocks only. *)
Section Frame.
Context (c c' : Z -> list Z) (addrs : list Z).
Context (FI : file_ok mksb c addrs) (Hc : forall b, owns c addrs b -> c' b = c b).

Lemma frame_amap bn : amap c' addrs bn = amap c addrs bn.
Proof. apply amap_ext. intros Hi. apply Hc. split; [done|by left]. Qed.

Lemma frame_owns b : owns c' addrs b <-> owns c addrs b.
Proof. unfold owns. by setoid_rewrite frame_amap. Qed.

Lemma frame_fbyte o : 0 <= o < MAXFILE * BSIZE -> fbyte c' addrs o = fbyte c addrs o.
Proof.
  intros Ho. unfold fbyte. rewrite frame_amap. destruct (Z.eqb_spec (amap c addrs (o / BSIZE)) 0); [done|]. rewrite Hc; [done|].
  split; [done|]. right. exists (o / BSIZE). split; [|done]. change (MAXFILE * BSIZE) with 274432 in Ho. change MAXFILE with 268. unfold BSIZE. dlia.
Qed.

Lemma frame_file : (forall b, 0 <= b < 1000 -> used mksb c b = true -> used mksb c' b = true) -> file_ok mksb c' addrs.
Proof.
  intros Hu. apply (file_ok_update mksb c addrs c' addrs 0 mk_layout FI); [apply FI|done|by left|]. intros bn _. left. apply frame_amap.
Qed.
End Frame.

Lemma has_file_frame c c' di t d : has_file c di t d -> (forall b, owns c (d_addrs di) b -> c' b = c b) ->
  (forall b, 0 <= b < 1000 -> used mksb c b = true -> used mksb c' b = true) -> has_file c' di t d.
Proof.
  intros [H1 H2 H3 H4 H5 H6] Hc Hu. constructor; try done.
  - by eapply frame_file.
  - intros bn Hb Hs. rewrite (frame_amap c c' _ Hc). by apply H5.
  - intros o Ho. rewrite (frame_fbyte c c' _ Hc) by done. by apply H6.
Qed.

(** The stores of [winode]. *)
Lemma dinode_at_same c inum di : 0 <= inum < 208 -> block_ok (c (IBLOCK inum mksb)) -> dinode_ok di ->
  dinode_at (<[IBLOCK inum mksb := enc_dinode (c (IBLOCK inum mksb)) (dinode_off inum) di]> c) inum = di.
Proof.
  intros Hi [Hl _] Hd. unfold dinode_at. rewrite fn_lookup_insert. apply dec_enc; [|done]. rewrite Hl. apply dinode_off_bound.
Qed.

Lemma dinode_at_other c inum j di : 0 <= inum < 208 -> 0 <= j < 208 -> j <> inum -> block_ok (c (IBLOCK inum mksb)) -> dinode_ok di ->
  dinode_at (<[IBLOCK inum mksb := enc_dinode (c (IBLOCK inum mksb)) (dinode_off inum) di]> c) j = dinode_at c j.
Proof.
  intros Hi Hj Hne [Hl _] Hd. unfold dinode_at. destruct (mk_IBLOCK inum Hi) as [E1 _], (mk_IBLOCK j Hj) as [E2 _].
  destruct (decide (IBLOCK j mksb = IBLOCK inum mksb)) as [E|E]; [|by rewrite fn_lookup_insert_ne by done].
  rewrite E, fn_lookup_insert. pose proof (dinode_off_bound inum). pose proof (dinode_off_bound j). change (Z.to_nat BSIZE) with 1024%nat in Hl.
  apply dec_enc_other; [lia|lia| |done]. unfold dinode_off. change IPB with 16. change sizeof_dinode with 64. dlia.
Qed.

Lemma enc_block_ok c inum di : block_ok c -> dinode_ok di -> block_ok (enc_dinode c (dinode_off inum) di).
Proof.
  intros [Hl Hb] Hd. pose proof (dinode_off_bound inum). change (Z.to_nat BSIZE) with 1024%nat in Hl. split; [rewrite enc_dinode_length; [done|lia|done]|].
  unfold enc_dinode, enc_addrs. apply Forall_splice; [by repeat apply put_le_is_byte|]. clear. generalize (d_addrs di). intros l.
  induction l as [|a l IH]; [constructor|]. cbn [fmap list_fmap concat]. apply Forall_app. split; [apply le_bytes_is_byte|done].
Qed.

Definition owned_by (c : Z -> list Z) (inum b : Z) : Prop := owns c (d_addrs (dinode_at c inum)) b.

(** The blocks that the files of [F], types and bytes, need. *)
Definition total (F : list (Z * list Z)) : Z := foldr (fun f s => cost (Z.of_nat (length f.2)) + s) 0 F.
Definition fits (F : list (Z * list Z)) : Prop := 46 + total F <= 1000 /\ Forall (fun f => Z.of_nat (length f.2) <= MAXFILE * BSIZE) F.
Definition larger : list (Z * list Z) -> list (Z * list Z) -> Prop := Forall2 (fun f g => (length f.2 <= length g.2)%nat).

Lemma total_insert F k f g : F !! k = Some f -> total (<[k := g]> F) = total F + (cost (Z.of_nat (length g.2)) - cost (Z.of_nat (length f.2))).
Proof.
  revert k. induction F as [|h F IH]; intros [|k] Hk; [done|done| |].
  - injection Hk as ->. change (cost (Z.of_nat (length g.2)) + total F = cost (Z.of_nat (length f.2)) + total F + (cost (Z.of_nat (length g.2)) - cost (Z.of_nat (length f.2)))). lia.
  - change (cost (Z.of_nat (length h.2)) + total (<[k := g]> F) = cost (Z.of_nat (length h.2)) + total F + (cost (Z.of_nat (length g.2)) - cost (Z.of_nat (length f.2)))).
    rewrite (IH k Hk). lia.
Qed.

Lemma larger_refl F : larger F F.
Proof. unfold larger. by apply Forall_Forall2_diag, Forall_true. Qed.

Lemma larger_insert F k f g : F !! k = Some f -> (length f.2 <= length g.2)%nat -> larger F (<[k := g]> F).
Proof. intros Hk Hl. rewrite <- (list_insert_id F k f Hk) at 1. apply Forall2_insert; [apply larger_refl|done]. Qed.

Lemma fits_larger F G : larger F G -> fits G -> fits F.
Proof.
  intros HL [Ht Hm]. assert (total F <= total G) as Hle.
  { clear Ht Hm. induction HL as [|f g F G Hfg _ IH]; [done|].
    change (cost (Z.of_nat (length f.2)) + total F <= cost (Z.of_nat (length g.2)) + total G). pose proof (cost_mono (Z.of_nat (length f.2)) (Z.of_nat (length g.2)) ltac:(lia)). lia. }
  split; [lia|]. clear Ht Hle. induction HL as [|f g F G Hfg _ IH]; [done|]. apply Forall_cons in Hm as [Hg Hm]. constructor; [lia|auto].
Qed.

(** The image while it is filled, with [n] inodes taken: inode [1 + k] has the
    type and the bytes that [F] gives it, type 0 when it is free, no two files
    share a block, and no block is wasted. *)
Record img_ok (n : nat) (F : list (Z * list Z)) (st : mkst) : Prop := {
  io_ok : ok st;
  io_ino : freeinode st = 1 + Z.of_nat n;
  io_max : (length F <= 207)%nat;
  io_files : forall k t d, F !! k = Some (t, d) -> has_file (virtual st) (dinode_at (virtual st) (1 + Z.of_nat k)) t d;
  io_disj : forall i j b, (i < length F)%nat -> (j < length F)%nat -> i <> j -> owned_by (virtual st) (1 + Z.of_nat i) b -> ~ owned_by (virtual st) (1 + Z.of_nat j) b;
  io_sb : fs_img st 1 = splice zero_block 0 (sb_bytes mksb);
  io_log : forall b, 2 <= b < 32 -> fs_img st b = zeros;
  io_cost : freeblock st <= 46 + total F;
}.

Lemma owned_used n F st k b : img_ok n F st -> (k < length F)%nat -> owned_by (virtual st) (1 + Z.of_nat k) b -> data mksb b /\ used mksb (virtual st) b = true.
Proof.
  intros H Hk Hb. destruct (lookup_lt_is_Some_2 F k Hk) as [[t d] Hf]. eapply owns_used; [|exact Hb]. apply (io_files _ _ _ H _ _ _ Hf).
Qed.

(** A block before the bitmap belongs to no file. *)
Lemma meta_block c addrs b : file_ok mksb c addrs -> 0 <= b < 45 -> ~ owns c addrs b.
Proof. intros FI Hb Ho. destruct (owns_used _ _ _ _ FI Ho) as [[Hd _] _]. change (dstart mksb) with 46 in Hd. lia. Qed.

(** Rewriting the inode [1 + k], whose file has become that of [di] on [st1]. *)
Section Winode.
Context (n n' : nat) (F : list (Z * list Z)) (st st1 : mkst) (k : nat) (t : Z) (d : list Z) (t' : Z) (d' : list Z) (di : dinode).
Context (H : img_ok n F st) (Hk : F !! k = Some (t, d)) (Hok1 : ok st1) (Hfi : freeinode st1 = 1 + Z.of_nat n').
Context (Hu : forall b, 0 <= b < 1000 -> used mksb (virtual st) b = true -> used mksb (virtual st1) b = true).
Context (Hkeep : forall b, plain_block mksb b -> used mksb (virtual st) b = true -> ~ owned_by (virtual st) (1 + Z.of_nat k) b -> virtual st1 b = virtual st b).
Context (Hown : forall b, owns (virtual st1) (d_addrs di) b -> owned_by (virtual st) (1 + Z.of_nat k) b \/ used mksb (virtual st) b = false).
Context (Hf : has_file (virtual st1) di t' d').
Context (Hfb : freeblock st1 <= 46 + total F + (cost (Z.of_nat (length d')) - cost (Z.of_nat (length d)))).

Let inum := 1 + Z.of_nat k.
Let bn := IBLOCK inum mksb.
Let st2 := set_img bn (enc_dinode (fs_img st1 bn) (dinode_off inum) di) st1.

Lemma wi_range : (k < length F <= 207)%nat /\ 0 <= inum < 208 /\ 32 <= bn < 45.
Proof.
  pose proof (lookup_lt_Some _ _ _ Hk). pose proof (io_max _ _ _ H). assert (0 <= inum < 208) as Hin by (unfold inum; lia).
  split_and!; try lia; apply (mk_IBLOCK inum Hin).
Qed.

Lemma wi_block b : virtual st2 b = <[bn := enc_dinode (virtual st1 bn) (dinode_off inum) di]> (virtual st1) b.
Proof. destruct wi_range as (_ & _ & Hb). unfold st2, set_img. rewrite virtual_wsect by lia. by rewrite virtual_at by lia. Qed.

Lemma wi_other b : b <> bn -> virtual st2 b = virtual st1 b.
Proof. intros Hb. rewrite wi_block. by rewrite fn_lookup_insert_ne. Qed.

Lemma wi_used b : 0 <= b < 1000 -> used mksb (virtual st1) b = true -> used mksb (virtual st2) b = true.
Proof. destruct wi_range as (_ & _ & Hbn). intros Hb. unfold used. destruct (mk_BBLOCK b Hb) as [-> _]. by rewrite wi_other by lia. Qed.

Lemma wi_dinode j : 0 <= j < 208 -> dinode_at (virtual st2) j = if decide (j = inum) then di else dinode_at (virtual st1) j.
Proof.
  intros Hj. destruct wi_range as (_ & Hin & Hbn). pose proof (hf_di _ _ _ _ Hf) as Hdi.
  unfold dinode_at at 1. rewrite wi_block. fold (dinode_at (<[bn := enc_dinode (virtual st1 bn) (dinode_off inum) di]> (virtual st1)) j).
  assert (block_ok (virtual st1 bn)) by (rewrite virtual_at by lia; apply Hok1; lia). case_decide; [subst j; by apply dinode_at_same|by apply dinode_at_other].
Qed.

Lemma wi_meta b : 0 <= b < 45 -> virtual st1 b = virtual st b.
Proof.
  pose proof (ok_free _ (io_ok _ _ _ H)) as Hfr. intros Hb. apply Hkeep; [by left|unfold virtual; rewrite used_virtual by lia; apply Z.ltb_lt; lia|].
  apply meta_block; [|done]. apply (io_files _ _ _ H _ _ _ Hk).
Qed.

Section Other.
Context (j : nat) (Hj : (j < length F)%nat) (Hjk : j <> k).

Lemma wi_dinode_other : dinode_at (virtual st2) (1 + Z.of_nat j) = dinode_at (virtual st) (1 + Z.of_nat j).
Proof.
  destruct wi_range as (Hr & _). rewrite wi_dinode by lia. rewrite decide_False by (unfold inum; lia). unfold dinode_at. rewrite wi_meta; [done|].
  pose proof (mk_IBLOCK (1 + Z.of_nat j)). lia.
Qed.

Lemma wi_owned_block b : owned_by (virtual st) (1 + Z.of_nat j) b -> virtual st2 b = virtual st b.
Proof.
  intros Hb. destruct (owned_used _ _ _ _ _ H Hj Hb) as [Hd Hub]. pose proof (mk_data _ _ (io_ok _ _ _ H) Hd Hub).
  destruct wi_range as (Hr & _ & Hbn). rewrite wi_other by lia.
  apply Hkeep; [by right|done|]. intros Hb'. by apply (io_disj _ _ _ H j k b Hj (proj1 Hr) Hjk Hb).
Qed.

Lemma wi_owned_other b : owned_by (virtual st2) (1 + Z.of_nat j) b <-> owned_by (virtual st) (1 + Z.of_nat j) b.
Proof. unfold owned_by at 1. rewrite wi_dinode_other. apply frame_owns. intros b' Hb'. by apply wi_owned_block. Qed.
End Other.

Lemma wi_own_block b : owns (virtual st1) (d_addrs di) b -> virtual st2 b = virtual st1 b.
Proof.
  destruct wi_range as (_ & _ & Hbn). intros Hb. apply wi_other. intros ->. by apply (meta_block _ _ bn (hf_file _ _ _ _ Hf) ltac:(lia) Hb).
Qed.

Lemma wi_owned b : owned_by (virtual st2) inum b -> owned_by (virtual st) inum b \/ used mksb (virtual st) b = false.
Proof.
  destruct wi_range as (_ & Hin & _). intros Hb. unfold owned_by in Hb. rewrite wi_dinode, decide_True in Hb by (done || lia).
  apply Hown. exact (proj1 (frame_owns (virtual st1) (virtual st2) _ wi_own_block b) Hb).
Qed.

Lemma img_ok_winode : img_ok n' (<[k := (t', d')]> F) st2.
Proof.
  destruct wi_range as (Hr & Hin & Hbn). pose proof (ok_free _ Hok1) as Hfr1. constructor.
  - apply ok_set_img; [done|lia|lia|apply enc_block_ok; [apply Hok1; lia|apply Hf]].
  - done.
  - rewrite length_insert. lia.
  - intros j t0 d0 Hj. destruct (decide (j = k)) as [->|Hjk].
    + rewrite list_lookup_insert_eq in Hj by lia. injection Hj as <- <-. rewrite wi_dinode by lia. rewrite decide_True by done.
      eapply has_file_frame; [done|apply wi_own_block|apply wi_used].
    + rewrite list_lookup_insert_ne in Hj by done. pose proof (lookup_lt_Some _ _ _ Hj). rewrite wi_dinode_other by done.
      eapply has_file_frame; [by apply (io_files _ _ _ H)|intros b Hb; by apply (wi_owned_block j)|]. intros b Hb Hub. apply wi_used; auto.
  - rewrite length_insert. intros i j b Hi Hj Hij Hbi Hbj. destruct (decide (i = k)) as [->|Hik], (decide (j = k)) as [->|Hjk]; [done| | |].
    + apply (proj1 (wi_owned_other j Hj Hjk b)) in Hbj. destruct (wi_owned _ Hbi) as [Hb|Hb]; [exact (io_disj _ _ _ H k j b Hi Hj Hij Hb Hbj)|].
      destruct (owned_used _ _ _ _ _ H Hj Hbj). congruence.
    + apply (proj1 (wi_owned_other i Hi Hik b)) in Hbi. destruct (wi_owned _ Hbj) as [Hb|Hb]; [exact (io_disj _ _ _ H i k b Hi Hj Hij Hbi Hb)|].
      destruct (owned_used _ _ _ _ _ H Hi Hbi). congruence.
    + apply (proj1 (wi_owned_other j Hj Hjk b)) in Hbj. apply (proj1 (wi_owned_other i Hi Hik b)) in Hbi. exact (io_disj _ _ _ H i j b Hi Hj Hij Hbi Hbj).
  - rewrite <- virtual_at by done. rewrite wi_other by lia. rewrite wi_meta by lia. rewrite virtual_at by done. apply H.
  - intros b Hb. rewrite <- virtual_at, wi_other, wi_meta, virtual_at by lia. by apply (io_log _ _ _ H).
  - rewrite (total_insert F k (t, d) (t', d') Hk). unfold st2. cbn [set_img freeblock snd]. lia.
Qed.
End Winode.

Lemma xshort_small x : 0 <= x < 2 ^ 16 -> xshort x = x.
Proof. intros Hx. unfold xshort. rewrite le_val_le_bytes. by apply Z.mod_small. Qed.

Lemma rinode_run inum st : ok st -> 0 <= inum < 208 -> rinode inum st = Ok (dinode_at (virtual st) inum) st.
Proof.
  intros Hok Hi. destruct (mk_IBLOCK inum Hi) as [_ Hb]. unfold rinode. cbv zeta. unfold bind. rewrite rsect_run by (done || lia).
  unfold ret, dinode_at. by rewrite virtual_at by lia.
Qed.

Lemma winode_run inum di st : ok st -> 0 <= inum < 208 ->
  winode inum di st = Ok tt (set_img (IBLOCK inum mksb) (enc_dinode (fs_img st (IBLOCK inum mksb)) (dinode_off inum) di) st).
Proof.
  intros Hok Hi. destruct (mk_IBLOCK inum Hi) as [_ Hb]. unfold winode. cbv zeta. unfold bind. rewrite rsect_run by (done || lia). by rewrite wsect_run by (done || lia).
Qed.

(** The bytes of a file after an append. *)
Lemma append_bytes d p o : 0 <= o -> over (Z.of_nat (length d)) p (fun o => default 0 (d !! Z.to_nat o)) o = default 0 ((d ++ p) !! Z.to_nat o).
Proof.
  intros Ho. unfold over. case_decide as Hr.
  - rewrite lookup_app_r by lia. replace (Z.to_nat (o - Z.of_nat (length d))) with (Z.to_nat o - length d)%nat by lia.
    destruct (lookup_lt_is_Some_2 p (Z.to_nat o - length d)) as [x Hx]; [lia|]. by rewrite (list_lookup_total_correct _ _ _ Hx), Hx.
  - destruct (decide (o < Z.of_nat (length d))); [by rewrite lookup_app_l by lia|]. rewrite !lookup_ge_None_2; [done|rewrite length_app; lia|lia].
Qed.

Lemma iappend_spec n F st k t d p : img_ok n F st -> F !! k = Some (t, d) -> Forall is_byte p -> Z.of_nat (length p) < 2 ^ 63 ->
  wpc (iappend (1 + Z.of_nat k) p) (fun _ st' => img_ok n (<[k := (t, d ++ p)]> F) st') (fun _ _ => ~ fits (<[k := (t, d ++ p)]> F)) st.
Proof.
  intros H Hk Hp Hlen. pose proof (lookup_lt_Some _ _ _ Hk) as Hkl. pose proof (io_max _ _ _ H).
  pose proof (io_files _ _ _ H _ _ _ Hk) as [[T1 T2 T3 T4 T5 T6 T7] (Ht & Hma & Hmi & Hnl) [Hsz Hmax] FI Hmap Hby].
  set (inum := 1 + Z.of_nat k) in *. assert (0 <= inum < 208) as Hin by (unfold inum; lia).
  unfold iappend. apply wpc_bind. eapply wpc_run; [apply rinode_run; [apply H|done]|]. remember (dinode_at (virtual st) inum) as di eqn:Edi.
  rewrite xint_small by done. apply wpc_bind. change (MAXFILE * BSIZE) with 274432 in *.
  eapply wpc_mono; [apply append_loop; try done; [apply H|change (MAXFILE * BSIZE) with 274432; lia]| |].
  2:{ intros msg st' Hx [Hft Hfm]. rewrite (total_insert F k (t, d)) in Hft by done. cbn [snd] in Hft. rewrite length_app in Hft. rewrite Hsz in Hx. pose proof (io_cost _ _ _ H).
      apply (Forall_lookup_1 _ _ k (t, d ++ p)) in Hfm; [|by apply list_lookup_insert_eq]. cbn [snd] in Hfm. rewrite length_app in Hfm.
      rewrite Nat2Z.inj_add in Hft, Hfm. change (MAXFILE * BSIZE) with 274432 in *. destruct Hx; lia. }
  intros [off' din'] st1 (Hok1 & Hfi & Hfb & Hmax' & addrs' & E & Ha & Hw & Hmap'). injection E as -> ->. change (MAXFILE * BSIZE) with 274432 in *.
  rewrite xint_small by lia. eapply wpc_run; [by apply winode_run|]. cbn [with_addrs d_type d_major d_minor d_nlink d_addrs].
  eapply (img_ok_winode n n F st st1 k t d t (d ++ p)); unfold owned_by; fold inum; rewrite <- ?Edi; try done.
  - rewrite Hfi. apply H.
  - apply Hw.
  - apply Hw.
  - apply Hw.
  - constructor; cbn [d_size d_addrs d_type d_major d_minor d_nlink]; [| | |apply Hw|done|].
    + constructor; try done; [cbn; lia|apply Hw].
    + done.
    + rewrite length_app. change (MAXFILE * BSIZE) with 274432. lia.
    + intros o Ho. rewrite (wr_byte _ _ _ _ _ _ _ Hw) by done. rewrite Hsz. rewrite <- append_bytes by lia. apply over_ext. by apply Hby.
  - rewrite length_app, Nat2Z.inj_add. pose proof (io_cost _ _ _ H). rewrite Hsz in Hfb. lia.
Qed.

(** Taking an inode. *)
Lemma no_blocks_file c : file_ok mksb c (replicate 13 0).
Proof.
  assert (ind (replicate 13 0) = 0) as Ei by done. assert (forall bn, 0 <= bn < MAXFILE -> amap c (replicate 13 0) bn = 0) as Em.
  { intros bn Hb. unfold amap. rewrite Ei. cbn [Z.eqb]. destruct (Z.ltb_spec bn NDIRECT); [|done]. unfold NDIRECT in *. apply lookup_total_replicate_2. lia. }
  constructor; [done|by rewrite Ei|intros bn Hb H0; by rewrite Em in H0|intros bn bn' Hb Hb' H0; by rewrite Em in H0].
Qed.

Lemma no_blocks_owns c b : ~ owns c (replicate 13 0) b.
Proof.
  intros [H0 [Hb|(bn & Hb & E)]]; [done|]. unfold amap in E. change (ind (replicate 13 0)) with 0 in E. cbn [Z.eqb] in E.
  destruct (Z.ltb_spec bn NDIRECT); [|done]. unfold NDIRECT in *. rewrite lookup_total_replicate_2 in E by lia. done.
Qed.

Lemma new_file c t : 0 <= t < 2 ^ 15 -> has_file c (mk_dinode t 0 0 (if t =? 0 then 0 else 1) 0 (replicate 13 0)) t [].
Proof.
  intros Ht. constructor; cbn [d_type d_major d_minor d_nlink d_size d_addrs].
  - constructor; cbn [d_type d_major d_minor d_nlink d_size d_addrs]; try (split; lia); [destruct (t =? 0); split; lia|]. by apply Forall_replicate.
  - done.
  - change (MAXFILE * BSIZE) with 274432. split; [done|lia].
  - apply no_blocks_file.
  - intros bn Hb Hs. unfold BSIZE in *. lia.
  - intros o Ho. unfold fbyte, amap. change (ind (replicate 13 0)) with 0. cbn [Z.eqb]. destruct (Z.ltb_spec (o / BSIZE) NDIRECT) as [Hlt|]; [|done].
    rewrite lookup_total_replicate_2; [done|]. unfold NDIRECT, BSIZE in *. dlia.
Qed.

Lemma ialloc_spec n F st t : img_ok n F st -> F !! n = Some (0, []) -> 0 < t < 2 ^ 15 -> (n < 207)%nat ->
  wp (ialloc t) (fun r st' => r = 1 + Z.of_nat n /\ img_ok (S n) (<[n := (t, [])]> F) st') st.
Proof.
  intros H Hn Ht Hlt. unfold ialloc. apply wp_bind, wp_gets, wp_bind, wp_modify. rewrite (io_ino _ _ _ H), u32_small by lia.
  rewrite (xshort_small t) by lia. change (xshort 1) with 1. change (xint 0) with 0. set (st1 := mk_mkst _ _ _ _).
  assert (ok st1) as Hok1 by (destruct (io_ok _ _ _ H); by constructor). apply wp_bind. unfold wp at 1. rewrite winode_run by (done || lia). split; [done|].
  pose proof (new_file (virtual st1) t ltac:(lia)) as Hf. rewrite (proj2 (Z.eqb_neq t 0)) in Hf by lia.
  eapply (img_ok_winode n (S n) F st st1 n 0 [] t []); try done.
  - cbn. lia.
  - intros b Hb. by apply no_blocks_owns in Hb.
  - pose proof (io_cost _ _ _ H). cbn. lia.
Qed.

(** ** The whole image *)

Lemma appends_spec n F st k t d pieces : img_ok n F st -> F !! k = Some (t, d) -> Forall (fun p => Forall is_byte p /\ Z.of_nat (length p) < 2 ^ 63) pieces ->
  wpc (for_all pieces (iappend (1 + Z.of_nat k))) (fun _ st' => img_ok n (<[k := (t, d ++ concat pieces)]> F) st')
    (fun _ _ => ~ fits (<[k := (t, d ++ concat pieces)]> F)) st.
Proof.
  intros H Hk Hp. revert F st d H Hk. induction Hp as [|p pieces [Hb Hl] _ IH]; intros F st d H Hk; cbn [for_all concat].
  - apply wpc_wp, wp_ret. by rewrite app_nil_r, list_insert_id.
  - pose proof (lookup_lt_Some _ _ _ Hk) as Hkl. apply wpc_bind. eapply wpc_mono; [by apply (iappend_spec n F st k t d p)| |].
    + intros [] st1 H1. specialize (IH _ st1 (d ++ p) H1 ltac:(by apply list_lookup_insert_eq)).
      by rewrite list_insert_insert_eq, <- (assoc_L (++)) in IH.
    + intros ? ? Hx Hfit. apply Hx. refine (fits_larger _ _ _ Hfit). apply Forall2_insert; [apply larger_refl|]. cbn. rewrite !length_app. lia.
Qed.

(** A host file that [mkfs] accepts. *)
Definition host_ok (f : host_file) : Prop :=
  exists name pieces, shortname f.1 = Some name /\ f.2 = Some pieces /\ Forall is_byte name /\
    Forall (fun p => Forall is_byte p /\ Z.of_nat (length p) < 2 ^ 63) pieces.

Definition entry (inum : Z) (f : host_file) : list Z := mkde inum (strncpy_bytes (default [] (shortname f.1)) DIRSIZ).
Definition content (f : host_file) : list Z := concat (default [] f.2).

(** The directory entries of the files, from inode [inum]. *)
Fixpoint entries (inum : Z) (files : list host_file) : list (list Z) :=
  match files with
  | [] => []
  | f :: files' => entry inum f :: entries (inum + 1) files'
  end.

Lemma mkde_ok inum s : Forall is_byte s -> Forall is_byte (mkde inum s) /\ length (mkde inum s) = (2 + length s)%nat.
Proof. intros Hs. unfold mkde. rewrite length_app, length_le_bytes. split; [apply Forall_app; split; [apply le_bytes_is_byte|done]|done]. Qed.

Lemma entry_ok inum f : host_ok f -> Forall is_byte (entry inum f) /\ length (entry inum f) = 16%nat.
Proof.
  intros (name & pieces & E & _ & Hn & _). unfold entry. rewrite E. cbn [from_option id]. destruct (mkde_ok inum (strncpy_bytes name DIRSIZ)) as [H1 H2]; [by apply strncpy_bytes_byte|].
  rewrite length_strncpy_bytes in H2. by split.
Qed.

(** The files after those of [pre]: the root directory first, [m] inodes free. *)
Definition disk (rd : list Z) (pre : list (Z * list Z)) (m : nat) : list (Z * list Z) := (T_DIR, rd) :: pre ++ replicate m (0, []).

Lemma disk_insert rd rd' pre m f : <[S (length pre) := f]> (<[O := (T_DIR, rd')]> (disk rd pre (S m))) = disk rd' (pre ++ [f]) m.
Proof.
  unfold disk. cbn [replicate]. change (<[O := (T_DIR, rd')]> ((T_DIR, rd) :: ?l)) with ((T_DIR, rd') :: l).
  change (<[S ?k := f]> ((T_DIR, rd') :: ?l)) with ((T_DIR, rd') :: <[k := f]> l). f_equal. rewrite <- (Nat.add_0_r (length pre)), insert_app_r. by rewrite <- (assoc_L (++)).
Qed.

Lemma disk_larger rd rd' pre L m : (length rd <= length rd')%nat -> larger (disk rd pre (length L + m)) (disk rd' (pre ++ L) m).
Proof.
  intros Hl. unfold disk. constructor; [done|]. rewrite <- (assoc_L (++)). apply Forall2_app; [apply larger_refl|]. rewrite replicate_add.
  apply Forall2_app; [|apply larger_refl]. clear. induction L; cbn; constructor; [cbn; lia|done].
Qed.

Lemma add_file_spec rd pre m st f : let n := S (length pre) in img_ok n (disk rd pre (S m)) st -> host_ok f ->
  let F := disk (rd ++ entry (1 + Z.of_nat n) f) (pre ++ [(T_FILE, content f)]) m in
  wpc (add_file 1 f) (fun _ st' => img_ok (S n) F st') (fun _ _ => ~ fits F) st.
Proof.
  intros n H Hf F. set (F0 := disk rd pre (S m)) in *. assert (F0 !! O = Some (T_DIR, rd)) as H0 by done.
  assert (F0 !! n = Some (0, [])) as Hn by (change ((pre ++ replicate (S m) (0, [])) !! length pre = Some (0, [])); by rewrite lookup_app_r, Nat.sub_diag by lia).
  pose proof (lookup_lt_Some _ _ _ Hn) as Hnl. pose proof (io_max _ _ _ H) as Hmax. assert (0 < n)%nat as Hpos by (unfold n; lia).
  pose proof Hf as (name & pieces & E1 & E2 & Hname & Hp). destruct f as [arg c]. cbn [fst snd] in *. subst c. unfold add_file. rewrite E1.
  assert (F = <[n := (T_FILE, concat pieces)]> (<[O := (T_DIR, rd ++ entry (1 + Z.of_nat n) (arg, Some pieces))]> F0)) as EF by (symmetry; apply disk_insert).
  apply wpc_bind, wpc_wp. eapply wp_mono; [apply (ialloc_spec n F0 st T_FILE H Hn); [unfold T_FILE; lia|lia]|]. intros inum st1 [-> H1].
  apply wpc_bind. destruct (entry_ok (1 + Z.of_nat n) _ Hf) as [He1 He2]. set (e := entry _ _) in *.
  replace (mkde _ _) with e by (unfold e, entry; cbn [fst]; rewrite E1; done).
  eapply wpc_mono; [apply (iappend_spec (S n) _ st1 0 T_DIR rd e H1); [by rewrite list_lookup_insert_ne by lia|done|rewrite He2; lia]| |].
  - intros [] st2 H2. eapply wpc_mono; [apply (appends_spec (S n) _ st2 n T_FILE [] pieces H2); [|done]| |]; rewrite ?(list_insert_insert_ne _ 0 n), ?list_insert_insert_eq by lia; cbn [app].
    + apply list_lookup_insert_eq. by rewrite length_insert.
    + intros [] st3. by rewrite EF.
    + intros ? ?. by rewrite EF.
  - intros ? ? Hx Hfit. apply Hx. refine (fits_larger _ _ _ Hfit). rewrite EF, (list_insert_insert_ne _ 0 n) by lia. apply Forall2_insert; [apply larger_refl|cbn; lia].
Qed.

Lemma add_files_spec files : forall rd pre m st, let n := S (length pre) in img_ok n (disk rd pre (length files + m)) st -> Forall host_ok files ->
  let F := disk (rd ++ concat (entries (1 + Z.of_nat n) files)) (pre ++ ((fun f => (T_FILE, content f)) <$> files)) m in
  wpc (for_all files (add_file 1)) (fun _ st' => img_ok (n + length files) F st') (fun _ _ => ~ fits F) st.
Proof.
  induction files as [|f files IH]; intros rd pre m st n H Hok F; cbn [for_all length entries concat fmap list_fmap] in *.
  - apply wpc_wp, wp_ret. unfold F. by rewrite Nat.add_0_r, !app_nil_r.
  - apply Forall_cons in Hok as [Hf Hok]. apply wpc_bind. set (rd1 := rd ++ entry (1 + Z.of_nat n) f). set (pre1 := pre ++ [(T_FILE, content f)]).
    assert (length pre1 = n) as Hl by (unfold pre1, n; rewrite length_app; cbn; lia).
    assert (F = disk (rd1 ++ concat (entries (1 + Z.of_nat (S (length pre1))) files)) (pre1 ++ ((fun f => (T_FILE, content f)) <$> files)) m) as EF.
    { unfold F, rd1, pre1. rewrite <- !(assoc_L (++)). fold pre1. rewrite Hl. do 4 f_equal. f_equal. lia. }
    eapply wpc_mono; [apply (add_file_spec rd pre _ st f H Hf)| |].
    + intros [] st1 H1. fold n rd1 pre1 in H1. rewrite <- Hl in H1. specialize (IH rd1 pre1 m st1 H1 Hok). cbn zeta in IH. rewrite <- EF, Hl in IH.
      by replace (n + S (length files))%nat with (S n + length files)%nat by lia.
    + intros ? ? Hx Hfit. apply Hx. refine (fits_larger _ _ _ Hfit). rewrite EF, <- (length_fmap (fun f => (T_FILE, content f)) files).
      apply disk_larger. fold n rd1. rewrite (length_app rd1). lia.
Qed.

(** *** The empty image *)

Lemma zero_loop a k st : exists st', for_all (seq a k) (fun i => wsect (Z.of_nat i) zero_block) st = Ok tt st' /\
  img_len st' = Z.max (img_len st) (if k is O then img_len st else Z.of_nat (a + k)) /\ freeinode st' = freeinode st /\ freeblock st' = freeblock st /\
  forall b, fs_img st' b = if decide (Z.of_nat a <= b < Z.of_nat (a + k)) then zero_block else fs_img st b.
Proof.
  revert a st. induction k as [|k IH]; intros a st; cbn [seq for_all].
  - exists st. split_and!; [done|lia|done|done|]. intros b. by rewrite decide_False by lia.
  - unfold bind, wsect at 1, modify. edestruct (IH (S a)) as (st' & E & H1 & H2 & H3 & H4). rewrite E. exists st'. cbn in H1, H2, H3.
    split_and!; [done| |done|done|].
    + rewrite H1. destruct k; lia.
    + intros b. rewrite H4. cbn [fs_img]. destruct (decide (b = Z.of_nat a)) as [->|Hb].
      * rewrite decide_False, decide_True, fn_lookup_insert by lia. done.
      * rewrite fn_lookup_insert_ne by done. repeat case_decide; done || lia.
Qed.

Lemma free_dinode c inum : c (IBLOCK inum mksb) = zeros -> dinode_at c inum = mk_dinode 0 0 0 0 0 (replicate 13 0).
Proof. intros E. unfold dinode_at. rewrite E. unfold dec_dinode. rewrite !get_le_zeros. cbn [seq fmap list_fmap]. by rewrite !get_le_zeros. Qed.

Lemma sb_block_ok : block_ok (splice zero_block 0 (sb_bytes mksb)).
Proof. split; [by vm_compute|]. apply (bool_decide_unpack _). by vm_compute. Qed.

Lemma empty_image st : img_len st = 1000 -> freeinode st = 1 -> freeblock st = 46 -> (forall b, 0 <= b < 1000 -> fs_img st b = zero_block) ->
  img_ok 0 (replicate 207 (0, [])) (set_img 1 (splice zero_block 0 (sb_bytes mksb)) st).
Proof.
  intros Hl Hi Hf Hz. set (st1 := set_img _ _ st).
  assert (forall b, 0 <= b < 1000 -> b <> 1 -> fs_img st1 b = zeros) as Hz1.
  { intros b Hb H1. unfold st1, set_img. cbn. rewrite fn_lookup_insert_ne by done. by apply Hz. }
  assert (forall k, (k < 207)%nat -> dinode_at (virtual st1) (1 + Z.of_nat k) = mk_dinode 0 0 0 0 0 (replicate 13 0)) as Hd.
  { intros k Hk. destruct (mk_IBLOCK (1 + Z.of_nat k)) as [_ Hb]; [lia|]. apply free_dinode. rewrite virtual_at by lia. apply Hz1; lia. }
  constructor.
  - constructor; [done|cbn; lia| |].
    + intros b Hb _. destruct (decide (b = 1)) as [->|]; [|rewrite Hz1 by done; apply zeros_ok].
      unfold st1, set_img. cbn. rewrite fn_lookup_insert. apply sb_block_ok.
    + cbn. intros b Hb. apply Hz1; lia.
  - done.
  - by rewrite length_replicate.
  - intros k t d Hk. apply lookup_replicate in Hk as [[= -> ->] Hk]. rewrite Hd by lia. by apply (new_file _ 0).
  - rewrite length_replicate. intros i j b Hi' Hj _ Ho. unfold owned_by in Ho. rewrite Hd in Ho by lia. by apply no_blocks_owns in Ho.
  - unfold st1, set_img. cbn. by rewrite fn_lookup_insert.
  - intros b Hb. apply Hz1; lia.
  - assert (total (replicate 207 (0, [])) = 0) as -> by (by vm_compute). cbn. lia.
Qed.

(** *** The root directory *)

(** The inode [ilock] reads. *)
Definition loaded (inum : Z) (di : dinode) : inode :=
  mk_inode ROOTDEV inum 1 (mk_sleeplock 0 0) 1 (d_type di) (d_major di) (d_minor di) (d_nlink di) (d_size di) (d_addrs di).

Lemma has_file_pad c di t d k : has_file c di t d -> Z.of_nat (length d) + Z.of_nat k <= MAXFILE * BSIZE ->
  (forall bn, bn * BSIZE < Z.of_nat (length d) + Z.of_nat k -> bn * BSIZE < Z.of_nat (length d)) ->
  has_file c (mk_dinode (d_type di) (d_major di) (d_minor di) (d_nlink di) (Z.of_nat (length d) + Z.of_nat k) (d_addrs di)) t (d ++ replicate k 0).
Proof.
  intros [[T1 T2 T3 T4 T5 T6 T7] H2 [H3 H3'] H4 H5 H6] Hmax Hbn. change (MAXFILE * BSIZE) with 274432 in *.
  constructor; cbn [d_type d_major d_minor d_nlink d_size d_addrs]; try done.
  - constructor; try done. cbn. lia.
  - rewrite length_app, length_replicate. change (MAXFILE * BSIZE) with 274432. lia.
  - intros bn Hb Hs. apply H5; [done|]. rewrite H3. by apply Hbn.
  - intros o Ho. rewrite H6 by done. destruct (decide (o < Z.of_nat (length d))); [by rewrite lookup_app_l by lia|].
    rewrite lookup_ge_None_2, lookup_app_r by lia. destruct (replicate k 0 !! _) eqn:E; [|done]. by apply lookup_replicate in E as [-> _].
Qed.

Lemma length_concat_same {A} k (l : list (list A)) : Forall (fun e => length e = k) l -> length (concat l) = (k * length l)%nat.
Proof. induction 1 as [|e l He _ IH]; [by rewrite Nat.mul_0_r|]. cbn [concat length]. rewrite length_app, IH. lia. Qed.

(** A file of whole entries is a directory with these entries. *)
Lemma dents_concat c inum di t es : has_file c di t (concat es) -> Forall (fun e => length e = 16%nat) es -> dents c (loaded inum di) = es.
Proof.
  intros Hf Hes. destruct (hf_size _ _ _ _ Hf) as [Hs Hm]. assert (length (concat es) = 16 * length es)%nat as Hl.
  { by apply (length_concat_same 16). }
  assert (d_size di / 16 = Z.of_nat (length es)) as Hd by dlia.
  apply list_eq. intros k. destruct (decide (k < length es)%nat) as [Hk|Hk].
  2:{ rewrite !lookup_ge_None_2; [done|lia|]. rewrite length_dents. cbn [loaded i_size]. lia. }
  rewrite lookup_dents by (cbn [loaded i_size]; lia). destruct (lookup_lt_is_Some_2 es k Hk) as [e He]. rewrite He. f_equal.
  pose proof (Forall_lookup_1 _ _ _ _ Hes He) as Hle. cbn beta in Hle. apply list_eq. intros i.
  destruct (decide (i < 16)%nat) as [Hi|Hi]; [|rewrite !lookup_ge_None_2; [done|lia|rewrite length_dent; lia]].
  unfold dent. rewrite lookup_fread by done. cbn [loaded i_addrs]. rewrite (hf_bytes _ _ _ _ Hf) by lia.
  assert (concat es !! (16 * k + i)%nat = e !! i) as E.
  { clear -Hes He Hi. revert k He. induction Hes as [|e0 es He0 _ IH]; intros [|k] He; [done|done| |].
    - injection He as ->. cbn [concat]. rewrite lookup_app_l by lia. by f_equal.
    - cbn [concat]. rewrite lookup_app_r by lia. rewrite He0. replace (16 * S k + i - 16)%nat with (16 * k + i)%nat by lia. by apply IH. }
  replace (Z.to_nat (16 * Z.of_nat k + Z.of_nat i)) with (16 * k + i)%nat by lia. rewrite E.
  destruct (lookup_lt_is_Some_2 e i) as [x Hx]; [lia|]. by rewrite Hx.
Qed.

Definition dot : list Z := mkde ROOTINO (str "." ++ replicate 13 0).
Definition dotdot : list Z := mkde ROOTINO (str ".." ++ replicate 12 0).

(** What the kernel finds on the image. *)
Definition root_entries (files : list host_file) : list (list Z) :=
  dot :: dotdot :: entries 2 files.

Record image (files : list host_file) (c : Z -> list Z) : Prop := {
  im_sb : dec_superblock (c 1) = mksb;
  im_log : forall b, sb_logstart mksb <= b < sb_inodestart mksb -> c b = zeros;
  im_fs : fs_ok mksb c;
  im_root : let x := loaded ROOTINO (dinode_at c ROOTINO) in
    dir_ok c x /\ file_ok mksb c (i_addrs x) /\ i_nlink x = 1 /\ exists k, dents c x = root_entries files ++ replicate k (replicate 16 0);
  im_files : forall i f, files !! i = Some f -> has_file c (dinode_at c (2 + Z.of_nat i)) T_FILE (content f);
  im_free : forall inum, 2 + Z.of_nat (length files) <= inum < sb_ninodes mksb -> d_type (dinode_at c inum) = 0;
  im_disjoint : forall i j b, 0 < i < sb_ninodes mksb -> 0 < j < sb_ninodes mksb -> i <> j -> owned_by c i b -> ~ owned_by c j b;
}.

Lemma concat_zeros k : concat (replicate k (replicate 16 0)) = replicate (16 * k) 0.
Proof. induction k as [|k IH]; [done|]. change (replicate (S k) (replicate 16 0)) with (replicate 16 0 :: replicate k (replicate 16 0)). cbn [concat]. rewrite IH, <- replicate_add. f_equal. lia. Qed.

Lemma length_entries inum files : length (entries inum files) = length files.
Proof. revert inum. induction files as [|f files IH]; intros inum; cbn; [done|]. by rewrite IH. Qed.

Lemma root_entries_ok files : Forall host_ok files ->
  Forall (fun e => length e = 16%nat) (root_entries files) /\ length (concat (root_entries files)) = (16 * (2 + length files))%nat.
Proof.
  intros Hok. assert (forall inum, Forall (fun e => length e = 16%nat) (entries inum files)) as He.
  { induction Hok as [|f files Hf _ IH]; intros inum; cbn; constructor; [by apply entry_ok|apply IH]. }
  assert (Forall (fun e => length e = 16%nat) (root_entries files)) as Hr by (repeat constructor; apply He). split; [done|].
  rewrite (length_concat_same 16) by done. unfold root_entries. cbn [length]. by rewrite length_entries.
Qed.

(** The files fit on the disk: each within the largest file, all of them and
    the root directory in the blocks after the metadata. *)
Definition files_fit (files : list host_file) : Prop :=
  nmeta + cost (16 * (2 + Z.of_nat (length files))) + foldr (fun f s => cost (Z.of_nat (length (content f))) + s) 0 files <= FSSIZE /\
  Forall (fun f => Z.of_nat (length (content f)) <= MAXFILE * BSIZE) files.

Lemma total_files files m : total (((fun f => (T_FILE, content f)) <$> files) ++ replicate m (0, [])) = foldr (fun f s => cost (Z.of_nat (length (content f))) + s) 0 files.
Proof.
  induction files as [|f files IH].
  - change (total (replicate m (0, [])) = 0). induction m as [|m IH]; [done|]. change (cost 0 + total (replicate m (0, [])) = 0). by rewrite IH.
  - cbn [foldr]. by rewrite <- IH.
Qed.

Lemma files_fit_disk files m : Forall host_ok files -> (length files <= 198)%nat -> files_fit files ->
  fits (disk (concat (root_entries files)) ((fun f => (T_FILE, content f)) <$> files) m).
Proof.
  intros Hok Hn [Ht Hm]. destruct (root_entries_ok files Hok) as [_ Hl]. unfold disk. split.
  - change (total (?a :: ?l)) with (cost (Z.of_nat (length a.2)) + total l). rewrite total_files. cbn [snd]. rewrite Hl.
    change nmeta with 46 in Ht. change FSSIZE with 1000 in Ht. replace (Z.of_nat (16 * (2 + length files))) with (16 * (2 + Z.of_nat (length files))) by lia. lia.
  - change (MAXFILE * BSIZE) with 274432. constructor; [cbn [snd]; rewrite Hl; lia|]. apply Forall_app. split; [by apply Forall_fmap|].
    apply Forall_replicate. cbn. lia.
Qed.

(** The size of the root directory rounded up to a whole block. *)
Lemma round_root (sz : Z) : 0 < sz <= 3200 -> sz mod 16 = 0 -> sz mod BSIZE <> 0 ->
  let off := (sz / BSIZE + 1) * BSIZE in
  exists k : nat, off = sz + 16 * Z.of_nat k /\ off <= 4096 /\ (forall bn, bn * BSIZE < off -> bn * BSIZE < sz) /\ cost off = cost sz.
Proof.
  intros Hs H16 Hm off. unfold BSIZE in *. exists (Z.to_nat ((off - sz) / 16)). assert (sz < off /\ off <= 4096 /\ off mod 16 = 0) as (H1 & H2 & H3) by (unfold off; dlia).
  split_and!; [dlia|done|intros bn Hb; unfold off in *; dlia|]. unfold cost. change (NDIRECT * BSIZE) with 12288. unfold BSIZE.
  destruct (Z.ltb_spec 12288 off), (Z.ltb_spec 12288 sz); unfold off in *; dlia.
Qed.

Lemma finish_image files st : let m := (206 - length files)%nat in let rd := concat (root_entries files) in
  (length files <= 198)%nat -> (2 + Z.of_nat (length files)) mod 64 <> 0 -> Forall host_ok files ->
  img_ok (S (length files)) (disk rd ((fun f => (T_FILE, content f)) <$> files) m) st ->
  wp (din <- rinode ROOTINO ;;
      let off := (xint (d_size din) / BSIZE + 1) * BSIZE in
      winode ROOTINO (mk_dinode (d_type din) (d_major din) (d_minor din) (d_nlink din) (xint off) (d_addrs din)) ;;
      used <- gets freeblock ;;
      balloc used)
    (fun _ st' => exists st1 k, fs_img st' = virtual st1 /\ img_len st' = FSSIZE /\
       img_ok (S (length files)) (disk (concat (root_entries files ++ replicate k (replicate 16 0))) ((fun f => (T_FILE, content f)) <$> files) m) st1) st.
Proof.
  intros m rd Hn H64 Hok H. destruct (root_entries_ok files Hok) as [_ Hl]. fold rd in Hl. set (F := disk _ _ _) in H.
  assert (F !! O = Some (T_DIR, rd)) as H0 by done. pose proof (io_files _ _ _ H O _ _ H0) as Hf. change (1 + Z.of_nat 0) with ROOTINO in Hf.
  destruct (hf_size _ _ _ _ Hf) as [Hs _]. destruct (round_root (Z.of_nat (length rd))) as (k & Hoff & Hmax & Hbn & Hc); [lia|dlia|unfold BSIZE; dlia|].
  apply wp_bind. unfold wp at 1. rewrite rinode_run by (apply H || done). cbv zeta in *. rewrite Hs, (xint_small (Z.of_nat (length rd))) by lia. rewrite Hoff in *.
  rewrite (xint_small (_ + _)) by lia.
  apply wp_bind. unfold wp at 1. rewrite winode_run by (apply H || done). apply wp_bind, wp_gets. set (di := mk_dinode _ _ _ _ _ _).
  assert (img_ok (S (length files)) (<[O := (T_DIR, rd ++ replicate (16 * k) 0)]> F) (set_img (IBLOCK ROOTINO mksb) (enc_dinode (fs_img st (IBLOCK ROOTINO mksb)) (dinode_off ROOTINO) di) st)) as H1.
  { apply (img_ok_winode (S (length files)) _ F st st 0 T_DIR rd); try done; [apply H|apply H|by left| |].
    - unfold di. replace (16 * Z.of_nat k) with (Z.of_nat (16 * k)) by lia. apply has_file_pad; [done|change (MAXFILE * BSIZE) with 274432; lia|].
      intros bn Hb. apply Hbn. lia.
    - rewrite length_app, length_replicate, Nat2Z.inj_add, Nat2Z.inj_mul. change (Z.of_nat 16) with 16. rewrite Hc. pose proof (io_cost _ _ _ H). lia. }
  set (st1 := set_img _ _ st) in *. unfold wp, balloc, assert. pose proof (ok_free _ (io_ok _ _ _ H1)) as Hfr.
  rewrite (proj2 (Z.ltb_lt _ _)) by (change (BSIZE * 8) with 8192; lia). rewrite bind_ret. rewrite wsect_run by (apply H1 || done).
  exists st1, k. split_and!; [done|apply H1|]. rewrite concat_app, concat_zeros. exact H1.
Qed.

Lemma image_of files k st : let m := (206 - length files)%nat in (length files <= 198)%nat -> Forall host_ok files ->
  img_ok (S (length files)) (disk (concat (root_entries files ++ replicate k (replicate 16 0))) ((fun f => (T_FILE, content f)) <$> files) m) st ->
  image files (virtual st).
Proof.
  intros m Hn Hok H. set (F := disk _ _ _) in H. destruct (root_entries_ok files Hok) as [Hr _].
  assert (length F = 207%nat) as HF by (unfold F, disk; cbn [length]; rewrite length_app, length_fmap, length_replicate; lia).
  pose proof (io_files _ _ _ H O _ _ eq_refl) as Hf. change (1 + Z.of_nat 0) with ROOTINO in Hf. set (es := _ ++ _) in Hf.
  assert (Forall (fun e => length e = 16%nat) es) as He by (apply Forall_app; split; [done|by apply Forall_replicate]).
  pose proof (length_concat_same _ _ He) as Hle. destruct (hf_size _ _ _ _ Hf) as [Hs Hmax].
  constructor.
  - rewrite virtual_at, (io_sb _ _ _ H) by done. by vm_compute.
  - intros b Hb. change (sb_logstart mksb) with 2 in Hb. change (sb_inodestart mksb) with 32 in Hb. rewrite virtual_at by lia. by apply (io_log _ _ _ H).
  - apply ok_fs, H.
  - intros x. split_and!; [|apply Hf|apply (hf_type _ _ _ _ Hf)|exists k; by apply (dents_concat _ _ _ T_DIR)].
    constructor; cbn [x loaded i_type i_size i_addrs]; [apply Hf|lia|rewrite Hs, Hle; dlia|apply Hf].
  - intros i f Hi. replace (2 + Z.of_nat i) with (1 + Z.of_nat (S i)) by lia. apply (io_files _ _ _ H).
    change ((((fun f => (T_FILE, content f)) <$> files) ++ replicate m (0, [])) !! i = Some (T_FILE, content f)).
    rewrite lookup_app_l by (rewrite length_fmap; by eapply lookup_lt_Some). by rewrite list_lookup_fmap, Hi.
  - intros inum Hi. change (sb_ninodes mksb) with 200 in Hi. replace inum with (1 + Z.of_nat (S (Z.to_nat (inum - 2)))) by lia.
    apply (io_files _ _ _ H _ 0 []). change ((((fun f => (T_FILE, content f)) <$> files) ++ replicate m (0, [])) !! Z.to_nat (inum - 2) = Some (0, [])).
    rewrite lookup_app_r by (rewrite length_fmap; lia). rewrite length_fmap. apply lookup_replicate. split; [done|lia].
  - intros i j b Hi Hj Hij. change (sb_ninodes mksb) with 200 in *. replace i with (1 + Z.of_nat (Z.to_nat (i - 1))) by lia.
    replace j with (1 + Z.of_nat (Z.to_nat (j - 1))) by lia. apply (io_disj _ _ _ H); lia.
Qed.

Lemma start_image st : st = mk_mkst (fs_img mkst0) (img_len mkst0) (freeinode mkst0) nmeta ->
  wp (for_all (seq 0 (Z.to_nat FSSIZE)) (fun i => wsect (Z.of_nat i) zero_block) ;; wsect 1 (splice zero_block 0 (sb_bytes mksb)) ;; ialloc T_DIR)
    (fun r st' => r = ROOTINO /\ img_ok 1 (disk [] [] 206) st') st.
Proof.
  intros ->. edestruct (zero_loop 0 (Z.to_nat FSSIZE)) as (st' & E & H1 & H2 & H3 & H4). apply wp_bind. unfold wp at 1. rewrite E. clear E.
  cbn [freeblock freeinode img_len mkst0] in H1, H2, H3. change (img_len st' = 1000) in H1.
  apply wp_bind. unfold wp at 1, wsect, modify. rewrite H1. change (mk_mkst _ (Z.max 1000 (1 + 1)) _ _) with (mk_mkst (<[1 := splice zero_block 0 (sb_bytes mksb)]> (fs_img st')) 1000 (freeinode st') (freeblock st')).
  rewrite <- H1. eapply wp_mono; [apply (ialloc_spec 0 (replicate 207 (0, [])) (set_img 1 (splice zero_block 0 (sb_bytes mksb)) st') T_DIR); [|done|done|lia]|].
  - apply empty_image; [done|done|done|]. intros b Hb. rewrite H4. rewrite decide_True; [done|]. change (Z.of_nat (0 + Z.to_nat FSSIZE)) with 1000. lia.
  - intros r st2 [-> H]. split; [done|]. exact H.
Qed.

Lemma wpc_start {A B D R} (a : M mkst A) (b : M mkst B) (d : M mkst D) (f : D -> M mkst R) P Q C st :
  wp (a ;; b ;; d) P st -> (forall r st', P r st' -> wpc (f r) Q C st') -> wpc (a ;; b ;; x <- d ;; f x) Q C st.
Proof. unfold wp, wpc, bind. intros H Hf. destruct (a st) as [? st1| | |]; [|done..]. destruct (b st1) as [? st2| | |]; [|done..]. destruct (d st2); [by apply Hf|done..]. Qed.

(** C8: run on an empty image file with at most 198 host files that can be
    opened and have names without slashes, [mkfs] makes a file system: the superblock on it is the one of the layout, the log is
    empty, the bitmap marks the metadata and every block of a file, no two
    inodes share a block, the root directory is well formed and lists [.], [..]
    and the files in order with their inode numbers, each of these inodes holds
    exactly the bytes of its host file, and the other inodes are free.  It
    fails only if the files need more blocks than the disk has or one of them
    is larger than a file can be.  The number of entries must not fill the
    last block of the directory. *)
Theorem mkfs_image_valid files : (length files <= 198)%nat -> (2 + Z.of_nat (length files)) mod 64 <> 0 -> Forall host_ok files ->
  wpc (mkfs_main files) (fun _ st => img_len st = FSSIZE /\ image files (fs_img st)) (fun _ _ => ~ files_fit files) mkst0.
Proof.
  intros Hn H64 Hok. set (m := (206 - length files)%nat). set (L := (fun f => (T_FILE, content f)) <$> files).
  destruct (root_entries_ok files Hok) as [_ Hl]. assert (206 = length L + m)%nat as Hm by (unfold L, m; rewrite length_fmap; lia).
  assert (forall rd F, F = disk rd [] 206 -> (length rd <= 32)%nat -> forall (msg : string) (st : mkst), ~ fits F -> ~ files_fit files) as HC.
  { intros rd F -> Hrd _ _ Hx Hfit. apply Hx. apply (fits_larger _ (disk (concat (root_entries files)) L m)); [|by apply files_fit_disk].
    rewrite Hm. apply (disk_larger _ _ []). lia. }
  unfold mkfs_main. apply wpc_bind, wpc_wp, wp_modify. eapply wpc_start; [by apply start_image|]. cbn beta. intros r st1 [-> H1].
  apply wpc_bind, wpc_wp, wp_ret. apply wpc_bind.
  eapply wpc_mono; [apply (iappend_spec 1 _ st1 0 T_DIR [] _ H1); [done|apply mkde_ok, (bool_decide_unpack _); by vm_compute|by vm_compute]| |apply (HC dot); [done|apply Nat.leb_le; by vm_compute]].
  intros [] st2 H2. apply wpc_bind.
  eapply wpc_mono; [apply (iappend_spec 1 _ st2 0 T_DIR dot _ H2); [done|apply mkde_ok, (bool_decide_unpack _); by vm_compute|by vm_compute]| |apply (HC (dot ++ dotdot)); [done|apply Nat.leb_le; by vm_compute]].
  intros [] st3 H3. apply wpc_bind.
  eapply wpc_mono; [apply (add_files_spec files (dot ++ dotdot) [] m st3); [|done]| |].
  - unfold L in Hm. rewrite length_fmap in Hm. rewrite <- Hm. exact H3.
  - intros [] st4 H4. apply wpc_wp. eapply wp_mono; [apply finish_image; [done|done|done|]|].
    + unfold root_entries. cbn [concat]. rewrite (assoc_L (++)). exact H4.
    + intros [] st' (st5 & k & -> & Hlen & H5). split; [done|]. by apply (image_of files k).
  - intros ? ? Hx Hfit. apply Hx. unfold root_entries in *. pose proof (files_fit_disk files m Hok Hn Hfit) as Hd. unfold root_entries in Hd.
    cbn [concat] in Hd. rewrite (assoc_L (++)) in Hd. exact Hd.
Qed.

Module MkfsDemo.

(** Two host files: a program under user/ and one with a plain name. *)
Definition demo : list host_file := [(str "user/_cat", Some [str "text"; str "more"]); (str "README", Some [])].

Lemma mkfs_image_valid_witness : files_fit demo /\
  wpc (mkfs_main demo) (fun _ st => img_len st = FSSIZE /\ image demo (fs_img st)) (fun _ _ => ~ files_fit demo) mkst0.
Proof.
  split.
  - split; [by vm_compute|]. repeat constructor; by vm_compute.
  - apply (mkfs_image_valid demo); [cbn; lia|by vm_compute|].
    repeat constructor; [exists (str "cat"), [str "text"; str "more"]|exists (str "README"), []];
      (split_and!; [done|done|apply (bool_decide_unpack _); by vm_compute|]); repeat constructor; (apply (bool_decide_unpack _) || idtac); by vm_compute.
Defined.
End MkfsDemo.
